(* ===== verification/_CoqProject ===== *)
-Q . S2P
Prelude.v
Outcome.v
Common.v
Crypto.v
OMap.v
Tlv.v
NetworkData.v
CoapMessage.v
Dataset.v
DatasetCodec.v
Coap.v
CoapInvariant.v
CoapScript.v
Commissioner.v
CommissionerInvariant.v
CommissionerHandlers.v
CommissionerControl.v
CommissionerWalk.v
ResponseFacts.v
CommissionerTyped.v
CommissionerSigned.v
CommissionerScript.v
Safe.v
SafeFacts.v
SafeTyped.v
SafeScript.v
Proxy.v
ProxyFacts.v
ProxyScript.v
Dtls.v
DtlsFacts.v
DtlsRefinement.v
DtlsScript.v
Socket.v
SocketFacts.v
SocketScript.v
Cose.v
CoseFacts.v
TokenManager.v
TokenManagerFacts.v
Ccm.v
CcmFacts.v
CcmScript.v
CommissionerApp.v
CommissionerAppFacts.v
CommissionerAppScript.v
Joiner.v
JoinerFacts.v
Commissioning.v
JoinerScript.v
BorderAgent.v
BorderAgentFacts.v
BorderAgentScript.v
CliText.v
CliTextFacts.v
Json.v
JsonFacts.v
JsonScript.v
Interpreter.v
InterpreterFacts.v
InterpreterScript.v
