(* ===== verification/Prelude.v ===== *)
(** * OpenThread Commissioner: a verification library

    A model of the C++ sources of the OpenThread Commissioner ([src/library],
    [src/common], [src/app], [include/commissioner]) with theorems about it.
    The names of the definitions are those of the code; a reader can hold a
    definition next to the function of the same name.  Paths in this header
    are relative to [src/] of the repository.

    ** The program

    A commissioner lets new devices (joiners) into a Thread network.
    [CommissionerImpl] ([library/commissioner_impl.cpp]) petitions the border
    agent over CoAP ([library/coap.cpp]) on a DTLS session
    ([library/dtls.cpp], mbedtls underneath), keeps the session alive, manages
    the datasets of the network, partly through a proxy that tunnels CoAP over
    the border agent ([library/udp_proxy.cpp]), and serves one DTLS session per
    joiner whose records the border agent relays
    ([library/joiner_session.cpp]).  [CommissionerApp]
    ([app/commissioner_app.cpp]) keeps the joiners that are enabled and copies
    of the datasets, and decides who may join.  The command line
    ([app/cli/interpreter.cpp]) drives the application with the words of a line,
    reads and prints datasets as JSON ([app/json.cpp]), and looks for border
    agents over mDNS ([app/border_agent.cpp]).  In a commercial network the
    commissioner signs what it sends with a token that it gets from a registrar
    ([library/token_manager.cpp], over COSE and CBOR).

    ** How the code is modelled

    - Machine integers are [Z] with their wrap-around written out ([u8], [u16],
      ...); bytes are [Z] in 0..255 ([bytes] says so of a list); strings are
      lists of bytes.
    - A call returns an [outcome] ([Outcome]): [Ok] with its results, [Err] with
      an error code, [Die] for the end of the process (failed assertions,
      [abort], reads outside of a buffer: a range of a buffer that the code reads
      behind a check of its own is read by [Outcome.rds], which is [Die] outside
      of it, so that the check is needed).  Loops that are not structural run on
      fuel, and running out of fuel is [Die] too: a theorem that a function does
      not return [Die] therefore also says that it ends with the fuel that its
      definition gives it (the length of the buffer for parsers, the number of
      pending requests for the loops over them).
    - An object is a Record and each method a function on it.  Calls of the
      user's handlers, and what is sent, are recorded in a trace or a list of
      outputs; handlers that may call back are either finite lists of calls
      chosen from the arguments ([CoapScript], [DtlsFacts]) or assumed to do
      nothing, which their file says.
    - The event loop is not modelled; a run is any sequence of events (datagrams,
      timers, the passing of time, calls of the user), so that a theorem about
      all runs holds in every order in which the loop delivers them.
    - Times are milliseconds.  Maps whose iteration order matters are association
      lists ([OMap]), other maps are [gmap].
    - Third-party code is a parameter with the behaviour the code relies on as a
      hypothesis where one is needed: [inet_pton], [inet_ntop], AES-CMAC, SHA-256,
      random numbers; mbedtls is a class of arbitrary programs of callbacks
      ([Dtls.Ssl]), its sockets and the events of libevent a class ([Socket.Net],
      with [Socket.NetLaws]), and the library, for the application, a class ([CommissionerApp.Library]), and so are the JSON
      documents of nlohmann::json ([Json.JsonLibrary], with [Json.JsonLaws]);
      cn-cbor, COSE-C and the keys of mbedtls are the classes [Cose.Cbor],
      [Cose.Cose] and [Cose.Pk], with laws in [CoseFacts].
      Every property with such a parameter has a witness with a concrete one.

    ** The files

    - [Prelude]: machine integers, byte lists, tactics and hints.  [Outcome]:
      [include/commissioner/error.hpp], [common/error.cpp].  [OMap]: [std::map].
    - [Common]: [common/utils.*], [common/address.*].  Hexadecimal round trip.
    - [Crypto]: [library/openthread/*], [GeneratePSKc], [ComputeJoinerId],
      [AddJoiner].  The CRC is a polynomial remainder; PBKDF2 is RFC 8018;
      steering data has no false negatives.
    - [Tlv]: [library/tlv.*].  Parsing is safe on every buffer and inverts
      serialization.
    - [NetworkData]: [include/commissioner/network_data.hpp],
      [library/network_data.cpp].
    - [CoapMessage]: the messages of [library/coap.*].  Serialization is RFC 7252
      or aborts, exactly for the options that the code mistreats; parsing is safe
      and inverts it.
    - [Coap], [CoapInvariant], [CoapScript]: [class Coap].  The request cache and
      its timer are consistent in every reachable state, handlers that call back
      included; a handler is called exactly once unless a retransmission of its
      request cannot be sent; the retransmission schedule; cancellation ends; duplicates are
      answered from the cache.
    - [Dataset], [DatasetCodec]: the codecs of [library/commissioner_impl.cpp].
      Round trips, safety of decoding, and the Get TLV.
    - [Commissioner], [CommissionerInvariant], [CommissionerHandlers],
      [CommissionerControl], [CommissionerScript]: [CommissionerImpl] without
      joiners.  The state machine of petition and keep-alive; no handler is called
      twice or lost, and none waits once session and commands were dropped; what
      disconnecting and resigning leave behind, the guards of the commands.  The commands are those of the build with
      [OT_COMM_CONFIG_CCM_ENABLE], and every request is signed by an arbitrary
      signer ([Commissioner.RequestSigner]).
    - [CommissionerWalk]: what every operation of [Commissioner] keeps, for any
      promise on requests, continuations and calls of handlers (the class
      [Walk]).  [CommissionerSigned] is the promise that requests are signed,
      [CommissionerTyped] that a handler gets a response of its type, and that
      exactly when it gets no error.  [ResponseFacts]: what the commissioner tells
      a handler of any message the CoAP object hands it; an empty message that is
      neither an acknowledgment nor a reset runs into an assertion, and nothing
      else does.
    - [Safe], [SafeFacts], [SafeTyped], [SafeScript]: [library/commissioner_safe.*],
      the wrapper that runs [CommissionerImpl] in a thread of its own, over all
      interleavings of the two threads.  It refines [Commissioner], adds no
      failure, and serves who waits; what a call that waits does to the parameter
      of its caller.
    - [Proxy], [ProxyFacts], [ProxyScript]: [library/udp_proxy.*] and the
      notifications of [CommissionerImpl], whose handlers of responses the client
      calls.  The tunnel is faithful; what comes out of it ends the process
      exactly when it wraps an empty message for a request that is waiting;
      notifications are answered and reach the user.
    - [Dtls], [DtlsFacts], [DtlsRefinement], [DtlsScript]: [library/dtls.*],
      [library/mbedtls_error.cpp].  The send queue refines a FIFO channel, connect
      handlers are called once, and the session refines the events by which
      [Commissioner] abstracts it.
    - [Socket], [SocketFacts], [SocketScript]: [library/socket.*],
      [library/coap_secure.hpp].  A client session that is not open has a socket
      that is connected and watched, as long as its clients connect only when the
      session is open and pass a handler to be told; what happens
      when they do not.
    - [Cose], [CoseFacts]: [library/cbor.*], [library/cose.*], [library/cwt.hpp],
      the laws of the libraries behind them, and a world in which these hold.
    - [TokenManager], [TokenManagerFacts]: [library/token_manager.*].  What a
      signature covers, written out; the token that is kept validates; the client of the
      registrar tells every handler once, and disconnecting ends.
    - [Ccm], [CcmFacts], [CcmScript]: [SignRequest], [RequestToken], [SetToken],
      [Init] and [CancelRequests] of [CommissionerImpl], the commissioner and the
      token manager put together.  A signed request validates where it is
      received; of the requests handed to the CoAP clients nothing else than two
      requests for data leaves unsigned, whatever happens to the tokens meanwhile.
      RLY_TX.ntf and UDP_TX.ntf, which carry the messages of others, are not
      signed by the code and not among them.
    - [CommissionerApp], [CommissionerAppFacts], [CommissionerAppScript]:
      [app/commissioner_app.*].  Merging of datasets, credentials only for enabled
      joiners, steering data announces them.
    - [Joiner], [JoinerFacts], [Commissioning], [JoinerScript]:
      [library/joiner_session.*], [HandleRlyRx] and [HandleJoinerSessionTimer].
      Only admitted joiners have a session, the key of the joiner router leaves
      only with a JOIN_FIN response, sessions end, JOIN_FIN decides a joiner; and,
      composed with the application, only enabled joiners are commissioned.

    - [BorderAgent], [BorderAgentFacts], [BorderAgentScript]:
      [app/border_agent.*].  What the records of an answer say of an agent: the
      entries that an agent publishes are read as its fields in whatever order
      they come, the state bitmap and the state determine each other, and a poll
      reports an agent or one error, also when nothing was received.
    - [Json], [JsonFacts], [JsonScript]: [app/json.*].  Datasets, reports and the
      configuration as JSON texts: the network data reads back, no text ends the
      process or gives a value out of its type, comments are taken out.
    - [CliText], [CliTextFacts]: the texts of [app/cli/interpreter.cpp]: words,
      numbers, the printing of values, usages.  Words read back as they are typed,
      and numbers wrap around.
    - [Interpreter], [InterpreterFacts], [InterpreterScript]:
      [app/cli/interpreter.*], [app/cli/console.*], [app/cli/main.cpp],
      [app/file_util.*].  Every handler of a command as a program on the state of
      the interpreter; what each command can change; the application behind the
      command line only ever goes through its own operations, so that what holds
      of all its runs holds whatever is typed; the loop ends with [exit].

    The [*Script] files hold the concrete runs: the witnesses, which apply each
    theorem at an input where its hypotheses hold, and the runs that show
    where the code does not do what it means to.

    ** Interfaces

    [CoapInvariant.HandlersPreserve] is what the operations of the CoAP object
    need of the handlers; [Dtls.Ssl] and [Dtls.Socket] are what the session needs
    of mbedtls and of its socket, implemented by the relay socket of [Joiner] and
    by [Socket.udp_socket];
    [CommissionerWalk.Walk] is what a promise about the commissioner has to
    satisfy to hold of all its runs;
    [Commissioner.RequestSigner], with the law [SignerLaws], is what the
    commissioner needs of commercial commissioning, implemented by [Ccm.signer];
    [CommissionerApp.Library] is what the application needs of the library;
    [Json.JsonLibrary] is what the serializers need of a JSON document, and
    [Json.JsonLaws] what their theorems need, implemented by a tree in
    [JsonScript]; [CommissionerAppFacts.Op] is the language of operations between
    the application and the command line;
    [Joiner.Handler] is what the sessions need of the user, implemented by the
    application in [Commissioning].

    ** Not modelled

    The build without [OT_COMM_CONFIG_CCM_ENABLE], which refuses commercial
    networks and their commands with an error and is otherwise the same; when
    the objects of CBOR and COSE are freed; terminal input and output, the
    sockets and the clock of the mDNS discovery (a discovery is what its polls
    receive), loggers, and the Java bindings, which are generated.  [Commissioner]
    does not follow the descriptor of its socket: that a connection which fails
    while the commissioner is connected ends the process at the next message is
    shown in [SocketScript].  A
    file is its contents and what opening it fails with; that opening a log file
    empties it is left out.  The text of error messages and of the log is left
    out everywhere, so that printing an error takes its text as a parameter.
    An interrupt at the command line is one operation ([CancelCommand]) and not
    interleaved with a command.  CoAP handlers of the
    proxy client and of a joiner session do not call back into their client: of
    the handlers of the proxy, [Proxy.response_handler] keeps whether they end
    the process, and what they do to the commissioner is in [Commissioner].  The
    datagrams of different clients have no common order. *)

From stdpp Require Export base tactics list gmap.
From Stdlib Require Export ZArith Lia.
From stdpp Require Export strings.

#[export] Set Default Proof Using "Type".
#[global] Open Scope Z_scope.

(** ** Machine integers

    A [w]-bit unsigned integer of the code is a [Z]; the wrap-around that an
    assignment to a variable of that width performs is written out. *)
Definition u8 (z : Z) : Z := z mod 2 ^ 8.
Definition u16 (z : Z) : Z := z mod 2 ^ 16.
Definition u32 (z : Z) : Z := z mod 2 ^ 32.
Definition u64 (z : Z) : Z := z mod 2 ^ 64.

(** A value that fits in [w] bits. *)
Definition fits (w z : Z) : Prop := 0 <= z < 2 ^ w.
#[export] Instance fits_dec w z : Decision (fits w z).
Proof. unfold fits; apply _. Defined.

(** [ByteArray] ([std::vector<uint8_t>]) and [std::string] are both lists of
    bytes. *)
Abbreviation ByteArray := (list Z).
Abbreviation string_t := (list Z) (only parsing).
Definition is_byte (z : Z) : Prop := fits 8 z.
#[export] Instance is_byte_dec z : Decision (is_byte z).
Proof. unfold is_byte; apply _. Defined.
Abbreviation bytes := (Forall is_byte).

(** The [size()] of a container, as the integer the code compares. *)
Definition zlen {A} (l : list A) : Z := Z.of_nat (length l).

(** Literal strings. *)
Fixpoint str (s : String.string) : string_t :=
  match s with
  | String.EmptyString => []
  | String.String c s => Z.of_nat (Ascii.nat_of_ascii c) :: str s
  end.
Arguments str s%_string_scope.

(** [v[off .. off + len)] of a vector. *)
Definition zsub {A} (l : list A) (off len : Z) : list A :=
  take (Z.to_nat len) (drop (Z.to_nat off) l).

Definition zdrop {A} (l : list A) (off : Z) : list A := drop (Z.to_nat off) l.

(** [v.resize(n)]: cut, or extend with zeros. *)
Definition zresize (l : ByteArray) (n : Z) : ByteArray := resize (Z.to_nat n) 0 l.

(** ** Tactics *)

(** Case analysis on the first [if] or [match] of the goal or a hypothesis,
    keeping the equation. *)
Ltac case_if :=
  match goal with
  | |- context [if ?b then _ else _] =>
      lazymatch type of b with
      | bool => let E := fresh "E" in destruct b eqn:E
      | _ => destruct b
      end
  | H : context [if ?b then _ else _] |- _ =>
      lazymatch type of b with
      | bool => let E := fresh "E" in destruct b eqn:E
      | _ => destruct b
      end
  end.

(** Turn boolean tests of the code into propositions. *)
Ltac bool_to_prop :=
  repeat match goal with
  | H : (_ && _)%bool = true |- _ => apply andb_true_iff in H; destruct H
  | H : (_ && _)%bool = false |- _ => apply andb_false_iff in H
  | H : (_ || _)%bool = true |- _ => apply orb_true_iff in H
  | H : (_ || _)%bool = false |- _ => apply orb_false_iff in H; destruct H
  | H : negb _ = true |- _ => apply negb_true_iff in H
  | H : negb _ = false |- _ => apply negb_false_iff in H
  | H : (_ =? _) = true |- _ => apply Z.eqb_eq in H
  | H : (_ =? _) = false |- _ => apply Z.eqb_neq in H
  | H : (_ <? _) = true |- _ => apply Z.ltb_lt in H
  | H : (_ <? _) = false |- _ => apply Z.ltb_ge in H
  | H : (_ <=? _) = true |- _ => apply Z.leb_le in H
  | H : (_ <=? _) = false |- _ => apply Z.leb_gt in H
  | H : bool_decide _ = true |- _ => apply bool_decide_eq_true in H
  | H : bool_decide _ = false |- _ => apply bool_decide_eq_false in H
  end.

(** Arithmetic with the widths unfolded. *)
Ltac width :=
  unfold is_byte, fits, u8, u16, u32, u64, zlen in *;
  change (2 ^ 8) with 256 in *; change (2 ^ 16) with 65536 in *;
  change (2 ^ 32) with 4294967296 in *;
  change (2 ^ 64) with 18446744073709551616 in *.
Ltac zw := width; bool_to_prop; simpl length in *; lia.

(** Decide the comparisons of the goal that linear arithmetic decides. *)
Ltac zcmp :=
  repeat match goal with
  | |- context [?a <? ?b] =>
      first [ rewrite (proj2 (Z.ltb_lt a b)) by lia | rewrite (proj2 (Z.ltb_ge a b)) by lia ]
  | |- context [?a <=? ?b] =>
      first [ rewrite (proj2 (Z.leb_le a b)) by lia | rewrite (proj2 (Z.leb_gt a b)) by lia ]
  | |- context [?a =? ?b] =>
      first [ rewrite (proj2 (Z.eqb_eq a b)) by lia | rewrite (proj2 (Z.eqb_neq a b)) by lia ]
  end.

(** ** Lemmas on widths *)

Create HintDb ot discriminated.
Create Rewrite HintDb ot.

Lemma u8_byte z : is_byte (u8 z).
Proof. width; apply Z.mod_pos_bound; lia. Qed.
Lemma u16_fits z : fits 16 (u16 z).
Proof. width; apply Z.mod_pos_bound; lia. Qed.
Lemma u8_id z : is_byte z -> u8 z = z.
Proof. intros; width; apply Z.mod_small; lia. Qed.
Lemma u16_id z : fits 16 z -> u16 z = z.
Proof. intros; width; apply Z.mod_small; lia. Qed.
#[export] Hint Resolve u8_byte u16_fits : ot.

(** Dropping the low byte of an [n + 1]-byte integer. *)
Lemma fits_shiftr_8 n v : fits (8 * Z.of_nat (S n)) v -> fits (8 * Z.of_nat n) (Z.shiftr v 8).
Proof.
  unfold fits. intros Hv. rewrite Z.shiftr_div_pow2 by lia.
  replace (8 * Z.of_nat (S n)) with (8 * Z.of_nat n + 8) in Hv by lia.
  rewrite Z.pow_add_r in Hv by lia. split; [apply Z.div_pos; lia|].
  apply Z.div_lt_upper_bound; lia.
Qed.

(** Disjoint bits add up. *)
Lemma lor_shiftl_add a b n :
  0 <= n -> 0 <= b < 2 ^ n -> Z.lor (Z.shiftl a n) b = a * 2 ^ n + b.
Proof.
  intros Hn Hb. rewrite Z.shiftl_mul_pow2 by lia.
  rewrite <- Z.lxor_lor; [rewrite <- Z.add_nocarry_lxor; [done|] |].
  all: apply Z.bits_inj'; intros i Hi; rewrite Z.land_spec, Z.bits_0.
  all: destruct (decide (i < n)) as [Hlt|Hge].
  all: try (rewrite Z.mul_pow2_bits_low by lia; done).
  all: rewrite andb_comm, <- (Z.mod_small b (2 ^ n)) by lia.
  all: rewrite Z.mod_pow2_bits_high by lia; done.
Qed.

Lemma land_low_mask a n : 0 <= n -> Z.land a (2 ^ n - 1) = a mod 2 ^ n.
Proof. intros. rewrite <- Z.land_ones by lia. by rewrite Z.ones_equiv, Z.sub_1_r. Qed.

(** ** Lemmas on byte lists *)

Lemma zlen_nonneg {A} (l : list A) : 0 <= zlen l.
Proof. zw. Qed.
Lemma zlen_app {A} (l k : list A) : zlen (l ++ k) = zlen l + zlen k.
Proof. unfold zlen; rewrite length_app; lia. Qed.
Lemma zlen_cons {A} (x : A) l : zlen (x :: l) = zlen l + 1.
Proof. unfold zlen; simpl; lia. Qed.
Lemma zlen_nil {A} : zlen (@nil A) = 0.
Proof. done. Qed.
#[export] Hint Rewrite @zlen_app @zlen_cons @zlen_nil : ot.

Lemma zdrop_app {A} (l k : list A) : zdrop (l ++ k) (zlen l) = k.
Proof. unfold zdrop, zlen. rewrite Nat2Z.id. by rewrite drop_app_length. Qed.

Lemma zsub_app {A} (l v k : list A) : zsub (l ++ v ++ k) (zlen l) (zlen v) = v.
Proof.
  unfold zsub, zlen. rewrite !Nat2Z.id, drop_app_length. by rewrite take_app_length.
Qed.

Lemma zsub_app_r {A} (l k : list A) i n : 0 <= i -> zsub (l ++ k) (zlen l + i) n = zsub k i n.
Proof.
  intros. unfold zsub, zlen. f_equal. rewrite Z2Nat.inj_add, Nat2Z.id by lia.
  rewrite <- drop_drop. by rewrite drop_app_length.
Qed.

Lemma zsub_cons_pos {A} (a : A) k i n : 0 < i -> zsub (a :: k) i n = zsub k (i - 1) n.
Proof.
  intros. change (a :: k) with ([a] ++ k).
  replace i with (zlen [a] + (i - 1)) at 1 by (change (zlen [a]) with 1; lia).
  apply zsub_app_r. lia.
Qed.

Lemma zsub_prefix {A} (v k : list A) : zsub (v ++ k) 0 (zlen v) = v.
Proof. unfold zsub, zlen. rewrite drop_0, Nat2Z.id. by rewrite take_app_length. Qed.

Lemma zlen_zsub {A} (l : list A) off len :
  0 <= off -> 0 <= len -> off + len <= zlen l -> zlen (zsub l off len) = len.
Proof. unfold zsub, zlen; intros. rewrite length_take, length_drop. lia. Qed.

Lemma bytes_zsub l off len : bytes l -> bytes (zsub l off len).
Proof. intros; by apply Forall_take, Forall_drop. Qed.
Lemma bytes_zdrop l off : bytes l -> bytes (zdrop l off).
Proof. intros; by apply Forall_drop. Qed.
#[export] Hint Resolve bytes_zsub bytes_zdrop : ot.

(** Decide a property of a small range of integers by evaluation. *)
Lemma forallb_seqZ (f : Z -> bool) n :
  forallb f (seqZ 0 n) = true -> forall z, 0 <= z < n -> f z = true.
Proof. intros H z Hz. eapply forallb_forall; [done|]. apply list_elem_of_In, elem_of_seqZ; lia. Qed.

(** Closed facts about lists of bytes and about widths. *)
Ltac closed :=
  unfold is_byte, fits in *; vm_compute; repeat split; repeat constructor; try congruence.
