(* ===== verification/Outcome.v ===== *)
(** * Results of operations

    [ErrorCode] and [Error] of [include/commissioner/error.hpp] and
    [src/common/error.cpp], and the outcome of a call: a value, an error, or
    the end of the process.  The message of an [Error] is text for the log
    and is not modelled; every comparison of errors in the code is a
    comparison of codes. *)

From S2P Require Import Prelude.

(** The error codes. *)
Inductive ErrorCode : Type :=
| kNone | kCancelled | kInvalidArgs | kInvalidCommand | kTimeout | kNotFound
| kSecurity | kUnimplemented | kBadFormat | kBusy | kOutOfMemory | kIOError
| kIOBusy | kAlreadyExists | kAborted | kInvalidState | kRejected | kCoapError
| kUnknown.

#[export] Instance ErrorCode_eq_dec : EqDecision ErrorCode.
Proof. solve_decision. Defined.

(** The underlying values of the codes. *)
Definition ErrorCode_value (c : ErrorCode) : Z :=
  match c with
  | kNone => 0 | kCancelled => 1 | kInvalidArgs => 2 | kInvalidCommand => 3
  | kTimeout => 4 | kNotFound => 5 | kSecurity => 6 | kUnimplemented => 7
  | kBadFormat => 8 | kBusy => 9 | kOutOfMemory => 10 | kIOError => 11
  | kIOBusy => 12 | kAlreadyExists => 13 | kAborted => 14 | kInvalidState => 15
  | kRejected => 16 | kCoapError => 17 | kUnknown => 18
  end.

(** [ErrorCodeToString]. *)
Definition ErrorCodeToString (c : ErrorCode) : string_t :=
  match c with
  | kNone => str "OK" | kCancelled => str "CANCELLED"
  | kInvalidArgs => str "INVALID_ARGS" | kInvalidCommand => str "INVALID_COMMAND"
  | kTimeout => str "TIMEOUT" | kNotFound => str "NOT_FOUND"
  | kSecurity => str "SECURITY" | kUnimplemented => str "UNIMPLEMENTED"
  | kBadFormat => str "BAD_FORMAT" | kBusy => str "BUSY"
  | kOutOfMemory => str "OUT_OF_MEMORY" | kIOError => str "IO_ERROR"
  | kIOBusy => str "IO_BUSY" | kAlreadyExists => str "ALREADY_EXISTS"
  | kAborted => str "ABORTED" | kInvalidState => str "INVALID_STATE"
  | kRejected => str "REJECTED" | kCoapError => str "COAP_ERROR"
  | kUnknown => str "UNKNOWN"
  end.

(** The outcome of an operation: [Ok] is [ERROR_NONE] with the out-parameters
    as value, [Err] an error (out-parameters untouched), [Die] the end of the
    process: [abort()] of [VerifyOrDie], a failed [ASSERT], or an access out
    of the bounds of a buffer.  A model function that can run out of fuel also
    returns [Die] there, so that "never [Die]" covers termination. *)
Inductive outcome (A : Type) : Type :=
| Ok (a : A)
| Err (e : ErrorCode)
| Die.
Arguments Ok {A} a.
Arguments Err {A} e.
Arguments Die {A}.

#[export] Instance outcome_eq_dec `{EqDecision A} : EqDecision (outcome A).
Proof. solve_decision. Defined.

#[export] Instance outcome_ret : MRet outcome := fun A a => Ok a.
#[export] Instance outcome_bind : MBind outcome := fun A B f m =>
  match m with Ok a => f a | Err e => Err e | Die => Die end.
#[export] Instance outcome_fmap : FMap outcome := fun A B f m =>
  match m with Ok a => Ok (f a) | Err e => Err e | Die => Die end.

(** The exit macros of [src/common/utils.hpp]. *)
Declare Scope ot_scope.
Delimit Scope ot_scope with ot.
#[global] Open Scope ot_scope.
Notation "'VerifyOrExit' b 'else' e ;; k" := (if b then k else Err e)
  (at level 100, b at level 99, e at level 99, k at level 200, right associativity) : ot_scope.
Notation "'VerifyOrDie' b ;; k" := (if b then k else Die)
  (at level 100, b at level 99, k at level 200, right associativity) : ot_scope.

(** The error code an operation leaves in the caller's [error] variable. *)
Definition code_of {A} (m : outcome A) : ErrorCode :=
  match m with Ok _ => kNone | Err e => e | Die => kUnknown end.

(** [IgnoreError]: only the end of the process is visible. *)
Definition ignore {A} (m : outcome A) : outcome unit :=
  match m with Die => Die | _ => Ok tt end.

(** Reading [buf[i]]; outside of the buffer the behaviour is undefined. *)
Definition rd {A} (l : list A) (i : Z) : outcome A :=
  if (0 <=? i) && (i <? zlen l) then
    match l !! Z.to_nat i with Some b => Ok b | None => Die end
  else Die.

(** [{buf.begin() + off, buf.begin() + off + len}]: iterators outside of
    [[begin, end]] are undefined behaviour. *)
Definition rds {A} (l : list A) (off len : Z) : outcome (list A) :=
  if (0 <=? off) && (0 <=? len) && (off + len <=? zlen l) then Ok (zsub l off len) else Die.

(** [{buf.begin() + off, buf.end()}]. *)
Definition rdt {A} (l : list A) (off : Z) : outcome (list A) :=
  if (0 <=? off) && (off <=? zlen l) then Ok (zdrop l off) else Die.

(** Writing [buf[i] = x]. *)
Definition wr {A} (l : list A) (i : Z) (x : A) : outcome (list A) :=
  if (0 <=? i) && (i <? zlen l) then Ok (<[Z.to_nat i := x]> l) else Die.

(** ** Lemmas *)

Definition not_die {A} (m : outcome A) : Prop := m <> Die.
#[export] Hint Unfold not_die : ot.

Lemma bind_ok {A B} (m : outcome A) (f : A -> outcome B) b :
  m ≫= f = Ok b -> exists a, m = Ok a /\ f a = Ok b.
Proof. destruct m; intros H; try discriminate; eauto. Qed.

Lemma bind_ret {A} (m : outcome A) : (a ← m; Ok a) = m.
Proof. by destruct m. Qed.

Lemma bind_not_die {A B} (m : outcome A) (f : A -> outcome B) :
  not_die m -> (forall a, m = Ok a -> not_die (f a)) -> not_die (m ≫= f).
Proof. unfold not_die; destruct m; simpl; intros; naive_solver. Qed.

Lemma rd_ok {A} (l : list A) i : 0 <= i < zlen l -> exists b, rd l i = Ok b /\ b ∈ l.
Proof.
  intros H. unfold rd. rewrite (proj2 (Z.leb_le 0 i)), (proj2 (Z.ltb_lt i _)) by lia. simpl.
  destruct (l !! Z.to_nat i) as [b|] eqn:E.
  - exists b; split; [done|]. by eapply list_elem_of_lookup_2.
  - apply lookup_ge_None in E. zw.
Qed.

Lemma rd_app {A} (l k : list A) b : rd (l ++ b :: k) (zlen l) = Ok b.
Proof.
  unfold rd. autorewrite with ot. pose proof (zlen_nonneg k). pose proof (zlen_nonneg l).
  rewrite (proj2 (Z.leb_le 0 _)), (proj2 (Z.ltb_lt _ _)) by lia. simpl.
  unfold zlen at 1. rewrite Nat2Z.id. by rewrite list_lookup_middle.
Qed.

Lemma rd_byte l i b : bytes l -> rd l i = Ok b -> is_byte b.
Proof.
  unfold rd; intros Hl H. case_if; [|done]. destruct (l !! Z.to_nat i) eqn:El; [|done].
  inversion H; subst. by eapply Forall_lookup_1.
Qed.

Lemma rd_not_die {A} (l : list A) i : 0 <= i < zlen l -> not_die (rd l i).
Proof. intros H; destruct (rd_ok l i H) as (b & -> & _); done. Qed.
#[export] Hint Resolve rd_not_die : ot.

(** A range read inside of the buffer; outside it ends the process. *)
Lemma rds_ok {A} (l : list A) off len :
  0 <= off -> 0 <= len -> off + len <= zlen l -> rds l off len = Ok (zsub l off len).
Proof.
  intros. unfold rds. rewrite (proj2 (Z.leb_le 0 off)), (proj2 (Z.leb_le 0 len)), (proj2 (Z.leb_le _ (zlen l))) by lia.
  done.
Qed.

Lemma rdt_ok {A} (l : list A) off : 0 <= off <= zlen l -> rdt l off = Ok (zdrop l off).
Proof. intros. unfold rdt. by rewrite (proj2 (Z.leb_le 0 off)), (proj2 (Z.leb_le _ (zlen l))) by lia. Qed.

Lemma rds_inv {A} (l v : list A) off len :
  rds l off len = Ok v -> 0 <= off /\ 0 <= len /\ off + len <= zlen l /\ v = zsub l off len.
Proof. unfold rds. case_if; [|done]. intros [= <-]. bool_to_prop. split_and!; (lia || done). Qed.

Lemma rdt_inv {A} (l v : list A) off : rdt l off = Ok v -> 0 <= off <= zlen l /\ v = zdrop l off.
Proof. unfold rdt. case_if; [|done]. intros [= <-]. bool_to_prop. split; (lia || done). Qed.

(** A part behind a known prefix. *)
Lemma rds_app {A} (l v k : list A) : rds (l ++ v ++ k) (zlen l) (zlen v) = Ok v.
Proof.
  pose proof (zlen_nonneg l). pose proof (zlen_nonneg v). pose proof (zlen_nonneg k).
  rewrite rds_ok by (rewrite ?zlen_app; lia). by rewrite zsub_app.
Qed.

(** The only error an operation can report. *)
Definition only_err {A} (e : ErrorCode) (m : outcome A) : Prop := forall x, m = Err x -> x = e.

Lemma only_err_ok {A} e (a : A) : only_err e (Ok a).
Proof. done. Qed.
Lemma only_err_die {A} e : only_err e (@Die A).
Proof. done. Qed.
Lemma only_err_err {A} e : only_err e (@Err A e).
Proof. by intros x [= ->]. Qed.
Lemma only_err_bind {A B} e (m : outcome A) (f : A -> outcome B) :
  only_err e m -> (forall a, only_err e (f a)) -> only_err e (m ≫= f).
Proof. unfold only_err. destruct m; simpl; intros; eauto; simplify_eq; auto. Qed.
Lemma only_err_rd {A} e (l : list A) i : only_err e (rd l i).
Proof. unfold rd. case_if; [|done]. by case_match. Qed.
Lemma only_err_rds {A} e (l : list A) off len : only_err e (rds l off len).
Proof. unfold rds. by case_if. Qed.
Lemma only_err_rdt {A} e (l : list A) off : only_err e (rdt l off).
Proof. unfold rdt. by case_if. Qed.
Lemma only_err_wr {A} e (l : list A) i x : only_err e (wr l i x).
Proof. unfold wr. by case_if. Qed.
#[export] Hint Resolve only_err_ok only_err_die only_err_err only_err_bind only_err_rd only_err_rds only_err_rdt only_err_wr : ot.

(** Reads behind a known prefix. *)
Lemma rd_app_r {A} (l k : list A) i : 0 <= i -> rd (l ++ k) (zlen l + i) = rd k i.
Proof.
  intros Hi. unfold rd. rewrite zlen_app. pose proof (zlen_nonneg l).
  replace (0 <=? zlen l + i) with (0 <=? i) by (apply eq_iff_eq_true; rewrite !Z.leb_le; lia).
  replace (zlen l + i <? zlen l + zlen k) with (i <? zlen k)
    by (apply eq_iff_eq_true; rewrite !Z.ltb_lt; lia).
  replace (Z.to_nat (zlen l + i)) with (length l + Z.to_nat i)%nat by (unfold zlen in *; lia).
  by rewrite lookup_app_r, Nat.add_comm, Nat.add_sub by lia.
Qed.

Lemma rd_cons_0 {A} (a : A) k : rd (a :: k) 0 = Ok a.
Proof. unfold rd. rewrite zlen_cons. pose proof (zlen_nonneg k). by rewrite (proj2 (Z.ltb_lt _ _)) by lia. Qed.

Lemma rd_cons_pos {A} (a : A) k i : 0 < i -> rd (a :: k) i = rd k (i - 1).
Proof.
  intros. change (a :: k) with ([a] ++ k). replace i with (zlen [a] + (i - 1)) at 1 by (change (zlen [a]) with 1; lia).
  apply rd_app_r. lia.
Qed.

Lemma rd_nat {A} (l : list A) (i : nat) : (i < length l)%nat -> exists b, rd l (Z.of_nat i) = Ok b /\ l !! i = Some b.
Proof.
  intros H. unfold rd. rewrite (proj2 (Z.leb_le 0 _)), (proj2 (Z.ltb_lt _ _)) by zw. cbn [andb].
  rewrite Nat2Z.id. destruct (lookup_lt_is_Some_2 l i H) as [b ->]. eauto.
Qed.

Lemma rd_at {A} (l k : list A) (i : nat) z b :
  z = Z.of_nat i -> k !! i = Some b -> rd (l ++ k) (zlen l + z) = Ok b.
Proof.
  intros -> H. rewrite rd_app_r by lia. apply lookup_lt_Some in H as Hlt.
  destruct (rd_nat k i Hlt) as (b' & E & Hb). congruence.
Qed.

(** Writes behind a known prefix. *)
Lemma wr_app_r {A} (l k k' : list A) i x :
  0 <= i -> wr k i x = Ok k' -> wr (l ++ k) (zlen l + i) x = Ok (l ++ k').
Proof.
  intros Hi. unfold wr. rewrite zlen_app. pose proof (zlen_nonneg l).
  replace (0 <=? zlen l + i) with (0 <=? i) by (apply eq_iff_eq_true; rewrite !Z.leb_le; lia).
  replace (zlen l + i <? zlen l + zlen k) with (i <? zlen k)
    by (apply eq_iff_eq_true; rewrite !Z.ltb_lt; lia).
  case_if; [|done]. intros [= <-].
  replace (Z.to_nat (zlen l + i)) with (length l + Z.to_nat i)%nat by (unfold zlen in *; lia).
  by rewrite insert_app_r.
Qed.

Lemma wr_app_0 {A} (l k k' : list A) x :
  wr k 0 x = Ok k' -> wr (l ++ k) (zlen l) x = Ok (l ++ k').
Proof. intros H. rewrite <- (Z.add_0_r (zlen l)). by apply wr_app_r. Qed.

(** Different codes have different values and different names. *)
Lemma ErrorCode_value_inj c d : ErrorCode_value c = ErrorCode_value d -> c = d.
Proof. destruct c, d; intros H; (reflexivity || discriminate). Qed.
