(* ===== verification/Common.v ===== *)
(** * Common utilities

    [src/common/utils.{hpp,cpp}] (big-endian integers, hexadecimal strings)
    and [src/common/address.{hpp,cpp}]. *)

From S2P Require Import Prelude Outcome.

(** ** Big-endian integers *)
Module Endian.

(** The loop of [Encode<T>]: it fills the [n = sizeof(T)] appended bytes from
    the last to the first one. *)
Fixpoint Encode_loop (n : nat) (aInteger : Z) : ByteArray :=
  match n with
  | O => []
  | S n => Encode_loop n (Z.shiftr aInteger 8) ++ [Z.land aInteger 255]
  end.

Definition Encode (n : nat) (aBuf : ByteArray) (aInteger : Z) : ByteArray :=
  aBuf ++ Encode_loop n aInteger.

(** The loop of [Decode<T>], on a variable of [w] bits. *)
Fixpoint Decode_loop (w : Z) (ret : Z) (l : ByteArray) : Z :=
  match l with
  | [] => ret
  | b :: l => Decode_loop w (Z.lor (Z.shiftl ret 8 mod 2 ^ w) b) l
  end.

Definition Decode (n : nat) (aBuf : ByteArray) : outcome Z :=
  VerifyOrDie (Z.of_nat n <=? zlen aBuf);;
  Ok (Decode_loop (8 * Z.of_nat n) 0 (take n aBuf)).

End Endian.

(** ** Hexadecimal strings *)
Module HexString.

Definition nibble (c : Z) : Z := if c <? 10 then c + 48 else c + 97 - 10.

(** [std::string Hex(const ByteArray &)]. *)
Fixpoint Hex (aBytes : ByteArray) : string_t :=
  match aBytes with
  | [] => []
  | byte :: l =>
      nibble (Z.shiftr (Z.land byte 240) 4) :: nibble (Z.land byte 15) :: Hex l
  end.

Definition isxdigit (c : Z) : bool :=
  ((48 <=? c) && (c <=? 57)) || ((65 <=? c) && (c <=? 70)) || ((97 <=? c) && (c <=? 102)).

(** [uint8_t Hex(char)]. *)
Definition HexChar (c : Z) : outcome Z :=
  VerifyOrDie (isxdigit c);;
  Ok (if (65 <=? c) && (c <=? 70) then c - 65 + 10
      else if (97 <=? c) && (c <=? 102) then c - 97 + 10 else c - 48).

(** The loop of [Error Hex(ByteArray &, const std::string &)]: the buffer and
    the error code; on an error the buffer keeps the bytes decoded so far. *)
Fixpoint FromHex_loop (aBuf : ByteArray) (s : string_t) : outcome (ByteArray * ErrorCode) :=
  match s with
  | [] => Ok (aBuf, kNone)
  | [_] => Die
  | c0 :: c1 :: s =>
      if negb (isxdigit c0) || negb (isxdigit c1) then Ok (aBuf, kInvalidArgs)
      else
        h ← HexChar c0; l ← HexChar c1;
        FromHex_loop (aBuf ++ [u8 (Z.lor (Z.shiftl h 4) l)]) s
  end.

Definition FromHex (aBuf : ByteArray) (aHexStr : string_t) : outcome (ByteArray * ErrorCode) :=
  if negb (zlen aHexStr mod 2 =? 0) then Ok (aBuf, kInvalidArgs)
  else FromHex_loop aBuf aHexStr.

End HexString.

(** ** IP addresses *)
Module Addr.

Definition kIpv4Size : Z := 4.
Definition kIpv6Size : Z := 16.

(** [Address] holds its raw bytes. *)
Definition Address := ByteArray.

Definition kMulticastPrefix : Z := 255.

Definition IsValid (a : Address) : bool := negb (zlen a =? 0).
Definition IsIpv4 (a : Address) : bool := zlen a =? kIpv4Size.
Definition IsIpv6 (a : Address) : bool := zlen a =? kIpv6Size.
Definition IsMulticast (a : Address) : bool :=
  IsValid a && (match a with b :: _ => b =? kMulticastPrefix | [] => false end).

(** [Set(const ByteArray &)]. *)
Definition SetRaw (aRawAddr : ByteArray) : outcome Address :=
  if negb (zlen aRawAddr =? kIpv4Size) && negb (zlen aRawAddr =? kIpv6Size)
  then Err kInvalidArgs else Ok aRawAddr.

Section Pton.
(** [inet_pton] for the two families. *)
Context (inet_pton4 inet_pton6 : string_t -> option ByteArray).

(** [Set(const std::string &)]. *)
Definition SetString (aIp : string_t) : outcome Address :=
    match inet_pton4 aIp with
    | Some b => Ok b
    | None => match inet_pton6 aIp with
              | Some b => Ok b
              | None => Err kInvalidArgs
              end
    end.

Definition FromString (aAddr : string_t) : outcome Address :=
    match SetString aAddr with Ok a => Ok a | _ => Die end.
End Pton.

Section Ntop.
(** [inet_ntop] for the two families. *)
Context (inet_ntop4 inet_ntop6 : ByteArray -> option string_t).

Definition kInvalidAddr : string_t := str "INVALID_ADDR".

Definition ToString (a : Address) : string_t :=
  if zlen a =? kIpv4Size then default kInvalidAddr (inet_ntop4 a)
  else if zlen a =? kIpv6Size then default kInvalidAddr (inet_ntop6 a)
  else kInvalidAddr.
End Ntop.

(** The documented behaviour of these functions (POSIX [inet_pton(3)],
    [inet_ntop(3)]): the text of an IPv6 address is made of hexadecimal digits,
    colons and dots, is not that of an IPv4 address, and reads back; parsing
    gives the bytes of an address of the family. *)
Definition addr_char (c : Z) : bool := HexString.isxdigit c || (c =? 58) || (c =? 46).

Class InetLaws (inet_pton4 inet_pton6 : string_t -> option ByteArray)
    (inet_ntop4 inet_ntop6 : ByteArray -> option string_t) : Prop := {
  ntop6_text a : bytes a -> zlen a = kIpv6Size ->
    exists s, inet_ntop6 a = Some s /\ forallb addr_char s = true /\
      inet_pton4 s = None /\ inet_pton6 s = Some a;
  pton4_bytes s a : inet_pton4 s = Some a -> bytes a /\ zlen a = kIpv4Size;
  pton6_bytes s a : inet_pton6 s = Some a -> bytes a /\ zlen a = kIpv6Size }.

(** Functions with these laws: addresses written as 32 hexadecimal digits. *)
Definition sample_pton4 (s : string_t) : option ByteArray := None.
Definition sample_pton6 (s : string_t) : option ByteArray :=
  match HexString.FromHex [] s with
  | Ok (a, kNone) => if bool_decide (bytes a) && (zlen a =? kIpv6Size) then Some a else None
  | _ => None
  end.
Definition sample_ntop4 (a : ByteArray) : option string_t := None.
Definition sample_ntop6 (a : ByteArray) : option string_t := Some (HexString.Hex a).

End Addr.

(** ** Theorems *)
Module CommonFacts.
Import Endian HexString.

(** *** Integers *)

Lemma length_Encode_loop n v : length (Encode_loop n v) = n.
Proof. revert v; induction n; intros; simpl; [done|]. rewrite length_app, IHn. simpl. lia. Qed.

Lemma zlen_Encode n buf v : zlen (Encode n buf v) = zlen buf + Z.of_nat n.
Proof. unfold Encode, zlen. rewrite length_app, length_Encode_loop. lia. Qed.

Lemma bytes_Encode_loop n v : bytes (Encode_loop n v).
Proof.
  revert v; induction n; intros; simpl; [constructor|].
  apply Forall_app; split; [done|]. repeat constructor; unfold is_byte, fits.
  all: change 255 with (2 ^ 8 - 1); rewrite land_low_mask by lia.
  all: apply Z.mod_pos_bound; lia.
Qed.

Lemma Decode_loop_app w r l k : Decode_loop w r (l ++ k) = Decode_loop w (Decode_loop w r l) k.
Proof. revert r; induction l; intros; simpl; done. Qed.

(** One step of [Decode_loop] on a value that still fits adds a digit. *)
Lemma Decode_step w r b :
  8 <= w -> is_byte b -> 0 <= r < 2 ^ (w - 8) ->
  Z.lor (Z.shiftl r 8 mod 2 ^ w) b = r * 256 + b.
Proof.
  intros Hw Hb Hr. rewrite Z.mod_small.
  - by rewrite lor_shiftl_add by (exact Hb || lia).
  - rewrite Z.shiftl_mul_pow2 by lia. replace (2 ^ w) with (2 ^ (w - 8) * 2 ^ 8); [nia|].
    rewrite <- Z.pow_add_r by lia. f_equal; lia.
Qed.

Lemma Decode_loop_bound w l :
  bytes l -> 8 * zlen l <= w -> 0 <= Decode_loop w 0 l < 2 ^ (8 * zlen l).
Proof.
  induction l as [|b l IH] using rev_ind; intros Hl Hw; [by simpl|].
  apply Forall_app in Hl as [Hl Hb]. inversion Hb; subst.
  autorewrite with ot in *. pose proof (zlen_nonneg l). destruct IH as [IH1 IH2]; [done|lia|].
  rewrite Decode_loop_app; simpl.
  assert (2 ^ (8 * zlen l) <= 2 ^ (w - 8)) by (apply Z.pow_le_mono_r; lia).
  rewrite Decode_step by (done || lia).
  replace (8 * (zlen l + (0 + 1))) with (8 * zlen l + 8) by lia.
  rewrite Z.pow_add_r by lia. change (2 ^ 8) with 256.
  match goal with H : is_byte _ |- _ => unfold is_byte, fits in H; change (2 ^ 8) with 256 in H end.
  nia.
Qed.

Lemma Decode_Encode_loop w n v :
  fits (8 * Z.of_nat n) v -> 8 * Z.of_nat n <= w -> Decode_loop w 0 (Encode_loop n v) = v.
Proof.
  revert v; induction n as [|n IH]; intros v Hv Hw.
  - unfold fits in Hv. simpl in *. lia.
  - simpl. rewrite Decode_loop_app. simpl. rewrite IH; [| |lia].
    2:{ by apply fits_shiftr_8. }
    pose proof (bytes_Encode_loop 1 v) as Hb; simpl in Hb; inversion Hb; subst.
    change 255 with (2 ^ 8 - 1) in *. rewrite land_low_mask in * by lia.
    unfold fits in Hv. rewrite Z.shiftr_div_pow2 by lia.
    rewrite Decode_step; [| lia | done |].
    + change 256 with (2 ^ 8). rewrite Z.mul_comm, <- Z.div_mod by lia. done.
    + split; [apply Z.div_pos; lia|]. apply Z.div_lt_upper_bound; [lia|].
      rewrite <- Z.pow_add_r by lia. eapply Z.lt_le_trans; [apply Hv|].
      apply Z.pow_le_mono_r; lia.
Qed.

Lemma Encode_Decode_loop w l :
  bytes l -> 8 * zlen l <= w -> Encode_loop (length l) (Decode_loop w 0 l) = l.
Proof.
  induction l as [|b l IH] using rev_ind; intros Hl Hw; [done|].
  apply Forall_app in Hl as [Hl Hb]. inversion Hb as [|? ? Hb' _]; subst.
  autorewrite with ot in Hw. rewrite length_app, Nat.add_comm, Decode_loop_app. simpl.
  pose proof (zlen_nonneg l). destruct (Decode_loop_bound w l) as [H1 H2]; [done|lia|].
  assert (2 ^ (8 * zlen l) <= 2 ^ (w - 8)) by (apply Z.pow_le_mono_r; lia).
  rewrite Decode_step by (done || lia).
  change 255 with (2 ^ 8 - 1). rewrite land_low_mask, Z.shiftr_div_pow2 by lia.
  change (2 ^ 8) with 256. unfold is_byte, fits in Hb'. change (2 ^ 8) with 256 in Hb'.
  rewrite Z.div_add_l by lia. rewrite (Z.div_small b) by lia.
  rewrite (Z.add_comm (_ * 256) b), Z.mod_add, Z.mod_small, Z.add_0_r by lia.
  by rewrite IH by (done || lia).
Qed.

Lemma Decode_take n l k :
  length l = n -> Decode n (l ++ k) = Ok (Decode_loop (8 * Z.of_nat n) 0 l).
Proof.
  intros <-. unfold Decode. rewrite take_app_length. autorewrite with ot.
  pose proof (zlen_nonneg k). rewrite (proj2 (Z.leb_le _ _)) by (unfold zlen in *; lia). done.
Qed.

Lemma Decode_Encode n v k :
  fits (8 * Z.of_nat n) v -> Decode n (Encode_loop n v ++ k) = Ok v.
Proof.
  intros. rewrite Decode_take by apply length_Encode_loop. by rewrite Decode_Encode_loop by (done || lia).
Qed.

Lemma Decode_exact n v : fits (8 * Z.of_nat n) v -> Decode n (Encode_loop n v) = Ok v.
Proof. intros. rewrite <- (app_nil_r (Encode_loop n v)). by apply Decode_Encode. Qed.

(** Big-endian encoding is a bijection between the [n]-byte integers and the
    byte strings of length [n]; whatever follows the encoding is not read. *)
Theorem integer_codec_bijective (n : nat) :
  (forall v k, fits (8 * Z.of_nat n) v -> Decode n (Encode n [] v ++ k) = Ok v)
  /\ (forall l, bytes l -> length l = n ->
       exists v, fits (8 * Z.of_nat n) v /\ Decode n l = Ok v /\ Encode n [] v = l).
Proof.
  split; [intros; by apply Decode_Encode|]. intros l Hl <-.
  exists (Decode_loop (8 * Z.of_nat (length l)) 0 l). split_and!.
  - unfold fits. apply Decode_loop_bound; [done|unfold zlen; lia].
  - rewrite <- (app_nil_r l) at 2. by rewrite Decode_take.
  - unfold Encode. simpl. apply Encode_Decode_loop; [done|unfold zlen; lia].
Qed.

Lemma integer_codec_bijective_witness :
  Decode 4 (Encode 4 [] 3405691582 ++ [1; 2]) = Ok 3405691582
  /\ exists v, Decode 2 [18; 52] = Ok v /\ Encode 2 [] v = [18; 52].
Proof.
  split.
  - apply (integer_codec_bijective 4). vm_compute. split; congruence.
  - destruct (proj2 (integer_codec_bijective 2) [18; 52]) as (v & _ & H); [|done|by exists v].
    repeat constructor; vm_compute; congruence.
Defined.

(** *** Hexadecimal strings *)

(** The canonical (lower-case) form of a hexadecimal digit. *)
Definition tolower (c : Z) : Z := if (65 <=? c) && (c <=? 90) then c + 32 else c.

Lemma HexChar_nibble v : 0 <= v < 16 -> isxdigit (nibble v) = true /\ HexChar (nibble v) = Ok v.
Proof.
  intros H.
  assert (E : (isxdigit (nibble v) && bool_decide (HexChar (nibble v) = Ok v))%bool = true).
  { revert v H. by apply forallb_seqZ. }
  bool_to_prop; done.
Qed.

Lemma nibble_HexChar c v : HexChar c = Ok v -> 0 <= v < 16 /\ nibble v = tolower c.
Proof.
  unfold HexChar, isxdigit, nibble, tolower. intros H.
  repeat case_if; simplify_eq; bool_to_prop; lia.
Qed.

Lemma byte_nibbles b :
  is_byte b -> 0 <= Z.shiftr (Z.land b 240) 4 < 16 /\ 0 <= Z.land b 15 < 16
    /\ u8 (Z.lor (Z.shiftl (Z.shiftr (Z.land b 240) 4) 4) (Z.land b 15)) = b.
Proof.
  intros H.
  assert (E : (Z.shiftr (Z.land b 240) 4 =? b / 16) && (Z.land b 15 =? b mod 16) &&
    (u8 (Z.lor (Z.shiftl (Z.shiftr (Z.land b 240) 4) 4) (Z.land b 15)) =? b) = true).
  { revert b H. by apply forallb_seqZ. }
  bool_to_prop. pose proof (Z.mod_pos_bound b 16 ltac:(lia)).
  pose proof (Z.div_mod b 16 ltac:(lia)). zw.
Qed.

Lemma nibbles_byte h l :
  0 <= h < 16 -> 0 <= l < 16 ->
  let b := u8 (Z.lor (Z.shiftl h 4) l) in
  Z.shiftr (Z.land b 240) 4 = h /\ Z.land b 15 = l.
Proof.
  intros Hh Hl; cbv zeta. rewrite lor_shiftl_add by lia. change (2 ^ 4) with 16.
  assert (E : (Z.shiftr (Z.land (u8 (h * 16 + l)) 240) 4 =? (h * 16 + l) / 16) &&
    (Z.land (u8 (h * 16 + l)) 15 =? (h * 16 + l) mod 16) = true).
  { generalize (h * 16 + l) (ltac:(lia) : 0 <= h * 16 + l < 256). by apply forallb_seqZ. }
  rewrite u8_id in * by zw. bool_to_prop. Z.to_euclidean_division_equations. lia.
Qed.

Lemma FromHex_loop_Hex buf l : bytes l -> FromHex_loop buf (Hex l) = Ok (buf ++ l, kNone).
Proof.
  intros Hl; revert buf; induction Hl as [|b l Hb Hl IH]; intros; simpl.
  - by rewrite app_nil_r.
  - destruct (byte_nibbles b Hb) as (H1 & H2 & H3).
    destruct (HexChar_nibble _ H1) as [-> ->], (HexChar_nibble _ H2) as [-> ->]. simpl.
    rewrite H3, IH. by rewrite <- app_assoc.
Qed.

Lemma even_cons2 {A} (c0 c1 : A) s : zlen (c0 :: c1 :: s) mod 2 = zlen s mod 2.
Proof. rewrite !zlen_cons. replace (zlen s + 1 + 1) with (zlen s + 1 * 2) by lia. by rewrite Z.mod_add. Qed.

Lemma length_Hex_even l : zlen (Hex l) mod 2 = 0.
Proof. induction l; [done|]. simpl Hex. by rewrite even_cons2. Qed.

Lemma FromHex_loop_spec n : forall buf s, (length s <= n)%nat -> zlen s mod 2 = 0 ->
  exists l c, FromHex_loop buf s = Ok (buf ++ l, c) /\
    ((c = kNone /\ forallb isxdigit s = true /\ Hex l = map tolower s)
     \/ (c = kInvalidArgs /\ forallb isxdigit s = false)).
Proof.
  induction n as [|n IH]; intros buf [|c0 [|c1 s]] Hn He; simpl in Hn; try lia.
  1,2: exists [], kNone; rewrite app_nil_r; split; [done|left; done].
  { discriminate He. }
  simpl. destruct (isxdigit c0) eqn:E0, (isxdigit c1) eqn:E1; simpl.
  2-4: exists [], kInvalidArgs; rewrite app_nil_r; split; [done|right; done].
  unfold HexChar at 1 2. rewrite E0, E1. simpl.
  set (h := if (65 <=? c0) && (c0 <=? 70) then _ else _).
  set (v := if (65 <=? c1) && (c1 <=? 70) then _ else _).
  destruct (nibble_HexChar c0 h) as [Hh1 Hh2]; [unfold HexChar; by rewrite E0|].
  destruct (nibble_HexChar c1 v) as [Hv1 Hv2]; [unfold HexChar; by rewrite E1|].
  destruct (IH (buf ++ [u8 (Z.lor (Z.shiftl h 4) v)]) s) as (l & c & -> & H);
    [lia | by rewrite even_cons2 in He |].
  exists (u8 (Z.lor (Z.shiftl h 4) v) :: l), c. split; [by rewrite <- app_assoc|].
  destruct H as [(-> & Hx & Hl)|(-> & Hx)]; [left|right; done].
  split_and!; [done..|]. simpl. destruct (nibbles_byte h v) as [-> ->]; [done..|].
  by rewrite Hh2, Hv2, Hl.
Qed.

Lemma FromHex_cases buf s : exists l c, FromHex buf s = Ok (buf ++ l, c)
  /\ (c = kNone <-> zlen s mod 2 = 0 /\ forallb isxdigit s = true)
  /\ (c = kNone -> Hex l = map tolower s)
  /\ (c <> kNone -> c = kInvalidArgs).
Proof.
  unfold FromHex. case_if; bool_to_prop.
  - exists [], kInvalidArgs. rewrite app_nil_r. naive_solver.
  - destruct (FromHex_loop_spec (length s) buf s) as (l & c & -> & H); [lia|done|].
    exists l, c. destruct H as [(-> & Hx & Hl)|(-> & Hx)]; rewrite ?Hx; naive_solver.
Qed.

(** [Hex] round trip, for every string and every byte list: decoding never
    aborts; it succeeds exactly on the strings of even length made of
    hexadecimal digits, and encoding the result gives the lower-case form of
    the string back; decoding an encoded byte list appends that list. *)
Theorem hex_roundtrip buf :
  (forall l, bytes l -> FromHex buf (Hex l) = Ok (buf ++ l, kNone))
  /\ (forall s, exists l c, FromHex buf s = Ok (buf ++ l, c)
       /\ (c = kNone <-> zlen s mod 2 = 0 /\ forallb isxdigit s = true)
       /\ (c = kNone -> Hex l = map tolower s)
       /\ (c <> kNone -> c = kInvalidArgs)).
Proof.
  split; [|apply FromHex_cases]. intros l Hl. unfold FromHex. rewrite length_Hex_even. simpl. by apply FromHex_loop_Hex.
Qed.

Lemma hex_roundtrip_witness : FromHex [7] (Hex [0; 171; 255]) = Ok ([7; 0; 171; 255], kNone).
Proof. apply (proj1 (hex_roundtrip [7])). repeat constructor; vm_compute; congruence. Defined.

(** *** Addresses *)

Lemma Hex_isxdigit l : bytes l -> forallb isxdigit (Hex l) = true.
Proof.
  induction 1 as [|b l Hb _ IH]; [done|]. simpl.
  destruct (byte_nibbles b Hb) as (H1 & H2 & _).
  by rewrite (proj1 (HexChar_nibble _ H1)), (proj1 (HexChar_nibble _ H2)), IH.
Qed.

#[export] Instance sample_InetLaws :
  Addr.InetLaws Addr.sample_pton4 Addr.sample_pton6 Addr.sample_ntop4 Addr.sample_ntop6.
Proof.
  split; unfold Addr.sample_pton6; [|done|].
  - intros a Ha Hl. exists (Hex a). split_and!; [done| |done|].
    + apply forallb_forall. intros c Hc. pose proof (Hex_isxdigit a Ha) as Hx.
      rewrite forallb_forall in Hx. unfold Addr.addr_char. by rewrite Hx.
    + unfold FromHex. rewrite length_Hex_even. cbn [negb Z.eqb]. rewrite FromHex_loop_Hex by done.
      cbn [app]. by rewrite bool_decide_eq_true_2, Hl.
  - intros s a. destruct (FromHex [] s) as [[b e]| |]; [|done..]. destruct e; try done.
    intros H. case_if; [|done]. simplify_eq. bool_to_prop. done.
Qed.

End CommonFacts.
