(* ===== verification/Crypto.v ===== *)
(** * CRC-16, steering data and key derivation

    [src/library/openthread/{crc16,bloom_filter,pbkdf2_cmac}.cpp] and the
    static functions of [src/library/commissioner_impl.cpp] that use them
    ([GeneratePSKc], [ComputeJoinerId], [AddJoiner]).  The SHA-256 and
    AES-CMAC primitives of mbedtls are parameters. *)

From S2P Require Import Prelude Outcome Common.
Import Endian.

(** ** CRC-16 *)
Module Crc16.

Inductive Polynomial : Type := kCcitt | kAnsi.

Definition Polynomial_value (p : Polynomial) : Z :=
  match p with kCcitt => 4129 | kAnsi => 32773 end.

Record Crc16 : Type := mkCrc16 { mPolynomial : Z; mCrc : Z }.

Definition Init (aPolynomial : Polynomial) : Crc16 :=
  mkCrc16 (u16 (Polynomial_value aPolynomial)) 0.

(** One turn of the bit loop. *)
Definition shift_step (P crc : Z) : Z :=
  if negb (Z.land crc 32768 =? 0) then Z.lxor (u16 (Z.shiftl crc 1)) P
  else u16 (Z.shiftl crc 1).

Definition Update (c : Crc16) (aByte : Z) : Crc16 :=
  mkCrc16 (mPolynomial c)
    (Nat.iter 8 (shift_step (mPolynomial c)) (Z.lxor (mCrc c) (u16 (Z.shiftl aByte 8)))).

Definition Get (c : Crc16) : Z := mCrc c.

End Crc16.

(** ** The Bloom filter of the steering data *)
Module BloomFilter.

(** [aOut[aOut.size() - 1 - (aBit / 8)] |= 1 << (aBit % 8)]. *)
Definition SetBit (aOut : ByteArray) (aBit : Z) : outcome ByteArray :=
  let i := zlen aOut - 1 - aBit / 8 in
  b ← rd aOut i; wr aOut i (u8 (Z.lor b (Z.shiftl 1 (aBit mod 8)))).

Definition feed (p : Crc16.Polynomial) (aIn : ByteArray) : Z :=
  Crc16.Get (fold_left Crc16.Update aIn (Crc16.Init p)).

Definition ComputeBloomFilter (aOut aIn : ByteArray) : outcome ByteArray :=
  let numBits := zlen aOut * 8 in
  VerifyOrDie negb (zlen aOut =? 0);;
  VerifyOrDie numBits <=? 255;;
  let ccitt := feed Crc16.kCcitt aIn in
  let ansi := feed Crc16.kAnsi aIn in
  aOut ← SetBit aOut (u8 (ccitt mod numBits));
  SetBit aOut (u8 (ansi mod numBits)).

Definition kMaxSteeringDataLength : Z := 16.

Definition AddJoiner (aSteeringData aJoinerId : ByteArray) : outcome ByteArray :=
  let aSteeringData :=
    if negb (zlen aSteeringData =? kMaxSteeringDataLength)
    then replicate (Z.to_nat kMaxSteeringDataLength) 0 else aSteeringData in
  ComputeBloomFilter aSteeringData aJoinerId.

Section JoinerId.
(** SHA-256 of mbedtls. *)
Context (sha256 : ByteArray -> ByteArray).

Definition kJoinerIdLength : Z := 8.
Definition kLocalExternalAddrMask : Z := Z.shiftl 1 1.

Definition ComputeJoinerId (aEui64 : Z) : outcome ByteArray :=
  let eui64 := Encode 8 [] aEui64 in
  let hash := sha256 eui64 in
  let joinerId := zsub hash 0 kJoinerIdLength in
  b ← rd joinerId 0;
  wr joinerId 0 (u8 (Z.lor b kLocalExternalAddrMask)).
End JoinerId.

(** [GetJoinerIid]: the interface identifier of a Joiner ID. *)
Definition flip_local_bit (l : ByteArray) : outcome ByteArray :=
  b ← rd l 0; wr l 0 (u8 (Z.lxor b kLocalExternalAddrMask)).

End BloomFilter.

(** ** PBKDF2 *)
Module Pbkdf2.

Section Prf.
(** AES-CMAC-PRF-128 of mbedtls: key and message to a block. *)
Context (prf : ByteArray -> ByteArray -> ByteArray).

(** The AES block, [MBEDTLS_CIPHER_BLKSIZE_MAX]. *)
Definition kBlockSize : Z := 16.
Definition OT_PBKDF2_SALT_MAX_LEN : Z := 30.

(** [for (j ...) a[j] ^= b[j]] over the words of a block. *)
Definition xor_block (a b : ByteArray) : ByteArray := zip_with Z.lxor a b.

(** The loop over [i], from U_{2i} in [prfOne]; [n] turns are left. *)
Fixpoint u_loop (n : nat) (pw prfOne keyBlock : ByteArray) : ByteArray :=
  match n with
  | O => keyBlock
  | S n =>
      let prfTwo := prf pw prfOne in
      let prfOne := prf pw prfTwo in
      u_loop n pw prfOne (xor_block keyBlock (xor_block prfOne prfTwo))
  end.

(** The loop over the blocks of the key; [fuel] bounds its turns. *)
Fixpoint block_loop (fuel : nat) (pw salt : ByteArray) (iter blockCounter keyLen : Z)
    (key : ByteArray) : outcome ByteArray :=
  if keyLen =? 0 then Ok key else
  match fuel with
  | O => Die
  | S fuel =>
      let blockCounter := u32 (blockCounter + 1) in
      let prfInput := salt ++ [u8 (Z.shiftr blockCounter 24); u8 (Z.shiftr blockCounter 16);
                               u8 (Z.shiftr blockCounter 8); u8 blockCounter] in
      let keyBlock := prf pw prfInput in
      let prfOne := prf pw keyBlock in
      let keyBlock := u_loop (Z.to_nat (iter - 1)) pw prfOne (xor_block keyBlock prfOne) in
      let useLen := if keyLen <? kBlockSize then keyLen else kBlockSize in
      block_loop fuel pw salt iter blockCounter (u16 (keyLen - useLen))
        (key ++ zsub keyBlock 0 useLen)
  end.

Definition otPbkdf2Cmac (aPassword aSalt : ByteArray) (aIterationCounter aKeyLen : Z)
    : outcome ByteArray :=
  (* [prfInput] holds the salt and the block counter. *)
  VerifyOrDie zlen aSalt <=? OT_PBKDF2_SALT_MAX_LEN;;
  VerifyOrDie aIterationCounter mod 2 =? 0;;
  block_loop (Z.to_nat aKeyLen) aPassword aSalt (aIterationCounter / 2) 0 aKeyLen [].

Definition kMinCommissionerCredentialLength : Z := 6.
Definition kMaxCommissionerCredentialLength : Z := 255.
Definition kMaxNetworkNameLength : Z := 16.
Definition kExtendedPanIdLength : Z := 8.
Definition kMaxPSKcLength : Z := 16.

Definition GeneratePSKc (aPassphrase aNetworkName : string_t) (aExtendedPanId : ByteArray)
    : outcome ByteArray :=
  VerifyOrExit (kMinCommissionerCredentialLength <=? zlen aPassphrase)
    && (zlen aPassphrase <=? kMaxCommissionerCredentialLength) else kInvalidArgs;;
  VerifyOrExit zlen aNetworkName <=? kMaxNetworkNameLength else kInvalidArgs;;
  VerifyOrExit zlen aExtendedPanId =? kExtendedPanIdLength else kInvalidArgs;;
  let salt := str "Thread" ++ aExtendedPanId ++ aNetworkName in
  otPbkdf2Cmac aPassphrase salt 16384 kMaxPSKcLength.

(** *** The reference: PBKDF2 of RFC 8018 *)

(** [U_1 = PRF (P, S || INT (i))] and [U_{j+1} = PRF (P, U_j)]. *)
Definition ref_U (pw first : ByteArray) (j : nat) : ByteArray := Nat.iter j (prf pw) first.

(** [F = U_1 xor ... xor U_c]. *)
Fixpoint ref_F (c : nat) (pw first : ByteArray) : ByteArray :=
  match c with
  | O => first
  | S c => xor_block (ref_F c pw first) (ref_U pw first (S c))
  end.

Definition ref_T (c : nat) (pw salt : ByteArray) (i : Z) : ByteArray :=
  ref_F (c - 1) pw (prf pw (salt ++ Encode 4 [] i)).

(** The first [len] bytes of [T_1 || ... || T_n] where [n = ceil (len / 16)]. *)
Definition ref_PBKDF2 (pw salt : ByteArray) (c : nat) (len : Z) : ByteArray :=
  zsub (concat (map (ref_T c pw salt) (seqZ 1 ((len + 15) / 16)))) 0 len.

End Prf.
End Pbkdf2.

(** ** Theorems *)

(** *** CRC-16 is the remainder of a division of polynomials over GF(2)

    A polynomial is the integer of its coefficients. *)
Module CrcFacts.
Import Crc16.

(** The product of a quotient, given by its coefficients from the highest one,
    and the divisor [G]. *)
Definition gf2_mul (q : list bool) (G : Z) : Z :=
  fold_left (fun acc b => Z.lxor (Z.shiftl acc 1) (if b : bool then G else 0)) q 0.

(** The message as an integer, first byte highest. *)
Definition be_value (l : ByteArray) : Z := fold_left (fun acc b => Z.lor (Z.shiftl acc 8) b) l 0.

Lemma gf2_mul_from a q G :
  fold_left (fun acc b => Z.lxor (Z.shiftl acc 1) (if b : bool then G else 0)) q a
  = Z.lxor (Z.shiftl a (zlen q)) (gf2_mul q G).
Proof.
  unfold gf2_mul. revert a; induction q as [|b q IH]; intros a; simpl.
  - unfold zlen; simpl. by rewrite Z.shiftl_0_r, Z.lxor_0_r.
  - rewrite IH, (IH (Z.lxor 0 _)), zlen_cons, !Z.shiftl_lxor, Z.shiftl_shiftl by lia.
    rewrite Z.shiftl_0_l, Z.lxor_0_l, Z.lxor_assoc. do 2 f_equal. lia.
Qed.

Lemma gf2_mul_app q r G :
  gf2_mul (q ++ r) G = Z.lxor (Z.shiftl (gf2_mul q G) (zlen r)) (gf2_mul r G).
Proof. unfold gf2_mul at 1. rewrite fold_left_app. apply gf2_mul_from. Qed.

Lemma testbit_high c n i : fits n c -> 0 <= n <= i -> Z.testbit c i = false.
Proof. intros [? ?] ?. rewrite <- (Z.mod_small c (2 ^ n)) by lia. apply Z.mod_pow2_bits_high; lia. Qed.

(** The top bit of the register, as the code tests it. *)
Definition top (c : Z) : bool := negb (Z.land c 32768 =? 0).

Lemma top_spec c : top c = Z.testbit c 15.
Proof.
  unfold top. change 32768 with (2 ^ 15). destruct (Z.testbit c 15) eqn:E.
  - apply negb_true_iff, Z.eqb_neq. intros H.
    apply (f_equal (fun z => Z.testbit z 15)) in H. revert H.
    rewrite Z.land_spec, Z.pow2_bits_true, E, Z.bits_0 by lia. done.
  - apply negb_false_iff, Z.eqb_eq. apply Z.bits_inj'; intros i Hi.
    rewrite Z.land_spec, Z.bits_0. destruct (decide (i = 15)) as [->|Hne]; [by rewrite E|].
    rewrite Z.pow2_bits_false by lia. by rewrite andb_false_r.
Qed.

Lemma u16_shiftl c :
  fits 16 c -> u16 (Z.shiftl c 1) = Z.lxor (Z.shiftl c 1) (if top c then 2 ^ 16 else 0).
Proof.
  intros H. rewrite top_spec. apply Z.bits_inj'; intros i Hi. unfold u16.
  rewrite Z.lxor_spec. destruct (decide (i < 16)) as [Hlt|Hge].
  - rewrite Z.mod_pow2_bits_low by lia. case_match; [|by rewrite Z.bits_0, xorb_false_r].
    by rewrite Z.pow2_bits_false, xorb_false_r by lia.
  - rewrite Z.mod_pow2_bits_high by lia. rewrite Z.shiftl_spec by lia.
    destruct (decide (i = 16)) as [->|Hne].
    + change (16 - 1) with 15. case_match; [by rewrite Z.pow2_bits_true by lia|].
      by rewrite Z.bits_0.
    + rewrite (testbit_high c 16) by (done || lia).
      case_match; [by rewrite Z.pow2_bits_false by lia | by rewrite Z.bits_0].
Qed.

(** A turn of the loop multiplies by [x] and subtracts the divisor if the
    degree reached 16. *)
Lemma shift_step_spec P c :
  fits 16 c -> shift_step P c = Z.lxor (Z.shiftl c 1) (if top c then Z.lxor (2 ^ 16) P else 0).
Proof.
  intros H. unfold shift_step. fold (top c). rewrite (u16_shiftl c H).
  destruct (top c); [by rewrite Z.lxor_assoc | by rewrite Z.lxor_0_r].
Qed.

Lemma lxor_fits w a b : 0 <= w -> fits w a -> fits w b -> fits w (Z.lxor a b).
Proof.
  intros Hw [Ha1 Ha2] [Hb1 Hb2]. split; [by apply Z.lxor_nonneg|].
  destruct (decide (Z.lxor a b < 2 ^ w)) as [|Hge]; [done|exfalso].
  assert (Hlt : 0 < Z.lxor a b) by (assert (0 < 2 ^ w) by (by apply Z.pow_pos_nonneg); lia).
  apply Z.nlt_ge in Hge as Hge'. apply Z.log2_le_pow2 in Hge'; [|done].
  pose proof (Z.bit_log2 _ Hlt) as Hb. rewrite Z.lxor_spec in Hb.
  rewrite !(testbit_high _ w) in Hb by done. done.
Qed.

Lemma shift_step_fits P c : fits 16 P -> fits 16 (shift_step P c).
Proof. intros. unfold shift_step. case_if; [apply lxor_fits|]; auto with ot lia. Qed.

Lemma lxor_cancel x g : Z.lxor g (Z.lxor x g) = x.
Proof. by rewrite (Z.lxor_comm x), <- Z.lxor_assoc, Z.lxor_nilpotent, Z.lxor_0_l. Qed.

Lemma iter_step_spec P n c :
  fits 16 P -> fits 16 c ->
  fits 16 (Nat.iter n (shift_step P) c) /\
  exists q, zlen q = Z.of_nat n /\
    Z.shiftl c (Z.of_nat n) = Z.lxor (gf2_mul q (Z.lxor (2 ^ 16) P)) (Nat.iter n (shift_step P) c).
Proof.
  intros HP Hc. induction n as [|n (Hn & q & Hq & IH)].
  - split; [done|]. exists []. split; [done|]. by rewrite Z.shiftl_0_r.
  - split; [by apply shift_step_fits|]. exists (q ++ [top (Nat.iter n (shift_step P) c)]).
    split; [autorewrite with ot; lia|]. simpl Nat.iter. rewrite shift_step_spec by done.
    replace (Z.of_nat (S n)) with (Z.of_nat n + 1) by lia.
    rewrite <- Z.shiftl_shiftl, IH, gf2_mul_app, Z.shiftl_lxor by lia.
    change (zlen [_]) with 1. unfold gf2_mul at 3. simpl fold_left.
    rewrite Z.shiftl_0_l, Z.lxor_0_l, !Z.lxor_assoc. f_equal.
    by rewrite lxor_cancel.
Qed.

Lemma shiftl_byte_fits b : is_byte b -> u16 (Z.shiftl b 8) = Z.shiftl b 8 /\ fits 16 (Z.shiftl b 8).
Proof.
  intros H. rewrite Z.shiftl_mul_pow2 by lia. unfold is_byte in H.
  assert (fits 16 (b * 2 ^ 8)) by zw. split; [by apply u16_id|done].
Qed.

(** One byte of the message. *)
Lemma Update_spec (p : Polynomial) c b m q :
  let G := Z.lxor (2 ^ 16) (Polynomial_value p) in
  mPolynomial c = Polynomial_value p -> fits 16 (mCrc c) -> is_byte b ->
  Z.shiftl m 16 = Z.lxor (gf2_mul q G) (mCrc c) ->
  fits 16 (mCrc (Update c b)) /\
  exists q', Z.shiftl (Z.lor (Z.shiftl m 8) b) 16 = Z.lxor (gf2_mul q' G) (mCrc (Update c b)).
Proof.
  intros G HP Hc Hb Hm. unfold Update; cbn [mCrc]. rewrite HP.
  destruct (shiftl_byte_fits b Hb) as [-> Hb'].
  assert (HG : fits 16 (Polynomial_value p)) by (destruct p; closed).
  destruct (iter_step_spec (Polynomial_value p) 8 (Z.lxor (mCrc c) (Z.shiftl b 8)))
    as (Hf & q' & Hq' & E); [done|by apply lxor_fits|].
  split; [done|]. exists (q ++ q'). fold G in E. change (Z.of_nat 8) with 8 in *.
  rewrite gf2_mul_app, Hq', Z.lxor_assoc, <- E, <- Z.shiftl_lxor, <- Z.lxor_assoc, <- Hm.
  rewrite Z.shiftl_lxor, !Z.shiftl_shiftl by lia. rewrite Z.shiftl_lor, Z.shiftl_shiftl by lia.
  rewrite (Z.lxor_lor (Z.shiftl m (8 + 16))); [done|].
  apply Z.bits_inj'; intros i Hi. rewrite Z.land_spec, Z.bits_0, !Z.shiftl_spec by lia.
  destruct (decide (i < 24)) as [Hlt|Hge]; [by rewrite (Z.testbit_neg_r m) by lia|].
  by rewrite (testbit_high b 8), andb_false_r by (done || lia).
Qed.

(** C39: The CRC of a message fits in 16 bits and is the remainder of the message
    times [x^16] by [x^16 + P]: the two differ by a multiple of the divisor. *)
Theorem crc16_is_remainder (p : Polynomial) (l : ByteArray) :
  bytes l ->
  fits 16 (BloomFilter.feed p l) /\
  exists q, Z.shiftl (be_value l) 16
    = Z.lxor (gf2_mul q (Z.lxor (2 ^ 16) (Polynomial_value p))) (BloomFilter.feed p l).
Proof.
  unfold BloomFilter.feed, be_value, Get. intros Hl.
  assert (E : mPolynomial (Init p) = Polynomial_value p) by (by destruct p).
  assert (Hf : fits 16 (mCrc (Init p))) by closed.
  assert (H0 : Z.shiftl 0 16 = Z.lxor (gf2_mul [] (Z.lxor (2 ^ 16) (Polynomial_value p)))
                                      (mCrc (Init p))) by done.
  revert E Hf H0. generalize (Init p) as c, (@nil bool) as q, 0 as m.
  induction Hl as [|b l Hb Hl IH]; intros c q m E Hf H0; simpl; [by eauto|].
  destruct (Update_spec p c b m q) as (Hf' & q' & H'); [done..|].
  by apply (IH (Update c b) q').
Qed.

Lemma crc16_is_remainder_witness :
  fits 16 (BloomFilter.feed kCcitt (str "123456789"))
  /\ BloomFilter.feed kCcitt (str "123456789") = 12739.
Proof.
  split; [|by vm_compute]. apply (crc16_is_remainder kCcitt). closed.
Defined.

End CrcFacts.

(** *** Steering data *)
Module SteeringFacts.
Import BloomFilter.

(** Bit [k] of a filter, numbered from the last byte as in the Thread
    specification. *)
Definition bit (f : ByteArray) (k : Z) : bool :=
  Z.testbit (f !!! Z.to_nat (zlen f - 1 - k / 8)) (k mod 8).

Definition in_range (f : ByteArray) (k : Z) : Prop := 0 <= k < 8 * zlen f.

(** A filter admits an identifier when the two bits it hashes to are set. *)
Definition admits (f id : ByteArray) : bool :=
  bit f (feed Crc16.kCcitt id mod (zlen f * 8)) && bit f (feed Crc16.kAnsi id mod (zlen f * 8)).

(** Length and byte range, which every operation on filters keeps. *)
Definition filter_ok (n : Z) (f : ByteArray) : Prop := bytes f /\ zlen f = n.

Lemma rd_total {A} `{Inhabited A} (l : list A) i : 0 <= i < zlen l -> rd l i = Ok (l !!! Z.to_nat i).
Proof.
  intros Hi. destruct (rd_ok l i Hi) as (b & E & _). rewrite E. unfold rd in E. case_if; [|done].
  destruct (l !! Z.to_nat i) eqn:El; [|done]. simplify_eq. by rewrite (list_lookup_total_correct _ _ _ El).
Qed.

Lemma wr_ok {A} (l : list A) i x : 0 <= i < zlen l -> wr l i x = Ok (<[Z.to_nat i := x]> l).
Proof. intros. unfold wr. rewrite (proj2 (Z.leb_le 0 i)), (proj2 (Z.ltb_lt i _)) by lia. done. Qed.

Lemma byte_lor_bit b k : is_byte b -> 0 <= k < 8 -> u8 (Z.lor b (Z.shiftl 1 k)) = Z.lor b (Z.shiftl 1 k).
Proof.
  intros Hb Hk. apply u8_id. unfold is_byte, fits in *. split; [apply Z.lor_nonneg; split; [lia|]|].
  { apply Z.shiftl_nonneg; lia. }
  rewrite Z.shiftl_1_l. destruct (decide (Z.lor b (2 ^ k) = 0)) as [->|Hne]; [done|].
  assert (0 <= 2 ^ k) by (apply Z.pow_nonneg; lia).
  assert (0 < Z.lor b (2 ^ k)) by (pose proof (proj2 (Z.lor_nonneg b (2 ^ k))); lia).
  apply Z.log2_lt_pow2; [done|]. rewrite Z.log2_lor, Z.log2_pow2 by lia.
  apply Z.max_lub_lt; [|lia]. destruct (decide (b = 0)) as [->|]; [done|].
  apply Z.log2_lt_pow2; lia.
Qed.

Lemma SetBit_spec n f k :
  filter_ok n f -> in_range f k ->
  exists f', SetBit f k = Ok f' /\ filter_ok n f' /\
    forall j, in_range f j -> bit f' j = bit f j || (j =? k).
Proof.
  intros [Hb Hn] Hk. unfold in_range in *. unfold SetBit.
  assert (Hi : 0 <= zlen f - 1 - k / 8 < zlen f) by (Z.to_euclidean_division_equations; lia).
  rewrite (rd_total f _ Hi). cbn [mbind outcome_bind]. rewrite (wr_ok f _ _ Hi).
  set (i := Z.to_nat (zlen f - 1 - k / 8)).
  assert (Hil : (i < length f)%nat) by (unfold i, zlen in *; lia).
  destruct (lookup_lt_is_Some_2 f i Hil) as [b Eb].
  rewrite (list_lookup_total_correct _ _ _ Eb).
  assert (Hbb : is_byte b) by (by eapply Forall_lookup_1).
  assert (Hk8 : 0 <= k mod 8 < 8) by (apply Z.mod_pos_bound; lia).
  rewrite byte_lor_bit by done. eexists; split; [done|]. split.
  { split; [|unfold zlen in *; rewrite length_insert; lia]. apply Forall_insert; [done|].
    rewrite <- byte_lor_bit by done. apply u8_byte. }
  intros j Hj. unfold bit, zlen. rewrite length_insert. fold (zlen f).
  destruct (decide (k / 8 = j / 8)) as [Ej|Ej].
  - rewrite <- Ej. fold i. rewrite list_lookup_total_insert_eq by done.
    rewrite (list_lookup_total_correct _ _ _ Eb), Z.lor_spec, Z.shiftl_1_l. f_equal.
    assert (0 <= j mod 8 < 8) by (apply Z.mod_pos_bound; lia).
    rewrite Z.pow2_bits_eqb by lia. apply eq_iff_eq_true. rewrite !Z.eqb_eq.
    Z.to_euclidean_division_equations; lia.
  - rewrite list_lookup_total_insert_ne.
    2:{ intros E. apply Ej. unfold i in E. Z.to_euclidean_division_equations; lia. }
    replace (j =? k) with false; [by rewrite orb_false_r|].
    symmetry; apply Z.eqb_neq; congruence.
Qed.

Lemma feed_mod_range p f id : 0 < zlen f -> in_range f (feed p id mod (zlen f * 8)).
Proof. intros. unfold in_range. pose proof (Z.mod_pos_bound (feed p id) (zlen f * 8)). lia. Qed.

Lemma mod_byte a n : 0 < n <= 255 -> is_byte (a mod n).
Proof. intros. pose proof (Z.mod_pos_bound a n). zw. Qed.

Lemma ComputeBloomFilter_spec n f id :
  filter_ok n f -> 0 < n <= 31 ->
  exists f', ComputeBloomFilter f id = Ok f' /\ filter_ok n f' /\
    forall j, in_range f j -> bit f' j = bit f j || (j =? feed Crc16.kCcitt id mod (n * 8))
                                        || (j =? feed Crc16.kAnsi id mod (n * 8)).
Proof.
  intros Hf Hn. pose proof Hf as [Hb Hl]. unfold ComputeBloomFilter.
  rewrite (proj2 (Z.eqb_neq (zlen f) 0)), (proj2 (Z.leb_le (zlen f * 8) 255)) by lia.
  cbn [negb]; cbv zeta.
  rewrite !(u8_id (_ mod _)) by (apply mod_byte; lia).
  destruct (SetBit_spec n f (feed Crc16.kCcitt id mod (zlen f * 8))) as (f1 & -> & Hf1 & H1);
    [done|apply feed_mod_range; lia|]. cbn [mbind outcome_bind].
  assert (E1 : zlen f1 = zlen f) by (destruct Hf1; lia).
  destruct (SetBit_spec n f1 (feed Crc16.kAnsi id mod (zlen f * 8))) as (f2 & -> & Hf2 & H2);
    [done| rewrite <- E1; apply feed_mod_range; lia|].
  exists f2; split_and!; [done..|]. intros j Hj. rewrite H2 by (unfold in_range in *; lia).
  rewrite H1 by done. by rewrite Hl.
Qed.

(** An added identifier is admitted, and whatever the filter admitted before still is. *)
Lemma ComputeBloomFilter_admits n f id :
  filter_ok n f -> 0 < n <= 31 ->
  exists f', ComputeBloomFilter f id = Ok f' /\ filter_ok n f' /\ admits f' id = true /\
    (forall id', admits f id' = true -> admits f' id' = true).
Proof.
  intros Hf Hn. destruct (ComputeBloomFilter_spec n f id Hf Hn) as (f' & E & Hf' & H).
  exists f'; split_and!; [done..| |].
  - destruct Hf as [_ Hl], Hf' as [_ Hl']. unfold admits. rewrite Hl', !H, !Z.eqb_refl, !orb_true_r; [done|..].
    all: rewrite <- Hl; apply feed_mod_range; lia.
  - intros id' Hi. destruct Hf as [_ Hl], Hf' as [_ Hl']. unfold admits in *.
    rewrite Hl in Hi. rewrite Hl'. apply andb_true_iff in Hi as [H1 H2].
    rewrite !H, H1, H2; [done|..]. all: rewrite <- Hl; apply feed_mod_range; lia.
Qed.

(** C38: Adding an identifier to a filter of 1 to 31 bytes never fails, keeps its
    length, sets exactly the two bits the identifier hashes to, and so the
    filter admits it and whatever it admitted before. *)
Theorem bloom_filter_exact n f id :
  filter_ok n f -> 0 < n <= 31 ->
  exists f', ComputeBloomFilter f id = Ok f' /\ filter_ok n f' /\
    (forall j, in_range f j -> bit f' j = bit f j || (j =? feed Crc16.kCcitt id mod (n * 8))
                                        || (j =? feed Crc16.kAnsi id mod (n * 8))) /\
    admits f' id = true /\ (forall id', admits f id' = true -> admits f' id' = true).
Proof.
  intros Hf Hn. destruct (ComputeBloomFilter_spec n f id Hf Hn) as (f' & E & Hf' & H).
  destruct (ComputeBloomFilter_admits n f id Hf Hn) as (f'' & E' & _ & Ha).
  rewrite E in E'. simplify_eq. by exists f''.
Qed.

Lemma bloom_filter_exact_witness :
  exists f', ComputeBloomFilter [1; 0; 128] [1; 2; 3; 4; 5; 6; 7; 8] = Ok f' /\
    admits f' [1; 2; 3; 4; 5; 6; 7; 8] = true.
Proof.
  pose proof (bloom_filter_exact 3 [1; 0; 128] [1; 2; 3; 4; 5; 6; 7; 8]) as H.
  destruct H as (f & H1 & _ & _ & H2 & _); [split; [closed|reflexivity] | lia |].
  exists f. split; assumption.
Defined.

End SteeringFacts.

(** *** Key derivation *)
Module Pbkdf2Facts.
Import Pbkdf2.

Lemma xor_block_comm a b : xor_block a b = xor_block b a.
Proof. unfold xor_block. revert b; induction a as [|x a IH]; intros [|y b]; simpl; [done..|]. by rewrite Z.lxor_comm, IH. Qed.

Lemma xor_block_assoc a b c : xor_block a (xor_block b c) = xor_block (xor_block a b) c.
Proof.
  unfold xor_block. revert b c; induction a as [|x a IH]; intros [|y b] [|z c]; simpl; [done..|].
  by rewrite Z.lxor_assoc, IH.
Qed.

Section Prf.
Context (prf : ByteArray -> ByteArray -> ByteArray).
Context (prf_block : forall k m, length (prf k m) = 16%nat).

(** Two iterations per turn compute the same sum as one by one. *)
Lemma u_loop_ref n pw first j :
  u_loop prf n pw (ref_U prf pw first j) (ref_F prf j pw first)
  = ref_F prf (j + 2 * n) pw first.
Proof using Type.
  revert j; induction n as [|n IH]; intros j.
  - by rewrite Nat.mul_0_r, Nat.add_0_r.
  - replace (j + 2 * S n)%nat with (S (S j) + 2 * n)%nat by lia. rewrite <- IH. simpl.
    f_equal. rewrite (xor_block_comm (prf _ _)). apply xor_block_assoc.
Qed.

Lemma length_ref_F c pw first : length first = 16%nat -> length (ref_F prf c pw first) = 16%nat.
Proof using prf_block.
  intros H. induction c as [|c IH]; simpl; [done|]. unfold xor_block.
  rewrite length_zip_with, IH, prf_block. done.
Qed.

Lemma block_counter_bytes i :
  [u8 (Z.shiftr i 24); u8 (Z.shiftr i 16); u8 (Z.shiftr i 8); u8 i] = Encode 4 [] i.
Proof using Type.
  unfold Encode; simpl. rewrite !Z.shiftr_shiftr by lia. unfold u8.
  change 255 with (2 ^ 8 - 1). by rewrite !land_low_mask by lia.
Qed.

(** The keys of the remaining blocks, [T_{i+1} || ...]. *)
Definition blocks (c : nat) pw salt (i len : Z) : ByteArray :=
  concat (map (ref_T prf c pw salt) (seqZ (i + 1) ((len + 15) / 16))).

Lemma blocks_ref c pw salt len :
  [] ++ take (Z.to_nat len) (blocks c pw salt 0 len) = ref_PBKDF2 prf pw salt c len.
Proof using Type. reflexivity. Qed.

Lemma blocks_step c pw salt i len :
  0 < len -> blocks c pw salt i len = ref_T prf c pw salt (i + 1) ++ blocks c pw salt (i + 1) (len - 16).
Proof using Type.
  intros H. unfold blocks. rewrite seqZ_cons by (Z.to_euclidean_division_equations; lia).
  rewrite map_cons, concat_cons. do 3 f_equal.
  all: replace (Z.succ (i + 1)) with (i + 1 + 1) by lia; f_equal.
  Z.to_euclidean_division_equations; lia.
Qed.

Lemma block_loop_ref (c h : nat) pw salt fuel : forall i len key,
  c = (2 * h)%nat -> (1 <= h)%nat -> Z.of_nat h < 2 ^ 32 -> 0 <= i -> i + len < 2 ^ 16 -> 0 <= len ->
  (Z.to_nat len <= fuel)%nat ->
  block_loop prf fuel pw salt (Z.of_nat h) i len key
  = Ok (key ++ take (Z.to_nat len) (blocks c pw salt i len)).
Proof using prf_block.
  induction fuel as [|fuel IH]; intros i len key Hc Hh Hh32 Hi Hlen Hl0 Hf.
  - assert (len = 0) as -> by lia. simpl. by rewrite app_nil_r.
  - simpl. case_if; bool_to_prop; [subst; by rewrite take_0, app_nil_r|].
    assert (Hu : u32 (i + 1) = i + 1) by (apply Z.mod_small; lia). rewrite Hu.
    rewrite block_counter_bytes.
    pose (first := prf pw (salt ++ Encode 4 [] (i + 1))).
    pose proof (u_loop_ref (h - 1) pw first 1) as HU.
    assert (ET : ref_F prf (1 + 2 * (h - 1)) pw first = ref_T prf c pw salt (i + 1)).
    { unfold ref_T. fold first. f_equal. lia. }
    rewrite ET in HU. unfold ref_U in HU. simpl in HU.
    replace (Z.to_nat (Z.of_nat h - 1)) with (h - 1)%nat by lia. fold first. rewrite HU.
    assert (HTl : length (ref_T prf c pw salt (i + 1)) = 16%nat)
      by (apply length_ref_F, prf_block).
    rewrite (blocks_step _ _ _ i len) by lia.
    unfold zsub. rewrite drop_0. unfold kBlockSize. case_if; bool_to_prop.
    + rewrite Z.sub_diag. unfold u16. rewrite Z.mod_0_l by lia.
      rewrite (IH (i + 1) 0) by lia. rewrite take_0, app_nil_r.
      by rewrite take_app_le by lia.
    + rewrite u16_id by zw. rewrite IH by lia.
      rewrite <- app_assoc. f_equal. f_equal.
      rewrite (take_app_ge _ _ (Z.to_nat len)) by lia. rewrite HTl.
      rewrite (take_ge (ref_T _ _ _ _ _)) by lia. do 2 f_equal. lia.
Qed.

(** C40: The derivation that [GeneratePSKc] uses is PBKDF2 of RFC 8018: for an even
    iteration count, a salt that fits the buffer and any key length the code
    can be asked for, the unrolled loops produce the reference key. *)
Theorem pbkdf2_is_rfc8018 pw salt (h : nat) len :
  (1 <= h)%nat -> Z.of_nat (2 * h) < 2 ^ 32 -> zlen salt <= OT_PBKDF2_SALT_MAX_LEN ->
  0 <= len < 2 ^ 16 ->
  otPbkdf2Cmac prf pw salt (Z.of_nat (2 * h)) len = Ok (ref_PBKDF2 prf pw salt (2 * h) len).
Proof using prf_block.
  intros Hh Hh32 Hs Hl. unfold otPbkdf2Cmac.
  rewrite (proj2 (Z.leb_le _ _) Hs).
  replace (Z.of_nat (2 * h)) with (Z.of_nat h * 2) by lia.
  rewrite Z.mod_mul, Z.div_mul by lia. rewrite Z.eqb_refl.
  rewrite (block_loop_ref (2 * h) h) by lia. by rewrite blocks_ref.
Qed.

End Prf.

(** A PRF that satisfies the hypothesis, to evaluate the loops on. *)
Definition toy_prf (k m : ByteArray) : ByteArray :=
  map (fun i => u8 (fold_left Z.add (k ++ m) (17 * i))) (seqZ 0 16).

Lemma pbkdf2_is_rfc8018_witness :
  otPbkdf2Cmac toy_prf [1; 2] [3; 4] 6 20 = Ok (ref_PBKDF2 toy_prf [1; 2] [3; 4] 6 20).
Proof.
  apply (pbkdf2_is_rfc8018 toy_prf (fun _ _ => eq_refl) [1; 2] [3; 4] 3 20); closed; lia.
Defined.

(** [GeneratePSKc] checks its arguments in the documented ranges, and within
    them the salt always fits the buffer and the key is the 16-byte PBKDF2 of
    "Thread", the extended PAN ID and the network name with 16384 rounds. *)
Theorem GeneratePSKc_spec prf (prf_block : forall k m, length (prf k m) = 16%nat) pw name xpan :
  GeneratePSKc prf pw name xpan =
    if bool_decide (6 <= zlen pw <= 255 /\ zlen name <= 16 /\ zlen xpan = 8)
    then Ok (ref_PBKDF2 prf pw (str "Thread" ++ xpan ++ name) (Z.to_nat 16384) 16)
    else Err kInvalidArgs.
Proof.
  unfold GeneratePSKc, kMinCommissionerCredentialLength, kMaxCommissionerCredentialLength,
    kMaxNetworkNameLength, kExtendedPanIdLength.
  case_bool_decide as H.
  - destruct H as (Hp & Hn & Hx).
    rewrite (proj2 (Z.leb_le 6 _)), (proj2 (Z.leb_le _ 255)), (proj2 (Z.leb_le _ 16)), Hx by lia.
    cbn [andb]. change (8 =? 8) with true. cbv iota.
    unfold otPbkdf2Cmac, OT_PBKDF2_SALT_MAX_LEN, kMaxPSKcLength.
    rewrite (proj2 (Z.leb_le _ 30)) by (autorewrite with ot; change (zlen (str "Thread")) with 6; lia).
    change (16384 mod 2 =? 0) with true. cbv iota. replace (16384 / 2) with (Z.of_nat (Z.to_nat 8192)) by (rewrite Z2Nat.id; [reflexivity|lia]).
    rewrite (block_loop_ref prf prf_block (Z.to_nat 16384) (Z.to_nat 8192)) by lia. by rewrite blocks_ref.
  - repeat case_if; try done. exfalso; apply H; bool_to_prop; lia.
Qed.

Lemma GeneratePSKc_spec_witness :
  GeneratePSKc toy_prf (str "12SECRETPASSWORD34") (str "Test Network") [0; 1; 2; 3; 4; 5; 6; 7]
    = Ok (ref_PBKDF2 toy_prf (str "12SECRETPASSWORD34")
            (str "Thread" ++ [0; 1; 2; 3; 4; 5; 6; 7] ++ str "Test Network") (Z.to_nat 16384) 16)
  /\ GeneratePSKc toy_prf (str "short") [] [] = Err kInvalidArgs.
Proof.
  split; [|reflexivity].
  rewrite (GeneratePSKc_spec toy_prf (fun _ _ => eq_refl)).
  rewrite bool_decide_eq_true_2 by (vm_compute; repeat split; congruence). reflexivity.
Defined.

End Pbkdf2Facts.
