(* ===== verification/OMap.v ===== *)
(** * Ordered maps

    [std::map] with integer keys, as the list of its elements in iteration
    order: used where the code iterates over a map and the order matters. *)

From S2P Require Import Prelude.
From Stdlib Require Import Sorted.

Section OMap.
Context {V : Type}.
Abbreviation omap_t := (list (Z * V)) (only parsing).

(** [find] *)
Fixpoint om_find (k : Z) (m : omap_t) : option V :=
  match m with
  | [] => None
  | (k', v) :: m => if k =? k' then Some v else om_find k m
  end.

(** [m[k] = v] *)
Fixpoint om_set (k : Z) (v : V) (m : omap_t) : omap_t :=
  match m with
  | [] => [(k, v)]
  | (k', v') :: m' =>
      if k <? k' then (k, v) :: m
      else if k =? k' then (k, v) :: m' else (k', v') :: om_set k v m'
  end.

(** [emplace]: no effect if the key is present. *)
Definition om_emplace (k : Z) (v : V) (m : omap_t) : omap_t :=
  match om_find k m with Some _ => m | None => om_set k v m end.

(** Keys strictly increase. *)
Definition om_sorted (m : omap_t) : Prop := StronglySorted Z.lt (map fst m).

Lemma om_sorted_cons k v m : om_sorted ((k, v) :: m) <-> om_sorted m /\ Forall (fun p => k < p.1) m.
Proof.
  unfold om_sorted; simpl. split.
  - intros H; inversion H; subst. split; [done|]. by apply (Forall_fmap fst (Z.lt k)).
  - intros [H1 H2]. constructor; [done|]. by apply (Forall_fmap fst (Z.lt k)).
Qed.

Lemma om_find_None_lt k m : Forall (fun p : Z * V => k < p.1) m -> om_find k m = None.
Proof.
  induction 1 as [|[k' v] m H _ IH]; simpl in *; [done|].
  rewrite (proj2 (Z.eqb_neq _ _)) by lia. done.
Qed.

Lemma om_find_set k v k' m :
  om_sorted m -> om_find k' (om_set k v m) = if k' =? k then Some v else om_find k' m.
Proof.
  induction m as [|[k0 v0] m IH]; intros Hs; simpl; [done|].
  apply om_sorted_cons in Hs as [Hs Hlt].
  destruct (k <? k0) eqn:E1; [by simpl|]. destruct (k =? k0) eqn:E2; simpl.
  - bool_to_prop; subst. by destruct (k' =? k0).
  - rewrite IH by done. destruct (k' =? k0) eqn:E3; [|done]. bool_to_prop; subst.
    by rewrite (proj2 (Z.eqb_neq _ _)) by lia.
Qed.

Lemma om_set_Forall (P : Z * V -> Prop) k v m : P (k, v) -> Forall P m -> Forall P (om_set k v m).
Proof.
  intros Hk H; induction H as [|[k0 v0] m H0 Hm IH]; simpl; [by repeat constructor|].
  repeat case_if; by repeat constructor.
Qed.

Lemma om_set_sorted k v m : om_sorted m -> om_sorted (om_set k v m).
Proof.
  induction m as [|[k0 v0] m IH]; intros Hs; simpl; [apply om_sorted_cons; split; constructor|].
  pose proof Hs as Hs'. apply om_sorted_cons in Hs as [Hs Hlt].
  destruct (k <? k0) eqn:E1; [|destruct (k =? k0) eqn:E2]; bool_to_prop; apply om_sorted_cons.
  - split; [done|]. constructor; [done|]. eapply Forall_impl; [done|]. simpl; intros; lia.
  - subst. done.
  - split; [auto|]. apply om_set_Forall; [simpl; lia|done].
Qed.

Lemma om_emplace_sorted k v m : om_sorted m -> om_sorted (om_emplace k v m).
Proof. intros. unfold om_emplace. case_match; [done|]. by apply om_set_sorted. Qed.

(** A key above all others goes to the end. *)
Lemma om_set_last k v m : Forall (fun p : Z * V => p.1 < k) m -> om_set k v m = m ++ [(k, v)].
Proof.
  induction 1 as [|[k0 v0] m H0 Hm IH]; simpl in *; [done|].
  rewrite (proj2 (Z.ltb_ge _ _)), (proj2 (Z.eqb_neq _ _)), IH by lia. done.
Qed.

Lemma om_find_None_gt k m : Forall (fun p : Z * V => p.1 < k) m -> om_find k m = None.
Proof.
  induction 1 as [|[k' v] m H _ IH]; simpl in *; [done|].
  rewrite (proj2 (Z.eqb_neq _ _)) by lia. done.
Qed.

Lemma om_find_app k m1 m2 :
  om_find k (m1 ++ m2) = match om_find k m1 with Some v => Some v | None => om_find k m2 end.
Proof. induction m1 as [|[k' v] m1 IH]; simpl; [done|]. by destruct (k =? k'). Qed.

(** Setting the last key again replaces it. *)
Lemma om_set_snoc k v v' m :
  Forall (fun p : Z * V => p.1 < k) m -> om_set k v (m ++ [(k, v')]) = m ++ [(k, v)].
Proof.
  induction 1 as [|[k0 v0] m H0 Hm IH]; simpl in *.
  - by rewrite Z.ltb_irrefl, Z.eqb_refl.
  - rewrite (proj2 (Z.ltb_ge _ _)), (proj2 (Z.eqb_neq _ _)), IH by lia. done.
Qed.

(** A sorted map is determined by its lookups. *)
Lemma om_sorted_ext m1 m2 :
  om_sorted m1 -> om_sorted m2 -> (forall k, om_find k m1 = om_find k m2) -> m1 = m2.
Proof.
  revert m2; induction m1 as [|[k1 v1] m1 IH]; intros [|[k2 v2] m2] H1 H2 E.
  - done.
  - specialize (E k2). simpl in E. by rewrite Z.eqb_refl in E.
  - specialize (E k1). simpl in E. by rewrite Z.eqb_refl in E.
  - apply om_sorted_cons in H1 as [H1 L1], H2 as [H2 L2].
    assert (k1 = k2) as ->.
    { destruct (Z.lt_trichotomy k1 k2) as [Hlt|[|Hlt]]; [|done|].
      - specialize (E k1). simpl in E. rewrite Z.eqb_refl, (proj2 (Z.eqb_neq _ _)) in E by lia.
        rewrite om_find_None_lt in E; [done|]. eapply Forall_impl; [exact L2|]. simpl; lia.
      - specialize (E k2). simpl in E. rewrite Z.eqb_refl, (proj2 (Z.eqb_neq _ _)) in E by lia.
        rewrite om_find_None_lt in E; [done|]. eapply Forall_impl; [exact L1|]. simpl; lia. }
    pose proof (E k2) as Ek. simpl in Ek. rewrite Z.eqb_refl in Ek. injection Ek as ->.
    f_equal. apply IH; [done..|]. intros k. specialize (E k). simpl in E.
    destruct (Z.eqb_spec k k2) as [Ek2|Hne]; [|done]. rewrite Ek2.
    by rewrite !om_find_None_lt.
Qed.

End OMap.
