(* ===== verification/Tlv.v ===== *)
(** * Thread TLVs

    [src/library/tlv.{hpp,cpp}]: the TLV types, [Tlv::Serialize],
    [Tlv::Deserialize], [Tlv::IsValid], [GetTlvSet], [GetTlv] and
    [IsDatasetParameter]. *)

From S2P Require Import Prelude Outcome Common.
Import Endian.

Module Tlv.

(** ** Types

    [enum class Type : uint8_t]: several enumerators share a value (the Thread
    network layer and the MeshCoP TLVs are told apart by the scope), and any
    byte received is cast to it, so a type is a byte. *)

Definition kThreadStatus : Z := 4.
Definition kThreadTimeout : Z := 11.
Definition kThreadIpv6Addresses : Z := 14.
Definition kThreadCommissionerSessionId : Z := 15.
Definition kThreadCommissionerToken : Z := 63.
Definition kThreadCommissionerSignature : Z := 64.
Definition kChannel : Z := 0.
Definition kPanId : Z := 1.
Definition kExtendedPanId : Z := 2.
Definition kNetworkName : Z := 3.
Definition kPSKc : Z := 4.
Definition kNetworkMasterKey : Z := 5.
Definition kNetworkKeySequenceCounter : Z := 6.
Definition kNetworkMeshLocalPrefix : Z := 7.
Definition kSteeringData : Z := 8.
Definition kBorderAgentLocator : Z := 9.
Definition kCommissionerId : Z := 10.
Definition kCommissionerSessionId : Z := 11.
Definition kActiveTimestamp : Z := 14.
Definition kCommissionerUdpPort : Z := 15.
Definition kSecurityPolicy : Z := 12.
Definition kPendingTimestamp : Z := 51.
Definition kDelayTimer : Z := 52.
Definition kChannelMask : Z := 53.
Definition kGet : Z := 13.
Definition kState : Z := 16.
Definition kJoinerDtlsEncapsulation : Z := 17.
Definition kJoinerUdpPort : Z := 18.
Definition kJoinerIID : Z := 19.
Definition kJoinerRouterLocator : Z := 20.
Definition kJoinerRouterKEK : Z := 21.
Definition kCount : Z := 54.
Definition kPeriod : Z := 55.
Definition kScanDuration : Z := 56.
Definition kEnergyList : Z := 57.
Definition kSecureDissemination : Z := 58.
Definition kProvisioningURL : Z := 32.
Definition kVendorName : Z := 33.
Definition kVendorModel : Z := 34.
Definition kVendorSWVersion : Z := 35.
Definition kVendorData : Z := 36.
Definition kVendorStackVersion : Z := 37.
Definition kUdpEncapsulation : Z := 48.
Definition kIpv6Address : Z := 49.
Definition kDomainName : Z := 59.
Definition kDomainPrefix : Z := 60.
Definition kAeSteeringData : Z := 61.
Definition kNmkpSteeringData : Z := 62.
Definition kCommissionerToken : Z := 63.
Definition kCommissionerSignature : Z := 64.
Definition kAeUdpPort : Z := 65.
Definition kNmkpUdpPort : Z := 66.
Definition kTriHostname : Z := 67.
Definition kRegistrarIpv6Address : Z := 68.
Definition kRegistrarHostname : Z := 69.
Definition kCommissionerPenSignature : Z := 70.
Definition kDiscoveryRequest : Z := 128.
Definition kDiscoveryResponse : Z := 129.

Inductive Scope : Type := kMeshCoP | kThread | kMeshLink.

#[export] Instance Scope_eq_dec : EqDecision Scope.
Proof. solve_decision. Defined.

Definition kEscapeLength : Z := 255.
Definition kJoinerRouterKekLength : Z := 16.
(** The values of the State TLV. *)
Definition kStateReject : Z := -1.
Definition kStateAccept : Z := 1.
Definition kStatePending : Z := 0.

Record Tlv : Type := mkTlv { mScope : Scope; mType : Z; mValue : ByteArray }.

#[export] Instance Tlv_eq_dec : EqDecision Tlv.
Proof. solve_decision. Defined.

(** The constructors from integers and strings. *)
Definition Tlv_bytes (aType : Z) (aValue : ByteArray) : Tlv := mkTlv kMeshCoP aType aValue.
Definition Tlv_u8 (aType aValue : Z) : Tlv := mkTlv kMeshCoP aType [u8 aValue].
Definition Tlv_u16 (aType aValue : Z) : Tlv := mkTlv kMeshCoP aType (Encode 2 [] aValue).
Definition Tlv_u32 (aType aValue : Z) : Tlv := mkTlv kMeshCoP aType (Encode 4 [] aValue).
Definition Tlv_u64 (aType aValue : Z) : Tlv := mkTlv kMeshCoP aType (Encode 8 [] aValue).

Definition IsExtendedTlv (aType : Z) : bool :=
  (aType =? kUdpEncapsulation) || (aType =? kCommissionerToken) || (aType =? kJoinerDtlsEncapsulation).

Definition GetLength (t : Tlv) : Z := u16 (zlen (mValue t)).

(** ** Validity *)

(** A [switch] over types: the first matching case, or the default. *)
Fixpoint switch {A} (cases : list (Z * A)) (default : A) (aType : Z) : A :=
  match cases with
  | [] => default
  | (t, a) :: cases => if aType =? t then a else switch cases default aType
  end.

Definition thread_rules : list (Z * (Z -> bool)) :=
  [(kThreadStatus, fun length => length =? 1);
   (kThreadTimeout, fun length => length =? 4);
   (kThreadIpv6Addresses, fun length =>
      (length mod 16 =? 0) && ((1 <=? length / 16) && (length / 16 <=? 15)));
   (kThreadCommissionerSessionId, fun length => length =? 2);
   (kThreadCommissionerToken, fun _ => true);
   (kThreadCommissionerSignature, fun length => length <? kEscapeLength)].

Definition mesh_cop_rules : list (Z * (Z -> bool)) :=
  [(kChannel, fun length => length =? 3);
   (kPanId, fun length => length =? 2);
   (kExtendedPanId, fun length => length =? 8);
   (kNetworkName, fun length => length <=? 16);
   (kPSKc, fun length => length <=? 16);
   (kNetworkMasterKey, fun length => length =? 16);
   (kNetworkKeySequenceCounter, fun length => length =? 4);
   (kNetworkMeshLocalPrefix, fun length => length =? 8);
   (kSteeringData, fun length => length <=? 16);
   (kBorderAgentLocator, fun length => length =? 2);
   (kCommissionerId, fun length => length <=? 64);
   (kCommissionerSessionId, fun length => length =? 2);
   (kActiveTimestamp, fun length => length =? 8);
   (kCommissionerUdpPort, fun length => length =? 2);
   (kSecurityPolicy, fun length => (length =? 3) || (length =? 4));
   (kPendingTimestamp, fun length => length =? 8);
   (kDelayTimer, fun length => length =? 4);
   (kChannelMask, fun length => length <? kEscapeLength);
   (kGet, fun length => length <? kEscapeLength);
   (kState, fun length => length =? 1);
   (kJoinerDtlsEncapsulation, fun _ => true);
   (kJoinerUdpPort, fun length => length =? 2);
   (kJoinerIID, fun length => length =? 8);
   (kJoinerRouterLocator, fun length => length =? 2);
   (kJoinerRouterKEK, fun length => length =? kJoinerRouterKekLength);
   (kCount, fun length => length =? 1);
   (kPeriod, fun length => length =? 2);
   (kScanDuration, fun length => length =? 2);
   (kEnergyList, fun length => length <? kEscapeLength);
   (kSecureDissemination, fun length => length <? kEscapeLength);
   (kProvisioningURL, fun length => length <=? 64);
   (kVendorName, fun length => length <=? 32);
   (kVendorModel, fun length => length <=? 32);
   (kVendorSWVersion, fun length => length <=? 16);
   (kVendorData, fun length => length <=? 64);
   (kVendorStackVersion, fun length => length <? kEscapeLength);
   (kUdpEncapsulation, fun length => 4 <=? length);
   (kIpv6Address, fun length => length =? 16);
   (kDomainName, fun length => length <=? 16);
   (kDomainPrefix, fun _ => true);
   (kAeSteeringData, fun length => length <=? 16);
   (kNmkpSteeringData, fun length => length <=? 16);
   (kCommissionerToken, fun _ => true);
   (kCommissionerSignature, fun length => length <? kEscapeLength);
   (kAeUdpPort, fun length => length =? 2);
   (kNmkpUdpPort, fun length => length =? 2);
   (kTriHostname, fun length => length <? kEscapeLength);
   (kRegistrarIpv6Address, fun length => length =? 16);
   (kRegistrarHostname, fun length => length <? kEscapeLength);
   (kCommissionerPenSignature, fun length => length <? kEscapeLength);
   (kDiscoveryRequest, fun length => length =? 2);
   (kDiscoveryResponse, fun length => length =? 2)].

Definition IsValid (t : Tlv) : bool :=
  let length := GetLength t in
  if negb (length =? zlen (mValue t)) then false else
  match mScope t with
  | kThread => switch thread_rules (fun _ => false) (mType t) length
  | kMeshLink => false
  | kMeshCoP => switch mesh_cop_rules (fun _ => false) (mType t) length
  end.

(** ** Encoding *)

Definition Serialize (t : Tlv) (aBuf : ByteArray) : outcome ByteArray :=
  VerifyOrDie IsValid t;;
  let aBuf := Encode 1 aBuf (mType t) in
  let aBuf :=
    if IsExtendedTlv (mType t)
    then Encode 2 (Encode 1 aBuf kEscapeLength) (GetLength t)
    else Encode 1 aBuf (u8 (GetLength t)) in
  Ok (aBuf ++ mValue t).

(** [sizeof(Type)] is 1. *)
Definition GetTotalLength (t : Tlv) : Z :=
  let valueLength := GetLength t in
  u16 (1 + (if kEscapeLength <=? valueLength then 3 else 1) + valueLength).

(** The TLV at [aOffset] and the offset behind it. *)
Definition Deserialize (aOffset : Z) (aBuf : ByteArray) (aScope : Scope) : outcome (Tlv * Z) :=
  let offset := aOffset in
  VerifyOrExit offset + 2 <=? zlen aBuf else kBadFormat;;
  type ← rd aBuf offset; let offset := offset + 1 in
  length ← rd aBuf offset; let offset := offset + 1 in
  '(length, offset) ←
    (if length =? kEscapeLength then
       VerifyOrExit offset + 2 <=? zlen aBuf else kBadFormat;;
       b0 ← rd aBuf offset; let offset := offset + 1 in
       b1 ← rd aBuf offset; let offset := offset + 1 in
       Ok (Z.lor (Z.land (Z.shiftl b0 8) 65280) (Z.land b1 255), offset)
     else Ok (length, offset));
  VerifyOrExit offset + length <=? zlen aBuf else kBadFormat;;
  value ← rds aBuf offset length;
  Ok (mkTlv aScope type value, offset + length).

(** ** Values *)

Definition GetValueAsInt8 (t : Tlv) : outcome Z :=
  VerifyOrDie 1 <=? zlen (mValue t);;
  b ← rd (mValue t) 0; Ok (if b <? 128 then b else b - 256).
Definition GetValueAsUint8 (t : Tlv) : outcome Z :=
  VerifyOrDie 1 <=? zlen (mValue t);; Decode 1 (mValue t).
Definition GetValueAsUint16 (t : Tlv) : outcome Z :=
  VerifyOrDie 2 <=? zlen (mValue t);; Decode 2 (mValue t).

(** ** Sets of TLVs *)

Abbreviation TlvSet := (gmap Z Tlv) (only parsing).

(** The loop of [GetTlvSet]: the set as it is left, and the error. *)
Fixpoint GetTlvSet_loop (fuel : nat) (aTlvSet : TlvSet) (offset : Z) (aBuf : ByteArray)
    (aScope : Scope) : TlvSet * outcome unit :=
  if negb (offset <? zlen aBuf) then (aTlvSet, Ok tt) else
  match fuel with
  | O => (aTlvSet, Die)
  | S fuel =>
      match Deserialize offset aBuf aScope with
      | Err e => (aTlvSet, Err e)
      | Die => (aTlvSet, Die)
      | Ok (tlv, offset) =>
          let aTlvSet := if IsValid tlv then <[mType tlv := tlv]> aTlvSet else aTlvSet in
          GetTlvSet_loop fuel aTlvSet offset aBuf aScope
      end
  end.

Definition GetTlvSet (aTlvSet : TlvSet) (aBuf : ByteArray) (aScope : Scope) : TlvSet * outcome unit :=
  GetTlvSet_loop (length aBuf) aTlvSet 0 aBuf aScope.

(** A fresh [TlvSet] filled by [GetTlvSet], as its callers use it. *)
Definition ParseTlvs (aBuf : ByteArray) (aScope : Scope) : outcome TlvSet :=
  let '(s, r) := GetTlvSet ∅ aBuf aScope in _ ← r; Ok s.

Definition GetTlv (aTlvType : Z) (aBuf : ByteArray) (aScope : Scope) : option Tlv :=
  match GetTlvSet ∅ aBuf aScope with
  | (tlvSet, Ok _) => tlvSet !! aTlvType
  | _ => None
  end.

Definition kActiveSet : list Z :=
  [kActiveTimestamp; kChannel; kChannelMask; kExtendedPanId; kNetworkMeshLocalPrefix;
   kNetworkMasterKey; kNetworkName; kPanId; kPSKc; kSecurityPolicy].
Definition kPendingSet : list Z :=
  [kActiveTimestamp; kChannel; kChannelMask; kDelayTimer; kExtendedPanId; kNetworkMeshLocalPrefix;
   kNetworkMasterKey; kNetworkName; kPanId; kPendingTimestamp; kPSKc; kSecurityPolicy].

Definition IsDatasetParameter (aIsActiveDataset : bool) (aTlvType : Z) : bool :=
  existsb (Z.eqb aTlvType) (if aIsActiveDataset then kActiveSet else kPendingSet).

End Tlv.

(** ** Theorems *)
Module TlvFacts.
Import Tlv CommonFacts.

(** The bytes of a serialized TLV. *)
Definition encoding (t : Tlv) : ByteArray :=
  Encode_loop 1 (mType t) ++
  (if IsExtendedTlv (mType t) then Encode_loop 1 kEscapeLength ++ Encode_loop 2 (GetLength t)
   else Encode_loop 1 (u8 (GetLength t))) ++
  mValue t.

Arguments encoding t : simpl never.

(** A TLV made of bytes. *)
Definition tlv_bytes (t : Tlv) : Prop := is_byte (mType t) /\ bytes (mValue t).

Lemma Encode_loop_1 b : is_byte b -> Encode_loop 1 b = [b].
Proof.
  intros H. simpl. change 255 with (2 ^ 8 - 1). rewrite land_low_mask by lia.
  by rewrite Z.mod_small by exact H.
Qed.

Lemma Serialize_encoding t buf : IsValid t = true -> Serialize t buf = Ok (buf ++ encoding t).
Proof.
  intros H. unfold Serialize, encoding, Encode. rewrite H.
  destruct (IsExtendedTlv (mType t)); by rewrite <- !app_assoc.
Qed.

(** A rule holds of every length that its type accepts. *)
Lemma switch_rules (rules : list (Z * (Z -> bool))) (P : Z -> Z -> Prop) t len :
  Forall (fun r => forall len, r.2 len = true -> P r.1 len) rules ->
  switch rules (fun _ => false) t len = true -> P t len.
Proof.
  induction 1 as [|[t' f] rules Hr _ IH]; simpl; [done|].
  case_if; bool_to_prop; [subst; apply Hr|done].
Qed.

(** Only the extended TLVs and Domain Prefix can be longer than 254 bytes. *)
Definition short_length (t len : Z) : Prop :=
  IsExtendedTlv t = true \/ t = kDomainPrefix \/ len < kEscapeLength.

Lemma IsValid_length t : IsValid t = true -> zlen (mValue t) = GetLength t /\ fits 16 (zlen (mValue t)).
Proof.
  unfold IsValid. intros H. case_if; [done|]. bool_to_prop.
  split; [lia|]. rewrite <- E. apply u16_fits.
Qed.

Lemma IsValid_short t : IsValid t = true -> short_length (mType t) (GetLength t).
Proof.
  unfold IsValid. intros H. case_if; [done|]. clear E.
  destruct (mScope t); [| |done]; revert H; apply (switch_rules _ short_length).
  all: repeat first [apply Forall_nil_2 | apply Forall_cons_2].
  all: cbn [fst snd]; intros len Hl; unfold short_length.
  all: try (left; reflexivity); try (right; left; reflexivity); right; right; unfold kEscapeLength in *.
  all: bool_to_prop; unfold kJoinerRouterKekLength in *; Z.to_euclidean_division_equations; lia.
Qed.

(** The TLVs that the base format can represent: Domain Prefix is accepted at
    any length but written with a single length byte. *)
Definition representable (t : Tlv) : Prop := mType t = kDomainPrefix -> zlen (mValue t) < kEscapeLength.

(** The two bytes of an extended length, and how they are put together. *)
Lemma len_bytes n :
  fits 16 n ->
  Encode_loop 2 n = [Z.land (Z.shiftr n 8) 255; Z.land n 255] /\
  Z.lor (Z.land (Z.shiftl (Z.land (Z.shiftr n 8) 255) 8) 65280) (Z.land (Z.land n 255) 255) = n.
Proof.
  intros [H1 H2]. split; [done|]. apply Z.bits_inj'; intros i Hi.
  change 255 with (Z.ones 8). change 65280 with (Z.shiftl (Z.ones 8) 8).
  rewrite !Z.lor_spec, !Z.land_spec, !Z.shiftl_spec by done.
  destruct (decide (i < 8)).
  - rewrite (Z.testbit_neg_r _ (i - 8)), (Z.ones_spec_low 8 i), !andb_true_r by lia. done.
  - rewrite (Z.ones_spec_high 8 i), !andb_false_r, orb_false_r, Z.land_spec by lia.
    rewrite Z.shiftr_spec by lia. replace (i - 8 + 8) with i by lia.
    destruct (decide (i < 16)); [by rewrite (Z.ones_spec_low 8 (i - 8)), !andb_true_r by lia|].
    rewrite (Z.ones_spec_high 8 (i - 8)), !andb_false_r by lia.
    symmetry. rewrite <- (Z.mod_small n (2 ^ 16)) by lia. apply Z.mod_pow2_bits_high; lia.
Qed.

(** Evaluate the reads of a header that follows a known prefix. *)
Ltac read_header pre :=
  replace (zlen pre + 1 + 1 + 1 + 1) with (zlen pre + 4) by lia;
  replace (zlen pre + 1 + 1 + 1) with (zlen pre + 3) by lia;
  replace (zlen pre + 1 + 1) with (zlen pre + 2) by lia;
  repeat first
    [ rewrite rd_app | rewrite rd_app_r by lia | rewrite rd_cons_0 | rewrite rd_cons_pos by lia
    | progress (change (1 - 1) with 0; change (2 - 1) with 1; change (3 - 1) with 2)
    | progress cbn [mbind outcome_bind]
    | rewrite (proj2 (Z.leb_le _ _)) by (autorewrite with ot; lia) ].

(** The value behind such a header, and the offset behind the value. *)
Ltac read_value t :=
  rewrite rds_ok by (autorewrite with ot; lia); cbn [mbind outcome_bind];
  rewrite zsub_app_r by lia; repeat rewrite zsub_cons_pos by lia;
  repeat (change (4 - 1) with 3 || change (3 - 1) with 2 || change (2 - 1) with 1 || change (1 - 1) with 0);
  rewrite zsub_prefix; destruct t; autorewrite with ot; do 2 f_equal; cbn; lia.

Lemma Deserialize_encoding pre t post :
  IsValid t = true -> tlv_bytes t -> representable t ->
  Deserialize (zlen pre) (pre ++ encoding t ++ post) (mScope t)
  = Ok (t, zlen (pre ++ encoding t)).
Proof.
  intros Hv [Ht Hb] Hr. pose proof (IsValid_length _ Hv) as [Hl Hf].
  pose proof (IsValid_short _ Hv) as Hs. unfold encoding, Deserialize.
  rewrite Encode_loop_1 by done.
  pose proof (zlen_nonneg pre). pose proof (zlen_nonneg post). pose proof (zlen_nonneg (mValue t)).
  destruct (IsExtendedTlv (mType t)) eqn:Ee.
  - rewrite Encode_loop_1 by closed. rewrite <- Hl.
    pose proof (len_bytes _ Hf) as [E2 E3].
    rewrite E2. set (h := Z.land (Z.shiftr (zlen (mValue t)) 8) 255) in *.
    set (l := Z.land (zlen (mValue t)) 255) in *.
    cbn [app]. read_header pre. change (kEscapeLength =? kEscapeLength) with true. cbv iota.
    read_header pre. rewrite E3. read_header pre. read_value t.
  - assert (zlen (mValue t) < kEscapeLength).
    { destruct Hs as [|[Hs|Hs]]; [congruence|by apply Hr|lia]. }
    assert (is_byte (zlen (mValue t))) by (unfold kEscapeLength in *; zw).
    rewrite <- Hl, u8_id, Encode_loop_1 by done. cbn [app]. read_header pre.
    rewrite (proj2 (Z.eqb_neq _ kEscapeLength)) by lia. read_header pre. read_value t.
Qed.

(** What [Deserialize] promises of any buffer. *)
Lemma Deserialize_total off buf sc :
  bytes buf -> 0 <= off ->
  match Deserialize off buf sc with
  | Ok (t, off') => off + 2 <= off' <= zlen buf /\ tlv_bytes t /\ mScope t = sc
                    /\ mValue t = zsub buf (off' - zlen (mValue t)) (zlen (mValue t))
  | Err e => e = kBadFormat
  | Die => False
  end.
Proof.
  intros Hb Ho. unfold Deserialize. case_if; [|done]. bool_to_prop.
  destruct (rd_ok buf off ltac:(lia)) as (ty & Ety & _). rewrite Ety.
  destruct (rd_ok buf (off + 1) ltac:(lia)) as (le & El & _). cbn [mbind outcome_bind]. rewrite El.
  pose proof (rd_byte _ _ _ Hb Ety). pose proof (rd_byte _ _ _ Hb El) as Hle.
  cbn [mbind outcome_bind].
  assert (Hfin : forall o l, 0 <= l -> off + 2 <= o -> o + l <= zlen buf ->
    off + 2 <= o + l <= zlen buf /\ tlv_bytes (mkTlv sc ty (zsub buf o l)) /\ sc = sc
    /\ zsub buf o l = zsub buf (o + l - zlen (zsub buf o l)) (zlen (zsub buf o l))).
  { intros o l ???. split; [lia|]. split; [split; [done|by apply bytes_zsub]|]. split; [done|].
    rewrite zlen_zsub by lia. f_equal. lia. }
  assert (0 <= le) by zw. case_if; bool_to_prop.
  - case_if; [|done]. bool_to_prop.
    destruct (rd_ok buf (off + 1 + 1) ltac:(lia)) as (b0 & Eb0 & _). rewrite Eb0.
    destruct (rd_ok buf (off + 1 + 1 + 1) ltac:(lia)) as (b1 & Eb1 & _).
    cbn [mbind outcome_bind]. rewrite Eb1. cbn [mbind outcome_bind].
    pose proof (rd_byte _ _ _ Hb Eb0). pose proof (rd_byte _ _ _ Hb Eb1).
    case_if; [|done]. bool_to_prop.
    assert (0 <= Z.lor (Z.land (b0 ≪ 8) 65280) (Z.land b1 255)) by (apply Z.lor_nonneg; split; apply Z.land_nonneg; lia).
    rewrite rds_ok by lia. apply (Hfin (off + 1 + 1 + 1 + 1)); lia.
  - cbn [mbind outcome_bind]. case_if; [|done]. bool_to_prop. rewrite rds_ok by lia. apply (Hfin (off + 1 + 1)); lia.
Qed.

(** The entries of a set produced by the parser. *)
Definition set_ok (sc : Scope) (s : TlvSet) : Prop :=
  forall k t, s !! k = Some t -> IsValid t = true /\ mType t = k /\ mScope t = sc /\ tlv_bytes t.

Lemma set_ok_empty sc : set_ok sc ∅.
Proof. intros k t H. by rewrite lookup_empty in H. Qed.

Lemma set_ok_insert sc s t :
  set_ok sc s -> IsValid t = true -> mScope t = sc -> tlv_bytes t -> set_ok sc (<[mType t := t]> s).
Proof. intros Hs Hv Hsc Hb k t' H. apply lookup_insert_Some in H as [[<- <-]|[_ H]]; [done|by apply Hs]. Qed.

Lemma GetTlvSet_loop_safe sc buf fuel : forall s off,
  bytes buf -> set_ok sc s -> 0 <= off -> zlen buf <= off + Z.of_nat fuel ->
  set_ok sc (GetTlvSet_loop fuel s off buf sc).1 /\
  ((GetTlvSet_loop fuel s off buf sc).2 = Ok tt \/
   (GetTlvSet_loop fuel s off buf sc).2 = Err kBadFormat).
Proof.
  induction fuel as [|fuel IH]; intros s off Hb Hs Ho Hf; simpl; (case_if; [by auto|]); bool_to_prop; [lia|].
  pose proof (Deserialize_total off buf sc Hb Ho) as HD.
  destruct (Deserialize off buf sc) as [[t off']|e|]; [|subst; by auto|done].
  destruct HD as (Hr & Hbt & Hsc & _). apply IH; [done| |lia..].
  case_if; [by apply set_ok_insert|done].
Qed.

(** [GetTlvSet] is safe on every input buffer, however malformed: it ends
    without reading out of bounds, reports nothing but [kBadFormat], and the
    set holds only valid TLVs of the requested scope, each under its type. *)
Theorem GetTlvSet_safe sc s buf :
  bytes buf -> set_ok sc s ->
  set_ok sc (GetTlvSet s buf sc).1 /\
  ((GetTlvSet s buf sc).2 = Ok tt \/ (GetTlvSet s buf sc).2 = Err kBadFormat).
Proof. intros. apply GetTlvSet_loop_safe; [done..|lia|unfold zlen; lia]. Qed.

Lemma GetTlvSet_safe_witness :
  set_ok kMeshCoP (GetTlvSet ∅ [16; 1; 1; 4; 3; 9; 9] kMeshCoP).1.
Proof.
  refine (proj1 (GetTlvSet_safe kMeshCoP ∅ [16; 1; 1; 4; 3; 9; 9] _ _)); [closed|].
  intros k t H. by rewrite lookup_empty in H.
Defined.

(** *** Round trip of a list of TLVs *)

Fixpoint serialize_all (ts : list Tlv) (buf : ByteArray) : outcome ByteArray :=
  match ts with [] => Ok buf | t :: ts => buf ← Serialize t buf; serialize_all ts buf end.

Definition wire_ok (sc : Scope) (t : Tlv) : Prop :=
  IsValid t = true /\ tlv_bytes t /\ representable t /\ mScope t = sc.

Definition last_wins (ts : list Tlv) (s : TlvSet) : TlvSet :=
  fold_left (fun s t => <[mType t := t]> s) ts s.

Lemma serialize_all_encoding ts buf :
  Forall (fun t => IsValid t = true) ts -> serialize_all ts buf = Ok (buf ++ concat (map encoding ts)).
Proof.
  intros H; revert buf; induction H as [|t ts Ht _ IH]; intros; simpl; [by rewrite app_nil_r|].
  rewrite Serialize_encoding by done. cbn [mbind outcome_bind]. by rewrite IH, <- app_assoc.
Qed.

Lemma encoding_length t : 2 <= zlen (encoding t).
Proof.
  unfold encoding, zlen. destruct (IsExtendedTlv (mType t));
    rewrite !length_app, ?length_Encode_loop; lia.
Qed.

Lemma GetTlvSet_loop_encodings sc ts fuel : forall pre s,
  Forall (wire_ok sc) ts -> (length (concat (map encoding ts)) <= fuel)%nat ->
  GetTlvSet_loop fuel s (zlen pre) (pre ++ concat (map encoding ts)) sc = (last_wins ts s, Ok tt).
Proof.
  revert fuel; induction ts as [|t ts IH]; intros fuel pre s H Hf.
  - simpl. rewrite app_nil_r. by destruct fuel; simpl; rewrite Z.ltb_irrefl.
  - rewrite map_cons, concat_cons in *. rewrite length_app in Hf.
    inversion H as [|? ? (Hv & Hb & Hr & Hsc) Ht]; subst.
    pose proof (encoding_length t). destruct fuel as [|fuel]; [zw|]. cbn [GetTlvSet_loop].
    rewrite (proj2 (Z.ltb_lt _ _)) by (rewrite !zlen_app; pose proof (zlen_nonneg (concat (map encoding ts))); lia).
    cbn [negb]. rewrite Deserialize_encoding, Hv by done.
    rewrite app_assoc. apply IH; [done|zw].
Qed.

(** Serializing a list of valid TLVs and parsing the buffer gives back the set
    in which the last TLV of each type wins. *)
Theorem tlv_list_roundtrip sc ts :
  Forall (wire_ok sc) ts ->
  exists buf, serialize_all ts [] = Ok buf /\ GetTlvSet ∅ buf sc = (last_wins ts ∅, Ok tt).
Proof.
  intros H. eexists; split.
  - apply serialize_all_encoding. eapply Forall_impl; [done|]. by intros t (? & _).
  - simpl. apply (GetTlvSet_loop_encodings sc ts _ [] ∅ H). lia.
Qed.

Lemma tlv_list_roundtrip_witness :
  exists buf, serialize_all [Tlv_u8 kState 1; Tlv_u16 kCommissionerSessionId 4660;
                             Tlv_bytes kUdpEncapsulation [1; 2; 3; 4; 5]] [] = Ok buf
    /\ (GetTlvSet ∅ buf kMeshCoP).2 = Ok tt.
Proof.
  destruct (tlv_list_roundtrip kMeshCoP [Tlv_u8 kState 1; Tlv_u16 kCommissionerSessionId 4660;
                             Tlv_bytes kUdpEncapsulation [1; 2; 3; 4; 5]]) as (buf & H1 & H2).
  - repeat apply Forall_cons_2; [..|apply Forall_nil_2]; (split; [reflexivity|]); repeat split; closed.
  - exists buf. split; [exact H1|]. rewrite H2. reflexivity.
Defined.

(** A single TLV, at any place of a larger buffer. *)
Theorem tlv_roundtrip pre t post :
  wire_ok (mScope t) t ->
  exists buf, Serialize t pre = Ok buf /\
    Deserialize (zlen pre) (buf ++ post) (mScope t) = Ok (t, zlen buf).
Proof.
  intros (Hv & Hb & Hr & _). eexists; split; [by apply Serialize_encoding|].
  rewrite <- app_assoc. by apply Deserialize_encoding.
Qed.

Lemma tlv_roundtrip_witness :
  exists buf, Serialize (Tlv_u16 kPanId 65261) [9; 9] = Ok buf
    /\ Deserialize 2 (buf ++ [7]) kMeshCoP = Ok (Tlv_u16 kPanId 65261, zlen buf).
Proof.
  apply (tlv_roundtrip [9; 9] (Tlv_u16 kPanId 65261) [7]).
  split; [reflexivity|]. repeat split; closed.
Defined.

(** The exact limits of the encoding: a Domain Prefix TLV of 255 bytes or more
    passes [IsValid] and is written with a truncated length byte, and the
    length [GetTotalLength] announces differs from the bytes written by two for
    an extended TLV of less than 255 bytes. *)
Theorem tlv_encoding_limits :
  (exists t buf, tlv_bytes t /\ Serialize t [] = Ok buf /\
     Deserialize 0 buf (mScope t) <> Ok (t, zlen buf)) /\
  (exists t buf, tlv_bytes t /\ Serialize t [] = Ok buf /\ zlen buf = GetTotalLength t + 2).
Proof.
  split.
  - exists (Tlv_bytes kDomainPrefix (replicate 300 7)).
    eexists; split_and!; [split; [closed|]| vm_compute; reflexivity | vm_compute; congruence].
    apply Forall_replicate. closed.
  - exists (Tlv_bytes kUdpEncapsulation [1; 2; 3; 4]).
    eexists; split_and!; [split; closed | vm_compute; reflexivity | reflexivity].
Qed.

End TlvFacts.
