(* ===== verification/NetworkData.v ===== *)
(** * Thread network data

    [include/commissioner/network_data.hpp] and [src/library/network_data.cpp]:
    timestamps, channels, the Commissioner, Active Operational, Pending
    Operational and BBR datasets, and IPv6 prefixes as strings. *)

From S2P Require Import Prelude Outcome Common.
Import Addr CommonFacts.

(** ** Timestamps *)
Module Timestamp.

(** Three bit fields of 48, 15 and 1 bits. *)
Record Timestamp : Type := mkTimestamp { mSeconds : Z; mTicks : Z; mU : Z }.

#[export] Instance Timestamp_eq_dec : EqDecision Timestamp.
Proof. solve_decision. Defined.

(** An assignment to a bit field of [w] bits. *)
Definition field (w v : Z) : Z := v mod 2 ^ w.

(** [now] is the time since the epoch in microseconds. *)
Definition Cur (now : Z) : Timestamp :=
  mkTimestamp (field 48 (now / 1000000)) (field 15 (now mod 1000000 * Z.shiftl 1 15 / 1000000)) 0.

Definition Decode (aValue : Z) : Timestamp :=
  mkTimestamp (field 48 (Z.shiftr aValue 16)) (field 15 (Z.shiftr (Z.land aValue 65535) 1))
    (field 1 (Z.land aValue 1)).

Definition Encode (t : Timestamp) : Z :=
  Z.lor (Z.lor (u64 (Z.shiftl (mSeconds t) 16)) (Z.shiftl (mTicks t) 1)) (mU t).

(** A value of the bit fields. *)
Definition timestamp_ok (t : Timestamp) : Prop := fits 48 (mSeconds t) /\ fits 15 (mTicks t) /\ fits 1 (mU t).

End Timestamp.
Export (hints) Timestamp.

(** ** Datasets *)

Record Channel : Type := mkChannel { mPage : Z; mNumber : Z }.
Record ChannelMaskEntry : Type := mkEntry { mMaskPage : Z; mMasks : ByteArray }.
Abbreviation ChannelMask := (list ChannelMaskEntry).
Record SecurityPolicy : Type := mkPolicy { mRotationTime : Z; mFlags : ByteArray }.

#[export] Instance Channel_eq_dec : EqDecision Channel.
Proof. solve_decision. Defined.
#[export] Instance ChannelMaskEntry_eq_dec : EqDecision ChannelMaskEntry.
Proof. solve_decision. Defined.
#[export] Instance SecurityPolicy_eq_dec : EqDecision SecurityPolicy.
Proof. solve_decision. Defined.

(** [flags & bit], as the conditions of the code test it. *)
Definition has (flags bit : Z) : bool := negb (Z.land flags bit =? 0).

Module CommissionerDataset.
Record CommissionerDataset : Type := mkDataset {
  mBorderAgentLocator : Z;
  mSessionId : Z;
  mSteeringData : ByteArray;
  mAeSteeringData : ByteArray;
  mNmkpSteeringData : ByteArray;
  mJoinerUdpPort : Z;
  mAeUdpPort : Z;
  mNmkpUdpPort : Z;
  mPresentFlags : Z }.

Definition kBorderAgentLocatorBit : Z := Z.shiftl 1 15.
Definition kSessionIdBit : Z := Z.shiftl 1 14.
Definition kSteeringDataBit : Z := Z.shiftl 1 13.
Definition kAeSteeringDataBit : Z := Z.shiftl 1 12.
Definition kNmkpSteeringDataBit : Z := Z.shiftl 1 11.
Definition kJoinerUdpPortBit : Z := Z.shiftl 1 10.
Definition kAeUdpPortBit : Z := Z.shiftl 1 9.
Definition kNmkpUdpPortBit : Z := Z.shiftl 1 8.

(** The default member initializers. *)
Definition CommissionerDataset_init : CommissionerDataset := mkDataset 0 0 [] [] [] 0 0 0 0.

(** Writing a field and raising its flag. *)
Definition set_BorderAgentLocator (d : CommissionerDataset) v :=
  let (_, si, sd, ae, nm, jp, ap, np, f) := d in mkDataset v si sd ae nm jp ap np (Z.lor f kBorderAgentLocatorBit).
Definition set_SessionId (d : CommissionerDataset) v :=
  let (bl, _, sd, ae, nm, jp, ap, np, f) := d in mkDataset bl v sd ae nm jp ap np (Z.lor f kSessionIdBit).
Definition set_SteeringData (d : CommissionerDataset) v :=
  let (bl, si, _, ae, nm, jp, ap, np, f) := d in mkDataset bl si v ae nm jp ap np (Z.lor f kSteeringDataBit).
Definition set_AeSteeringData (d : CommissionerDataset) v :=
  let (bl, si, sd, _, nm, jp, ap, np, f) := d in mkDataset bl si sd v nm jp ap np (Z.lor f kAeSteeringDataBit).
Definition set_NmkpSteeringData (d : CommissionerDataset) v :=
  let (bl, si, sd, ae, _, jp, ap, np, f) := d in mkDataset bl si sd ae v jp ap np (Z.lor f kNmkpSteeringDataBit).
Definition set_JoinerUdpPort (d : CommissionerDataset) v :=
  let (bl, si, sd, ae, nm, _, ap, np, f) := d in mkDataset bl si sd ae nm v ap np (Z.lor f kJoinerUdpPortBit).
Definition set_AeUdpPort (d : CommissionerDataset) v :=
  let (bl, si, sd, ae, nm, jp, _, np, f) := d in mkDataset bl si sd ae nm jp v np (Z.lor f kAeUdpPortBit).
Definition set_NmkpUdpPort (d : CommissionerDataset) v :=
  let (bl, si, sd, ae, nm, jp, ap, _, f) := d in mkDataset bl si sd ae nm jp ap v (Z.lor f kNmkpUdpPortBit).
End CommissionerDataset.

Module ActiveDataset.
Record ActiveOperationalDataset : Type := mkDataset {
  mActiveTimestamp : Timestamp.Timestamp;
  mChannel : Channel;
  mChannelMask : ChannelMask;
  mExtendedPanId : ByteArray;
  mMeshLocalPrefix : ByteArray;
  mNetworkMasterKey : ByteArray;
  mNetworkName : string_t;
  mPanId : Z;
  mPSKc : ByteArray;
  mSecurityPolicy : SecurityPolicy;
  mPresentFlags : Z }.

Definition kActiveTimestampBit : Z := Z.shiftl 1 15.
Definition kChannelBit : Z := Z.shiftl 1 14.
Definition kChannelMaskBit : Z := Z.shiftl 1 13.
Definition kExtendedPanIdBit : Z := Z.shiftl 1 12.
Definition kMeshLocalPrefixBit : Z := Z.shiftl 1 11.
Definition kNetworkMasterKeyBit : Z := Z.shiftl 1 10.
Definition kNetworkNameBit : Z := Z.shiftl 1 9.
Definition kPanIdBit : Z := Z.shiftl 1 8.
Definition kPSKcBit : Z := Z.shiftl 1 7.
Definition kSecurityPolicyBit : Z := Z.shiftl 1 6.

(** The default constructor.  It leaves the channel, the PAN id and the
    rotation time uninitialized: they hold some values [ch], [pan], [rot]. *)
Definition ActiveOperationalDataset_new (now : Z) (ch : Channel) (pan rot : Z) : ActiveOperationalDataset :=
  mkDataset (Timestamp.Cur now) ch [] [] [] [] [] pan [] (mkPolicy rot []) kActiveTimestampBit.

(** Writing a field and raising its flag. *)
Definition set_ActiveTimestamp (d : ActiveOperationalDataset) v :=
  let (_, ch, cm, xp, ml, nk, nn, pi, pk, sp, f) := d in mkDataset v ch cm xp ml nk nn pi pk sp (Z.lor f kActiveTimestampBit).
Definition set_Channel (d : ActiveOperationalDataset) v :=
  let (ts, _, cm, xp, ml, nk, nn, pi, pk, sp, f) := d in mkDataset ts v cm xp ml nk nn pi pk sp (Z.lor f kChannelBit).
Definition set_ChannelMask (d : ActiveOperationalDataset) v :=
  let (ts, ch, _, xp, ml, nk, nn, pi, pk, sp, f) := d in mkDataset ts ch v xp ml nk nn pi pk sp (Z.lor f kChannelMaskBit).
Definition set_ExtendedPanId (d : ActiveOperationalDataset) v :=
  let (ts, ch, cm, _, ml, nk, nn, pi, pk, sp, f) := d in mkDataset ts ch cm v ml nk nn pi pk sp (Z.lor f kExtendedPanIdBit).
Definition set_MeshLocalPrefix (d : ActiveOperationalDataset) v :=
  let (ts, ch, cm, xp, _, nk, nn, pi, pk, sp, f) := d in mkDataset ts ch cm xp v nk nn pi pk sp (Z.lor f kMeshLocalPrefixBit).
Definition set_NetworkMasterKey (d : ActiveOperationalDataset) v :=
  let (ts, ch, cm, xp, ml, _, nn, pi, pk, sp, f) := d in mkDataset ts ch cm xp ml v nn pi pk sp (Z.lor f kNetworkMasterKeyBit).
Definition set_NetworkName (d : ActiveOperationalDataset) v :=
  let (ts, ch, cm, xp, ml, nk, _, pi, pk, sp, f) := d in mkDataset ts ch cm xp ml nk v pi pk sp (Z.lor f kNetworkNameBit).
Definition set_PanId (d : ActiveOperationalDataset) v :=
  let (ts, ch, cm, xp, ml, nk, nn, _, pk, sp, f) := d in mkDataset ts ch cm xp ml nk nn v pk sp (Z.lor f kPanIdBit).
Definition set_PSKc (d : ActiveOperationalDataset) v :=
  let (ts, ch, cm, xp, ml, nk, nn, pi, _, sp, f) := d in mkDataset ts ch cm xp ml nk nn pi v sp (Z.lor f kPSKcBit).
Definition set_SecurityPolicy (d : ActiveOperationalDataset) v :=
  let (ts, ch, cm, xp, ml, nk, nn, pi, pk, _, f) := d in mkDataset ts ch cm xp ml nk nn pi pk v (Z.lor f kSecurityPolicyBit).

(** [mPresentFlags = flags] *)
Definition with_flags (d : ActiveOperationalDataset) (flags : Z) : ActiveOperationalDataset :=
  let (ts, ch, cm, xp, ml, nk, nn, pi, pk, sp, _) := d in
  mkDataset ts ch cm xp ml nk nn pi pk sp flags.
End ActiveDataset.

Module PendingDataset.
Import ActiveDataset.
(** A subclass of the Active Operational Dataset; [mPresentFlags] is the base's. *)
Record PendingOperationalDataset : Type := mkPending {
  mActive : ActiveOperationalDataset;
  mDelayTimer : Z;
  mPendingTimestamp : Timestamp.Timestamp }.

Definition kDelayTimerBit : Z := Z.shiftl 1 5.
Definition kPendingTimestampBit : Z := Z.shiftl 1 4.

(** The default constructor; [delay] is the uninitialized delay timer. *)
Definition PendingOperationalDataset_new (d : ActiveOperationalDataset) (delay : Z) : PendingOperationalDataset :=
  mkPending (with_flags d (Z.lor (mPresentFlags d) kPendingTimestampBit)) delay (mActiveTimestamp d).

(** Writing a field and raising its flag. *)
Definition set_DelayTimer (d : PendingOperationalDataset) v :=
  let (a, _, pt) := d in mkPending (with_flags a (Z.lor (mPresentFlags a) kDelayTimerBit)) v pt.
Definition set_PendingTimestamp (d : PendingOperationalDataset) v :=
  let (a, dt, _) := d in mkPending (with_flags a (Z.lor (mPresentFlags a) kPendingTimestampBit)) dt v.
End PendingDataset.

Module BbrDataset.
Record BbrDataset : Type := mkDataset {
  mTriHostname : string_t;
  mRegistrarHostname : string_t;
  mRegistrarIpv6Addr : string_t;
  mPresentFlags : Z }.

Definition kTriHostnameBit : Z := Z.shiftl 1 15.
Definition kRegistrarHostnameBit : Z := Z.shiftl 1 14.
Definition kRegistrarIpv6AddrBit : Z := Z.shiftl 1 13.

Definition BbrDataset_init : BbrDataset := mkDataset [] [] [] 0.

(** Writing a field and raising its flag. *)
Definition set_TriHostname (d : BbrDataset) v :=
  let (_, rh, ra, f) := d in mkDataset v rh ra (Z.lor f kTriHostnameBit).
Definition set_RegistrarHostname (d : BbrDataset) v :=
  let (th, _, ra, f) := d in mkDataset th v ra (Z.lor f kRegistrarHostnameBit).
Definition set_RegistrarIpv6Addr (d : BbrDataset) v :=
  let (th, rh, _, f) := d in mkDataset th rh v (Z.lor f kRegistrarIpv6AddrBit).
End BbrDataset.

(** ** IPv6 prefixes *)
Module Ipv6Prefix.

(** [strtoull] with base 0, on the NUL-terminated rest of a string: the value,
    or nothing when no number was read.  A value of more than 64 bits is
    replaced by [ULLONG_MAX]; a minus sign negates modulo 2^64. *)
Definition isspace (c : Z) : bool := (c =? 32) || ((9 <=? c) && (c <=? 13)).

Fixpoint skip_space (s : string_t) : string_t :=
  match s with c :: s' => if isspace c then skip_space s' else s | [] => [] end.

Definition digit (c : Z) : Z :=
  if (48 <=? c) && (c <=? 57) then c - 48
  else if (97 <=? c) && (c <=? 122) then c - 97 + 10
  else if (65 <=? c) && (c <=? 90) then c - 65 + 10 else 36.

Fixpoint digits (base : Z) (acc : Z) (s : string_t) : Z :=
  match s with
  | c :: s => if digit c <? base then digits base (acc * base + digit c) s else acc
  | [] => acc
  end.

Definition starts_digit (base : Z) (s : string_t) : bool :=
  match s with c :: _ => digit c <? base | [] => false end.

Definition ULLONG_MAX : Z := 2 ^ 64 - 1.

Definition strtoull0 (s : string_t) : option Z :=
  let s := skip_space s in
  let '(neg, s) := match s with
                   | 43 :: s => (false, s) | 45 :: s => (true, s) | _ => (false, s) end in
  let value :=
    match s with
    | 48 :: x :: s' =>
        if ((x =? 120) || (x =? 88)) && starts_digit 16 s' then Some (digits 16 0 s')
        else Some (digits 8 0 s)
    | 48 :: _ => Some 0
    | _ => if starts_digit 10 s then Some (digits 10 0 s) else None
    end in
  match value with
  | None => None
  | Some v => Some (if ULLONG_MAX <? v then ULLONG_MAX else if neg then u64 (- v) else v)
  end.

(** [std::to_string], for the numbers of at most [fuel] digits. *)
Fixpoint to_string (fuel : nat) (v : Z) : string_t :=
  match fuel with
  | O => []
  | S fuel => (if v <? 10 then [] else to_string fuel (v / 10)) ++ [48 + v mod 10]
  end.

(** [find('/')]: what is before and behind the first slash. *)
Fixpoint split_slash (s : string_t) : option (string_t * string_t) :=
  match s with
  | [] => None
  | c :: s =>
      if c =? 47 then Some ([], s)
      else match split_slash s with Some (a, b) => Some (c :: a, b) | None => None end
  end.

Section Prefix.
Context (inet_pton4 inet_pton6 : string_t -> option ByteArray).
Context (inet_ntop4 inet_ntop6 : ByteArray -> option string_t).

Definition Ipv6PrefixFromString (aStr : string_t) : outcome ByteArray :=
  match split_slash aStr with
  | None => Err kInvalidArgs
  | Some (before, behind) =>
      match strtoull0 behind with
      | None => Err kInvalidArgs
      | Some prefixLength =>
          VerifyOrExit prefixLength <=? 128 else kInvalidArgs;;
          let prefixLength := prefixLength / 8 in
          addr ← SetString inet_pton4 inet_pton6 before;
          VerifyOrExit IsIpv6 addr else kInvalidArgs;;
          Ok (zresize addr prefixLength)
      end
  end.

Definition Ipv6PrefixToString (aPrefix : ByteArray) : outcome string_t :=
  VerifyOrDie zlen aPrefix <=? 16;;
  let prefixLength := zlen aPrefix * 8 in
  let aPrefix := zresize aPrefix 16 in
  match SetRaw aPrefix with
  | Ok addr => Ok (ToString inet_ntop4 inet_ntop6 addr ++ [47] ++ to_string 20 prefixLength)
  | _ => Die
  end.
End Prefix.

End Ipv6Prefix.

(** ** Theorems *)
Module NetworkDataFacts.

(** *** Timestamps *)

Lemma Timestamp_Encode_sum t :
  Timestamp.timestamp_ok t ->
  Timestamp.Encode t = Timestamp.mSeconds t * 65536 + Timestamp.mTicks t * 2 + Timestamp.mU t.
Proof.
  destruct t as [s k u]. unfold Timestamp.timestamp_ok, Timestamp.Encode; cbn. intros (Hs & Hk & Hu).
  unfold fits in *. change (2 ^ 1) with 2 in *. change (2 ^ 15) with 32768 in *. change (2 ^ 48) with 281474976710656 in *.
  unfold u64. rewrite Z.mod_small.
  2:{ rewrite Z.shiftl_mul_pow2 by lia. change (2 ^ 16) with 65536. change (2 ^ 64) with 18446744073709551616. lia. }
  assert (Hk2 : Z.shiftl k 1 = k * 2) by (rewrite Z.shiftl_mul_pow2 by lia; done). rewrite Hk2.
  rewrite (lor_shiftl_add s) by (change (2 ^ 16) with 65536; lia). change (2 ^ 16) with 65536.
  replace (s * 65536 + k * 2) with (Z.shiftl (s * 32768 + k) 1)
    by (rewrite Z.shiftl_mul_pow2 by lia; change (2 ^ 1) with 2; lia).
  rewrite lor_shiftl_add, Z.shiftl_mul_pow2 by (change (2 ^ 1) with 2; lia). done.
Qed.

Lemma Timestamp_Decode_ok v : Timestamp.timestamp_ok (Timestamp.Decode v).
Proof. split_and!; apply Z.mod_pos_bound; lia. Qed.

Lemma Timestamp_Encode_fits t : Timestamp.timestamp_ok t -> fits 64 (Timestamp.Encode t).
Proof.
  intros H. rewrite Timestamp_Encode_sum by done. destruct H as (Hs & Hk & Hu). unfold fits in *.
  change (2 ^ 1) with 2 in *. change (2 ^ 15) with 32768 in *. change (2 ^ 48) with 281474976710656 in *.
  change (2 ^ 64) with 18446744073709551616. lia.
Qed.

Lemma Timestamp_Decode_Encode t : Timestamp.timestamp_ok t -> Timestamp.Decode (Timestamp.Encode t) = t.
Proof.
  intros H. unfold Timestamp.Decode. rewrite Timestamp_Encode_sum by done. destruct t as [s k u].
  destruct H as (Hs & Hk & Hu); cbn in *. unfold fits, Timestamp.field in *.
  change 65535 with (2 ^ 16 - 1). change (Z.land ?x 1) with (Z.land x (2 ^ 1 - 1)).
  rewrite !land_low_mask, !Z.shiftr_div_pow2 by lia.
  change (2 ^ 1) with 2 in *. change (2 ^ 15) with 32768 in *. change (2 ^ 16) with 65536.
  change (2 ^ 48) with 281474976710656 in *. f_equal; Z.to_euclidean_division_equations; lia.
Qed.

Lemma Timestamp_Encode_Decode v : fits 64 v -> Timestamp.Encode (Timestamp.Decode v) = v.
Proof.
  intros H. rewrite Timestamp_Encode_sum by apply Timestamp_Decode_ok.
  unfold Timestamp.Decode, Timestamp.field, fits in *; cbn.
  change 65535 with (2 ^ 16 - 1). change (Z.land ?x 1) with (Z.land x (2 ^ 1 - 1)).
  rewrite !land_low_mask, !Z.shiftr_div_pow2 by lia.
  change (2 ^ 1) with 2 in *. change (2 ^ 15) with 32768 in *. change (2 ^ 16) with 65536.
  change (2 ^ 48) with 281474976710656 in *. change (2 ^ 64) with 18446744073709551616 in *.
  Z.to_euclidean_division_equations; lia.
Qed.

Lemma Timestamp_Cur_ok now : Timestamp.timestamp_ok (Timestamp.Cur now).
Proof. split_and!; [apply Z.mod_pos_bound; lia..|done]. Qed.

(** The time a timestamp stands for, in units of 2^-15 seconds. *)
Lemma Timestamp_Cur_scaled now :
  0 <= now -> now / 1000000 < 2 ^ 48 ->
  Timestamp.Encode (Timestamp.Cur now) / 2 = now * 32768 / 1000000.
Proof.
  intros H0 H1. rewrite Timestamp_Encode_sum by apply Timestamp_Cur_ok.
  unfold Timestamp.Cur, Timestamp.field; cbn [Timestamp.mSeconds Timestamp.mTicks Timestamp.mU].
  change (Z.shiftl 1 15) with 32768. rewrite (Z.mod_small (now / 1000000)).
  2:{ split; [apply Z.div_pos; lia|done]. }
  rewrite (Z.mod_small (_ / 1000000)).
  2:{ pose proof (Z.mod_pos_bound now 1000000 ltac:(lia)). change (2 ^ 15) with 32768. split.
      - apply Z.div_pos; lia.
      - apply Z.div_lt_upper_bound; lia. }
  change (2 ^ 48) with 281474976710656 in H1. Z.to_euclidean_division_equations; lia.
Qed.

(** The 64-bit encoding of timestamps is a bijection between the integers
    and the values of the three bit fields, and [Cur] encodes the current time,
    in units of 2^-15 seconds rounded down, as long as the seconds fit. *)
Theorem timestamp_codec :
  (forall t, Timestamp.timestamp_ok t ->
     fits 64 (Timestamp.Encode t) /\ Timestamp.Decode (Timestamp.Encode t) = t) /\
  (forall v, fits 64 v ->
     Timestamp.timestamp_ok (Timestamp.Decode v) /\ Timestamp.Encode (Timestamp.Decode v) = v) /\
  (forall now, 0 <= now -> now / 1000000 < 2 ^ 48 ->
     Timestamp.Encode (Timestamp.Cur now) / 2 = now * 32768 / 1000000).
Proof.
  split_and!; [intros t Ht; split|intros v Hv; split|].
  - by apply Timestamp_Encode_fits.
  - by apply Timestamp_Decode_Encode.
  - apply Timestamp_Decode_ok.
  - by apply Timestamp_Encode_Decode.
  - apply Timestamp_Cur_scaled.
Qed.

Lemma timestamp_codec_witness :
  Timestamp.Decode (Timestamp.Encode (Timestamp.mkTimestamp 1600000000 12345 1))
    = Timestamp.mkTimestamp 1600000000 12345 1 /\
  Timestamp.Encode (Timestamp.Decode 104857600024691) = 104857600024691 /\
  Timestamp.Encode (Timestamp.Cur 1600000000500000) / 2 = 1600000000500000 * 32768 / 1000000.
Proof.
  split_and!.
  - apply (proj1 timestamp_codec). split_and!; closed.
  - apply (proj1 (proj2 timestamp_codec)). closed.
  - apply (proj2 (proj2 timestamp_codec)); [lia|reflexivity].
Defined.

(** *** Prefixes *)

Lemma split_slash_app a b :
  forallb (fun c => negb (c =? 47)) a = true ->
  Ipv6Prefix.split_slash (a ++ [47] ++ b) = Some (a, b).
Proof.
  induction a as [|c a IH]; intros H; [done|]. simpl in *. bool_to_prop.
  rewrite (proj2 (Z.eqb_neq c 47)) by done. by rewrite IH.
Qed.

Lemma zresize_zresize p n : 0 <= zlen p <= n -> zresize (zresize p n) (zlen p) = p.
Proof.
  intros H. unfold zresize, zlen in *. rewrite Nat2Z.id.
  rewrite resize_resize by lia. by apply resize_all_alt.
Qed.

Lemma bytes_zresize p n : bytes p -> bytes (zresize p n).
Proof. intros H. apply Forall_resize; [|done]. closed. Qed.

Lemma zlen_zresize p n : 0 <= n -> zlen (zresize p n) = n.
Proof. intros. unfold zresize, zlen. rewrite length_resize. lia. Qed.

(** Lengths of at most 128 bits read back. *)
Lemma prefix_length_roundtrip n :
  0 <= n < 17 -> Ipv6Prefix.strtoull0 (Ipv6Prefix.to_string 20 (n * 8)) = Some (n * 8).
Proof.
  intros H.
  assert (E : bool_decide (Ipv6Prefix.strtoull0 (Ipv6Prefix.to_string 20 (n * 8)) = Some (n * 8)) = true).
  { revert n H. by apply forallb_seqZ. }
  by bool_to_prop.
Qed.

Section Prefix.
Context (inet_pton4 inet_pton6 : string_t -> option ByteArray).
Context (inet_ntop4 inet_ntop6 : ByteArray -> option string_t).
Context `{HL : !InetLaws inet_pton4 inet_pton6 inet_ntop4 inet_ntop6}.

(** A prefix of at most 16 bytes is printed as an address and its length in
    bits, and read back; whatever string is read, the result is a prefix of at
    most 16 bytes, or the error is [kInvalidArgs]. *)
Theorem ipv6_prefix_roundtrip :
  (forall p, bytes p -> zlen p <= 16 ->
     exists s, Ipv6Prefix.Ipv6PrefixToString inet_ntop4 inet_ntop6 p = Ok s /\
       Ipv6Prefix.Ipv6PrefixFromString inet_pton4 inet_pton6 s = Ok p) /\
  (forall s, match Ipv6Prefix.Ipv6PrefixFromString inet_pton4 inet_pton6 s with
             | Ok p => bytes p /\ zlen p <= 16
             | Err e => e = kInvalidArgs
             | Die => False end).
Proof using HL.
  split.
  - intros p Hp Hl. pose proof (zlen_nonneg p). pose proof (zlen_zresize p 16 ltac:(lia)) as H16.
    destruct (ntop6_text (zresize p 16)) as (s & Hs & Hc & H4 & H6); [by apply bytes_zresize|done|].
    unfold Ipv6Prefix.Ipv6PrefixToString. rewrite (proj2 (Z.leb_le _ _)) by lia.
    assert (E6 : SetRaw (zresize p 16) = Ok (zresize p 16)) by (unfold SetRaw; by rewrite H16).
    assert (Et : ToString inet_ntop4 inet_ntop6 (zresize p 16) = s) by (unfold ToString; by rewrite H16, Hs).
    rewrite E6, Et. eexists; split; [done|]. unfold Ipv6Prefix.Ipv6PrefixFromString.
    rewrite split_slash_app.
    2:{ apply forallb_forall. intros c Hin. rewrite forallb_forall in Hc. specialize (Hc _ Hin).
        unfold addr_char, HexString.isxdigit in Hc. apply negb_true_iff, Z.eqb_neq. intros ->. done. }
    rewrite prefix_length_roundtrip by lia. rewrite (proj2 (Z.leb_le _ _)) by lia.
    rewrite Z.div_mul by lia. unfold SetString. rewrite H4, H6. cbn [mbind outcome_bind].
    unfold IsIpv6. rewrite H16. cbn [Z.eqb]. by rewrite zresize_zresize by lia.
  - intros s. unfold Ipv6Prefix.Ipv6PrefixFromString, SetString, IsIpv6.
    destruct (Ipv6Prefix.split_slash s) as [[a b]|]; [|done].
    destruct (Ipv6Prefix.strtoull0 b) as [n|]; [|done]. case_if; [|done]. bool_to_prop.
    destruct (inet_pton4 a) as [v|] eqn:E4; cbn [mbind outcome_bind].
    { apply pton4_bytes in E4 as [_ H4]. by rewrite H4. }
    destruct (inet_pton6 a) as [v|] eqn:E6; [|done]. apply pton6_bytes in E6 as [Hb H6].
    cbn [mbind outcome_bind]. rewrite H6. change (kIpv6Size =? kIpv6Size) with true. cbv iota.
    split; [by apply bytes_zresize|]. unfold zresize, zlen. rewrite length_resize.
    apply (Z.div_le_mono _ _ 8) in E; [|lia]. change (128 / 8) with 16 in E. lia.
Qed.
End Prefix.

Lemma ipv6_prefix_roundtrip_witness :
  exists s, Ipv6Prefix.Ipv6PrefixToString sample_ntop4 sample_ntop6 [253; 0; 18; 52] = Ok s /\
    Ipv6Prefix.Ipv6PrefixFromString sample_pton4 sample_pton6 s = Ok [253; 0; 18; 52].
Proof.
  apply (proj1 (ipv6_prefix_roundtrip sample_pton4 sample_pton6 sample_ntop4 sample_ntop6)); [closed|done].
Defined.

End NetworkDataFacts.
