(* ===== verification/CoapMessage.v ===== *)
(** * CoAP messages

    [coap::Message] of [src/library/coap.{hpp,cpp}]: header, options, URI
    path, serialization and parsing. *)

From S2P Require Import Prelude Outcome Common OMap Tlv.

(** ** Constants *)

Inductive CoapType : Type := kConfirmable | kNonConfirmable | kAcknowledgment | kReset.

#[export] Instance CoapType_eq_dec : EqDecision CoapType.
Proof. solve_decision. Defined.

Definition CoapType_value (t : CoapType) : Z :=
  match t with kConfirmable => 0 | kNonConfirmable => 1 | kAcknowledgment => 2 | kReset => 3 end.

(** The two-bit field of the header, cast to the enumeration. *)
Definition CoapType_of (z : Z) : CoapType :=
  if z =? 0 then kConfirmable else if z =? 1 then kNonConfirmable
  else if z =? 2 then kAcknowledgment else kReset.

(** Codes: any byte received is cast to the enumeration, so a code is a byte. *)
Module Code.
Definition OT_COAP_CODE (c d : Z) : Z := Z.lor (Z.shiftl (Z.land c 7) 5) (Z.land d 31).
Definition kEmpty : Z := OT_COAP_CODE 0 0.
Definition kGet : Z := OT_COAP_CODE 0 1.
Definition kPost : Z := OT_COAP_CODE 0 2.
Definition kPut : Z := OT_COAP_CODE 0 3.
Definition kDelete : Z := OT_COAP_CODE 0 4.
Definition kResponseMin : Z := OT_COAP_CODE 2 0.
Definition kCreated : Z := OT_COAP_CODE 2 1.
Definition kDeleted : Z := OT_COAP_CODE 2 2.
Definition kValid : Z := OT_COAP_CODE 2 3.
Definition kChanged : Z := OT_COAP_CODE 2 4.
Definition kContent : Z := OT_COAP_CODE 2 5.
Definition kBadRequest : Z := OT_COAP_CODE 4 0.
Definition kUnauthorized : Z := OT_COAP_CODE 4 1.
Definition kBadOption : Z := OT_COAP_CODE 4 2.
Definition kForBidden : Z := OT_COAP_CODE 4 3.
Definition kNotFound : Z := OT_COAP_CODE 4 4.
Definition kMethodNotAllowed : Z := OT_COAP_CODE 4 5.
Definition kNotAcceptable : Z := OT_COAP_CODE 4 6.
Definition kPreconditionFailed : Z := OT_COAP_CODE 4 12.
Definition kRequestTooLarge : Z := OT_COAP_CODE 4 13.
Definition kUnsupportedFormat : Z := OT_COAP_CODE 4 15.
Definition kInternalError : Z := OT_COAP_CODE 5 0.
Definition kNotImplemented : Z := OT_COAP_CODE 5 1.
Definition kBadGateway : Z := OT_COAP_CODE 5 2.
Definition kServiceUnavailable : Z := OT_COAP_CODE 5 3.
Definition kGatewayTimeout : Z := OT_COAP_CODE 5 4.
Definition kProxyNotSupported : Z := OT_COAP_CODE 5 5.
End Code.

(** Option numbers, 16-bit integers. *)
Module OptionType.
Definition kIfMatch : Z := 1.
Definition kUriHost : Z := 3.
Definition kETag : Z := 4.
Definition kIfNonMatch : Z := 5.
Definition kObserve : Z := 6.
Definition kUriPort : Z := 7.
Definition kLocationPath : Z := 8.
Definition kUriPath : Z := 11.
Definition kContentFormat : Z := 12.
Definition kMaxAge : Z := 14.
Definition kUriQuery : Z := 15.
Definition kAccept : Z := 17.
Definition kLocationQuery : Z := 20.
Definition kProxyUri : Z := 35.
Definition kProxyScheme : Z := 39.
Definition kSize1 : Z := 60.
End OptionType.

Module ContentFormat.
Definition kTextPlain : Z := 0.
Definition kCoseEncrypt0 : Z := 16.
Definition kCoseMac0 : Z := 17.
Definition kCoseSign1 : Z := 18.
Definition kLinkFormat : Z := 40.
Definition kXML : Z := 41.
Definition kOctetStream : Z := 42.
Definition kEXI : Z := 47.
Definition kJSON : Z := 50.
Definition kJSONPatchJSON : Z := 51.
Definition kMergePatchJSON : Z := 52.
Definition kCBOR : Z := 60.
Definition kCWT : Z := 61.
Definition kCoseEncrypt : Z := 96.
Definition kCoseMac : Z := 97.
Definition kCoseSign : Z := 98.
Definition kCoseKey : Z := 101.
Definition kCoseKeySign : Z := 102.
Definition kSenmlJSON : Z := 110.
Definition kSensmlJSON : Z := 111.
Definition kSenmlCBOR : Z := 112.
Definition kSensmlCBOR : Z := 113.
Definition kSenmlEXI : Z := 114.
Definition kSensmlEXI : Z := 115.
Definition kCOAPGroupJSON : Z := 256.
Definition kCSRAttrs : Z := 285.
Definition kPKCS10 : Z := 286.
Definition kSenmlXML : Z := 310.
Definition kSensmlXML : Z := 311.
End ContentFormat.

Definition code_names : list (Z * string_t) :=
  [(Code.kEmpty, str "EMPTY");
   (Code.kGet, str "GET");
   (Code.kPost, str "POST");
   (Code.kPut, str "PUT");
   (Code.kDelete, str "DELETE");
   (Code.kCreated, str "CREATED");
   (Code.kDeleted, str "DELETED");
   (Code.kValid, str "VALID");
   (Code.kChanged, str "CHANGED");
   (Code.kContent, str "CONTENT");
   (Code.kBadRequest, str "BAD_REQUEST");
   (Code.kUnauthorized, str "UNAUTHORIZED");
   (Code.kBadOption, str "BAD_OPTION");
   (Code.kForBidden, str "FORBIDDEN");
   (Code.kNotFound, str "NOT_FOUND");
   (Code.kMethodNotAllowed, str "METHOD_NOT_ALLOWED");
   (Code.kNotAcceptable, str "NOT_ACCEPTABLE");
   (Code.kPreconditionFailed, str "PRECONDITIONFAILED");
   (Code.kRequestTooLarge, str "REQUEST_TOOL_LARGE");
   (Code.kUnsupportedFormat, str "UNSUPPORTED_FORMAT");
   (Code.kInternalError, str "INTERNAL_ERROR");
   (Code.kNotImplemented, str "NOT_IMPLEMENTED");
   (Code.kBadGateway, str "BAD_GATEWAY");
   (Code.kServiceUnavailable, str "SERVICE_UNAVAILABLE");
   (Code.kGatewayTimeout, str "BATEWAY_TIMEOUT");
   (Code.kProxyNotSupported, str "PROXY_NOT_SUPPORTED")].

Definition CodeToString (aCode : Z) : string_t :=
  str "CoAP::" ++ Tlv.switch code_names (str "UNKNOWN") aCode.

Definition kOptionDeltaOffset : Z := 4.
Definition kOptionDeltaMask : Z := 240.
Definition kOption1ByteExtension : Z := 13.
Definition kOption2ByteExtension : Z := 14.
Definition kOption1ByteExtensionOffset : Z := 13.
Definition kOption2ByteExtensionOffset : Z := 269.
Definition kPayloadMarker : Z := 255.
Definition kVersion1 : Z := 1.
Definition kMaxTokenLength : Z := 8.
Definition kDefaultTokenLength : Z := kMaxTokenLength.

(** ** Option values *)
Module OptionValue.

(** The loop of [OptionValue(uint32_t)], lowest byte first. *)
Fixpoint push_bytes (fuel : nat) (aUint32 : Z) : ByteArray :=
  match fuel with
  | O => []
  | S fuel => if aUint32 =? 0 then [] else Z.land aUint32 255 :: push_bytes fuel (Z.shiftr aUint32 8)
  end.

(** A 32-bit value is zero after four turns. *)
Definition FromUint32 (aUint32 : Z) : ByteArray := rev (push_bytes 4 aUint32).

Definition GetUint32Value (mValue : ByteArray) : outcome Z :=
  VerifyOrDie zlen mValue <=? 4;;
  Ok (fold_left (fun ret byte => Z.lor (u32 (Z.shiftl ret 8)) byte) mValue 0).

End OptionValue.

(** ** Messages *)
Module Message.

(** The bit fields are kept in their ranges by the conversions below.  The
    array [mToken] is written only in its first [min 8 mTokenLength] bytes and
    read only there; [mToken] holds those bytes. *)
Record Header : Type := mkHeader {
  mVersion : Z; mType : Z; mTokenLength : Z; mCode : Z; mMessageId : Z; mToken : ByteArray }.

#[export] Instance Header_eq_dec : EqDecision Header.
Proof. solve_decision. Defined.

Definition Header_init : Header := mkHeader kVersion1 0 0 0 0 [].

Definition Header_IsValid (h : Header) : bool :=
  (mVersion h =? kVersion1) && (mTokenLength h <=? kMaxTokenLength).

(** [src/library/message.hpp]. *)
Inductive MessageSubType : Type := kSubTypeNone | kJoinFinResponse.

#[export] Instance MessageSubType_eq_dec : EqDecision MessageSubType.
Proof. solve_decision. Defined.

Record Message : Type := mkMessage {
  mHeader : Header;
  mOptions : list (Z * ByteArray);   (* std::map, in key order *)
  mPayload : ByteArray;
  mRequestUri : string_t;
  mSubType : MessageSubType;
  mEndpoint : option nat }.          (* the endpoint a received message came from *)

#[export] Instance Message_eq_dec : EqDecision Message.
Proof. solve_decision. Defined.

Definition Message_init : Message := mkMessage Header_init [] [] [] kSubTypeNone None.

(** [Message(Type, Code)] *)
Definition Message_new (aType : CoapType) (aCode : Z) : Message :=
  mkMessage (mkHeader kVersion1 (CoapType_value aType) 0 aCode 0 []) [] [] [] kSubTypeNone None.

Definition upd_header (m : Message) (h : Header) : Message :=
  mkMessage h (mOptions m) (mPayload m) (mRequestUri m) (mSubType m) (mEndpoint m).
Definition upd_options (m : Message) (o : list (Z * ByteArray)) : Message :=
  mkMessage (mHeader m) o (mPayload m) (mRequestUri m) (mSubType m) (mEndpoint m).

Definition GetType (m : Message) : CoapType := CoapType_of (mType (mHeader m)).
Definition GetCode (m : Message) : Z := mCode (mHeader m).
Definition GetMessageId (m : Message) : Z := mMessageId (mHeader m).
Definition GetToken (m : Message) : ByteArray :=
  zsub (mToken (mHeader m)) 0 (Z.min 8 (mTokenLength (mHeader m))).
Definition SetMessageId (m : Message) (id : Z) : Message :=
  let h := mHeader m in
  upd_header m (mkHeader (mVersion h) (mType h) (mTokenLength h) (mCode h) id (mToken h)).
Definition SetEndpoint (m : Message) (e : option nat) : Message :=
  mkMessage (mHeader m) (mOptions m) (mPayload m) (mRequestUri m) (mSubType m) e.
Definition SetSubType (m : Message) (t : MessageSubType) : Message :=
  mkMessage (mHeader m) (mOptions m) (mPayload m) (mRequestUri m) t (mEndpoint m).
Definition Append (m : Message) (aData : ByteArray) : Message :=
  mkMessage (mHeader m) (mOptions m) (mPayload m ++ aData) (mRequestUri m) (mSubType m) (mEndpoint m).

Definition IsEmpty (m : Message) : bool := GetCode m =? Code.kEmpty.
Definition IsRequest (m : Message) : bool :=
  (GetCode m =? Code.kGet) || (GetCode m =? Code.kPost) || (GetCode m =? Code.kPut)
  || (GetCode m =? Code.kDelete).
Definition IsResponse (m : Message) : bool := negb (IsEmpty m) && negb (IsRequest m).
Definition IsConfirmable (m : Message) : bool := bool_decide (GetType m = kConfirmable).
Definition IsNonConfirmable (m : Message) : bool := bool_decide (GetType m = kNonConfirmable).
Definition IsAck (m : Message) : bool := bool_decide (GetType m = kAcknowledgment).
Definition IsReset (m : Message) : bool := bool_decide (GetType m = kReset).

Definition IsTokenEqual (m aMessage : Message) : bool := bool_decide (GetToken m = GetToken aMessage).

(** [SetToken(const ByteArray &)] *)
Definition SetTokenBytes (m : Message) (aToken : ByteArray) : Message :=
  let h := mHeader m in
  let len := Z.min 8 (zlen aToken) in
  upd_header m (mkHeader (mVersion h) (mType h) len (mCode h) (mMessageId h) (zsub aToken 0 len)).

(** [SetToken(uint8_t)], with the bytes [FillBuffer] draws. *)
Definition SetTokenRandom (m : Message) (aTokenLength : Z) (random_bytes : ByteArray) : outcome Message :=
  VerifyOrDie aTokenLength <=? 8;;
  Ok (let h := mHeader m in
      upd_header m (mkHeader (mVersion h) (mType h) aTokenLength (mCode h) (mMessageId h)
                      (zsub random_bytes 0 aTokenLength))).

(** [ASSERT(IsResponse())] guards both. *)
Definition SetRequestUri (m : Message) (aUri : string_t) : outcome Message :=
  VerifyOrDie IsResponse m;;
  Ok (mkMessage (mHeader m) (mOptions m) (mPayload m) aUri (mSubType m) (mEndpoint m)).
Definition GetRequestUri (m : Message) : outcome string_t :=
  VerifyOrDie IsResponse m;; Ok (mRequestUri m).

(** *** Header *)

Definition SerializeHeader (h : Header) (aBuf : ByteArray) : outcome ByteArray :=
  VerifyOrExit Header_IsValid h else kInvalidArgs;;
  Ok (aBuf ++ [u8 (Z.lor (Z.lor (Z.shiftl (mVersion h) 6) (Z.shiftl (mType h) 4)) (mTokenLength h));
               mCode h;
               Z.shiftr (Z.land (mMessageId h) 65280) 8;
               Z.land (mMessageId h) 255] ++ zsub (mToken h) 0 (mTokenLength h)).

Definition DeserializeHeader (aBuf : ByteArray) (aOffset : Z) : outcome (Header * Z) :=
  let offset := aOffset in
  VerifyOrExit offset <? zlen aBuf else kBadFormat;;
  b0 ← rd aBuf offset; let offset := offset + 1 in
  let version := Z.land (Z.shiftr b0 6) 3 in
  let type := Z.land (Z.shiftr b0 4) 3 in
  let tokenLength := Z.land b0 15 in
  VerifyOrExit offset <? zlen aBuf else kBadFormat;;
  code ← rd aBuf offset; let offset := offset + 1 in
  VerifyOrExit offset + 1 <? zlen aBuf else kBadFormat;;
  i0 ← rd aBuf offset; let offset := offset + 1 in
  i1 ← rd aBuf offset; let offset := offset + 1 in
  let messageId := Z.lor (u16 (Z.shiftl i0 8)) i1 in
  VerifyOrExit offset + tokenLength <=? zlen aBuf else kBadFormat;;
  token ← rds aBuf offset (Z.min tokenLength kMaxTokenLength);
  Ok (mkHeader version type tokenLength code messageId token, offset + tokenLength).

(** *** Options *)

Definition option_rules : list (Z * (Z -> bool)) :=
  [(OptionType.kIfMatch, fun n => (n <=? 8));
   (OptionType.kUriHost, fun n => (1 <=? n) && (n <=? 255));
   (OptionType.kETag, fun n => (1 <=? n) && (n <=? 8));
   (OptionType.kIfNonMatch, fun n => (n =? 0));
   (OptionType.kUriPort, fun n => (n <=? 2));
   (OptionType.kLocationPath, fun n => (n <=? 255));
   (OptionType.kUriPath, fun n => (n <=? 255));
   (OptionType.kContentFormat, fun n => (n <=? 2));
   (OptionType.kMaxAge, fun n => (n <=? 4));
   (OptionType.kUriQuery, fun n => (n <=? 255));
   (OptionType.kAccept, fun n => (n <=? 2));
   (OptionType.kLocationQuery, fun n => (n <=? 255));
   (OptionType.kProxyUri, fun n => (1 <=? n) && (n <=? 1034));
   (OptionType.kProxyScheme, fun n => (1 <=? n) && (n <=? 255));
   (OptionType.kSize1, fun n => (n <=? 4))].

Definition IsValidOption (aNumber : Z) (aValue : ByteArray) : bool :=
  Tlv.switch option_rules (fun _ => false) aNumber (zlen aValue).

Definition critical_options : list Z :=
  [OptionType.kIfMatch; OptionType.kUriHost; OptionType.kIfNonMatch; OptionType.kUriPort;
   OptionType.kUriPath; OptionType.kUriQuery; OptionType.kAccept; OptionType.kProxyUri;
   OptionType.kProxyScheme].

Definition IsCriticalOption (aNumber : Z) : bool := existsb (Z.eqb aNumber) critical_options.

(** The size of the extension of a header field, as both directions compute it. *)
Definition extension (v : Z) : Z :=
  if v <? kOption1ByteExtension then 0 else if v <? kOption2ByteExtension then 1 else 2.

(** [Serialize(OptionType, const OptionValue &, uint16_t, ByteArray &)] *)
Definition SerializeOption (aOptionNumber : Z) (aOptionValue : ByteArray) (aLastOptionNumber : Z)
    (aBuf : ByteArray) : outcome ByteArray :=
  let delta := u16 (aOptionNumber - aLastOptionNumber) in
  let valueLength := u16 (zlen aOptionValue) in
  let firstByte := zlen aBuf in
  let extend := zlen aBuf + 1 in
  VerifyOrDie aLastOptionNumber <=? aOptionNumber;;
  VerifyOrExit IsValidOption aOptionNumber aOptionValue else kInvalidArgs;;
  let length := 1 + extension delta + extension valueLength in
  let aBuf := zresize aBuf (zlen aBuf + length) in
  '(aBuf, extend) ←
    (if delta <? kOption1ByteExtensionOffset then
       aBuf ← wr aBuf firstByte (Z.land (Z.shiftl delta kOptionDeltaOffset) kOptionDeltaMask);
       Ok (aBuf, extend)
     else if delta <? kOption2ByteExtensionOffset then
       b ← rd aBuf firstByte;
       aBuf ← wr aBuf firstByte (u8 (Z.lor b (Z.shiftl kOption1ByteExtension kOptionDeltaOffset)));
       aBuf ← wr aBuf extend (Z.land (delta - kOption1ByteExtensionOffset) 255);
       Ok (aBuf, extend + 1)
     else
       b ← rd aBuf firstByte;
       aBuf ← wr aBuf firstByte (u8 (Z.lor b (Z.shiftl kOption2ByteExtension kOptionDeltaOffset)));
       let delta := u16 (delta - kOption2ByteExtensionOffset) in
       aBuf ← wr aBuf extend (Z.shiftr delta 8);
       aBuf ← wr aBuf (extend + 1) (Z.land delta 255);
       Ok (aBuf, extend + 2));
  '(aBuf, extend) ←
    (b ← rd aBuf firstByte;
     if valueLength <? kOption1ByteExtensionOffset then
       aBuf ← wr aBuf firstByte (u8 (Z.lor b (u8 valueLength)));
       Ok (aBuf, extend)
     else if valueLength <? kOption2ByteExtensionOffset then
       aBuf ← wr aBuf firstByte (u8 (Z.lor b kOption1ByteExtension));
       aBuf ← wr aBuf extend (Z.land (valueLength - kOption1ByteExtensionOffset) 255);
       Ok (aBuf, extend + 1)
     else
       let deltaLength := u16 (valueLength - kOption2ByteExtensionOffset) in
       aBuf ← wr aBuf firstByte (u8 (Z.lor b kOption2ByteExtension));
       aBuf ← wr aBuf extend (Z.shiftr deltaLength 8);
       aBuf ← wr aBuf (extend + 1) (Z.land deltaLength 255);
       Ok (aBuf, extend + 2));
  VerifyOrDie length + firstByte =? extend;;
  Ok (aBuf ++ aOptionValue).

(** The value of a header field and the offset behind its extension. *)
Definition read_extension (v : Z) (aBuf : ByteArray) (extend : Z) : outcome (Z * Z) :=
  if v <? kOption1ByteExtension then Ok (v, extend)
  else if v =? kOption1ByteExtension then
    b ← rd aBuf extend; Ok (u16 (kOption1ByteExtensionOffset + b), extend + 1)
  else
    b0 ← rd aBuf extend; b1 ← rd aBuf (extend + 1);
    Ok (u16 (kOption2ByteExtensionOffset + Z.lor (Z.shiftl b0 8) b1), extend + 2).

(** [Deserialize(OptionType &, OptionValue &, uint16_t, const ByteArray &, size_t &)]:
    number, value and the next offset. *)
Definition DeserializeOption (aLastOptionNumber : Z) (aBuf : ByteArray) (aOffset : Z)
    : outcome (Z * ByteArray * Z) :=
  let firstByte := aOffset in
  let extend := aOffset + 1 in
  VerifyOrExit firstByte <? zlen aBuf else kBadFormat;;
  b ← rd aBuf firstByte;
  let delta := Z.shiftr b 4 in
  let valueLength := Z.land b 15 in
  let length := 1 + extension delta + extension valueLength in
  VerifyOrExit firstByte + length <=? zlen aBuf else kBadFormat;;
  if (delta <? kOption1ByteExtension) || (delta =? kOption1ByteExtension)
     || (delta =? kOption2ByteExtension) then
    '(delta, extend) ← read_extension delta aBuf extend;
    if (valueLength <? kOption1ByteExtension) || (valueLength =? kOption1ByteExtension)
       || (valueLength =? kOption2ByteExtension) then
      '(valueLength, extend) ← read_extension valueLength aBuf extend;
      VerifyOrDie firstByte + length =? extend;;
      VerifyOrExit valueLength + extend <=? zlen aBuf else kBadFormat;;
      value ← rds aBuf extend valueLength;
      Ok (u16 (aLastOptionNumber + delta), value, aOffset + (length + valueLength))
    else Err kBadFormat
  else
    VerifyOrExit valueLength =? 15 else kBadFormat;;
    Err kNotFound.

(** *** The URI path *)

Definition slash : Z := 47.
Definition percent : Z := 37.

(** [s.find_first_of(c, begin)] *)
Fixpoint find_char (c : Z) (s : string_t) (i : Z) : option Z :=
  match s with
  | [] => None
  | x :: s => if x =? c then Some i else find_char c s (i + 1)
  end.
Definition find_first_of (s : string_t) (c begin : Z) : option Z := find_char c (zdrop s begin) begin.

Definition substr (s : string_t) (pos n : Z) : string_t := zsub s pos n.

(** The loop of [SplitUriPath]; [begin] grows in every turn. *)
Fixpoint SplitUriPath_loop (fuel : nat) (uri : string_t) (begin : Z) (l : list string_t)
    : outcome (list string_t * Z) :=
  match fuel with
  | O => Die
  | S fuel =>
      match find_first_of uri slash begin with
      | None => Ok (l, begin)
      | Some pos =>
          let l := if begin <? pos then l ++ [substr uri begin (pos - begin)] else l in
          SplitUriPath_loop fuel uri (pos + 1) l
      end
  end.

Definition SplitUriPath (aUriPath : string_t) : outcome (list string_t) :=
  '(l, begin) ← SplitUriPath_loop (S (length aUriPath)) aUriPath 0 [];
  let l := if begin <? zlen aUriPath then l ++ [zdrop aUriPath begin] else l in
  Ok (match l with [] => [[slash]] | _ => l end).

(** [isspace] of the C locale. *)
Definition isspace (c : Z) : bool := (c =? 32) || ((9 <=? c) && (c <=? 13)).

(** The lambda [xdigit]. *)
Definition xdigit (c : Z) : Z :=
  if (65 <=? c) && (c <=? 70) then c - 65
  else if (97 <=? c) && (c <=? 102) then c - 97 else c - 48.

(** [while (begin < size && isspace(s[begin])) ++begin;] *)
Fixpoint skip_spaces (s : string_t) : Z :=
  match s with
  | c :: s => if isspace c then 1 + skip_spaces s else 0
  | [] => 0
  end.

(** [while (end >= 1 && isspace(s[end - 1])) --end;] *)
Definition trim_end (s : string_t) : Z := zlen s - skip_spaces (rev s).

(** The loop that applies percent-decoding from [begin] on. *)
Fixpoint percent_loop (fuel : nat) (aUriPath : string_t) (begin : Z) : outcome string_t :=
  match fuel with
  | O => Die
  | S fuel =>
      match find_first_of aUriPath percent begin with
      | None => Ok aUriPath
      | Some pos =>
          if zlen aUriPath <=? pos + 2 then Err kInvalidArgs else
          c1 ← rd aUriPath (pos + 1); c2 ← rd aUriPath (pos + 2);
          if negb (HexString.isxdigit c1) || negb (HexString.isxdigit c2) then Err kInvalidArgs else
          let c := u8 (Z.lor (Z.shiftl (xdigit c1) 4) (xdigit c2)) in
          percent_loop fuel (zsub aUriPath 0 pos ++ [c] ++ zdrop aUriPath (pos + 3)) (pos + 1)
      end
  end.

Definition NormalizeUriPath (aUriPath : string_t) : outcome string_t :=
  let begin := skip_spaces aUriPath in
  let end_ := trim_end aUriPath in
  (* [end - begin] wraps for a string of spaces; [substr] then takes the (empty) rest. *)
  let aUriPath := if begin <=? end_ then substr aUriPath begin (end_ - begin)
                  else zdrop aUriPath begin in
  let aUriPath := match aUriPath with
                  | c :: _ => if c =? slash then aUriPath else slash :: aUriPath
                  | [] => [slash]
                  end in
  percent_loop (S (length aUriPath)) aUriPath begin.

(** *** Options of a message *)

Definition GetOption (m : Message) (aNumber : Z) : option ByteArray := om_find aNumber (mOptions m).

Definition AppendOption (m : Message) (aNumber : Z) (aValue : ByteArray) : outcome Message :=
  VerifyOrExit IsValidOption aNumber aValue else kInvalidArgs;;
  if aNumber =? OptionType.kUriPath then
    uriPath ← NormalizeUriPath aValue;
    let old := match om_find aNumber (mOptions m) with Some v => v | None => [] end in
    Ok (upd_options m (om_set aNumber (old ++ uriPath) (mOptions m)))
  else Ok (upd_options m (om_emplace aNumber aValue (mOptions m))).

Definition SetUriPath (m : Message) (aUriPath : string_t) : outcome Message :=
  p ← NormalizeUriPath aUriPath; AppendOption m OptionType.kUriPath p.

Definition GetOptionValue (m : Message) (aNumber : Z) : outcome ByteArray :=
  match GetOption m aNumber with Some v => Ok v | None => Err kNotFound end.
Definition GetOptionUint32 (m : Message) (aNumber : Z) : outcome Z :=
  v ← GetOptionValue m aNumber; OptionValue.GetUint32Value v.

Definition GetUriPath (m : Message) : outcome string_t := GetOptionValue m OptionType.kUriPath.
Definition SetAccept (m : Message) (f : Z) : outcome Message :=
  AppendOption m OptionType.kAccept (OptionValue.FromUint32 f).
Definition GetAccept (m : Message) : outcome Z := GetOptionUint32 m OptionType.kAccept.
Definition SetContentFormat (m : Message) (f : Z) : outcome Message :=
  AppendOption m OptionType.kContentFormat (OptionValue.FromUint32 f).
Definition GetContentFormat (m : Message) : outcome Z := GetOptionUint32 m OptionType.kContentFormat.

(** *** Whole messages *)

Fixpoint SerializeSegments (segments : list string_t) (lastOptionNumber : Z) (aBuf : ByteArray)
    : outcome (ByteArray * Z) :=
  match segments with
  | [] => Ok (aBuf, lastOptionNumber)
  | segment :: segments =>
      aBuf ← SerializeOption OptionType.kUriPath segment lastOptionNumber aBuf;
      SerializeSegments segments OptionType.kUriPath aBuf
  end.

Fixpoint SerializeOptions (options : list (Z * ByteArray)) (lastOptionNumber : Z) (aBuf : ByteArray)
    : outcome ByteArray :=
  match options with
  | [] => Ok aBuf
  | (number, value) :: options =>
      if number =? OptionType.kUriPath then
        uriPathSegments ← SplitUriPath value;
        '(aBuf, lastOptionNumber) ← SerializeSegments uriPathSegments lastOptionNumber aBuf;
        SerializeOptions options lastOptionNumber aBuf
      else
        aBuf ← SerializeOption number value lastOptionNumber aBuf;
        SerializeOptions options number aBuf
  end.

(** [Serialize(ByteArray &)] *)
Definition Serialize (m : Message) (aBuf : ByteArray) : outcome ByteArray :=
  aBuf ← SerializeHeader (mHeader m) aBuf;
  aBuf ← SerializeOptions (mOptions m) 0 aBuf;
  Ok (if 0 <? zlen (mPayload m) then aBuf ++ [kPayloadMarker] ++ mPayload m else aBuf).

Definition GetHeaderLength (m : Message) : outcome Z :=
  match SerializeHeader (mHeader m) [] with Ok buf => Ok (zlen buf) | _ => Die end.

(** The option loop of [Deserialize]: the message and the offset it stops at. *)
Fixpoint DeserializeOptions (fuel : nat) (message : Message) (lastOptionNumber : Z)
    (aBuf : ByteArray) (offset : Z) : outcome (Message * Z) :=
  if negb (offset <? zlen aBuf) then Ok (message, offset) else
  b ← rd aBuf offset;
  if b =? kPayloadMarker then Ok (message, offset) else
  match fuel with
  | O => Die
  | S fuel =>
      '(number, value, offset) ← DeserializeOption lastOptionNumber aBuf offset;
      match (if IsValidOption number value then AppendOption message number value
             else Err kBadFormat) with
      | Ok message => DeserializeOptions fuel message number aBuf offset
      | Die => Die
      | Err e =>
          if IsCriticalOption number then Err e
          else DeserializeOptions fuel message number aBuf offset
      end
  end.

(** [Deserialize(Error &, const ByteArray &)] *)
Definition Deserialize (aBuf : ByteArray) : outcome Message :=
  '(header, offset) ← DeserializeHeader aBuf 0;
  VerifyOrExit Header_IsValid header else kBadFormat;;
  '(message, offset) ←
    DeserializeOptions (length aBuf) (upd_header Message_init header) 0 aBuf offset;
  if offset <? zlen aBuf then
    b ← rd aBuf offset;
    let offset := offset + 1 in
    if b =? kPayloadMarker then
      VerifyOrExit offset <? zlen aBuf else kBadFormat;;
      payload ← rdt aBuf offset;
      Ok (mkMessage (mHeader message) (mOptions message) payload
            (mRequestUri message) (mSubType message) (mEndpoint message))
    else Ok message (* [mPayload] is empty *)
  else Ok message.

End Message.

(** ** Theorems *)
Module MessageFacts.
Import Message OptionValue CommonFacts.

(** *** Unsigned option values *)

Lemma Uint32_fold l r :
  fold_left (fun ret byte => Z.lor (u32 (Z.shiftl ret 8)) byte) l r = Endian.Decode_loop 32 r l.
Proof. revert r; induction l; intros; simpl; auto. Qed.

Lemma land_255_byte v : is_byte (Z.land v 255) /\ Z.land v 255 = v mod 256.
Proof.
  change 255 with (2 ^ 8 - 1). rewrite land_low_mask by lia.
  split; [apply Z.mod_pos_bound; lia|done].
Qed.

Lemma push_bytes_value n v :
  fits (8 * Z.of_nat n) v -> Z.of_nat n <= 4 ->
  bytes (push_bytes n v) /\ zlen (push_bytes n v) <= Z.of_nat n /\
  Endian.Decode_loop 32 0 (rev (push_bytes n v)) = v.
Proof.
  revert v; induction n as [|n IH]; intros v Hv Hn.
  - unfold fits in Hv. simpl in *. split_and!; [constructor|done|lia].
  - cbn [push_bytes]. case_if; bool_to_prop; [subst; split_and!; [constructor|zw|done]|].
    pose proof (fits_shiftr_8 n v Hv) as Hv'.
    destruct (IH (Z.shiftr v 8) Hv' ltac:(lia)) as (H1 & H2 & H3).
    destruct (land_255_byte v) as [Hb Hm].
    split_and!; [by constructor|rewrite zlen_cons; lia|].
    simpl rev. rewrite Decode_loop_app, H3. simpl Endian.Decode_loop.
    rewrite Decode_step; [|lia|done|].
    + rewrite Hm, Z.shiftr_div_pow2 by lia. change (2 ^ 8) with 256.
      rewrite Z.mul_comm, <- Z.div_mod by lia. done.
    + unfold fits in Hv'. split; [lia|]. eapply Z.lt_le_trans; [apply Hv'|].
      apply Z.pow_le_mono_r; lia.
Qed.

Lemma bytes_rev l : bytes l -> bytes (rev l).
Proof. intros. apply Forall_rev in H. done. Qed.

Lemma zlen_rev {A} (l : list A) : zlen (rev l) = zlen l.
Proof. unfold zlen. by rewrite length_rev. Qed.

(** The variable-length encoding of a [uint32_t]: at most four bytes, without
    leading zeros, and [GetUint32Value] reads the value back. *)
Theorem option_uint32_roundtrip v :
  fits 32 v ->
  bytes (FromUint32 v) /\ zlen (FromUint32 v) <= 4 /\ hd 1 (FromUint32 v) <> 0 /\
  GetUint32Value (FromUint32 v) = Ok v.
Proof.
  intros Hv. unfold FromUint32, GetUint32Value.
  destruct (push_bytes_value 4 v) as (H1 & H2 & H3); [done|lia|].
  split_and!; [by apply bytes_rev|by rewrite zlen_rev| |].
  - assert (Hg : forall n u, fits (8 * Z.of_nat n) u -> hd 1 (rev (push_bytes n u)) <> 0).
    { clear. induction n as [|n IH]; intros u Hu; [done|]. cbn [push_bytes].
      case_if; bool_to_prop; [done|]. simpl rev.
      pose proof (fits_shiftr_8 n u Hu) as Hu'.
      specialize (IH _ Hu'). destruct (rev (push_bytes n (Z.shiftr u 8))) as [|z l] eqn:Er; simpl in *; [|done].
      destruct (land_255_byte u) as [_ ->].
      assert (Es : Z.shiftr u 8 = 0).
      { destruct n; [unfold fits in Hu'; simpl in Hu'; lia|]. cbn [push_bytes] in Er.
        destruct (Z.shiftr u 8 =? 0) eqn:E0; [by apply Z.eqb_eq|]. simpl in Er.
        by destruct (rev (push_bytes n _)). }
      rewrite Z.shiftr_div_pow2 in Es by lia. change (2 ^ 8) with 256 in Es.
      unfold fits in Hu. Z.to_euclidean_division_equations; lia. }
    by apply (Hg 4%nat).
  - rewrite zlen_rev, (proj2 (Z.leb_le _ 4)) by lia. by rewrite Uint32_fold, H3.
Qed.

Lemma option_uint32_roundtrip_witness : GetUint32Value (FromUint32 65540) = Ok 65540.
Proof. apply (option_uint32_roundtrip 65540). closed. Defined.

(** *** The header *)

(** A header whose fields are in the ranges of their bit fields. *)
Definition header_ok (h : Header) : Prop :=
  mVersion h = kVersion1 /\ 0 <= mType h < 4 /\ 0 <= mTokenLength h <= 8 /\
  is_byte (mCode h) /\ fits 16 (mMessageId h) /\ bytes (mToken h) /\ zlen (mToken h) = mTokenLength h.

Definition header_bytes (h : Header) : ByteArray :=
  [u8 (Z.lor (Z.lor (Z.shiftl (mVersion h) 6) (Z.shiftl (mType h) 4)) (mTokenLength h));
   mCode h; Z.shiftr (Z.land (mMessageId h) 65280) 8; Z.land (mMessageId h) 255] ++ mToken h.

Lemma first_byte_fields t l :
  0 <= t < 4 -> 0 <= l <= 8 ->
  let b := u8 (Z.lor (Z.lor (Z.shiftl kVersion1 6) (Z.shiftl t 4)) l) in
  is_byte b /\ Z.land (Z.shiftr b 6) 3 = kVersion1 /\ Z.land (Z.shiftr b 4) 3 = t /\ Z.land b 15 = l.
Proof.
  intros Ht Hl b. split; [apply u8_byte|].
  assert (E : forallb (fun t => forallb (fun l =>
     let b := u8 (Z.lor (Z.lor (Z.shiftl kVersion1 6) (Z.shiftl t 4)) l) in
     (Z.land (Z.shiftr b 6) 3 =? kVersion1) && (Z.land (Z.shiftr b 4) 3 =? t) && (Z.land b 15 =? l))
     (seqZ 0 9)) (seqZ 0 4) = true) by (vm_compute; reflexivity).
  pose proof (forallb_seqZ _ 4 E t Ht) as Et. cbv beta in Et.
  pose proof (forallb_seqZ _ 9 Et l ltac:(lia)) as El. cbv beta zeta in El. fold b in El.
  bool_to_prop. done.
Qed.

Lemma id_bytes i :
  fits 16 i ->
  is_byte (Z.shiftr (Z.land i 65280) 8) /\ is_byte (Z.land i 255) /\
  Z.lor (u16 (Z.shiftl (Z.shiftr (Z.land i 65280) 8) 8)) (Z.land i 255) = i.
Proof.
  intros [H1 H2].
  assert (Hhi : Z.shiftr (Z.land i 65280) 8 = i / 256).
  { change 256 with (2 ^ 8). rewrite <- (Z.shiftr_div_pow2 i 8) by lia. apply Z.bits_inj'; intros n Hn.
    change 65280 with (Z.shiftl (Z.ones 8) 8).
    rewrite !Z.shiftr_spec, Z.land_spec, Z.shiftl_spec by lia. replace (n + 8 - 8) with n by lia.
    destruct (decide (n < 8)); [by rewrite Z.ones_spec_low, andb_true_r by lia|].
    rewrite Z.ones_spec_high, andb_false_r by lia.
    symmetry. rewrite <- (Z.mod_small i (2 ^ 16)) by lia. apply Z.mod_pow2_bits_high; lia. }
  destruct (land_255_byte i) as [Hb Hm]. change (2 ^ 16) with 65536 in H2.
  rewrite Hhi. split_and!; [unfold is_byte, fits; change (2 ^ 8) with 256;
    Z.to_euclidean_division_equations; lia | done |].
  rewrite u16_id.
  2:{ unfold fits. rewrite Z.shiftl_mul_pow2 by lia. change (2 ^ 8) with 256.
      change (2 ^ 16) with 65536. Z.to_euclidean_division_equations; lia. }
  rewrite lor_shiftl_add by (exact Hb || lia). rewrite Hm. change (2 ^ 8) with 256.
  rewrite Z.mul_comm, <- Z.div_mod by lia. done.
Qed.

Lemma SerializeHeader_bytes h buf :
  header_ok h -> SerializeHeader h buf = Ok (buf ++ header_bytes h).
Proof.
  intros (Hv & Ht & Hl & Hc & Hi & Hb & Htl). unfold SerializeHeader, Header_IsValid, kMaxTokenLength.
  rewrite Hv, (proj2 (Z.leb_le _ 8)) by lia. change (kVersion1 =? kVersion1) with true. cbn [andb].
  unfold header_bytes. rewrite <- Htl, Hv.
  rewrite <- (app_nil_r (mToken h)) at 2. by rewrite zsub_prefix.
Qed.

Lemma zlen_header_bytes h : zlen (header_bytes h) = 4 + zlen (mToken h).
Proof. unfold header_bytes. autorewrite with ot. cbn. lia. Qed.

Lemma DeserializeHeader_bytes h pre post :
  header_ok h ->
  DeserializeHeader (pre ++ header_bytes h ++ post) (zlen pre) = Ok (h, zlen (pre ++ header_bytes h)).
Proof.
  intros (Hv & Ht & Hl & Hc & Hi & Hb & Htl). unfold DeserializeHeader, header_bytes.
  destruct (first_byte_fields _ _ Ht Hl) as (_ & F1 & F2 & F3).
  destruct (id_bytes _ Hi) as (_ & _ & F4).
  pose proof (zlen_nonneg pre). pose proof (zlen_nonneg post). pose proof (zlen_nonneg (mToken h)).
  rewrite Hv. set (b0 := u8 _) in *. set (i0 := Z.shiftr _ 8) in *. set (i1 := Z.land _ 255) in *.
  set (buf := pre ++ _). assert (Hlen : zlen buf = zlen pre + 4 + zlen (mToken h) + zlen post).
  { unfold buf. autorewrite with ot. cbn. lia. }
  rewrite Hlen, !(proj2 (Z.ltb_lt _ _)) by lia.
  replace (zlen pre + 1 + 1 + 1 + 1) with (zlen pre + 4) by lia.
  replace (zlen pre + 1 + 1 + 1) with (zlen pre + 3) by lia.
  replace (zlen pre + 1 + 1) with (zlen pre + 2) by lia.
  replace (rd buf (zlen pre)) with (Ok b0) by (unfold buf; cbn [app]; by rewrite rd_app).
  replace (rd buf (zlen pre + 1)) with (Ok (mCode h)) by (symmetry; by apply (rd_at pre _ 1)).
  replace (rd buf (zlen pre + 2)) with (Ok i0) by (symmetry; by apply (rd_at pre _ 2)).
  replace (rd buf (zlen pre + 3)) with (Ok i1) by (symmetry; by apply (rd_at pre _ 3)).
  cbn [mbind outcome_bind]. rewrite F1, F2, F3, F4, (proj2 (Z.leb_le _ _)) by lia.
  unfold kMaxTokenLength. rewrite Z.min_l by lia. rewrite rds_ok by lia.
  cbn [mbind outcome_bind]. unfold buf. cbn [app]. rewrite zsub_app_r by lia. repeat rewrite zsub_cons_pos by lia.
  repeat (change (4 - 1) with 3 || change (3 - 1) with 2 || change (2 - 1) with 1 || change (1 - 1) with 0).
  rewrite <- Htl, zsub_prefix. autorewrite with ot. rewrite Htl, <- Hv. destruct h; cbn in *.
  do 2 f_equal. lia.
Qed.

(** *** One option

    The reference is the option format of RFC 7252: a nibble of 0 to 12 is the
    value, 13 announces one more byte and 14 two more. *)

Definition rfc_nibble (v : Z) : Z := if v <? 13 then v else if v <? 269 then 13 else 14.
Definition rfc_extension (v : Z) : ByteArray :=
  if v <? 13 then [] else if v <? 269 then [v - 13] else [(v - 269) / 256; (v - 269) mod 256].

Definition rfc_option (delta : Z) (value : ByteArray) : ByteArray :=
  (rfc_nibble delta * 16 + rfc_nibble (zlen value))
  :: rfc_extension delta ++ rfc_extension (zlen value) ++ value.

(** The field values for which the serializer reserves the right number of
    bytes. *)
Definition reserved_right (v : Z) : bool := (v <=? 13) || (269 <=? v).

Lemma rfc_nibble_range v : 0 <= v -> 0 <= rfc_nibble v <= 14.
Proof. intros. unfold rfc_nibble. repeat case_if; bool_to_prop; lia. Qed.

Lemma zresize_grow l n : 0 <= n -> zresize l (zlen l + n) = l ++ replicate (Z.to_nat n) 0.
Proof.
  intros. unfold zresize, zlen. rewrite Z2Nat.inj_add, Nat2Z.id by lia.
  rewrite resize_ge by lia. do 2 f_equal. lia.
Qed.

Lemma nibble_byte d l :
  0 <= d < 16 -> 0 <= l < 16 ->
  Z.land (Z.shiftl d 4) 240 = d * 16 /\ u8 (Z.lor 0 (Z.shiftl d 4)) = d * 16 /\
  u8 (Z.lor (d * 16) l) = d * 16 + l.
Proof.
  intros Hd Hl.
  assert (E : forallb (fun d => (Z.land (Z.shiftl d 4) 240 =? d * 16)
      && (u8 (Z.lor 0 (Z.shiftl d 4)) =? d * 16)
      && forallb (fun l => u8 (Z.lor (d * 16) l) =? d * 16 + l) (seqZ 0 16)) (seqZ 0 16) = true)
    by (vm_compute; reflexivity).
  pose proof (forallb_seqZ _ 16 E d Hd) as E1. cbv beta in E1. bool_to_prop.
  match goal with H : forallb _ _ = true |- _ => pose proof (forallb_seqZ _ 16 H l Hl) as E2 end.
  cbv beta in E2. bool_to_prop. done.
Qed.

Lemma nibble_or d l : 0 <= d < 16 -> 0 <= l < 16 -> u8 (Z.lor (d * 16) l) = d * 16 + l.
Proof. intros. by apply nibble_byte. Qed.

(** The two extension bytes of a value of at least 269. *)
Lemma ext_bytes v :
  269 <= v < 65536 ->
  Z.shiftr (u16 (v - 269)) 8 = (v - 269) / 256 /\ Z.land (u16 (v - 269)) 255 = (v - 269) mod 256.
Proof.
  intros. rewrite u16_id by zw. rewrite Z.shiftr_div_pow2 by lia.
  by destruct (land_255_byte (v - 269)) as [_ ->].
Qed.

Lemma ext_byte v : 13 <= v < 269 -> Z.land (v - 13) 255 = v - 13.
Proof. intros. destruct (land_255_byte (v - 13)) as [_ ->]. rewrite Z.mod_small; lia. Qed.

(** Reads and writes in the bytes that [resize] appended. *)
Ltac slots buf :=
  match goal with |- context [replicate (Z.to_nat ?n) 0] =>
    let r := eval vm_compute in (replicate (Z.to_nat n) 0) in
    change (replicate (Z.to_nat n) 0) with r
  end;
  repeat first
    [ rewrite rd_app
    | erewrite wr_app_0 by reflexivity
    | erewrite wr_app_r by (lia || reflexivity)
    | progress (change (Z.to_nat 0) with 0%nat; change (Z.to_nat 1) with 1%nat;
                change (Z.to_nat 2) with 2%nat; change (Z.to_nat 3) with 3%nat;
                change (Z.to_nat 4) with 4%nat)
    | progress cbn [insert list_insert mbind outcome_bind]
    | rewrite <- (Z.add_assoc (zlen buf) 1 1); change (1 + 1) with 2
    | rewrite <- (Z.add_assoc (zlen buf) 1 2); change (1 + 2) with 3
    | rewrite <- (Z.add_assoc (zlen buf) 2 1); change (2 + 1) with 3
    | rewrite <- (Z.add_assoc (zlen buf) 2 2); change (2 + 2) with 4
    | rewrite <- (Z.add_assoc (zlen buf) 3 1); change (3 + 1) with 4
    | rewrite <- (Z.add_assoc (zlen buf) 3 2); change (3 + 2) with 5 ].

Lemma SerializeOption_spec number value last buf :
  0 <= last <= number -> number < 65536 -> IsValidOption number value = true -> zlen value < 65536 ->
  SerializeOption number value last buf =
    if reserved_right (number - last) && reserved_right (zlen value)
    then Ok (buf ++ rfc_option (number - last) value) else Die.
Proof.
  intros Hl Hn Hv Hlen. unfold SerializeOption. pose proof (zlen_nonneg value).
  rewrite (proj2 (Z.leb_le _ _)), Hv by lia. rewrite !u16_id by zw.
  set (delta := number - last) in *. assert (Hd : 0 <= delta < 65536) by lia.
  set (len := zlen value) in *.
  unfold rfc_option, rfc_nibble, rfc_extension, reserved_right. fold len.
  unfold extension, kOption1ByteExtension, kOption2ByteExtension, kOption1ByteExtensionOffset,
    kOption2ByteExtensionOffset, kOptionDeltaOffset, kOptionDeltaMask.
  assert (Hcase : forall v, 0 <= v < 65536 -> v < 13 \/ v = 13 \/ 14 <= v < 269 \/ 269 <= v) by lia.
  destruct (Hcase delta Hd) as [D|[D|[D|D]]], (Hcase len ltac:(lia)) as [L|[L|[L|L]]].
  all: zcmp; cbn [andb orb negb]; rewrite zresize_grow by lia.
  all: slots buf; zcmp; try reflexivity.
  all: rewrite <- app_assoc; cbn [app].
  all: repeat match goal with
    | |- context [Z.land (?v - 13) 255] => rewrite (ext_byte v) by lia
    | |- context [Z.shiftr (u16 (?v - 269)) 8] => rewrite (proj1 (ext_bytes v ltac:(lia)))
    | |- context [Z.land (u16 (?v - 269)) 255] => rewrite (proj2 (ext_bytes v ltac:(lia)))
    end.
  all: change (u8 (Z.lor 0 (Z.shiftl 13 4))) with (13 * 16).
  all: change (u8 (Z.lor 0 (Z.shiftl 14 4))) with (14 * 16).
  all: try (rewrite (proj1 (nibble_byte delta 0 ltac:(lia) ltac:(lia)))).
  all: try (rewrite (u8_id len) by zw).
  all: rewrite nibble_or by lia; reflexivity.
Qed.
Lemma nibbles_split d l :
  0 <= d < 16 -> 0 <= l < 16 -> Z.shiftr (d * 16 + l) 4 = d /\ Z.land (d * 16 + l) 15 = l.
Proof.
  intros Hd Hl. rewrite Z.shiftr_div_pow2 by lia. change 15 with (2 ^ 4 - 1).
  rewrite land_low_mask by lia. change (2 ^ 4) with 16.
  split; Z.to_euclidean_division_equations; lia.
Qed.

Lemma extension_rfc v : 0 <= v -> extension (rfc_nibble v) = zlen (rfc_extension v).
Proof.
  intros. unfold rfc_nibble, rfc_extension, extension, kOption1ByteExtension, kOption2ByteExtension.
  destruct (v <? 13) eqn:E1; [|destruct (v <? 269) eqn:E2]; bool_to_prop; zcmp; done.
Qed.

Lemma rfc_extension_bytes v : 0 <= v < 65536 -> bytes (rfc_extension v).
Proof.
  intros. unfold rfc_extension. repeat case_if; bool_to_prop; repeat constructor;
    unfold is_byte, fits; change (2 ^ 8) with 256; Z.to_euclidean_division_equations; lia.
Qed.

Lemma read_extension_rfc v pre post :
  0 <= v < 65536 ->
  read_extension (rfc_nibble v) (pre ++ rfc_extension v ++ post) (zlen pre)
  = Ok (v, zlen pre + zlen (rfc_extension v)).
Proof.
  intros Hv. unfold read_extension, rfc_nibble, rfc_extension, kOption1ByteExtension,
    kOption1ByteExtensionOffset, kOption2ByteExtensionOffset.
  destruct (v <? 13) eqn:E1; [|destruct (v <? 269) eqn:E2]; bool_to_prop; zcmp.
  - by rewrite Z.add_0_r.
  - cbn [app]. rewrite rd_app. cbn [mbind outcome_bind]. rewrite u16_id by zw.
    change (zlen [_]) with 1. do 2 f_equal. lia.
  - cbn [app]. rewrite rd_app. cbn [mbind outcome_bind].
    erewrite (rd_at pre _ 1 1) by reflexivity. cbn [mbind outcome_bind].
    rewrite lor_shiftl_add by (lia || (change (2 ^ 8) with 256; apply Z.mod_pos_bound; lia)).
    change (2 ^ 8) with 256. rewrite (Z.mul_comm _ 256), <- Z.div_mod by lia.
    rewrite u16_id by zw. change (zlen [_; _]) with 2. do 2 f_equal. lia.
Qed.

Lemma rfc_nibble_known v :
  0 <= v -> (rfc_nibble v <? kOption1ByteExtension) || (rfc_nibble v =? kOption1ByteExtension)
            || (rfc_nibble v =? kOption2ByteExtension) = true.
Proof.
  intros Hv. pose proof (rfc_nibble_range v Hv).
  unfold kOption1ByteExtension, kOption2ByteExtension.
  destruct (Z.ltb_spec (rfc_nibble v) 13); [done|]. destruct (Z.eqb_spec (rfc_nibble v) 13); [done|].
  simpl. apply Z.eqb_eq. lia.
Qed.

Lemma zlen_rfc_option delta value :
  zlen (rfc_option delta value)
  = 1 + zlen (rfc_extension delta) + zlen (rfc_extension (zlen value)) + zlen value.
Proof. unfold rfc_option. autorewrite with ot. lia. Qed.

(** The parser reads every option in the format of the RFC, at any place. *)
Lemma DeserializeOption_rfc last delta value pre post :
  0 <= last -> 0 <= delta -> last + delta < 65536 -> zlen value < 65536 ->
  DeserializeOption last (pre ++ rfc_option delta value ++ post) (zlen pre)
  = Ok (last + delta, value, zlen (pre ++ rfc_option delta value)).
Proof.
  intros Hl Hd Hld Hlen. pose proof (zlen_nonneg value). pose proof (zlen_nonneg pre).
  pose proof (zlen_nonneg post). pose proof (zlen_nonneg (rfc_extension delta)).
  pose proof (zlen_nonneg (rfc_extension (zlen value))).
  pose proof (rfc_nibble_range delta Hd). pose proof (rfc_nibble_range (zlen value) ltac:(lia)).
  pose proof (zlen_rfc_option delta value) as Hz. unfold DeserializeOption.
  rewrite !zlen_app, Hz. rewrite (proj2 (Z.ltb_lt _ _)) by lia.
  replace (rd (pre ++ rfc_option delta value ++ post) (zlen pre))
    with (Ok (rfc_nibble delta * 16 + rfc_nibble (zlen value)))
    by (unfold rfc_option; cbn [app]; by rewrite rd_app).
  cbn [mbind outcome_bind].
  destruct (nibbles_split (rfc_nibble delta) (rfc_nibble (zlen value)) ltac:(lia) ltac:(lia)) as [-> ->].
  rewrite !extension_rfc, (proj2 (Z.leb_le _ _)), !rfc_nibble_known by lia.
  set (b := rfc_nibble delta * 16 + rfc_nibble (zlen value)).
  set (ed := rfc_extension delta) in *. set (el := rfc_extension (zlen value)) in *.
  assert (EB : pre ++ rfc_option delta value ++ post = (pre ++ [b]) ++ ed ++ (el ++ value ++ post)).
  { unfold rfc_option. cbn [app]. fold b ed el. by rewrite <- !app_assoc. }
  replace (zlen pre + 1) with (zlen (pre ++ [b])) by (rewrite zlen_app; done).
  rewrite EB. unfold ed at 1. rewrite read_extension_rfc by lia. cbn [mbind outcome_bind]. fold ed.
  replace (zlen (pre ++ [b]) + zlen ed) with (zlen ((pre ++ [b]) ++ ed)) by (by rewrite zlen_app).
  rewrite (app_assoc (pre ++ [b])). unfold el at 2. rewrite read_extension_rfc by lia.
  cbn [mbind outcome_bind]. fold el.
  replace (zlen ((pre ++ [b]) ++ ed) + zlen el) with (zlen (((pre ++ [b]) ++ ed) ++ el))
    by (by rewrite zlen_app).
  rewrite (app_assoc ((pre ++ [b]) ++ ed)), rds_app.
  rewrite u16_id by zw. autorewrite with ot. change (zlen [b]) with 1 in *. zcmp. reflexivity.
Qed.

(** [SerializeOption] on a valid option, exactly: it writes the RFC format, or
    aborts the process when the option delta or the value length is between
    14 and 268.  Whatever it writes is read back. *)
Theorem option_codec number value last buf post :
  0 <= last <= number -> number < 65536 -> IsValidOption number value = true -> zlen value < 65536 ->
  SerializeOption number value last buf =
    (if reserved_right (number - last) && reserved_right (zlen value)
     then Ok (buf ++ rfc_option (number - last) value) else Die) /\
  DeserializeOption last (buf ++ rfc_option (number - last) value ++ post) (zlen buf)
  = Ok (number, value, zlen (buf ++ rfc_option (number - last) value)).
Proof.
  intros Hl Hn Hv Hlen. split; [by apply SerializeOption_spec|].
  rewrite DeserializeOption_rfc by lia. do 3 f_equal. lia.
Qed.

Lemma option_codec_witness :
  SerializeOption OptionType.kUriPath (str "c") 0 [1] = Ok [1; 177; 99] /\
  SerializeOption OptionType.kUriPath (str "fourteen-chars") 0 [1] = Die.
Proof.
  split; [apply (option_codec OptionType.kUriPath (str "c") 0 [1] [])
         |apply (option_codec OptionType.kUriPath (str "fourteen-chars") 0 [1] [])];
    first [split; (vm_compute; congruence) | vm_compute; reflexivity].
Defined.

(** Errors of the option parser, and its progress, on any buffer. *)
Lemma read_extension_total v buf off :
  bytes buf -> 0 <= v <= 14 -> 0 <= off -> off + extension v <= zlen buf ->
  exists w, read_extension v buf off = Ok (w, off + extension v) /\ 0 <= w < 65536.
Proof.
  intros Hb Hv Ho Hlen. unfold read_extension, extension, kOption1ByteExtension,
    kOption2ByteExtension, kOption1ByteExtensionOffset, kOption2ByteExtensionOffset in *.
  assert (Hu : forall z, 0 <= u16 z < 65536) by (intros z; apply u16_fits).
  destruct (v <? 13) eqn:E1; [|destruct (v <? 14) eqn:E2]; bool_to_prop.
  - exists v. rewrite Z.add_0_r. split; [done|lia].
  - rewrite (proj2 (Z.eqb_eq v 13)) by lia.
    destruct (rd_ok buf off ltac:(lia)) as (b & -> & _). cbn [mbind outcome_bind]. eauto.
  - rewrite (proj2 (Z.eqb_neq v 13)) by lia.
    destruct (rd_ok buf off ltac:(lia)) as (b0 & -> & _).
    destruct (rd_ok buf (off + 1) ltac:(lia)) as (b1 & E & _).
    cbn [mbind outcome_bind]. rewrite E. cbn [mbind outcome_bind]. eauto.
Qed.

Lemma extension_bound v : 0 <= extension v <= 2.
Proof. unfold extension. repeat case_if; lia. Qed.

Lemma DeserializeOption_total last buf off :
  bytes buf -> 0 <= off ->
  match DeserializeOption last buf off with
  | Ok (n, v, off') => off < off' <= zlen buf /\ fits 16 n /\ bytes v
  | Err e => e = kBadFormat \/ (e = kNotFound /\ rd buf off = Ok kPayloadMarker)
  | Die => False
  end.
Proof.
  intros Hb Ho. unfold DeserializeOption. case_if; [|auto]. bool_to_prop.
  destruct (rd_ok buf off ltac:(lia)) as (b & Eb & _). rewrite Eb. cbn [mbind outcome_bind].
  pose proof (rd_byte _ _ _ Hb Eb) as Hbb.
  assert (Hd : 0 <= Z.shiftr b 4 <= 15 /\ 0 <= Z.land b 15 <= 15 /\ b = Z.shiftr b 4 * 16 + Z.land b 15).
  { rewrite Z.shiftr_div_pow2 by lia. change 15 with (2 ^ 4 - 1). rewrite land_low_mask by lia.
    change (2 ^ 4) with 16. unfold is_byte, fits in Hbb. change (2 ^ 8) with 256 in Hbb.
    Z.to_euclidean_division_equations; lia. }
  destruct Hd as (Hd & Hl & Hbe). set (d := Z.shiftr b 4) in *. set (l := Z.land b 15) in *.
  pose proof (extension_bound d). pose proof (extension_bound l).
  case_if; [|auto]. bool_to_prop.
  assert (Hk : forall v, 0 <= v <= 15 -> (v <? kOption1ByteExtension) || (v =? kOption1ByteExtension)
            || (v =? kOption2ByteExtension) = (v <=? 14)).
  { intros v Hv. unfold kOption1ByteExtension, kOption2ByteExtension.
    apply eq_iff_eq_true. rewrite !orb_true_iff, Z.ltb_lt, !Z.eqb_eq, Z.leb_le. lia. }
  rewrite !Hk by done. destruct (d <=? 14) eqn:Ed; bool_to_prop.
  - destruct (read_extension_total d buf (off + 1) Hb) as (w & -> & Hw); [lia..|].
    cbn [mbind outcome_bind]. destruct (l <=? 14) eqn:El; bool_to_prop; [|auto].
    destruct (read_extension_total l buf (off + 1 + extension d) Hb) as (x & -> & Hx); [lia..|].
    cbn [mbind outcome_bind]. rewrite (proj2 (Z.eqb_eq _ _)) by lia.
    case_if; [|auto]. bool_to_prop. rewrite rds_ok by lia. cbn [mbind outcome_bind].
    split_and!; [lia|lia|apply u16_fits|by apply bytes_zsub].
  - case_if; [|auto]. bool_to_prop. right. split; [done|].
    assert (b = 255) as -> by lia. done.
Qed.

(** *** Searching in strings *)

Lemma find_char_spec c s i :
  match find_char c s i with
  | None => c ∉ s
  | Some p => exists s1 s2, s = s1 ++ (c :: s2) /\ (c ∉ s1) /\ p = i + zlen s1
  end.
Proof.
  revert i; induction s as [|x s IH]; intros i; simpl; [by apply not_elem_of_nil|].
  destruct (Z.eqb_spec x c) as [->|Hne].
  - exists [], s. split_and!; [done|by apply not_elem_of_nil|]. rewrite zlen_nil; lia.
  - specialize (IH (i + 1)). destruct (find_char c s (i + 1)) as [p|].
    + destruct IH as (s1 & s2 & -> & Hn & ->). exists (x :: s1), s2.
      split_and!; [done|by apply not_elem_of_cons|]. rewrite zlen_cons; lia.
    + by apply not_elem_of_cons.
Qed.

Lemma find_first_of_app pre s c :
  match find_first_of (pre ++ s) c (zlen pre) with
  | None => c ∉ s
  | Some p => exists s1 s2, s = s1 ++ (c :: s2) /\ (c ∉ s1) /\ p = zlen pre + zlen s1
  end.
Proof. unfold find_first_of. rewrite zdrop_app. apply find_char_spec. Qed.

(** *** Splitting the path

    The reference: the fields between slashes, without the empty ones. *)

Fixpoint fields (s : string_t) : list string_t :=
  match s with
  | [] => [[]]
  | c :: s =>
      if c =? slash then [] :: fields s
      else match fields s with f :: fs => (c :: f) :: fs | [] => [[c]] end
  end.

Definition nonempty (s : string_t) : bool := match s with [] => false | _ => true end.

Definition ref_split (s : string_t) : list string_t :=
  match List.filter nonempty (fields s) with [] => [[slash]] | l => l end.

Lemma fields_no_slash s : slash ∉ s -> fields s = [s].
Proof.
  induction s as [|c s IH]; intros H; [done|]. apply not_elem_of_cons in H as [H1 H2]. simpl.
  rewrite (proj2 (Z.eqb_neq c slash)), IH by (done || congruence). done.
Qed.

Lemma fields_app s1 s2 : slash ∉ s1 -> fields (s1 ++ slash :: s2) = s1 :: fields s2.
Proof.
  induction s1 as [|c s IH]; intros H; [by simpl|]. apply not_elem_of_cons in H as [H1 H2]. simpl.
  rewrite (proj2 (Z.eqb_neq c slash)), IH by (done || congruence). done.
Qed.

Lemma SplitUriPath_loop_spec fuel : forall pre s l,
  (length s < fuel)%nat ->
  exists l' begin, SplitUriPath_loop fuel (pre ++ s) (zlen pre) l = Ok (l', begin) /\
    (if begin <? zlen (pre ++ s) then l' ++ [zdrop (pre ++ s) begin] else l')
    = l ++ List.filter nonempty (fields s).
Proof.
  induction fuel as [|fuel IH]; intros pre s l Hf; [lia|]. cbn [SplitUriPath_loop].
  pose proof (find_first_of_app pre s slash) as HF.
  destruct (find_first_of (pre ++ s) slash (zlen pre)) as [p|].
  - destruct HF as (s1 & s2 & -> & Hn & ->).
    replace (pre ++ s1 ++ slash :: s2) with ((pre ++ s1 ++ [slash]) ++ s2)
      by (by rewrite <- !app_assoc).
    replace (zlen pre + zlen s1 + 1) with (zlen (pre ++ s1 ++ [slash])) by (autorewrite with ot; lia).
    rewrite length_app in Hf. simpl in Hf.
    match goal with |- context [SplitUriPath_loop _ _ _ ?l0] =>
      destruct (IH (pre ++ s1 ++ [slash]) s2 l0 ltac:(lia)) as (l' & b & -> & E) end.
    exists l', b. split; [done|]. rewrite E, fields_app by done.
    assert (Hs : substr ((pre ++ s1 ++ [slash]) ++ s2) (zlen pre) (zlen pre + zlen s1 - zlen pre) = s1).
    { unfold substr. replace (zlen pre + zlen s1 - zlen pre) with (zlen s1) by lia.
      rewrite <- !app_assoc. apply zsub_app. }
    rewrite Hs. destruct s1 as [|c s1]; simpl.
    + rewrite zlen_nil, Z.add_0_r, Z.ltb_irrefl. done.
    + pose proof (zlen_nonneg s1). rewrite zlen_cons, (proj2 (Z.ltb_lt _ _)) by lia.
      by rewrite <- app_assoc.
  - exists l, (zlen pre). split; [done|]. rewrite fields_no_slash by done. rewrite zdrop_app, zlen_app.
    destruct s as [|c s]; simpl.
    + rewrite zlen_nil, Z.add_0_r, Z.ltb_irrefl. by rewrite app_nil_r.
    + pose proof (zlen_nonneg s). by rewrite zlen_cons, (proj2 (Z.ltb_lt _ _)) by lia.
Qed.

Lemma SplitUriPath_ref s : SplitUriPath s = Ok (ref_split s).
Proof.
  unfold SplitUriPath, ref_split.
  destruct (SplitUriPath_loop_spec (S (length s)) [] s [] ltac:(lia)) as (l & b & E & H).
  simpl app in *. change (zlen []) with 0 in E. rewrite E. cbn [mbind outcome_bind].
  simpl in H. rewrite H. by destruct (List.filter nonempty (fields s)).
Qed.

(** *** Normalising the path *)

Lemma percent_loop_total fuel : forall s begin,
  (length s < fuel)%nat -> 0 <= begin ->
  match percent_loop fuel s begin with
  | Ok s' => zlen s' <= zlen s /\ (bytes s -> bytes s')
  | Err e => e = kInvalidArgs
  | Die => False
  end.
Proof.
  induction fuel as [|fuel IH]; intros s begin Hf Hb; [lia|]. cbn [percent_loop].
  destruct (decide (begin <= zlen s)) as [Hle|Hgt].
  2:{ unfold find_first_of, zdrop. rewrite drop_ge by zw. simpl. split; [lia|done]. }
  assert (E : s = take (Z.to_nat begin) s ++ zdrop s begin) by (symmetry; apply take_drop).
  assert (El : begin = zlen (take (Z.to_nat begin) s)) by (unfold zlen in *; rewrite length_take; lia).
  pose proof (find_first_of_app (take (Z.to_nat begin) s) (zdrop s begin) percent) as HF.
  rewrite <- E, <- El in HF.
  destruct (find_first_of s percent begin) as [p|]; [|split; [lia|done]].
  destruct HF as (s1 & s2 & Es & _ & Hp). pose proof (zlen_nonneg s1).
  case_if; [done|]. bool_to_prop.
  destruct (rd_ok s (p + 1) ltac:(lia)) as (c1 & E1 & _).
  destruct (rd_ok s (p + 2) ltac:(lia)) as (c2 & E2 & _).
  rewrite E1. cbn [mbind outcome_bind]. rewrite E2. cbn [mbind outcome_bind].
  case_if; [done|].
  set (s' := zsub s 0 p ++ [_] ++ zdrop s (p + 3)).
  assert (Hl : zlen s' = zlen s - 2).
  { unfold s'. rewrite !zlen_app, zlen_zsub by lia. change (zlen [_]) with 1.
    unfold zdrop, zlen in *. rewrite length_drop. lia. }
  specialize (IH s' (p + 1) ltac:(unfold zlen in *; lia) ltac:(lia)).
  destruct (percent_loop fuel s' (p + 1)); [|done..]. destruct IH as [IH1 IH2].
  split; [lia|]. intros Hbs. apply IH2. apply Forall_app; split; [by apply bytes_zsub|].
  apply Forall_app; split; [apply Forall_singleton, u8_byte|by apply bytes_zdrop].
Qed.

Lemma skip_spaces_range s : 0 <= skip_spaces s <= zlen s.
Proof.
  induction s as [|c s IH]; [done|]. simpl. rewrite zlen_cons. case_if; lia.
Qed.

Lemma NormalizeUriPath_total s :
  match NormalizeUriPath s with
  | Ok s' => bytes s -> bytes s'
  | Err e => e = kInvalidArgs
  | Die => False
  end.
Proof.
  unfold NormalizeUriPath. pose proof (skip_spaces_range s).
  match goal with |- context [percent_loop _ (match ?x with _ => _ end) _] => set (t := x) end.
  assert (Ht : bytes s -> bytes t) by (intros; unfold t; case_if; [by apply bytes_zsub|by apply bytes_zdrop]).
  match goal with |- context [percent_loop _ ?x _] => set (u := x) end.
  assert (Hu : bytes s -> bytes u).
  { intros Hs. specialize (Ht Hs). unfold u. destruct t as [|c t']; [repeat constructor; closed|].
    case_if; [done|]. constructor; [closed|done]. }
  pose proof (percent_loop_total (S (length u)) u (skip_spaces s) ltac:(lia) ltac:(lia)) as HP.
  destruct (percent_loop _ u _); naive_solver.
Qed.

(** *** The option list on the wire

    A Uri-Path is sent as one option per segment. *)

Definition flatten (options : list (Z * ByteArray)) : list (Z * ByteArray) :=
  concat (map (fun o => if o.1 =? OptionType.kUriPath then map (pair o.1) (ref_split o.2) else [o])
              options).

Fixpoint wire_bytes (last : Z) (ws : list (Z * ByteArray)) : ByteArray :=
  match ws with [] => [] | (n, v) :: ws => rfc_option (n - last) v ++ wire_bytes n ws end.

(** Every option of the list gets the right number of bytes reserved. *)
Fixpoint wire_fits (last : Z) (ws : list (Z * ByteArray)) : bool :=
  match ws with
  | [] => true
  | (n, v) :: ws => reserved_right (n - last) && reserved_right (zlen v) && wire_fits n ws
  end.

(** Valid options in ascending order. *)
Fixpoint wire_ok (last : Z) (ws : list (Z * ByteArray)) : Prop :=
  match ws with
  | [] => True
  | (n, v) :: ws => last <= n < 65536 /\ IsValidOption n v = true /\ zlen v < 65536 /\ wire_ok n ws
  end.

Fixpoint SerializeWire (ws : list (Z * ByteArray)) (last : Z) (buf : ByteArray) : outcome ByteArray :=
  match ws with
  | [] => Ok buf
  | (n, v) :: ws => buf ← SerializeOption n v last buf; SerializeWire ws n buf
  end.

Lemma SerializeSegments_wire segs ws last buf :
  ('(b, l) ← SerializeSegments segs last buf; SerializeWire ws l b)
  = SerializeWire (map (pair OptionType.kUriPath) segs ++ ws) last buf.
Proof.
  revert last buf; induction segs as [|s segs IH]; intros last buf; [done|].
  cbn [SerializeSegments map app SerializeWire].
  destruct (SerializeOption OptionType.kUriPath s last buf); [|done..].
  cbn [mbind outcome_bind]. apply IH.
Qed.

Lemma SerializeOptions_wire options last buf :
  SerializeOptions options last buf = SerializeWire (flatten options) last buf.
Proof.
  revert last buf; induction options as [|[n v] options IH]; intros last buf; [done|].
  unfold flatten. cbn [map concat SerializeOptions fst snd]. fold (flatten options).
  destruct (Z.eqb_spec n OptionType.kUriPath) as [->|Hne].
  - rewrite SplitUriPath_ref. cbn [mbind outcome_bind].
    rewrite <- SerializeSegments_wire.
    destruct (SerializeSegments (ref_split v) last buf) as [[b l]| |]; [|done..].
    cbn [mbind outcome_bind]. apply IH.
  - cbn [app SerializeWire]. destruct (SerializeOption n v last buf); [|done..].
    cbn [mbind outcome_bind]. apply IH.
Qed.

Lemma SerializeWire_exact ws : forall last buf,
  0 <= last -> wire_ok last ws ->
  SerializeWire ws last buf = if wire_fits last ws then Ok (buf ++ wire_bytes last ws) else Die.
Proof.
  induction ws as [|[n v] ws IH]; intros last buf Hl Hw; simpl in *; [by rewrite app_nil_r|].
  destruct Hw as (Hn & Hv & Hlen & Hw). rewrite SerializeOption_spec by (done || lia).
  destruct (reserved_right (n - last) && reserved_right (zlen v)); [|done].
  cbn [mbind outcome_bind andb]. rewrite IH by (done || lia). by rewrite <- app_assoc.
Qed.

(** Appending the options of the wire one by one. *)
Fixpoint AppendAll (m : Message) (ws : list (Z * ByteArray)) : outcome Message :=
  match ws with [] => Ok m | (n, v) :: ws => m ← AppendOption m n v; AppendAll m ws end.

Lemma AppendAll_app m ws1 ws2 : AppendAll m (ws1 ++ ws2) = (m ← AppendAll m ws1; AppendAll m ws2).
Proof.
  revert m; induction ws1 as [|[n v] ws1 IH]; intros m; [done|]. cbn [app AppendAll].
  destruct (AppendOption m n v); cbn [mbind outcome_bind]; auto.
Qed.

Definition at_end (post : ByteArray) : Prop := post = [] \/ exists p, post = kPayloadMarker :: p.

Lemma first_byte_no_marker d v ws :
  0 <= d -> exists b tl, rfc_option d v ++ ws = b :: tl /\ b <> kPayloadMarker.
Proof.
  intros Hd. eexists _, _. split; [done|].
  pose proof (rfc_nibble_range d Hd). pose proof (rfc_nibble_range (zlen v) (zlen_nonneg v)).
  unfold kPayloadMarker. lia.
Qed.

Lemma DeserializeOptions_wire ws : forall fuel m m' last pre post,
  0 <= last -> wire_ok last ws -> AppendAll m ws = Ok m' -> at_end post ->
  (length ws <= fuel)%nat ->
  DeserializeOptions fuel m last (pre ++ wire_bytes last ws ++ post) (zlen pre)
  = Ok (m', zlen (pre ++ wire_bytes last ws)).
Proof.
  induction ws as [|[n v] ws IH]; intros fuel m m' last pre post Hl Hw Ha Hp Hf.
  - simpl in *. injection Ha as ->. rewrite app_nil_r.
    destruct Hp as [->|[p ->]].
    + rewrite app_nil_r. by destruct fuel; cbn [DeserializeOptions]; rewrite Z.ltb_irrefl.
    + pose proof (zlen_nonneg p).
      destruct fuel; cbn [DeserializeOptions]; rewrite rd_app; autorewrite with ot;
        rewrite (proj2 (Z.ltb_lt _ _)) by lia; reflexivity.
  - destruct Hw as (Hn & Hv & Hlen & Hw). destruct fuel as [|fuel]; [simpl in Hf; lia|].
    cbn [wire_bytes]. rewrite <- app_assoc. cbn [DeserializeOptions].
    destruct (first_byte_no_marker (n - last) v (wire_bytes n ws ++ post) ltac:(lia)) as (b & tl & E & Hb).
    pose proof (zlen_nonneg tl).
    assert (Hlt : (zlen pre <? zlen (pre ++ rfc_option (n - last) v ++ wire_bytes n ws ++ post)) = true).
    { rewrite E. apply Z.ltb_lt. autorewrite with ot. lia. }
    rewrite Hlt. rewrite E at 1. rewrite rd_app. cbn [negb mbind outcome_bind].
    rewrite (proj2 (Z.eqb_neq _ _) Hb).
    rewrite DeserializeOption_rfc by lia. cbn [mbind outcome_bind].
    replace (last + (n - last)) with n by lia. rewrite Hv.
    cbn [AppendAll] in Ha. destruct (AppendOption m n v) as [m1| |]; [|done..].
    cbn [mbind outcome_bind] in Ha. rewrite app_assoc.
    rewrite (IH fuel m1 m' n _ post) by (done || simpl in Hf; lia). by rewrite app_assoc.
Qed.

(** *** Paths in normal form *)

(** A path segment that normalisation leaves alone. *)
Definition good_segment (s : string_t) : Prop :=
  s <> [] /\ (slash ∉ s) /\ (percent ∉ s) /\ skip_spaces s = 0 /\ skip_spaces (rev s) = 0
  /\ zlen s <= 255.

Definition join (segs : list string_t) : string_t := concat (map (cons slash) segs).

(** "/", or segments each with a slash before it. *)
Definition normal_path (p : string_t) : Prop :=
  p = [slash] \/ exists segs, segs <> [] /\ Forall good_segment segs /\ p = join segs.

Lemma fields_join segs :
  Forall good_segment segs -> List.filter nonempty (fields (join segs)) = segs.
Proof.
  induction segs as [|s segs IH]; intros H; [done|].
  inversion H as [|? ? (Hne & Hsl & _) Hs]; subst. unfold join. cbn [map concat app].
  fold (join segs). change (slash :: s ++ join segs) with ([] ++ slash :: (s ++ join segs)).
  rewrite fields_app by apply not_elem_of_nil. cbn [List.filter nonempty].
  destruct segs as [|s' segs].
  - unfold join; simpl. rewrite app_nil_r, fields_no_slash by done. by destruct s.
  - unfold join. cbn [map concat app]. rewrite fields_app by done.
    specialize (IH Hs). unfold join in IH. cbn [map concat app] in IH.
    change (slash :: s' ++ concat (map (cons slash) segs))
      with ([] ++ slash :: (s' ++ concat (map (cons slash) segs))) in IH.
    rewrite fields_app in IH by apply not_elem_of_nil. cbn [List.filter nonempty] in IH |- *.
    rewrite IH. by destruct s.
Qed.

Lemma zsub_all {A} (s : list A) : zsub s 0 (zlen s) = s.
Proof. rewrite <- (app_nil_r s) at 1. apply zsub_prefix. Qed.

Lemma Normalize_good s : good_segment s -> NormalizeUriPath s = Ok (slash :: s).
Proof.
  intros (Hne & Hsl & Hp & Hb & He & _). unfold NormalizeUriPath, trim_end. rewrite Hb, He, !Z.sub_0_r.
  rewrite (proj2 (Z.leb_le 0 _)) by apply zlen_nonneg.
  unfold substr. rewrite zsub_all. destruct s as [|c s]; [done|].
  rewrite (proj2 (Z.eqb_neq c slash)) by (apply not_elem_of_cons in Hsl as [? _]; congruence).
  cbn [percent_loop length]. pose proof (find_first_of_app [] (slash :: c :: s) percent) as HF.
  cbn [app] in HF. change (zlen []) with 0 in HF.
  destruct (find_first_of (slash :: c :: s) percent 0) as [p|]; [|done].
  destruct HF as (s1 & s2 & E & _). exfalso.
  assert (Hin : percent ∈ slash :: c :: s) by (rewrite E; apply elem_of_app; right; left).
  apply elem_of_cons in Hin as [Hin|Hin]; [discriminate Hin|done].
Qed.

(** A path in normal form is left alone. *)
Lemma percent_loop_none n s begin : (percent ∉ s) -> percent_loop (S n) s begin = Ok s.
Proof.
  intros Hp. cbn [percent_loop]. destruct (find_first_of s percent begin) as [p|] eqn:E; [|done]. exfalso. apply Hp.
  unfold find_first_of in E. pose proof (find_char_spec percent (zdrop s begin) begin) as HF. rewrite E in HF.
  destruct HF as (s1 & s2 & Es & _). rewrite <- (take_drop (Z.to_nat begin) s). unfold zdrop in Es. rewrite Es.
  apply elem_of_app. right. apply elem_of_app. right. by left.
Qed.

Lemma percent_join segs : Forall good_segment segs -> percent ∉ join segs.
Proof.
  induction 1 as [|s segs (_ & _ & Hp & _) _ IH]; [apply not_elem_of_nil|].
  change (join (s :: segs)) with (slash :: (s ++ join segs)).
  rewrite elem_of_cons, elem_of_app. by intros [H|[H|H]].
Qed.

Lemma skip_spaces_app s k : s <> [] -> skip_spaces s = 0 -> skip_spaces (s ++ k) = 0.
Proof. destruct s as [|c s]; [done|]. cbn. case_if; [|done]. intros _ H. exfalso.
  assert (0 <= skip_spaces s); [clear; induction s as [|c s IH]; cbn; [lia|case_if; lia]|lia]. Qed.

Lemma Normalize_join segs : segs <> [] -> Forall good_segment segs -> NormalizeUriPath (join segs) = Ok (join segs).
Proof.
  intros Hne Hs. unfold NormalizeUriPath, trim_end.
  assert (Hb : skip_spaces (join segs) = 0) by (by destruct segs).
  assert (He : skip_spaces (rev (join segs)) = 0).
  { destruct (exists_last Hne) as (l & s & ->). apply Forall_app in Hs as [_ Hs].
    apply Forall_singleton in Hs as (Hs & _ & _ & _ & Hr & _). unfold join. rewrite map_app, concat_app, rev_app_distr.
    cbn [map concat]. rewrite app_nil_r. cbn [rev]. rewrite <- app_assoc. apply skip_spaces_app; [|done].
    intros E. apply Hs. by apply (f_equal (@rev Z)) in E; rewrite rev_involutive in E. }
  rewrite Hb, He, Z.sub_0_r, (proj2 (Z.leb_le 0 _)) by apply zlen_nonneg. unfold substr. rewrite Z.sub_0_r, zsub_all.
  destruct segs as [|s segs]; [done|]. change (join (s :: segs)) with (slash :: (s ++ join segs)) at 2 3.
  change (slash =? slash) with true. cbv iota. by apply percent_loop_none, percent_join.
Qed.

Lemma ref_split_normal p :
  normal_path p ->
  ref_split p <> [] /\ Forall (fun s => zlen s <= 255) (ref_split p) /\
  exists ps, Forall2 (fun s q => NormalizeUriPath s = Ok q) (ref_split p) ps /\ concat ps = p.
Proof.
  intros [->|(segs & Hne & Hg & ->)].
  - split_and!; [done|by repeat constructor|]. exists [[slash]]. split; [|done].
    repeat constructor.
  - unfold ref_split. rewrite fields_join by done. destruct segs as [|s segs]; [done|].
    split_and!; [done| |].
    + eapply Forall_impl; [exact Hg|]. by intros ? (? & ? & ? & ? & ? & ?).
    + exists (map (cons slash) (s :: segs)). split; [|done].
      clear Hne. induction Hg; simpl; constructor; [by apply Normalize_good|done].
Qed.

(** *** Message round trip *)

Definition option_ok (o : Z * ByteArray) : Prop :=
  if o.1 =? OptionType.kUriPath then normal_path o.2 else IsValidOption o.1 o.2 = true.

(** The messages that can be represented: fields in range, registered options
    in the order of the map, path in normal form; the attributes that are not
    sent have their initial values. *)
Definition message_ok (m : Message) : Prop :=
  header_ok (mHeader m) /\ om_sorted (mOptions m) /\ Forall option_ok (mOptions m) /\
  mRequestUri m = [] /\ mSubType m = kSubTypeNone /\ mEndpoint m = None.

Definition payload_bytes (m : Message) : ByteArray :=
  if 0 <? zlen (mPayload m) then kPayloadMarker :: mPayload m else [].

Definition message_bytes (m : Message) : ByteArray :=
  header_bytes (mHeader m) ++ wire_bytes 0 (flatten (mOptions m)) ++ payload_bytes m.

Lemma IsValidOption_bounds n v : IsValidOption n v = true -> 0 < n < 65536 /\ zlen v < 65536.
Proof.
  unfold IsValidOption.
  apply (TlvFacts.switch_rules _ (fun n len => 0 < n < 65536 /\ len < 65536)).
  repeat first [apply Forall_nil_2 | apply Forall_cons_2].
  all: cbn [fst snd]; intros len H; bool_to_prop; split; [closed|lia].
Qed.

Lemma segment_valid s : zlen s <= 255 -> IsValidOption OptionType.kUriPath s = true.
Proof. intros. unfold IsValidOption. cbn. by apply Z.leb_le. Qed.

Lemma flatten_wire_ok options : forall last,
  om_sorted options -> Forall option_ok options -> Forall (fun o => last <= o.1) options ->
  wire_ok last (flatten options).
Proof.
  induction options as [|[n v] options IH]; intros last Hs Ho Hl; [done|].
  apply om_sorted_cons in Hs as [Hs Hlt]. inversion Ho as [|? ? Hov Ho']; subst.
  inversion Hl as [|? ? Hn Hl']; subst. cbn [fst] in Hn.
  assert (Hw : wire_ok n (flatten options)).
  { apply IH; [done..|]. eapply Forall_impl; [exact Hlt|]. intros [? ?]; simpl; lia. }
  unfold flatten. cbn [map concat fst snd]. fold (flatten options).
  unfold option_ok in Hov. cbn [fst snd] in Hov.
  destruct (Z.eqb_spec n OptionType.kUriPath) as [->|Hne].
  - destruct (ref_split_normal v Hov) as (Hnn & Hlen & _). revert Hnn Hn. generalize last.
    induction Hlen as [|s segs Hs' Hsegs IHs]; intros last' Hnn Hn; [done|].
    cbn [map app wire_ok]. split_and!; [done|closed|by apply segment_valid|lia|].
    destruct segs as [|s2 segs]; [exact Hw|]. apply IHs; [done|lia].
  - cbn [app wire_ok]. destruct (IsValidOption_bounds n v Hov). split_and!; [lia|lia|done|lia|exact Hw].
Qed.

Lemma AppendAll_segments segs ps : forall m done_ acc,
  Forall2 (fun s q => NormalizeUriPath s = Ok q) segs ps -> Forall (fun s => zlen s <= 255) segs ->
  Forall (fun o : Z * ByteArray => o.1 < OptionType.kUriPath) done_ ->
  mOptions m = done_ ++ [(OptionType.kUriPath, acc)] ->
  AppendAll m (map (pair OptionType.kUriPath) segs)
  = Ok (upd_options m (done_ ++ [(OptionType.kUriPath, acc ++ concat ps)])).
Proof.
  intros m done_ acc H. revert m acc; induction H as [|s q segs ps Hq H IH]; intros m acc Hl Hd Hm.
  - simpl. rewrite app_nil_r, <- Hm. by destruct m.
  - inversion Hl; subst. cbn [map AppendAll]. unfold AppendOption.
    rewrite segment_valid, Hq by done. cbn [mbind outcome_bind].
    change (OptionType.kUriPath =? OptionType.kUriPath) with true. cbv iota.
    rewrite Hm, om_find_app, om_find_None_gt by done. cbn [om_find].
    change (OptionType.kUriPath =? OptionType.kUriPath) with true. cbv iota.
    rewrite om_set_snoc by done. cbn [mbind outcome_bind]. rewrite (IH _ (acc ++ q)) by done.
    cbn [concat]. by rewrite app_assoc.
Qed.

Lemma AppendAll_path segs ps m done_ :
  Forall2 (fun s q => NormalizeUriPath s = Ok q) segs ps -> Forall (fun s => zlen s <= 255) segs ->
  segs <> [] -> Forall (fun o : Z * ByteArray => o.1 < OptionType.kUriPath) done_ ->
  mOptions m = done_ ->
  AppendAll m (map (pair OptionType.kUriPath) segs)
  = Ok (upd_options m (done_ ++ [(OptionType.kUriPath, concat ps)])).
Proof.
  intros H Hl Hne Hd Hm. destruct H as [|s q segs ps Hq H]; [done|]. inversion Hl; subst.
  cbn [map AppendAll]. unfold AppendOption. rewrite segment_valid, Hq by done.
  cbn [mbind outcome_bind].
  change (OptionType.kUriPath =? OptionType.kUriPath) with true. cbv iota.
  rewrite om_find_None_gt, om_set_last by done. cbn [app mbind outcome_bind].
  rewrite (AppendAll_segments segs ps _ (mOptions m) q) by done. done.
Qed.

Lemma AppendAll_flatten options : forall m done_,
  om_sorted options -> Forall option_ok options ->
  Forall (fun o => Forall (fun d : Z * ByteArray => d.1 < o.1) done_) options ->
  mOptions m = done_ ->
  AppendAll m (flatten options) = Ok (upd_options m (done_ ++ options)).
Proof.
  induction options as [|[n v] options IH]; intros m done_ Hs Ho Hd Hm.
  - simpl. rewrite app_nil_r, <- Hm. by destruct m.
  - apply om_sorted_cons in Hs as [Hs Hlt]. inversion Ho as [|? ? Hov Ho']; subst.
    inversion Hd as [|? ? Hdn Hd']; subst. cbn [fst] in Hdn.
    unfold flatten. cbn [map concat fst snd]. fold (flatten options). rewrite AppendAll_app.
    assert (Hnext : Forall (fun o => Forall (fun d : Z * ByteArray => d.1 < o.1)
                                       (mOptions m ++ [(n, v)])) options).
    { rewrite Forall_forall in *. intros o Hin. apply Forall_app; split; [by apply Hd'|].
      apply Forall_singleton. by apply Hlt. }
    assert (Hstep : AppendAll m (if n =? OptionType.kUriPath then map (pair n) (ref_split v)
                                 else [(n, v)])
                    = Ok (upd_options m (mOptions m ++ [(n, v)]))).
    { unfold option_ok in Hov. cbn [fst snd] in Hov.
      destruct (Z.eqb_spec n OptionType.kUriPath) as [->|Hne].
      - destruct (ref_split_normal v Hov) as (Hnn & Hlen & ps & Hps & Hc).
        rewrite (AppendAll_path _ ps m (mOptions m)), Hc by done. done.
      - cbn [AppendAll]. unfold AppendOption. rewrite Hov, (proj2 (Z.eqb_neq _ _)) by done.
        unfold om_emplace. rewrite om_find_None_gt, om_set_last by done. done. }
    rewrite Hstep. cbn [mbind outcome_bind].
    rewrite (IH _ (mOptions m ++ [(n, v)])) by done. unfold upd_options; simpl.
    by rewrite <- app_assoc.
Qed.

Lemma length_wire_bytes ws last : (length ws <= length (wire_bytes last ws))%nat.
Proof.
  revert last; induction ws as [|[n v] ws IH]; intros last; [done|]. cbn [wire_bytes length].
  rewrite length_app. specialize (IH n). unfold rfc_option. cbn [length]. lia.
Qed.

Lemma message_wire_ok m : message_ok m -> wire_ok 0 (flatten (mOptions m)).
Proof.
  intros (_ & Hs & Ho & _). apply flatten_wire_ok; [done..|].
  eapply Forall_impl; [exact Ho|]. intros [n v] Hov. unfold option_ok in Hov; cbn [fst snd] in *.
  destruct (Z.eqb_spec n OptionType.kUriPath) as [->|]; [closed|].
  destruct (IsValidOption_bounds _ _ Hov). lia.
Qed.

Lemma Serialize_message m :
  message_ok m ->
  Serialize m [] = if wire_fits 0 (flatten (mOptions m)) then Ok (message_bytes m) else Die.
Proof.
  intros Hm. pose proof (message_wire_ok m Hm) as Hw. destruct Hm as (Hh & _).
  unfold Serialize. rewrite SerializeHeader_bytes by done. cbn [mbind outcome_bind app].
  rewrite SerializeOptions_wire, SerializeWire_exact by (done || lia).
  unfold message_bytes, payload_bytes. destruct (wire_fits 0 _); [|done].
  cbn [mbind outcome_bind]. case_if; [by rewrite <- app_assoc|by rewrite app_nil_r].
Qed.

(** A message that only has a path. *)
Definition path_message (t : CoapType) (code : Z) (segs : list string_t) : Message :=
  upd_options (Message_new t code) [(OptionType.kUriPath, join segs)].

Lemma SetUriPath_join t code segs : segs <> [] -> Forall good_segment segs -> zlen (join segs) <= 255 ->
  SetUriPath (Message_new t code) (join segs) = Ok (path_message t code segs).
Proof.
  intros Hne Hs Hl. unfold SetUriPath, AppendOption. rewrite Normalize_join by done. cbn [mbind outcome_bind].
  rewrite segment_valid by done. cbn [Z.eqb OptionType.kUriPath Pos.eqb]. rewrite Normalize_join by done. done.
Qed.

Lemma path_message_ok t code segs : is_byte code -> segs <> [] -> Forall good_segment segs -> message_ok (path_message t code segs).
Proof.
  intros Hc Hne Hs. split_and!; try done.
  - unfold header_ok, is_byte, fits in *. cbn. destruct t; cbn; split_and!; done || lia || constructor.
  - unfold om_sorted. cbn. repeat constructor.
  - apply Forall_singleton. right. by exists segs.
Qed.

(** Short segments: every one takes one byte besides its characters. *)
Lemma wire_bytes_path segs : Forall (fun s => zlen s <= 12) segs ->
  wire_fits OptionType.kUriPath (map (pair OptionType.kUriPath) segs) = true /\
  wire_bytes OptionType.kUriPath (map (pair OptionType.kUriPath) segs) = concat (map (fun s => zlen s :: s) segs).
Proof.
  induction 1 as [|s segs Hs _ [IH1 IH2]]; [done|]. cbn [map wire_fits wire_bytes concat]. rewrite IH1, IH2, Z.sub_diag.
  pose proof (zlen_nonneg s). split; [unfold reserved_right; by rewrite (proj2 (Z.leb_le (zlen s) 13)) by lia|].
  unfold rfc_option, rfc_nibble, rfc_extension. by rewrite (proj2 (Z.ltb_lt (zlen s) 13)) by lia.
Qed.

(** The path options of a message, as RFC 7252 writes short segments: the option number 11, then options of number 0. *)
Definition path_options (segs : list string_t) : ByteArray :=
  match segs with [] => [] | s :: segs => (176 + zlen s) :: s ++ concat (map (fun s => zlen s :: s) segs) end.

Lemma Serialize_path t code segs : is_byte code -> segs <> [] -> Forall good_segment segs -> Forall (fun s => zlen s <= 12) segs ->
  Serialize (path_message t code segs) [] = Ok (header_bytes (mHeader (path_message t code segs)) ++ path_options segs).
Proof.
  intros Hc Hne Hs Hl. rewrite Serialize_message by by apply path_message_ok. unfold message_bytes, payload_bytes, path_message.
  cbn [mOptions upd_options flatten map concat fst snd]. unfold flatten. cbn [map concat fst snd].
  change (OptionType.kUriPath =? OptionType.kUriPath) with true. cbv iota. unfold ref_split.
  rewrite app_nil_r, fields_join by done. destruct segs as [|s segs]; [done|].
  apply Forall_cons in Hl as [Hls Hl]. destruct (wire_bytes_path segs Hl) as [H1 H2]. pose proof (zlen_nonneg s).
  cbn [map wire_fits wire_bytes]. rewrite H1, H2. unfold reserved_right, rfc_option, rfc_nibble, rfc_extension.
  change (OptionType.kUriPath - 0) with 11. rewrite (proj2 (Z.leb_le (zlen s) 13)), (proj2 (Z.ltb_lt (zlen s) 13)) by lia.
  cbn -[zlen Z.add Z.mul]. rewrite app_nil_r. do 3 f_equal.
Qed.

Lemma Deserialize_message m : message_ok m -> Deserialize (message_bytes m) = Ok m.
Proof.
  intros Hm. pose proof (message_wire_ok m Hm) as Hw. destruct Hm as (Hh & Hs & Ho & Hu & Hst & He).
  unfold Deserialize, message_bytes.
  pose proof (DeserializeHeader_bytes (mHeader m) [] (wire_bytes 0 (flatten (mOptions m)) ++ payload_bytes m) Hh) as HD.
  cbn [app] in HD. change (zlen []) with 0 in HD. rewrite HD. cbn [mbind outcome_bind].
  assert (Hv : Header_IsValid (mHeader m) = true).
  { destruct Hh as (Hv & _ & Hl & _). unfold Header_IsValid, kMaxTokenLength. rewrite Hv.
    change (kVersion1 =? kVersion1) with true. cbn [andb]. apply Z.leb_le. lia. }
  rewrite Hv. rewrite (DeserializeOptions_wire _ _ _ (upd_options (upd_header Message_init (mHeader m)) (mOptions m))); [|lia|done| | |].
  2:{ rewrite (AppendAll_flatten (mOptions m) _ []); [done|done|done| |done].
      rewrite Forall_forall. intros; constructor. }
  2:{ unfold at_end, payload_bytes. case_if; eauto. }
  2:{ rewrite !length_app. pose proof (length_wire_bytes (flatten (mOptions m)) 0). lia. }
  cbn [mbind outcome_bind]. unfold payload_bytes. rewrite app_assoc.
  set (pre := header_bytes (mHeader m) ++ wire_bytes 0 (flatten (mOptions m))).
  destruct (Z.ltb_spec 0 (zlen (mPayload m))) as [Hp|Hp].
  - rewrite rd_app. cbn [mbind outcome_bind]. autorewrite with ot. zcmp.
    replace (zlen pre + 1) with (zlen (pre ++ [kPayloadMarker])) by (rewrite zlen_app; done).
    replace (pre ++ kPayloadMarker :: mPayload m) with ((pre ++ [kPayloadMarker]) ++ mPayload m)
      by (by rewrite <- app_assoc).
    pose proof (zlen_nonneg pre). rewrite rdt_ok by (autorewrite with ot; lia). cbn [mbind outcome_bind].
    rewrite zdrop_app. destruct m; simpl in *; by subst.
  - rewrite app_nil_r, Z.ltb_irrefl.
    assert (Hnil : mPayload m = []) by (destruct (mPayload m) as [|x l]; [done|rewrite zlen_cons in Hp; pose proof (zlen_nonneg l); lia]).
    destruct m; simpl in *; by subst.
Qed.

(** C34: The message round trip.  For every representable message, [Serialize]
    produces the bytes of RFC 7252, except that it aborts the process when an
    option delta or value length falls between 14 and 268; and [Deserialize]
    gives the message back from those bytes in every case. *)
Theorem message_roundtrip m :
  message_ok m ->
  Serialize m [] = (if wire_fits 0 (flatten (mOptions m)) then Ok (message_bytes m) else Die) /\
  Deserialize (message_bytes m) = Ok m.
Proof. split; [by apply Serialize_message | by apply Deserialize_message]. Qed.

(** Decide (non-)membership of closed terms. *)
Ltac decide_in := apply (bool_decide_unpack _); vm_compute; exact I.

(** A petition request of the commissioner: POST /c/cp with a token and a
    payload. *)
Definition sample_request : Message :=
  mkMessage (mkHeader 1 0 2 Code.kPost 4660 [17; 34])
    [(OptionType.kUriPath, str "/c/cp"); (OptionType.kContentFormat, [42])]
    [10; 1; 65] [] kSubTypeNone None.

Lemma message_roundtrip_witness :
  Serialize sample_request []
    = Ok [66; 2; 18; 52; 17; 34; 177; 99; 2; 99; 112; 17; 42; 255; 10; 1; 65] /\
  Deserialize [66; 2; 18; 52; 17; 34; 177; 99; 2; 99; 112; 17; 42; 255; 10; 1; 65] = Ok sample_request.
Proof.
  apply (message_roundtrip sample_request). split; [|split; [|split; [|by split_and!]]].
  - unfold header_ok. split_and!; closed.
  - unfold om_sorted. simpl. repeat constructor.
  - apply Forall_cons_2; [|apply Forall_cons_2; [reflexivity|apply Forall_nil_2]].
    right. exists [str "c"; str "cp"]. split_and!; [discriminate| |reflexivity].
    repeat (apply Forall_cons_2; [split_and!; [discriminate|decide_in..|reflexivity|reflexivity|closed]|]).
    apply Forall_nil_2.
Defined.

(** *** Safety on arbitrary input *)

Lemma DeserializeHeader_total buf :
  bytes buf ->
  match DeserializeHeader buf 0 with
  | Ok (h, off) => 4 <= off <= zlen buf /\ (Header_IsValid h = true -> header_ok h)
  | Err e => e = kBadFormat
  | Die => False
  end.
Proof.
  intros Hb. unfold DeserializeHeader. case_if; [|done]. bool_to_prop.
  destruct (rd_ok buf 0 ltac:(lia)) as (b0 & E0 & _). rewrite E0. cbn [mbind outcome_bind].
  case_if; [|done]. bool_to_prop.
  destruct (rd_ok buf (0 + 1) ltac:(lia)) as (c & Ec & _). rewrite Ec. cbn [mbind outcome_bind].
  case_if; [|done]. bool_to_prop.
  destruct (rd_ok buf (0 + 1 + 1) ltac:(lia)) as (i0 & Ei0 & _). rewrite Ei0. cbn [mbind outcome_bind].
  destruct (rd_ok buf (0 + 1 + 1 + 1) ltac:(lia)) as (i1 & Ei1 & _). rewrite Ei1. cbn [mbind outcome_bind].
  case_if; [|done]. bool_to_prop.
  assert (Hmask : forall z n, 0 <= n -> 0 <= Z.land z (2 ^ n - 1) < 2 ^ n).
  { intros. rewrite land_low_mask by lia. apply Z.mod_pos_bound, Z.pow_pos_nonneg; lia. }
  pose proof (Hmask b0 4 ltac:(lia)) as Hl. change (2 ^ 4 - 1) with 15 in Hl. change (2 ^ 4) with 16 in Hl.
  unfold kMaxTokenLength in *. rewrite rds_ok by lia. cbn [mbind outcome_bind].
  split; [lia|]. unfold Header_IsValid. cbn [mVersion mTokenLength]. intros Hv. bool_to_prop.
  unfold kMaxTokenLength in *. unfold header_ok. cbn [mVersion mType mTokenLength mCode mMessageId mToken].
  split_and!; [done| | |lia|lia|by eapply rd_byte| |by apply bytes_zsub|].
  - apply (Hmask _ 2); lia.
  - apply (Hmask _ 2); lia.
  - assert (Hi1 : is_byte i1) by (by eapply rd_byte).
    assert (Hi0 : is_byte i0) by (by eapply rd_byte).
    assert (Hs : fits 16 (Z.shiftl i0 8)) by (rewrite Z.shiftl_mul_pow2 by lia; change (2 ^ 8) with 256; zw).
    rewrite u16_id, lor_shiftl_add by (done || lia). change (2 ^ 8) with 256. zw.
  - rewrite zlen_zsub by lia. lia.
Qed.

(** What a message built by the parser satisfies. *)
Definition parsed_option (o : Z * ByteArray) : Prop :=
  fits 16 o.1 /\ bytes o.2 /\ (o.1 <> OptionType.kUriPath -> IsValidOption o.1 o.2 = true).
Definition parsed_ok (m : Message) : Prop :=
  header_ok (mHeader m) /\ om_sorted (mOptions m) /\ Forall parsed_option (mOptions m) /\ mPayload m = [].

Lemma om_find_Forall (P : Z * ByteArray -> Prop) k v l : Forall P l -> om_find k l = Some v -> P (k, v).
Proof.
  induction 1 as [|[k' v'] l H _ IH]; simpl; [done|]. case_if; [|done]. bool_to_prop. naive_solver.
Qed.

Lemma AppendOption_total m n v :
  parsed_ok m -> fits 16 n -> bytes v -> IsValidOption n v = true ->
  match AppendOption m n v with
  | Ok m' => parsed_ok m'
  | Err e => e = kInvalidArgs
  | Die => False
  end.
Proof.
  intros (Hh & Hs & Ho & Hp) Hn Hb Hv. unfold AppendOption. rewrite Hv. case_if; bool_to_prop.
  - pose proof (NormalizeUriPath_total v) as HN.
    destruct (NormalizeUriPath v) as [q| |]; cbn [mbind outcome_bind]; [|done..].
    split_and!; [done|by apply om_set_sorted| |done]. apply om_set_Forall; [|done].
    split_and!; [done| |done]. cbn [snd]. apply Forall_app; split; [|auto].
    destruct (om_find n (mOptions m)) eqn:Ef; [|constructor]. by apply (om_find_Forall _ _ _ _ Ho) in Ef as (_ & ? & _).
  - split_and!; [done|by apply om_emplace_sorted| |done]. unfold om_emplace. cbn [upd_options mOptions].
    case_match; [done|]. apply om_set_Forall; [|done]. done.
Qed.

Lemma DeserializeOptions_total fuel : forall m last buf off,
  bytes buf -> 0 <= off -> zlen buf <= off + Z.of_nat fuel -> parsed_ok m ->
  match DeserializeOptions fuel m last buf off with
  | Ok (m', off') => off <= off' /\ parsed_ok m' /\ (off' < zlen buf -> rd buf off' = Ok kPayloadMarker)
  | Err e => e = kBadFormat \/ e = kInvalidArgs
  | Die => False
  end.
Proof.
  induction fuel as [|fuel IH]; intros m last buf off Hb Ho Hf Hm; cbn [DeserializeOptions].
  all: destruct (Z.ltb_spec off (zlen buf)) as [Hlt|Hge]; cbn [negb];
    [|split_and!; [lia|done|lia]].
  all: destruct (rd_ok buf off ltac:(lia)) as (b & Eb & _); rewrite Eb; cbn [mbind outcome_bind].
  all: destruct (Z.eqb_spec b kPayloadMarker) as [->|Hne]; [split_and!; [lia|done|done]|].
  1: lia.
  pose proof (DeserializeOption_total last buf off Hb Ho) as HD.
  destruct (DeserializeOption last buf off) as [[[n v] off']|e|]; cbn [mbind outcome_bind]; [| |done].
  - destruct HD as (Hoff & Hn & Hv).
    destruct (IsValidOption n v) eqn:Ev.
    + pose proof (AppendOption_total m n v Hm Hn Hv Ev) as HA.
      destruct (AppendOption m n v) as [m'|e|]; [|subst|done].
      * specialize (IH m' n buf off' Hb ltac:(lia) ltac:(lia) HA).
        destruct (DeserializeOptions fuel m' n buf off') as [[? ?]| |]; naive_solver lia.
      * case_if; [by right|]. specialize (IH m n buf off' Hb ltac:(lia) ltac:(lia) Hm).
        destruct (DeserializeOptions fuel m n buf off') as [[? ?]| |]; naive_solver lia.
    + case_if; [by left|]. specialize (IH m n buf off' Hb ltac:(lia) ltac:(lia) Hm).
      destruct (DeserializeOptions fuel m n buf off') as [[? ?]| |]; naive_solver lia.
  - destruct HD as [->|[-> HD]]; [by left|]. rewrite Eb in HD. congruence.
Qed.

(** The header and the payload of an accepted message, and that the parser ends. *)
Lemma Deserialize_header buf :
  bytes buf ->
  match Deserialize buf with Ok m => header_ok (mHeader m) /\ bytes (mPayload m) | Err _ => True | Die => False end.
Proof.
  intros Hb. unfold Deserialize. pose proof (DeserializeHeader_total buf Hb) as HH.
  destruct (DeserializeHeader buf 0) as [[h off]|e|]; cbn [mbind outcome_bind]; [|done|done].
  destruct HH as [Hoff Hh]. case_if; [|done].
  assert (Hm : parsed_ok (upd_header Message_init h)) by (split_and!; [by apply Hh|constructor|constructor|done]).
  pose proof (DeserializeOptions_total (length buf) _ 0 buf off Hb ltac:(lia) ltac:(zw) Hm) as HO.
  destruct (DeserializeOptions _ _ _ _ _) as [[m off']|e|]; cbn [mbind outcome_bind]; [|done..].
  destruct HO as (Hle & (Hh' & _ & _ & Hp) & Hrd). case_if; bool_to_prop; [|by rewrite Hp].
  rewrite Hrd by done. cbn [mbind outcome_bind]. repeat case_if; [|done|by rewrite Hp]. bool_to_prop.
  rewrite rdt_ok by lia. split; [done|]. by apply Forall_drop.
Qed.

(** C35: Parsing is safe on every datagram: it ends, reads inside the buffer, fails
    only with [kBadFormat] or [kInvalidArgs], and a message it accepts has
    header fields in range, options in strictly ascending order that are
    valid, and a payload that is the non-empty rest after the marker. *)
Theorem Deserialize_safe buf :
  bytes buf ->
  match Deserialize buf with
  | Ok m => header_ok (mHeader m) /\ om_sorted (mOptions m) /\ Forall parsed_option (mOptions m) /\
            exists pre, buf = pre ++ payload_bytes m
  | Err e => e = kBadFormat \/ e = kInvalidArgs
  | Die => False
  end.
Proof.
  intros Hb. unfold Deserialize. pose proof (DeserializeHeader_total buf Hb) as HH.
  destruct (DeserializeHeader buf 0) as [[h off]|e|]; cbn [mbind outcome_bind]; [|by left|done].
  destruct HH as [Hoff Hh]. case_if; [|by left].
  assert (Hm : parsed_ok (upd_header Message_init h)) by (split_and!; [by apply Hh|constructor|constructor|done]).
  pose proof (DeserializeOptions_total (length buf) _ 0 buf off Hb ltac:(lia) ltac:(zw) Hm) as HO.
  destruct (DeserializeOptions _ _ _ _ _) as [[m off']|e|]; cbn [mbind outcome_bind]; [|done..].
  destruct HO as (Hle & (Hh' & Hs & Ho & Hp) & Hrd). case_if; bool_to_prop.
  - rewrite Hrd by done. cbn [mbind outcome_bind]. change (kPayloadMarker =? kPayloadMarker) with true.
    cbv iota. case_if; [|by left]. bool_to_prop. rewrite rdt_ok by lia. cbn [mbind outcome_bind].
    split_and!; [done..|].
    exists (take (Z.to_nat off') buf). unfold payload_bytes. cbn [mPayload].
    assert (Hpos : 0 < zlen (zdrop buf (off' + 1))) by (unfold zdrop, zlen in *; rewrite length_drop; lia).
    rewrite (proj2 (Z.ltb_lt _ _) Hpos).
    specialize (Hrd ltac:(done)). unfold rd in Hrd. case_if; [|done].
    destruct (buf !! Z.to_nat off') eqn:El; [|done]. simplify_eq. unfold zdrop.
    replace (Z.to_nat (off' + 1)) with (S (Z.to_nat off')) by lia.
    symmetry. by apply take_drop_middle.
  - split_and!; [done..|]. exists buf. unfold payload_bytes. rewrite Hp. simpl. by rewrite app_nil_r.
Qed.

Lemma Deserialize_safe_witness :
  match Deserialize [64; 1; 0; 1; 238; 1; 2] with Ok _ => False | Err e => e = kBadFormat \/ e = kInvalidArgs | Die => False end.
Proof.
  pose proof (Deserialize_safe [64; 1; 0; 1; 238; 1; 2] ltac:(closed)) as H.
  revert H. vm_compute. exact (fun H => H).
Defined.

(** The path is split as the reference says. *)
Theorem SplitUriPath_correct s :
  SplitUriPath s = Ok (ref_split s) /\
  (forall segs, segs <> [] -> Forall good_segment segs -> SplitUriPath (join segs) = Ok segs).
Proof.
  split; [apply SplitUriPath_ref|]. intros segs Hne Hg. rewrite SplitUriPath_ref.
  unfold ref_split. rewrite fields_join by done. by destruct segs.
Qed.

Lemma SplitUriPath_correct_witness : SplitUriPath (str "/c/cp") = Ok [str "c"; str "cp"].
Proof.
  apply (proj2 (SplitUriPath_correct []) [str "c"; str "cp"]); [discriminate|].
  repeat (apply Forall_cons_2; [split_and!; [discriminate|decide_in..|reflexivity|reflexivity|closed]|]).
  apply Forall_nil_2.
Defined.

(** Percent-decoding as the code does it: the letters of a hexadecimal pair
    count from 0 instead of 10, and white space in front of the path shifts the
    start of the search, so a sequence near the beginning is not decoded. *)
Theorem percent_decoding_faults :
  NormalizeUriPath (str "/a%2Fb") = Ok (str "/a%b") /\
  NormalizeUriPath (str "/%41") = Ok (str "/A") /\
  NormalizeUriPath (str "  %41") = Ok (str "/%41").
Proof. split_and!; vm_compute; reflexivity. Qed.

(** An extended length of 65267 or more wraps in the 16-bit variable: an option
    that announces 65536 bytes is parsed as an empty one. *)
Theorem option_length_wraps :
  DeserializeOption 0 [30; 254; 243] 0 = Ok (1, [], 3).
Proof. vm_compute. reflexivity. Qed.

End MessageFacts.
