(* ===== verification/Dataset.v ===== *)
(** * Encoding and decoding of datasets

    The functions of [src/library/commissioner_impl.cpp] that turn datasets
    into the TLVs of a CoAP payload and back, and flags into the list of TLV
    types of a Get TLV. *)

From S2P Require Import Prelude Outcome Common Tlv NetworkData CoapMessage.
Import Endian CommonFacts Tlv.

Module Dataset.
Import Message.

(** ** Building payloads *)

Definition AppendTlv (aMessage : Message) (aTlv : Tlv.Tlv) : outcome Message :=
  VerifyOrExit Tlv.IsValid aTlv else kInvalidArgs;;
  buf ← Tlv.Serialize aTlv [];
  Ok (Append aMessage buf).

Definition EncodeTlvType (aBuf : ByteArray) (aTlvType : Z) : ByteArray := aBuf ++ [u8 aTlvType].

(** [if (aDatasetFlags & aBit) EncodeTlvType(tlvTypes, aTlvType)] *)
Definition RequestIf (aDatasetFlags aBit aTlvType : Z) (tlvTypes : ByteArray) : ByteArray :=
  if has aDatasetFlags aBit then EncodeTlvType tlvTypes aTlvType else tlvTypes.

(** ** Channel masks *)

Fixpoint DecodeChannelMask_loop (fuel : nat) (channelMask : ChannelMask) (offset : Z) (aBuf : ByteArray)
    : outcome ChannelMask :=
  if negb (offset <? zlen aBuf) then VerifyOrDie offset =? zlen aBuf;; Ok channelMask else
  match fuel with
  | O => Die
  | S fuel =>
      VerifyOrExit offset + 2 <=? zlen aBuf else kBadFormat;;
      page ← rd aBuf offset; let offset := offset + 1 in
      entryLength ← rd aBuf offset; let offset := offset + 1 in
      VerifyOrExit offset + entryLength <=? zlen aBuf else kBadFormat;;
      masks ← rds aBuf offset entryLength;
      DecodeChannelMask_loop fuel (channelMask ++ [mkEntry page masks]) (offset + entryLength) aBuf
  end.
Definition DecodeChannelMask (aBuf : ByteArray) : outcome ChannelMask :=
  DecodeChannelMask_loop (length aBuf) [] 0 aBuf.

Fixpoint EncodeChannelMask (aBuf : ByteArray) (aChannelMask : ChannelMask) : outcome ByteArray :=
  match aChannelMask with
  | [] => Ok aBuf
  | entry :: aChannelMask =>
      VerifyOrExit zlen (mMasks entry) <? kEscapeLength else kInvalidArgs;;
      let aBuf := Encode 1 aBuf (mMaskPage entry) in
      let aBuf := Encode 1 aBuf (u8 (zlen (mMasks entry))) in
      EncodeChannelMask (aBuf ++ mMasks entry) aChannelMask
  end.

(** The radio of [include/commissioner/defines.hpp]. *)
Definition kRadio915Mhz : bool := false.
Definition kRadioChannelPage0 : Z := 0.
Definition kRadioChannelPage2 : Z := 2.
Definition kRadio915MhzOqpskChannelMask : Z := Z.shiftl 1023 1.
Definition kRadio2P4GhzOqpskChannelMask : Z := Z.shiftl 65535 11.

Definition MakeChannelMask (aBuf : ByteArray) (aChannelMask : Z) : outcome ByteArray :=
  let entry := mkEntry 0 [] in
  let entry :=
    if kRadio915Mhz then
      if has aChannelMask kRadio915MhzOqpskChannelMask
      then mkEntry kRadioChannelPage2 (Encode 4 (mMasks entry) kRadio915MhzOqpskChannelMask) else entry
    else
      if has aChannelMask kRadio2P4GhzOqpskChannelMask
      then mkEntry kRadioChannelPage0 (Encode 4 (mMasks entry) kRadio2P4GhzOqpskChannelMask) else entry in
  VerifyOrExit negb (zlen (mMasks entry) =? 0) else kInvalidArgs;;
  match EncodeChannelMask aBuf [entry] with Ok aBuf => Ok aBuf | _ => Die end.

(** ** The Active Operational Dataset *)
Section Active.
Import ActiveDataset.

Definition GetActiveOperationalDatasetTlvs (aDatasetFlags : Z) : ByteArray :=
  let tlvTypes := [] in
  let tlvTypes := RequestIf aDatasetFlags kActiveTimestampBit kActiveTimestamp tlvTypes in
  let tlvTypes := RequestIf aDatasetFlags kChannelBit kChannel tlvTypes in
  let tlvTypes := RequestIf aDatasetFlags kChannelMaskBit kChannelMask tlvTypes in
  let tlvTypes := RequestIf aDatasetFlags kExtendedPanIdBit kExtendedPanId tlvTypes in
  let tlvTypes := RequestIf aDatasetFlags kMeshLocalPrefixBit kNetworkMeshLocalPrefix tlvTypes in
  let tlvTypes := RequestIf aDatasetFlags kNetworkMasterKeyBit kNetworkMasterKey tlvTypes in
  let tlvTypes := RequestIf aDatasetFlags kNetworkNameBit kNetworkName tlvTypes in
  let tlvTypes := RequestIf aDatasetFlags kPanIdBit kPanId tlvTypes in
  let tlvTypes := RequestIf aDatasetFlags kPSKcBit kPSKc tlvTypes in
  let tlvTypes := RequestIf aDatasetFlags kSecurityPolicyBit kSecurityPolicy tlvTypes in
  tlvTypes.

(** The blocks behind the one of the channel mask. *)
Definition decode_rest (tlvSet : TlvSet) (dataset : ActiveOperationalDataset) : outcome ActiveOperationalDataset :=
  dataset ← match tlvSet !! kExtendedPanId with
            | Some t => Ok (set_ExtendedPanId dataset (mValue t))
            | None => Ok dataset
            end;
  dataset ← match tlvSet !! kNetworkMeshLocalPrefix with
            | Some t => Ok (set_MeshLocalPrefix dataset (mValue t))
            | None => Ok dataset
            end;
  dataset ← match tlvSet !! kNetworkMasterKey with
            | Some t => Ok (set_NetworkMasterKey dataset (mValue t))
            | None => Ok dataset
            end;
  dataset ← match tlvSet !! kNetworkName with
            | Some t => Ok (set_NetworkName dataset (mValue t))
            | None => Ok dataset
            end;
  dataset ← match tlvSet !! kPanId with
            | Some t => v ← Decode 2 (mValue t); Ok (set_PanId dataset v)
            | None => Ok dataset
            end;
  dataset ← match tlvSet !! kPSKc with
            | Some t => Ok (set_PSKc dataset (mValue t))
            | None => Ok dataset
            end;
  match tlvSet !! kSecurityPolicy with
  | Some t =>
      v ← Decode 2 (mValue t);
      flags ← rdt (mValue t) 2;
      Ok (set_SecurityPolicy dataset (mkPolicy v flags))
  | None => Ok dataset
  end.

(** [dataset] is the local variable, just constructed; [aDataset] is the
    caller's object, returned as it is if nothing is assigned to it.  When the
    channel mask cannot be decoded, [SuccessOrExit] leaves the function with
    [error] still [kNone]. *)
Definition DecodeActiveOperationalDataset (dataset aDataset : ActiveOperationalDataset) (aPayload : ByteArray)
    : outcome ActiveOperationalDataset :=
  let dataset := with_flags dataset 0 in
  tlvSet ← ParseTlvs aPayload kMeshCoP;
  dataset ← match tlvSet !! kActiveTimestamp with
            | Some t => v ← Decode 8 (mValue t); Ok (set_ActiveTimestamp dataset (Timestamp.Decode v))
            | None => Ok dataset
            end;
  dataset ← match tlvSet !! kChannel with
            | Some t =>
                page ← rd (mValue t) 0;
                rest ← rdt (mValue t) 1; number ← Decode 2 rest;
                Ok (set_Channel dataset (mkChannel page number))
            | None => Ok dataset
            end;
  match tlvSet !! kChannelMask with
  | Some t =>
      match DecodeChannelMask (mValue t) with
      | Ok mask => decode_rest tlvSet (set_ChannelMask dataset mask)
      | Err _ => Ok aDataset
      | Die => Die
      end
  | None => decode_rest tlvSet dataset
  end.

Definition EncodeActiveOperationalDataset (aRequest : Message) (aDataset : ActiveOperationalDataset)
    : outcome Message :=
  let flags := mPresentFlags aDataset in
  aRequest ← (if has flags kActiveTimestampBit then
         AppendTlv aRequest (Tlv_u64 kActiveTimestamp (Timestamp.Encode (mActiveTimestamp aDataset)))
       else Ok aRequest);
  aRequest ← (if has flags kChannelBit then
         let value := Encode 1 [] (mPage (mChannel aDataset)) in
         let value := Encode 2 value (mNumber (mChannel aDataset)) in
         AppendTlv aRequest (Tlv_bytes kChannel value)
       else Ok aRequest);
  aRequest ← (if has flags kChannelMaskBit then
         value ← EncodeChannelMask [] (mChannelMask aDataset);
         AppendTlv aRequest (Tlv_bytes kChannelMask value)
       else Ok aRequest);
  aRequest ← (if has flags kExtendedPanIdBit then
         AppendTlv aRequest (Tlv_bytes kExtendedPanId (mExtendedPanId aDataset))
       else Ok aRequest);
  aRequest ← (if has flags kMeshLocalPrefixBit then
         AppendTlv aRequest (Tlv_bytes kNetworkMeshLocalPrefix (mMeshLocalPrefix aDataset))
       else Ok aRequest);
  aRequest ← (if has flags kNetworkMasterKeyBit then
         AppendTlv aRequest (Tlv_bytes kNetworkMasterKey (mNetworkMasterKey aDataset))
       else Ok aRequest);
  aRequest ← (if has flags kNetworkNameBit then
         AppendTlv aRequest (Tlv_bytes kNetworkName (mNetworkName aDataset))
       else Ok aRequest);
  aRequest ← (if has flags kPanIdBit then
         AppendTlv aRequest (Tlv_u16 kPanId (mPanId aDataset))
       else Ok aRequest);
  aRequest ← (if has flags kPSKcBit then
         AppendTlv aRequest (Tlv_bytes kPSKc (mPSKc aDataset))
       else Ok aRequest);
  aRequest ← (if has flags kSecurityPolicyBit then
         let value := Encode 2 [] (mRotationTime (mSecurityPolicy aDataset)) in
         let value := value ++ mFlags (mSecurityPolicy aDataset) in
         AppendTlv aRequest (Tlv_bytes kSecurityPolicy value)
       else Ok aRequest);
  Ok aRequest.

End Active.

(** ** The Pending Operational Dataset *)
Section Pending.
Import ActiveDataset PendingDataset.

Definition GetPendingOperationalDatasetTlvs (aDatasetFlags : Z) : ByteArray :=
  let tlvTypes := GetActiveOperationalDatasetTlvs aDatasetFlags in
  let tlvTypes := RequestIf aDatasetFlags kDelayTimerBit kDelayTimer tlvTypes in
  RequestIf aDatasetFlags kPendingTimestampBit kPendingTimestamp tlvTypes.

(** [inner] is the local variable of the nested call, just constructed. *)
Definition DecodePendingOperationalDataset (inner : ActiveOperationalDataset)
    (dataset : PendingOperationalDataset) (aResponse : Message) : outcome PendingOperationalDataset :=
  let base := with_flags (mActive dataset) 0 in
  base ← DecodeActiveOperationalDataset inner base (mPayload aResponse);
  let dataset := mkPending base (mDelayTimer dataset) (mPendingTimestamp dataset) in
  tlvSet ← ParseTlvs (mPayload aResponse) kMeshCoP;
  dataset ← match tlvSet !! kDelayTimer with
            | Some t => v ← Decode 4 (mValue t); Ok (set_DelayTimer dataset v)
            | None => Ok dataset
            end;
  match tlvSet !! kPendingTimestamp with
  | Some t => v ← Decode 8 (mValue t); Ok (set_PendingTimestamp dataset (Timestamp.Decode v))
  | None => Ok dataset
  end.

Definition EncodePendingOperationalDataset (aRequest : Message) (aDataset : PendingOperationalDataset)
    : outcome Message :=
  let flags := mPresentFlags (mActive aDataset) in
  aRequest ← EncodeActiveOperationalDataset aRequest (mActive aDataset);
  aRequest ← (if has flags kDelayTimerBit then
         AppendTlv aRequest (Tlv_u32 kDelayTimer (mDelayTimer aDataset))
       else Ok aRequest);
  aRequest ← (if has flags kPendingTimestampBit then
         AppendTlv aRequest (Tlv_u64 kPendingTimestamp (Timestamp.Encode (mPendingTimestamp aDataset)))
       else Ok aRequest);
  Ok aRequest.

End Pending.

(** ** The Commissioner Dataset *)
Section Commissioner.
Import CommissionerDataset.

Definition GetCommissionerDatasetTlvs (aDatasetFlags : Z) : ByteArray :=
  let tlvTypes := [] in
  let tlvTypes := RequestIf aDatasetFlags kSessionIdBit kCommissionerSessionId tlvTypes in
  let tlvTypes := RequestIf aDatasetFlags kBorderAgentLocatorBit kBorderAgentLocator tlvTypes in
  let tlvTypes := RequestIf aDatasetFlags kSteeringDataBit kSteeringData tlvTypes in
  let tlvTypes := RequestIf aDatasetFlags kAeSteeringDataBit kAeSteeringData tlvTypes in
  let tlvTypes := RequestIf aDatasetFlags kNmkpSteeringDataBit kNmkpSteeringData tlvTypes in
  let tlvTypes := RequestIf aDatasetFlags kJoinerUdpPortBit kJoinerUdpPort tlvTypes in
  let tlvTypes := RequestIf aDatasetFlags kAeUdpPortBit kAeUdpPort tlvTypes in
  let tlvTypes := RequestIf aDatasetFlags kNmkpUdpPortBit kNmkpUdpPort tlvTypes in
  tlvTypes.

Definition DecodeCommissionerDataset (aResponse : Message) : outcome CommissionerDataset :=
  let dataset := CommissionerDataset_init in
  tlvSet ← ParseTlvs (mPayload aResponse) kMeshCoP;
  dataset ← match tlvSet !! kCommissionerSessionId with
            | Some t => v ← GetValueAsUint16 t; Ok (set_SessionId dataset v)
            | None => Ok dataset
            end;
  dataset ← match tlvSet !! kBorderAgentLocator with
            | Some t => v ← GetValueAsUint16 t; Ok (set_BorderAgentLocator dataset v)
            | None => Ok dataset
            end;
  dataset ← match tlvSet !! kSteeringData with
            | Some t => Ok (set_SteeringData dataset (mValue t))
            | None => Ok dataset
            end;
  dataset ← match tlvSet !! kAeSteeringData with
            | Some t => Ok (set_AeSteeringData dataset (mValue t))
            | None => Ok dataset
            end;
  dataset ← match tlvSet !! kNmkpSteeringData with
            | Some t => Ok (set_NmkpSteeringData dataset (mValue t))
            | None => Ok dataset
            end;
  dataset ← match tlvSet !! kJoinerUdpPort with
            | Some t => v ← GetValueAsUint16 t; Ok (set_JoinerUdpPort dataset v)
            | None => Ok dataset
            end;
  dataset ← match tlvSet !! kAeUdpPort with
            | Some t => v ← GetValueAsUint16 t; Ok (set_AeUdpPort dataset v)
            | None => Ok dataset
            end;
  match tlvSet !! kNmkpUdpPort with
  | Some t => v ← GetValueAsUint16 t; Ok (set_NmkpUdpPort dataset v)
  | None => Ok dataset
  end.

Definition EncodeCommissionerDataset (aRequest : Message) (aDataset : CommissionerDataset) : outcome Message :=
  let flags := mPresentFlags aDataset in
  aRequest ← (if has flags kSessionIdBit then
         AppendTlv aRequest (Tlv_u16 kCommissionerSessionId (mSessionId aDataset))
       else Ok aRequest);
  aRequest ← (if has flags kBorderAgentLocatorBit then
         AppendTlv aRequest (Tlv_u16 kBorderAgentLocator (mBorderAgentLocator aDataset))
       else Ok aRequest);
  aRequest ← (if has flags kSteeringDataBit then
         AppendTlv aRequest (Tlv_bytes kSteeringData (mSteeringData aDataset))
       else Ok aRequest);
  aRequest ← (if has flags kAeSteeringDataBit then
         AppendTlv aRequest (Tlv_bytes kAeSteeringData (mAeSteeringData aDataset))
       else Ok aRequest);
  aRequest ← (if has flags kNmkpSteeringDataBit then
         AppendTlv aRequest (Tlv_bytes kNmkpSteeringData (mNmkpSteeringData aDataset))
       else Ok aRequest);
  aRequest ← (if has flags kJoinerUdpPortBit then
         AppendTlv aRequest (Tlv_u16 kJoinerUdpPort (mJoinerUdpPort aDataset))
       else Ok aRequest);
  aRequest ← (if has flags kAeUdpPortBit then
         AppendTlv aRequest (Tlv_u16 kAeUdpPort (mAeUdpPort aDataset))
       else Ok aRequest);
  aRequest ← (if has flags kNmkpUdpPortBit then
         AppendTlv aRequest (Tlv_u16 kNmkpUdpPort (mNmkpUdpPort aDataset))
       else Ok aRequest);
  Ok aRequest.

End Commissioner.

(** ** The BBR Dataset *)
Section Bbr.
Import BbrDataset.
Context (inet_pton4 inet_pton6 : string_t -> option ByteArray).
Context (inet_ntop4 inet_ntop6 : ByteArray -> option string_t).

Definition GetBbrDatasetTlvs (aDatasetFlags : Z) : ByteArray :=
  let tlvTypes := [] in
  let tlvTypes := RequestIf aDatasetFlags kTriHostnameBit kTriHostname tlvTypes in
  let tlvTypes := RequestIf aDatasetFlags kRegistrarHostnameBit kRegistrarHostname tlvTypes in
  let tlvTypes := RequestIf aDatasetFlags kRegistrarIpv6AddrBit kRegistrarIpv6Address tlvTypes in
  tlvTypes.

Definition DecodeBbrDataset (aResponse : Message) : outcome BbrDataset :=
  let dataset := BbrDataset_init in
  tlvSet ← ParseTlvs (mPayload aResponse) kMeshCoP;
  dataset ← match tlvSet !! kTriHostname with
            | Some t => Ok (set_TriHostname dataset (mValue t))
            | None => Ok dataset
            end;
  dataset ← match tlvSet !! kRegistrarHostname with
            | Some t => Ok (set_RegistrarHostname dataset (mValue t))
            | None => Ok dataset
            end;
  match tlvSet !! kRegistrarIpv6Address with
  | Some t =>
      addr ← Addr.SetRaw (mValue t);
      Ok (set_RegistrarIpv6Addr dataset (Addr.ToString inet_ntop4 inet_ntop6 addr))
  | None => Ok dataset
  end.

Definition EncodeBbrDataset (aRequest : Message) (aDataset : BbrDataset) : outcome Message :=
  let flags := mPresentFlags aDataset in
  aRequest ← (if has flags kTriHostnameBit then
         AppendTlv aRequest (Tlv_bytes kTriHostname (mTriHostname aDataset))
       else Ok aRequest);
  aRequest ← (if has flags kRegistrarHostnameBit then
         AppendTlv aRequest (Tlv_bytes kRegistrarHostname (mRegistrarHostname aDataset))
       else Ok aRequest);
  aRequest ← (if has flags kRegistrarIpv6AddrBit then
         addr ← Addr.SetString inet_pton4 inet_pton6 (mRegistrarIpv6Addr aDataset);
         AppendTlv aRequest (Tlv_bytes kRegistrarIpv6Address addr)
       else Ok aRequest);
  Ok aRequest.

End Bbr.

End Dataset.

(** ** Theorems *)
Module DatasetFacts.
Import Dataset Message TlvFacts.

(** *** Flags *)

Lemma has_testbit f n : 0 <= n -> has f (Z.shiftl 1 n) = Z.testbit f n.
Proof.
  intros Hn. unfold has. destruct (Z.testbit f n) eqn:E.
  - apply negb_true_iff, Z.eqb_neq. intros H.
    assert (H' : Z.testbit (Z.land f (Z.shiftl 1 n)) n = true).
    { rewrite Z.land_spec, E, Z.shiftl_spec, Z.sub_diag by done. done. }
    by rewrite H, Z.bits_0 in H'.
  - apply negb_false_iff, Z.eqb_eq, Z.bits_inj'. intros i Hi.
    rewrite Z.land_spec, Z.bits_0, Z.shiftl_spec by done.
    destruct (decide (i = n)) as [->|Hne]; [by rewrite E|].
    change 1 with (Z.ones 1). destruct (decide (i < n)).
    + rewrite (Z.testbit_neg_r _ (i - n)), andb_false_r by lia. done.
    + rewrite Z.ones_spec_high, andb_false_r by lia. done.
Qed.

Lemma has_lor f g n : 0 <= n -> has (Z.lor f g) (Z.shiftl 1 n) = has f (Z.shiftl 1 n) || has g (Z.shiftl 1 n).
Proof. intros. by rewrite !has_testbit, Z.lor_spec. Qed.

(** *** Tables of optional TLVs *)

Abbreviation row := (bool * Tlv.Tlv)%type.

Definition present (rows : list row) : list Tlv.Tlv :=
  flat_map (fun r : row => if r.1 then [r.2] else []) rows.

Fixpoint append_rows (m : Message) (rows : list row) : outcome Message :=
  match rows with
  | [] => Ok m
  | (b, t) :: rows => m ← (if b then AppendTlv m t else Ok m); append_rows m rows
  end.

(** Every TLV that is present is well formed. *)
Definition rows_valid (rows : list row) : Prop := Forall (fun r : row => r.1 = true -> IsValid r.2 = true) rows.

#[export] Instance rows_valid_dec rows : Decision (rows_valid rows).
Proof. apply Forall_dec. intros []; simpl. apply _. Defined.

Definition types_of (ts : list Tlv.Tlv) : list Z := map Tlv.mType ts.

Lemma AppendTlv_valid m t : IsValid t = true -> AppendTlv m t = Ok (Append m (encoding t)).
Proof. intros H. unfold AppendTlv. by rewrite H, Serialize_encoding. Qed.

Lemma AppendTlv_invalid m t : IsValid t = false -> AppendTlv m t = Err kInvalidArgs.
Proof. intros H. unfold AppendTlv. by rewrite H. Qed.

Lemma Append_app m a b : Append (Append m a) b = Append m (a ++ b).
Proof. unfold Append. cbn. by rewrite app_assoc. Qed.
Lemma Append_nil m : Append m [] = m.
Proof. unfold Append. rewrite app_nil_r. by destruct m. Qed.

(** Appending succeeds exactly on valid rows. *)
Lemma append_rows_spec rows m :
  append_rows m rows =
    if decide (rows_valid rows) then Ok (Append m (concat (map encoding (present rows)))) else Err kInvalidArgs.
Proof.
  revert m; induction rows as [|[b t] rows IH]; intros m; cbn [append_rows].
  - rewrite decide_True by constructor. simpl. by rewrite Append_nil.
  - destruct b; cbn [mbind outcome_bind].
    + destruct (IsValid t) eqn:Ev.
      * rewrite AppendTlv_valid by done. cbn [mbind outcome_bind]. rewrite IH. unfold rows_valid. cbn [present flat_map fst snd app map concat].
        rewrite Append_app. destruct (decide (Forall _ rows)) as [H|H].
        -- rewrite decide_True; [done|]. by constructor.
        -- rewrite decide_False; [done|]. intros H'. by inversion H'.
      * rewrite AppendTlv_invalid by done. rewrite decide_False; [done|].
        intros H. inversion H as [|?? H']; subst. cbn in H'. by rewrite H' in Ev.
    + rewrite IH. unfold rows_valid. cbn [present flat_map fst snd app].
      destruct (decide (Forall _ rows)) as [H|H].
      * rewrite decide_True; [done|]. by constructor.
      * rewrite decide_False; [done|]. intros H'. by inversion H'.
Qed.

(** *** Parsing what was appended *)

(** The TLVs of the rows are bytes, and may be written. *)
Definition rows_wire (rows : list row) : Prop :=
  Forall (fun r : row => r.1 = true -> tlv_bytes r.2 /\ Tlv.mType r.2 <> kDomainPrefix /\ mScope r.2 = kMeshCoP) rows.

Lemma present_wire rows : rows_valid rows -> rows_wire rows -> Forall (wire_ok kMeshCoP) (present rows).
Proof.
  unfold rows_valid, rows_wire. induction rows as [|[b t] rows IH]; intros Hv Hw; [constructor|].
  apply Forall_cons in Hv as [Hv Hvs], Hw as [Hw Hws]. unfold present. cbn [flat_map fst snd] in *.
  apply Forall_app. split; [|by apply IH]. destruct b; [|constructor]. apply Forall_cons_2; [|constructor].
  destruct (Hw eq_refl) as (Hb & Hd & Hs). split; [by apply Hv|]. split; [done|]. split; [by intros ?|done].
Qed.

Lemma ParseTlvs_encodings ts :
  Forall (wire_ok kMeshCoP) ts ->
  ParseTlvs (concat (map encoding ts)) kMeshCoP = Ok (last_wins ts ∅).
Proof.
  intros H. unfold ParseTlvs, GetTlvSet.
  pose proof (GetTlvSet_loop_encodings kMeshCoP ts _ [] ∅ H (le_n _)) as E. cbn [app] in E.
  change (zlen []) with 0 in E. by rewrite E.
Qed.

Lemma last_wins_other ts s k : k ∉ types_of ts -> last_wins ts s !! k = s !! k.
Proof.
  unfold last_wins, types_of. revert s. induction ts as [|t ts IH]; intros s H; [done|].
  simpl in *. apply not_elem_of_cons in H as [Hn H]. rewrite IH by done. by rewrite lookup_insert_ne.
Qed.

Lemma types_present rows k : k ∈ types_of (present rows) -> k ∈ map (fun r : row => Tlv.mType r.2) rows.
Proof.
  unfold types_of, present. induction rows as [|[b t] rows IH]; [done|]. simpl. rewrite map_app, elem_of_app.
  intros [H|H]; [|right; by apply IH]. destruct b; [|by inversion H].
  apply list_elem_of_singleton in H as ->. left.
Qed.

Lemma last_wins_app a b s : last_wins (a ++ b) s = last_wins b (last_wins a s).
Proof. apply fold_left_app. Qed.

(** With distinct types, a row is found exactly when it is present. *)
Lemma last_wins_row rows (b : bool) (t : Tlv.Tlv) (s : gmap Z Tlv.Tlv) :
  NoDup (map (fun r : row => Tlv.mType r.2) rows) -> (b, t) ∈ rows -> s !! Tlv.mType t = None ->
  last_wins (present rows) s !! Tlv.mType t = if b then Some t else None.
Proof.
  revert s. induction rows as [|[b' t'] rows IH]; intros s Hd Hin Hs; [by inversion Hin|].
  cbn [map snd] in Hd. apply NoDup_cons in Hd as [Hn Hd].
  change (present ((b', t') :: rows)) with ((if b' then [t'] else []) ++ present rows).
  rewrite last_wins_app. apply elem_of_cons in Hin as [Heq|Hin].
  - injection Heq as <- <-. rewrite last_wins_other by (intros H; by apply Hn, types_present).
    destruct b; [|done]. unfold last_wins. simpl. by rewrite lookup_insert_eq.
  - apply IH; [done..|]. destruct b'; simpl; [|done]. rewrite lookup_insert_ne; [done|].
    intros Heq. apply Hn. rewrite Heq. by apply (list_elem_of_fmap_2 (fun r : row => Tlv.mType r.2) rows (b, t)).
Qed.

Lemma last_wins_absent rows k :
  k ∉ map (fun r : row => Tlv.mType r.2) rows -> last_wins (present rows) ∅ !! k = None.
Proof.
  intros H. rewrite last_wins_other; [by rewrite lookup_empty|]. intros H'. by apply H, types_present.
Qed.

(** *** Channel masks *)

Definition entry_typed (e : ChannelMaskEntry) : Prop := is_byte (mMaskPage e) /\ bytes (mMasks e).
Definition entry_ok (e : ChannelMaskEntry) : Prop := entry_typed e /\ zlen (mMasks e) < kEscapeLength.
Definition entry_bytes (e : ChannelMaskEntry) : ByteArray := mMaskPage e :: zlen (mMasks e) :: mMasks e.
Definition mask_bytes (mask : ChannelMask) : ByteArray := concat (map entry_bytes mask).

Lemma EncodeChannelMask_ok buf mask :
  Forall entry_ok mask -> EncodeChannelMask buf mask = Ok (buf ++ mask_bytes mask).
Proof.
  intros H. revert buf. induction H as [|e mask ((Hp & Hb) & Hl) _ IH]; intros buf; cbn [EncodeChannelMask].
  - unfold mask_bytes. simpl. by rewrite app_nil_r.
  - rewrite (proj2 (Z.ltb_lt _ _)) by done. rewrite IH. unfold Encode, mask_bytes, entry_bytes.
    assert (is_byte (zlen (mMasks e))) by (pose proof (zlen_nonneg (mMasks e)); unfold kEscapeLength in *; zw).
    rewrite u8_id, !Encode_loop_1 by done. cbn [map concat]. by rewrite <- !app_assoc.
Qed.

Lemma EncodeChannelMask_long buf mask :
  ~ Forall (fun e => zlen (mMasks e) < kEscapeLength) mask -> EncodeChannelMask buf mask = Err kInvalidArgs.
Proof.
  revert buf. induction mask as [|e mask IH]; intros buf H; [by destruct H|]. cbn [EncodeChannelMask].
  case_if; [|done]. bool_to_prop. apply IH. intros H'. apply H. by constructor.
Qed.

Lemma DecodeChannelMask_loop_bytes fuel : forall mask acc pre,
  Forall entry_ok mask -> (length (mask_bytes mask) <= fuel)%nat ->
  DecodeChannelMask_loop fuel acc (zlen pre) (pre ++ mask_bytes mask) = Ok (acc ++ mask).
Proof.
  induction fuel as [|fuel IH]; intros [|e mask] acc pre H Hf; unfold mask_bytes in *; cbn [map concat] in *.
  1,3: rewrite !app_nil_r; simpl; by rewrite Z.ltb_irrefl, Z.eqb_refl.
  - simpl in Hf. lia.
  - apply Forall_cons in H as [((Hp & Hb) & Hl) H]. unfold entry_bytes in *. cbn [app length] in Hf.
    rewrite length_app in Hf. cbn [DecodeChannelMask_loop app].
    pose proof (zlen_nonneg pre). pose proof (zlen_nonneg (mMasks e)).
    pose proof (zlen_nonneg (concat (map (fun e => mMaskPage e :: zlen (mMasks e) :: mMasks e) mask))).
    rewrite (proj2 (Z.ltb_lt _ _)) by (autorewrite with ot; lia). cbn [negb].
    read_header pre. rewrite rds_ok by (autorewrite with ot; lia). cbn [mbind outcome_bind].
    rewrite zsub_app_r by lia. repeat rewrite zsub_cons_pos by lia.
    change (2 - 1 - 1) with 0. rewrite zsub_prefix.
    set (k := concat _). set (pre' := pre ++ mMaskPage e :: zlen (mMasks e) :: mMasks e).
    replace (zlen pre + 2 + zlen (mMasks e)) with (zlen pre') by (unfold pre'; autorewrite with ot; lia).
    replace (pre ++ mMaskPage e :: zlen (mMasks e) :: mMasks e ++ k) with (pre' ++ k)
      by (unfold pre'; by rewrite <- app_assoc).
    unfold k in *. rewrite IH by (done || lia). rewrite <- app_assoc. by destruct e.
Qed.

Lemma zdrop_cons {A} (buf : list A) off b :
  0 <= off -> rd buf off = Ok b -> zdrop buf off = b :: zdrop buf (off + 1).
Proof.
  unfold rd, zdrop. intros Ho H. case_if; [|done]. destruct (buf !! Z.to_nat off) eqn:El; [|done].
  simplify_eq. rewrite (drop_S _ _ _ El). do 2 f_equal. lia.
Qed.

Lemma zdrop_zsub {A} (buf : list A) off n : 0 <= off -> 0 <= n -> zdrop buf off = zsub buf off n ++ zdrop buf (off + n).
Proof.
  intros. unfold zdrop, zsub. rewrite <- (take_drop (Z.to_nat n) (drop (Z.to_nat off) buf)) at 1.
  rewrite drop_drop. do 2 f_equal. lia.
Qed.

(** What the decoder returns on any buffer. *)
Lemma DecodeChannelMask_loop_total fuel : forall acc off buf,
  bytes buf -> 0 <= off <= zlen buf -> zlen buf <= off + Z.of_nat fuel ->
  match DecodeChannelMask_loop fuel acc off buf with
  | Ok m => exists mask, m = acc ++ mask /\ Forall entry_typed mask /\ mask_bytes mask = zdrop buf off
  | Err e => e = kBadFormat
  | Die => False
  end.
Proof.
  assert (Hend : forall buf off, zlen buf <= off -> @zdrop Z buf off = []).
  { intros buf off H. unfold zdrop. apply drop_ge. zw. }
  induction fuel as [|fuel IH]; intros acc off buf Hb Ho Hf; cbn [DecodeChannelMask_loop].
  - rewrite (proj2 (Z.ltb_ge _ _)), (proj2 (Z.eqb_eq off (zlen buf))) by lia. cbn [negb].
    exists []. rewrite app_nil_r. split_and!; [done|constructor|]. by rewrite Hend by lia.
  - case_if; bool_to_prop.
    { rewrite (proj2 (Z.eqb_eq off (zlen buf))) by lia. exists []. rewrite app_nil_r.
      split_and!; [done|constructor|]. by rewrite Hend by lia. }
    case_if; [|done]. bool_to_prop.
    destruct (rd_ok buf off ltac:(lia)) as (p & Ep & _). rewrite Ep. cbn [mbind outcome_bind].
    destruct (rd_ok buf (off + 1) ltac:(lia)) as (l & El & _). rewrite El. cbn [mbind outcome_bind].
    pose proof (rd_byte _ _ _ Hb Ep). pose proof (rd_byte _ _ _ Hb El) as Hl. assert (0 <= l) by zw.
    case_if; [|done]. bool_to_prop. rewrite rds_ok by lia. cbn [mbind outcome_bind].
    set (e := mkEntry p (zsub buf (off + 1 + 1) l)).
    specialize (IH (acc ++ [e]) (off + 1 + 1 + l) buf Hb ltac:(lia) ltac:(lia)).
    destruct (DecodeChannelMask_loop fuel _ _ buf) as [m| |]; [|done..].
    destruct IH as (mask & -> & Ht & Hm). exists (e :: mask). rewrite <- app_assoc. split; [done|]. split.
    + constructor; [|done]. split; [done|]. by apply bytes_zsub.
    + unfold mask_bytes in *. cbn [map concat]. rewrite Hm. unfold entry_bytes, e. cbn [mMaskPage mMasks].
      rewrite zlen_zsub by lia. rewrite (zdrop_cons buf off p), (zdrop_cons buf (off + 1) l) by (done || lia).
      cbn [app]. do 2 f_equal. by rewrite (zdrop_zsub buf (off + 1 + 1) l) by lia.
Qed.

Lemma DecodeChannelMask_total buf :
  bytes buf ->
  match DecodeChannelMask buf with
  | Ok mask => Forall entry_typed mask /\ mask_bytes mask = buf
  | Err e => e = kBadFormat
  | Die => False
  end.
Proof.
  intros Hb. unfold DecodeChannelMask. pose proof (zlen_nonneg buf).
  pose proof (DecodeChannelMask_loop_total (length buf) [] 0 buf Hb ltac:(lia) ltac:(unfold zlen; lia)) as H'.
  destruct (DecodeChannelMask_loop _ _ _ _); [|done..]. destruct H' as (mask & -> & Ht & Hm). done.
Qed.

Lemma DecodeChannelMask_bytes mask : Forall entry_ok mask -> DecodeChannelMask (mask_bytes mask) = Ok mask.
Proof. intros H. by apply (DecodeChannelMask_loop_bytes _ mask [] [] H). Qed.

(** The entries of a short encoding are short. *)
Lemma mask_bytes_short mask :
  Forall entry_typed mask -> zlen (mask_bytes mask) < kEscapeLength -> Forall entry_ok mask.
Proof.
  induction 1 as [|e mask He _ IH]; intros Hl; [constructor|]. unfold mask_bytes, entry_bytes in Hl.
  cbn [map concat app] in Hl. rewrite !zlen_cons, zlen_app in Hl. fold entry_bytes in Hl.
  pose proof (zlen_nonneg (mMasks e)). pose proof (zlen_nonneg (mask_bytes mask)).
  unfold mask_bytes, entry_bytes in *. constructor; [split; [done|lia]|apply IH; lia].
Qed.

(** Channel masks: encoding succeeds when every entry is shorter than 255
    bytes, and decoding gives the mask back; decoding any bytes ends with
    [kBadFormat] or with a mask whose encoding is those bytes (if they fit in a
    TLV, where the decoder is used). *)
Theorem channel_mask_codec :
  (forall mask, Forall entry_ok mask ->
     exists buf, EncodeChannelMask [] mask = Ok buf /\ DecodeChannelMask buf = Ok mask) /\
  (forall buf, bytes buf -> zlen buf < kEscapeLength ->
     match DecodeChannelMask buf with
     | Ok mask => EncodeChannelMask [] mask = Ok buf
     | Err e => e = kBadFormat
     | Die => False
     end).
Proof.
  split.
  - intros mask H. exists (mask_bytes mask). split; [by rewrite EncodeChannelMask_ok|by apply DecodeChannelMask_bytes].
  - intros buf Hb Hl. pose proof (DecodeChannelMask_total buf Hb) as H.
    destruct (DecodeChannelMask buf) as [mask| |]; [|done..]. destruct H as [Ht Hm].
    rewrite EncodeChannelMask_ok; [by rewrite Hm|]. apply mask_bytes_short; [done|by rewrite Hm].
Qed.

(** Whatever channels the caller selects, the mask sent is that of all
    channels of the radio. *)
Lemma MakeChannelMask_full m :
  MakeChannelMask [] m = if has m kRadio2P4GhzOqpskChannelMask then Ok [0; 4; 7; 255; 248; 0] else Err kInvalidArgs.
Proof. unfold MakeChannelMask. cbn [kRadio915Mhz]. by destruct (has _ _). Qed.

Lemma channel_mask_codec_witness :
  (exists buf, EncodeChannelMask [] [mkEntry 0 [0; 31; 255; 224]] = Ok buf /\
     DecodeChannelMask buf = Ok [mkEntry 0 [0; 31; 255; 224]]) /\
  EncodeChannelMask [] [mkEntry 0 [1; 2]; mkEntry 2 []] = Ok [0; 2; 1; 2; 2; 0].
Proof.
  split.
  - apply (proj1 channel_mask_codec). repeat constructor; closed.
  - exact (proj2 channel_mask_codec [0; 2; 1; 2; 2; 0] ltac:(closed) ltac:(done)).
Defined.

End DatasetFacts.
