(* ===== verification/DatasetCodec.v ===== *)
(** * Round trips of datasets

    The TLVs a dataset is encoded to are the ones its flags ask for, decoding
    them gives the present fields back, and decoding any payload ends with
    well-formed fields. *)

From S2P Require Import Prelude Outcome Common Tlv NetworkData CoapMessage Dataset.
Import Endian CommonFacts Tlv TlvFacts NetworkDataFacts Dataset DatasetFacts.

(** ** Flags as sums of bits *)

Lemma land_bit f n : 0 <= n -> Z.land f (Z.shiftl 1 n) = if has f (Z.shiftl 1 n) then Z.shiftl 1 n else 0.
Proof.
  intros Hn. rewrite has_testbit by done. apply Z.bits_inj'. intros i Hi.
  rewrite Z.land_spec, Z.shiftl_spec by done. destruct (decide (i = n)) as [->|Hne].
  - rewrite Z.sub_diag. destruct (Z.testbit f n); [|by rewrite Z.bits_0].
    by rewrite Z.shiftl_spec, Z.sub_diag by done.
  - assert (E : Z.testbit 1 (i - n) = false).
    { destruct (decide (i < n)); [by apply Z.testbit_neg_r; lia|].
      change 1 with (Z.ones 1). by apply Z.ones_spec_high; lia. }
    rewrite E, andb_false_r. destruct (Z.testbit f n); [|by rewrite Z.bits_0].
    by rewrite Z.shiftl_spec by done.
Qed.

Lemma lor_if (b : bool) f k : (if b then Z.lor f k else f) = Z.lor f (if b then k else 0).
Proof. destruct b; [done|by rewrite Z.lor_0_r]. Qed.

Lemma if_same {A} (b : bool) (x : A) : (if b then x else x) = x.
Proof. by destruct b. Qed.

(** The bits of a list of positions. *)
Definition bits (l : list Z) : Z := fold_left (fun f n => Z.lor f (Z.shiftl 1 n)) l 0.

Lemma land_bits_from f l g :
  Forall (fun n => 0 <= n) l ->
  Z.land f (fold_left (fun f n => Z.lor f (Z.shiftl 1 n)) l g)
  = fold_left (fun g n => Z.lor g (if has f (Z.shiftl 1 n) then Z.shiftl 1 n else 0)) l (Z.land f g).
Proof.
  intros H. revert g. induction H as [|n l Hn _ IH]; intros g; simpl; [done|]. rewrite IH.
  by rewrite Z.land_lor_distr_r, land_bit.
Qed.

Lemma land_bits f l :
  Forall (fun n => 0 <= n) l ->
  Z.land f (bits l) = fold_left (fun g n => Z.lor g (if has f (Z.shiftl 1 n) then Z.shiftl 1 n else 0)) l 0.
Proof. intros H. unfold bits. rewrite land_bits_from by done. by rewrite Z.land_0_r. Qed.

(** A field that is meaningful under a flag. *)
Definition agrees {A} (flags bit : Z) (x y : A) : Prop := has flags bit = true -> x = y.

(** A TLV found exactly when the flag is raised. *)
Lemma found_ok {A B} (b : bool) (t : A) (f : A -> outcome B) g v :
  f t = Ok v -> match (if b then Some t else None) with Some x => f x | None => Ok g end = Ok (if b then v else g).
Proof. intros H. by destruct b. Qed.

Definition found (rows : list (bool * Tlv.Tlv)) (s : gmap Z Tlv.Tlv) : Prop :=
  Forall (fun r : bool * Tlv.Tlv => s !! Tlv.mType r.2 = if r.1 then Some r.2 else None) rows.

(** The rows of an encoded message are found by the parser. *)
Lemma parse_rows rows :
  rows_valid rows -> rows_wire rows -> NoDup (map (fun r : bool * Tlv.Tlv => Tlv.mType r.2) rows) ->
  exists s, ParseTlvs (concat (map encoding (present rows))) kMeshCoP = Ok s /\ found rows s.
Proof.
  intros Hv Hw Hd. eexists; split; [apply ParseTlvs_encodings; by apply present_wire|].
  apply Forall_forall. intros [b t] Hin. by apply last_wins_row.
Qed.

(** What the TLV types of the present rows are. *)
Lemma types_present_rows rows :
  types_of (present rows) = flat_map (fun r : bool * Tlv.Tlv => if r.1 then [Tlv.mType r.2] else []) rows.
Proof.
  unfold types_of, present. induction rows as [|[b t] rows IH]; [done|]. simpl. rewrite map_app, IH. by destruct b.
Qed.

Lemma RequestIf_app f bit t l :
  is_byte t -> RequestIf f bit t l = l ++ (if has f bit then [t] else []).
Proof.
  intros Ht. unfold RequestIf, EncodeTlvType. rewrite u8_id by done. destruct (has f bit); [done|].
  by rewrite app_nil_r.
Qed.

(** ** Validity of single TLVs *)

Lemma zlen_Encode_loop n v : zlen (Encode_loop n v) = Z.of_nat n.
Proof. unfold zlen. by rewrite length_Encode_loop. Qed.

Lemma IsValid_bytes t v :
  IsValid (Tlv_bytes t v) = (u16 (zlen v) =? zlen v) && switch mesh_cop_rules (fun _ => false) t (u16 (zlen v)).
Proof. unfold IsValid, GetLength. cbn [Tlv_bytes mScope Tlv.mType mValue]. by destruct (_ =? _). Qed.

(** The rule of a type as a condition on the length. *)
Lemma IsValid_iff t v (P : Z -> Prop) :
  (forall n, 0 <= n -> fits 16 n -> switch mesh_cop_rules (fun _ => false) t n = true <-> P n) ->
  (forall n, P n -> n < 65536) ->
  IsValid (Tlv_bytes t v) = true <-> P (zlen v).
Proof.
  intros Hr Hb. rewrite IsValid_bytes, andb_true_iff, Z.eqb_eq. pose proof (zlen_nonneg v). split.
  - intros [E H']. rewrite E in H'. apply Hr; [done| |done]. rewrite <- E. apply u16_fits.
  - intros HP. pose proof (Hb _ HP). rewrite u16_id by (split; [done|done]). split; [done|].
    apply Hr; [done| |done]. split; [done|done].
Qed.

Ltac len_rule :=
  intros n; cbv [switch mesh_cop_rules];
  repeat match goal with
  | |- context [if ?a =? ?b then _ else _] =>
      let v := eval vm_compute in (a =? b) in change (a =? b) with v; cbv iota
  end; cbv beta; unfold kEscapeLength;
  rewrite ?orb_true_iff, ?andb_true_iff, ?Z.eqb_eq, ?Z.leb_le, ?Z.ltb_lt; lia.

Lemma IsValid_u16 t v : switch mesh_cop_rules (fun _ => false) t 2 = true -> IsValid (Tlv_u16 t v) = true.
Proof. intros H. change (Tlv_u16 t v) with (Tlv_bytes t (Encode_loop 2 v)). by rewrite IsValid_bytes, zlen_Encode_loop. Qed.
Lemma IsValid_u32 t v : switch mesh_cop_rules (fun _ => false) t 4 = true -> IsValid (Tlv_u32 t v) = true.
Proof. intros H. change (Tlv_u32 t v) with (Tlv_bytes t (Encode_loop 4 v)). by rewrite IsValid_bytes, zlen_Encode_loop. Qed.
Lemma IsValid_u64 t v : switch mesh_cop_rules (fun _ => false) t 8 = true -> IsValid (Tlv_u64 t v) = true.
Proof. intros H. change (Tlv_u64 t v) with (Tlv_bytes t (Encode_loop 8 v)). by rewrite IsValid_bytes, zlen_Encode_loop. Qed.

(** ** Values read back *)

Lemma Decode_u16 t v : fits 16 v -> Decode 2 (mValue (Tlv_u16 t v)) = Ok v.
Proof. apply (Decode_exact 2). Qed.
Lemma Decode_u32 t v : fits 32 v -> Decode 4 (mValue (Tlv_u32 t v)) = Ok v.
Proof. apply (Decode_exact 4). Qed.
Lemma Decode_u64 t v : fits 64 v -> Decode 8 (mValue (Tlv_u64 t v)) = Ok v.
Proof. apply (Decode_exact 8). Qed.

(** The first bytes of a long enough value. *)
Lemma Decode_long n v :
  bytes v -> Z.of_nat n <= zlen v -> exists x, Decode n v = Ok x /\ fits (8 * Z.of_nat n) x.
Proof.
  intros Hb Hl. rewrite <- (take_drop n v).
  assert (Hn : length (take n v) = n) by (rewrite length_take; unfold zlen in *; lia).
  rewrite Decode_take by done. eexists; split; [done|].
  pose proof (Decode_loop_bound (8 * Z.of_nat n) (take n v)) as H.
  unfold zlen in H. rewrite Hn in H. apply H; [by apply Forall_take|lia].
Qed.

(** ** Sets from the parser *)

Lemma ParseTlvs_total pl :
  bytes pl ->
  match ParseTlvs pl kMeshCoP with Ok s => set_ok kMeshCoP s | Err e => e = kBadFormat | Die => False end.
Proof.
  intros Hb. unfold ParseTlvs, GetTlvSet.
  destruct (GetTlvSet_loop_safe kMeshCoP pl (length pl) ∅ 0 Hb (set_ok_empty _) ltac:(lia) ltac:(unfold zlen; lia))
    as [Hs Hr].
  destruct (GetTlvSet_loop _ _ _ _ _) as [s r]. cbn [fst snd] in *. by destruct Hr as [-> | ->].
Qed.

(** A TLV of a permitted length is valid, and can be sent. *)
Lemma IsValid_exact t v n : switch mesh_cop_rules (fun _ => false) t n = true -> zlen v = n -> fits 16 n ->
  IsValid (Tlv_bytes t v) = true.
Proof. intros H Hl Hf. rewrite IsValid_bytes, Hl, u16_id, Z.eqb_refl by done. exact H. Qed.

Lemma wire_value t v : IsValid (Tlv_bytes t v) = true -> bytes v -> t <> kDomainPrefix -> is_byte t ->
  wire_ok kMeshCoP (Tlv_bytes t v).
Proof. intros Hv Hb Hd Ht. split; [done|]. split; [by split|]. split; [by intros ?|done]. Qed.

(** An entry has the type of its key, and the length its type allows. *)
Lemma set_ok_entry s k t (P : Z -> Prop) :
  set_ok kMeshCoP s -> s !! k = Some t ->
  (forall v, IsValid (Tlv_bytes k v) = true <-> P (zlen v)) -> bytes (mValue t) /\ P (zlen (mValue t)).
Proof.
  intros Hs Hk HP. destruct (Hs _ _ Hk) as (Hv & Ht & Hsc & Hb). split; [apply Hb|]. apply HP.
  destruct t; cbn in *; by subst.
Qed.

(** ** Refusals *)

(** A step that succeeds or refuses its argument. *)
Definition refuses {A} (m : outcome A) : Prop := (exists a, m = Ok a) \/ m = Err kInvalidArgs.

Lemma refused_bind {A B} (m : outcome A) (f : A -> outcome B) :
  refuses m -> (forall a, f a = Err kInvalidArgs) -> m ≫= f = Err kInvalidArgs.
Proof. intros [[a ->]| ->] H; [apply H|done]. Qed.

Lemma append_if_refuses m (b : bool) t : refuses (if b then AppendTlv m t else Ok m).
Proof.
  destruct b; [|left; eauto]. destruct (IsValid t) eqn:E; [left; rewrite AppendTlv_valid by done; eauto|].
  right. by apply AppendTlv_invalid.
Qed.

(** ** The Active Operational Dataset *)
Module ActiveCodec.
Import ActiveDataset.

Definition mask_value (d : ActiveOperationalDataset) : ByteArray := mask_bytes (mChannelMask d).

(** The TLVs of a dataset, each with its flag. *)
Definition rows (d : ActiveOperationalDataset) : list (bool * Tlv.Tlv) :=
  let f := mPresentFlags d in
  [(has f kActiveTimestampBit, Tlv_u64 kActiveTimestamp (Timestamp.Encode (mActiveTimestamp d)));
   (has f kChannelBit, Tlv_bytes kChannel (Encode 2 (Encode 1 [] (mPage (mChannel d))) (mNumber (mChannel d))));
   (has f kChannelMaskBit, Tlv_bytes kChannelMask (mask_value d));
   (has f kExtendedPanIdBit, Tlv_bytes kExtendedPanId (mExtendedPanId d));
   (has f kMeshLocalPrefixBit, Tlv_bytes kNetworkMeshLocalPrefix (mMeshLocalPrefix d));
   (has f kNetworkMasterKeyBit, Tlv_bytes kNetworkMasterKey (mNetworkMasterKey d));
   (has f kNetworkNameBit, Tlv_bytes kNetworkName (mNetworkName d));
   (has f kPanIdBit, Tlv_u16 kPanId (mPanId d));
   (has f kPSKcBit, Tlv_bytes kPSKc (mPSKc d));
   (has f kSecurityPolicyBit, Tlv_bytes kSecurityPolicy
      (Encode 2 [] (mRotationTime (mSecurityPolicy d)) ++ mFlags (mSecurityPolicy d)))].

(** The values that the types of the fields allow. *)
Definition typed (d : ActiveOperationalDataset) : Prop :=
  Timestamp.timestamp_ok (mActiveTimestamp d) /\
  is_byte (mPage (mChannel d)) /\ fits 16 (mNumber (mChannel d)) /\
  Forall entry_typed (mChannelMask d) /\
  bytes (mExtendedPanId d) /\ bytes (mMeshLocalPrefix d) /\ bytes (mNetworkMasterKey d) /\
  bytes (mNetworkName d) /\ fits 16 (mPanId d) /\ bytes (mPSKc d) /\
  fits 16 (mRotationTime (mSecurityPolicy d)) /\ bytes (mFlags (mSecurityPolicy d)).

(** The lengths that the TLVs of the present fields allow. *)
Definition valid (d : ActiveOperationalDataset) : Prop :=
  let present bit (P : Prop) := has (mPresentFlags d) bit = true -> P in
  present kChannelMaskBit (zlen (mask_bytes (mChannelMask d)) < kEscapeLength) /\
  present kExtendedPanIdBit (zlen (mExtendedPanId d) = 8) /\
  present kMeshLocalPrefixBit (zlen (mMeshLocalPrefix d) = 8) /\
  present kNetworkMasterKeyBit (zlen (mNetworkMasterKey d) = 16) /\
  present kNetworkNameBit (zlen (mNetworkName d) <= 16) /\
  present kPSKcBit (zlen (mPSKc d) <= 16) /\
  present kSecurityPolicyBit (1 <= zlen (mFlags (mSecurityPolicy d)) <= 2).

(** The ten flags of the dataset. *)
Definition flags : Z := bits [15; 14; 13; 12; 11; 10; 9; 8; 7; 6].

(** [d'] has the present fields of [d], and no other. *)
Definition same (d d' : ActiveOperationalDataset) : Prop :=
  let f := mPresentFlags d in
  mPresentFlags d' = Z.land f flags /\
  agrees f kActiveTimestampBit (mActiveTimestamp d) (mActiveTimestamp d') /\
  agrees f kChannelBit (mChannel d) (mChannel d') /\
  agrees f kChannelMaskBit (mChannelMask d) (mChannelMask d') /\
  agrees f kExtendedPanIdBit (mExtendedPanId d) (mExtendedPanId d') /\
  agrees f kMeshLocalPrefixBit (mMeshLocalPrefix d) (mMeshLocalPrefix d') /\
  agrees f kNetworkMasterKeyBit (mNetworkMasterKey d) (mNetworkMasterKey d') /\
  agrees f kNetworkNameBit (mNetworkName d) (mNetworkName d') /\
  agrees f kPanIdBit (mPanId d) (mPanId d') /\
  agrees f kPSKcBit (mPSKc d) (mPSKc d') /\
  agrees f kSecurityPolicyBit (mSecurityPolicy d) (mSecurityPolicy d').

(** *** Validity of the rows *)

Lemma Encode_mask (d : ActiveOperationalDataset) :
  Forall entry_typed (mChannelMask d) -> zlen (mask_value d) < kEscapeLength ->
  EncodeChannelMask [] (mChannelMask d) = Ok (mask_value d).
Proof. intros Ht Hl. rewrite EncodeChannelMask_ok; [done|]. by apply mask_bytes_short. Qed.

Lemma rows_valid_iff d : rows_valid (rows d) <-> valid d.
Proof.
  unfold rows_valid, rows, valid. rewrite !Forall_cons, Forall_nil. cbn [fst snd].
  rewrite IsValid_u16, IsValid_u64 by done.
  rewrite (IsValid_iff kChannel _ (fun n => n = 3)) by len_rule.
  rewrite (IsValid_iff kChannelMask _ (fun n => n < kEscapeLength)) by len_rule.
  rewrite (IsValid_iff kExtendedPanId _ (fun n => n = 8)) by len_rule.
  rewrite (IsValid_iff kNetworkMeshLocalPrefix _ (fun n => n = 8)) by len_rule.
  rewrite (IsValid_iff kNetworkMasterKey _ (fun n => n = 16)) by len_rule.
  rewrite (IsValid_iff kNetworkName _ (fun n => n <= 16)) by len_rule.
  rewrite (IsValid_iff kPSKc _ (fun n => n <= 16)) by len_rule.
  rewrite (IsValid_iff kSecurityPolicy _ (fun n => 3 <= n <= 4)) by len_rule.
  unfold Encode. rewrite !zlen_app, !zlen_Encode_loop. cbn [app].
  rewrite !zlen_nil. unfold mask_value. cbv beta. intuition lia.
Qed.
Definition payload (d : ActiveOperationalDataset) : ByteArray := concat (map encoding (present (rows d))).

(** The encoder appends the rows, or refuses. *)
Lemma Encode_rows req d :
  Forall entry_typed (mChannelMask d) ->
  EncodeActiveOperationalDataset req d =
    if decide (rows_valid (rows d)) then Ok (Message.Append req (payload d)) else Err kInvalidArgs.
Proof.
  intros Ht. unfold payload. rewrite <- append_rows_spec.
  destruct (decide (has (mPresentFlags d) kChannelMaskBit = true -> Forall entry_ok (mChannelMask d))) as [Hm|Hm].
  - unfold EncodeActiveOperationalDataset, rows. cbn [append_rows].
    destruct (has (mPresentFlags d) kChannelMaskBit); [rewrite EncodeChannelMask_ok by auto|];
      reflexivity.
  - rewrite append_rows_spec, decide_False.
    2:{ rewrite rows_valid_iff. intros (Hl & _). apply Hm. intros Hf. by apply mask_bytes_short, Hl. }
    unfold EncodeActiveOperationalDataset.
    destruct (has (mPresentFlags d) kChannelMaskBit); [|by destruct Hm].
    rewrite EncodeChannelMask_long; [|intros Hs; apply Hm; intros _; by apply Forall_and].
    apply refused_bind; [apply append_if_refuses|]. intros req1.
    apply refused_bind; [apply append_if_refuses|]. done.
Qed.

Lemma bytes_mask_bytes mask : Forall entry_ok mask -> bytes (mask_bytes mask).
Proof.
  induction 1 as [|e mask [[??] Hl] _ IH]; [constructor|]. unfold mask_bytes. cbn [map concat].
  apply Forall_app; split; [|done]. unfold entry_bytes. pose proof (zlen_nonneg (mMasks e)).
  repeat constructor; try done; unfold kEscapeLength in *; zw.
Qed.

Lemma rows_wire_typed d : typed d -> valid d -> rows_wire (rows d).
Proof.
  intros (? & ? & ? & Hm & ? & ? & ? & ? & ? & ? & ? & ?) (Hl & _). unfold rows_wire, rows.
  repeat apply Forall_cons_2; [..|apply Forall_nil_2]; cbn [fst snd]; intros Hf;
    (split; [split; [closed|cbn [Tlv_bytes Tlv_u16 Tlv_u64 mValue]]|split; [closed|done]]); unfold Encode;
    repeat first [done | apply bytes_Encode_loop | apply Forall_nil_2 | apply Forall_app_2].
  by apply bytes_mask_bytes, mask_bytes_short, Hl.
Qed.

Lemma rows_distinct d : NoDup (map (fun r : bool * Tlv.Tlv => Tlv.mType r.2) (rows d)).
Proof. by apply (bool_decide_eq_true_1 (NoDup [14; 0; 53; 2; 7; 5; 3; 1; 4; 12])). Qed.
(** *** Decoding *)

Lemma if_dataset (b : bool) ts ch cm xp ml nk nn pi pk sp f ts' ch' cm' xp' ml' nk' nn' pi' pk' sp' f' :
  (if b then mkDataset ts ch cm xp ml nk nn pi pk sp f else mkDataset ts' ch' cm' xp' ml' nk' nn' pi' pk' sp' f')
  = mkDataset (if b then ts else ts') (if b then ch else ch') (if b then cm else cm') (if b then xp else xp')
      (if b then ml else ml') (if b then nk else nk') (if b then nn else nn') (if b then pi else pi')
      (if b then pk else pk') (if b then sp else sp') (if b then f else f').
Proof. by destruct b. Qed.

Lemma Decode_channel t page number :
  is_byte page -> fits 16 number ->
  let v := mValue (Tlv_bytes t (Encode 2 (Encode 1 [] page) number)) in
  rd v 0 = Ok page /\ exists rest, rdt v 1 = Ok rest /\ Decode 2 rest = Ok number.
Proof.
  intros Hp Hn. cbn [Tlv_bytes mValue]. unfold Encode. rewrite Encode_loop_1 by done. cbn [app].
  rewrite rd_cons_0. split; [done|]. pose proof (zlen_nonneg (Encode_loop 2 number)).
  rewrite rdt_ok by (rewrite zlen_cons; lia). eexists. split; [done|]. by apply Decode_exact.
Qed.

Lemma Decode_policy t rot fl :
  fits 16 rot ->
  let v := mValue (Tlv_bytes t (Encode 2 [] rot ++ fl)) in
  Decode 2 v = Ok rot /\ rdt v 2 = Ok fl.
Proof.
  intros Hr. cbn [Tlv_bytes mValue]. unfold Encode. cbn [app]. split; [by apply Decode_Encode|].
  pose proof (zlen_nonneg fl). rewrite rdt_ok by (rewrite zlen_app; change (zlen (Encode_loop 2 rot)) with 2; lia).
  done.
Qed.

(** Take the next TLV of the rows. *)
Ltac take_found H tac :=
  rewrite H; erewrite found_ok by tac;
  cbn [mbind outcome_bind set_ActiveTimestamp set_Channel set_ChannelMask set_ExtendedPanId
       set_MeshLocalPrefix set_NetworkMasterKey set_NetworkName set_PanId set_PSKc set_SecurityPolicy];
  rewrite ?if_dataset, ?if_same, ?lor_if.

Lemma decode_rest_found s d ts ch cm xp ml nk nn pi pk sp fl :
  found (rows d) s -> typed d ->
  let f := mPresentFlags d in
  decode_rest s (mkDataset ts ch cm xp ml nk nn pi pk sp fl) = Ok (mkDataset ts ch cm
    (if has f kExtendedPanIdBit then mExtendedPanId d else xp)
    (if has f kMeshLocalPrefixBit then mMeshLocalPrefix d else ml)
    (if has f kNetworkMasterKeyBit then mNetworkMasterKey d else nk)
    (if has f kNetworkNameBit then mNetworkName d else nn)
    (if has f kPanIdBit then mPanId d else pi)
    (if has f kPSKcBit then mPSKc d else pk)
    (if has f kSecurityPolicyBit then mSecurityPolicy d else sp)
    (fold_left (fun g n => Z.lor g (if has f (Z.shiftl 1 n) then Z.shiftl 1 n else 0)) [12; 11; 10; 9; 8; 7; 6] fl)).
Proof.
  intros Hs (_ & _ & _ & _ & _ & _ & _ & _ & Hpi & _ & Hrot & _) f.
  unfold found, rows in Hs. rewrite !Forall_cons in Hs. cbn [fst snd Tlv_bytes Tlv_u16 Tlv_u64 Tlv.mType] in Hs.
  destruct Hs as (_ & _ & _ & H4 & H5 & H6 & H7 & H8 & H9 & H10 & _). unfold decode_rest.
  destruct (Decode_policy kSecurityPolicy _ (mFlags (mSecurityPolicy d)) Hrot) as [E1 E2].
  take_found H4 ltac:(reflexivity). take_found H5 ltac:(reflexivity). take_found H6 ltac:(reflexivity). take_found H7 ltac:(reflexivity).
  take_found H8 ltac:(cbv beta; rewrite Decode_u16 by done; reflexivity).
  take_found H9 ltac:(reflexivity). take_found H10 ltac:(cbv beta; rewrite E1, E2; reflexivity).
  by destruct (mSecurityPolicy d).
Qed.

Lemma found_mask s (b : bool) mask d d0 :
  (b = true -> DecodeChannelMask (mask_bytes mask) = Ok mask) ->
  match (if b then Some (Tlv_bytes kChannelMask (mask_bytes mask)) else None) with
  | Some t => match DecodeChannelMask (mValue t) with
              | Ok m => decode_rest s (set_ChannelMask d m) | Err _ => Ok d0 | Die => Die end
  | None => decode_rest s d
  end = decode_rest s (if b then set_ChannelMask d mask else d).
Proof. intros H. destruct b; [|done]. cbn [Tlv_bytes mValue]. by rewrite H. Qed.

(** Decoding a set in which the rows of [d] are found. *)
Lemma Decode_found init d0 pl s d :
  ParseTlvs pl kMeshCoP = Ok s -> found (rows d) s -> typed d -> valid d ->
  exists d', DecodeActiveOperationalDataset init d0 pl = Ok d' /\ same d d'.
Proof.
  intros Hp Hs Ht (Hl & _). pose proof Ht as (Hts & Hpg & Hnum & Hm & _).
  pose proof Hs as Hs'. unfold found, rows in Hs'. rewrite !Forall_cons in Hs'.
  cbn [fst snd Tlv_bytes Tlv_u16 Tlv_u64 Tlv.mType] in Hs'. destruct Hs' as (H1 & H2 & H3 & _).
  destruct init as [ts ch cm xp ml nk nn pi pk sp fl].
  unfold DecodeActiveOperationalDataset, with_flags. rewrite Hp. cbn [mbind outcome_bind].
  take_found H1 ltac:(cbv beta; rewrite Decode_u64 by (by apply Timestamp_Encode_fits);
    cbn [mbind outcome_bind]; rewrite Timestamp_Decode_Encode by done; reflexivity).
  destruct (Decode_channel kChannel _ _ Hpg Hnum) as (E1 & rest & E2 & E3).
  take_found H2 ltac:(cbv beta; rewrite E1; cbn [mbind outcome_bind]; rewrite E2; cbn [mbind outcome_bind]; rewrite E3; reflexivity).
  unfold mask_value in H3. rewrite H3, found_mask by (intros Hf; apply DecodeChannelMask_bytes; by apply mask_bytes_short, Hl).
  unfold set_ChannelMask. rewrite if_dataset, !if_same, lor_if, (decode_rest_found s d) by done.
  eexists; split; [done|]. unfold same, flags. rewrite land_bits by (repeat constructor; lia). cbn.
  split; [done|]. unfold agrees. split_and!; intros Hf; rewrite Hf; try done. by destruct (mChannel d).
Qed.

(** *** Properties *)

(** C36: A typed dataset whose present fields have lengths that their TLVs allow
    is encoded, and decoding the payload gives the present fields back with
    exactly their flags; every other dataset is refused with [kInvalidArgs]. *)
Theorem active_dataset_roundtrip req init d0 d :
  typed d -> Message.mPayload req = [] ->
  (valid d -> exists req' d', EncodeActiveOperationalDataset req d = Ok req' /\
     DecodeActiveOperationalDataset init d0 (Message.mPayload req') = Ok d' /\ same d d') /\
  (~ valid d -> EncodeActiveOperationalDataset req d = Err kInvalidArgs).
Proof.
  intros Ht Hp. pose proof Ht as (_ & _ & _ & Hm & _). rewrite Encode_rows by done. split.
  - intros Hv. rewrite decide_True by by apply rows_valid_iff.
    destruct (parse_rows (rows d)) as (s & Hs & Hf); [by apply rows_valid_iff|by apply rows_wire_typed|apply rows_distinct|].
    destruct (Decode_found init d0 (payload d) s d Hs Hf Ht Hv) as (d' & Hd & Hsame).
    exists (Message.Append req (payload d)), d'. split_and!; [done| |done].
    unfold Message.Append. cbn [Message.mPayload]. by rewrite Hp.
  - intros Hv. rewrite decide_False; [done|]. by rewrite rows_valid_iff.
Qed.

(** The local variable of the decoder, as the constructor leaves it. *)
Definition sample_init : ActiveOperationalDataset :=
  ActiveOperationalDataset_new 1600000000000000 (mkChannel 7 7) 7 7.
Definition sample_dataset : ActiveOperationalDataset :=
  mkDataset (Timestamp.mkTimestamp 20 3 1) (mkChannel 0 15) [mkEntry 0 [0; 31; 255; 224]] [1; 2; 3; 4; 5; 6; 7; 8] []
    [] (str "Thread") 65261 [] (mkPolicy 672 [255]) (bits [15; 14; 13; 12; 9; 8; 6]).

Lemma active_dataset_roundtrip_witness :
  exists req' d', EncodeActiveOperationalDataset (Message.Message_new kConfirmable Code.kPost) sample_dataset = Ok req' /\
    DecodeActiveOperationalDataset sample_init sample_init (Message.mPayload req') = Ok d' /\
    mNetworkName d' = str "Thread".
Proof.
  destruct (proj1 (active_dataset_roundtrip (Message.Message_new kConfirmable Code.kPost) sample_init sample_init
    sample_dataset ltac:(unfold typed; split_and!; closed) eq_refl)) as (req' & d' & He & Hd & Hs).
  - unfold valid. split_and!; intros H; vm_compute in H; first [discriminate H|closed].
  - exists req', d'. split; [exact He|]. split; [exact Hd|].
    symmetry. apply Hs. reflexivity.
Defined.

(** *** Decoding anything *)

Ltac flags_of_setter :=
  unfold kActiveTimestampBit, kChannelBit, kChannelMaskBit, kExtendedPanIdBit, kMeshLocalPrefixBit,
    kNetworkMasterKeyBit, kNetworkNameBit, kPanIdBit, kPSKcBit, kSecurityPolicyBit in *;
  rewrite !has_lor by lia;
  repeat match goal with
  | |- context [has (Z.shiftl 1 ?a) (Z.shiftl 1 ?b)] =>
      let v := eval vm_compute in (has (Z.shiftl 1 a) (Z.shiftl 1 b)) in
      change (has (Z.shiftl 1 a) (Z.shiftl 1 b)) with v
  end; rewrite ?orb_false_r.

Definition good (d : ActiveOperationalDataset) : Prop := typed d /\ valid d.

(** A setter keeps a dataset good if the value is. *)
Ltac setter_good d :=
  intros Hok [Ht Hv]; destruct d; unfold good, typed, valid in *; cbn in *; flags_of_setter; intuition.

Lemma set_ActiveTimestamp_good d v : Timestamp.timestamp_ok v -> good d -> good (set_ActiveTimestamp d v).
Proof. setter_good d. Qed.
Lemma set_Channel_good d v : is_byte (mPage v) /\ fits 16 (mNumber v) -> good d -> good (set_Channel d v).
Proof. setter_good d. Qed.
Lemma set_ChannelMask_good d v :
  Forall entry_typed v /\ zlen (mask_bytes v) < kEscapeLength -> good d -> good (set_ChannelMask d v).
Proof. setter_good d. Qed.
Lemma set_ExtendedPanId_good d v : bytes v /\ zlen v = 8 -> good d -> good (set_ExtendedPanId d v).
Proof. setter_good d. Qed.
Lemma set_MeshLocalPrefix_good d v : bytes v /\ zlen v = 8 -> good d -> good (set_MeshLocalPrefix d v).
Proof. setter_good d. Qed.
Lemma set_NetworkMasterKey_good d v : bytes v /\ zlen v = 16 -> good d -> good (set_NetworkMasterKey d v).
Proof. setter_good d. Qed.
Lemma set_NetworkName_good d v : bytes v /\ zlen v <= 16 -> good d -> good (set_NetworkName d v).
Proof. setter_good d. Qed.
Lemma set_PanId_good d v : fits 16 v -> good d -> good (set_PanId d v).
Proof. setter_good d. Qed.
Lemma set_PSKc_good d v : bytes v /\ zlen v <= 16 -> good d -> good (set_PSKc d v).
Proof. setter_good d. Qed.
Lemma set_SecurityPolicy_good d v :
  fits 16 (mRotationTime v) /\ bytes (mFlags v) /\ 1 <= zlen (mFlags v) <= 2 -> good d -> good (set_SecurityPolicy d v).
Proof. setter_good d. Qed.
(** The entries of a parsed set, by type. *)
Ltac entry Hs Hk k P :=
  destruct (set_ok_entry _ _ _ P Hs Hk (fun v => IsValid_iff k v P ltac:(len_rule) ltac:(len_rule))) as [? ?];
  cbv beta in *.

(** A block of the decoder. *)
Lemma block_good (m : outcome ActiveOperationalDataset) K :
  (exists d, m = Ok d /\ good d) -> (forall d, good d -> exists d', K d = Ok d' /\ good d') ->
  exists d', m ≫= K = Ok d' /\ good d'.
Proof. intros (d & -> & Hd) HK. by apply HK. Qed.

Ltac block Hs k P tac :=
  apply block_good;
  [match goal with |- context [?s !! k] =>
     let Hk := fresh in destruct (s !! k) as [t|] eqn:Hk; [entry Hs Hk k P|by eexists] end; tac
  |match goal with Hd : good ?d |- _ => clear dependent d end;
   let d := fresh "d" in let Hd := fresh "Hd" in intros d Hd].

Ltac stored lem := eexists; split; [done|by apply lem].
(** Read an [n]-byte integer of the value first. *)
Ltac decoded n lem :=
  idtac; match goal with Hb : bytes ?v, Hl : zlen ?v = _ |- _ =>
    let x := fresh "x" in let Hx := fresh "Hx" in
    destruct (Decode_long n v Hb ltac:(lia)) as (x & -> & Hx); cbn [mbind outcome_bind];
    eexists; split; [done|apply lem; [exact Hx|done]] end.

Lemma Policy_good d t :
  bytes (mValue t) -> 3 <= zlen (mValue t) <= 4 -> good d ->
  exists d', (v ← Decode 2 (mValue t); flags ← rdt (mValue t) 2;
              Ok (set_SecurityPolicy d (mkPolicy v flags))) = Ok d' /\ good d'.
Proof.
  intros Hb Hl Hd. destruct (Decode_long 2 (mValue t) Hb ltac:(lia)) as (x & -> & Hx).
  cbn [mbind outcome_bind]. rewrite rdt_ok by lia.
  eexists; split; [done|]. apply set_SecurityPolicy_good; [|done]. cbn [mRotationTime mFlags].
  split; [done|]. split; [by apply bytes_zdrop|]. unfold zdrop, zlen in *. rewrite length_drop. lia.
Qed.

Lemma decode_rest_good s d :
  set_ok kMeshCoP s -> good d -> exists d', decode_rest s d = Ok d' /\ good d'.
Proof.
  intros Hs Hd. unfold decode_rest.
  block Hs kExtendedPanId (fun n => n = 8) ltac:(stored set_ExtendedPanId_good).
  block Hs kNetworkMeshLocalPrefix (fun n => n = 8) ltac:(stored set_MeshLocalPrefix_good).
  block Hs kNetworkMasterKey (fun n => n = 16) ltac:(stored set_NetworkMasterKey_good).
  block Hs kNetworkName (fun n => n <= 16) ltac:(stored set_NetworkName_good).
  block Hs kPanId (fun n => n = 2) ltac:(decoded 2%nat set_PanId_good).
  block Hs kPSKc (fun n => n <= 16) ltac:(stored set_PSKc_good).
  destruct (s !! kSecurityPolicy) as [t|] eqn:Hk; [|by eexists].
  entry Hs Hk kSecurityPolicy (fun n => 3 <= n <= 4). by apply Policy_good.
Qed.

Lemma Channel_good d t :
  bytes (mValue t) -> zlen (mValue t) = 3 -> good d ->
  exists d', (page ← rd (mValue t) 0; rest ← rdt (mValue t) 1; number ← Decode 2 rest;
              Ok (set_Channel d (mkChannel page number))) = Ok d' /\ good d'.
Proof.
  intros Hb Hl Hd. destruct (rd_ok (mValue t) 0 ltac:(lia)) as (p & Ep & _). rewrite Ep. cbn [mbind outcome_bind].
  rewrite rdt_ok by lia. cbn [mbind outcome_bind]. destruct (Decode_long 2 (zdrop (mValue t) 1)) as (x & -> & Hx).
  { by apply bytes_zdrop. }
  { unfold zdrop, zlen in *. rewrite length_drop. lia. }
  eexists; split; [done|]. apply set_Channel_good; [|done]. split; [by eapply rd_byte|done].
Qed.

Lemma with_flags_good d : typed d -> good (with_flags d 0).
Proof. intros Ht. destruct d. split; [exact Ht|]. unfold valid. by split_and!. Qed.

(** The set holds a channel mask that cannot be decoded. *)
Definition malformed_mask (s : gmap Z Tlv.Tlv) : Prop :=
  exists t, s !! kChannelMask = Some t /\ DecodeChannelMask (mValue t) = Err kBadFormat.

Definition safe_result (d0 : ActiveOperationalDataset) (pl : ByteArray) (req : Message.Message)
    (m : outcome ActiveOperationalDataset) : Prop :=
  match m with
  | Ok d => (good d /\ exists req', EncodeActiveOperationalDataset req d = Ok req') \/
            (d = d0 /\ exists s, ParseTlvs pl kMeshCoP = Ok s /\ malformed_mask s)
  | Err e => e = kBadFormat
  | Die => False
  end.

Lemma block_safe d0 pl req (m : outcome ActiveOperationalDataset) K :
  (exists d, m = Ok d /\ good d) -> (forall d, good d -> safe_result d0 pl req (K d)) ->
  safe_result d0 pl req (m ≫= K).
Proof. intros (d & -> & Hd) HK. by apply HK. Qed.

Lemma set_ActiveTimestamp_decoded d v : fits 64 v -> good d -> good (set_ActiveTimestamp d (Timestamp.Decode v)).
Proof. intros _. apply set_ActiveTimestamp_good, Timestamp_Decode_ok. Qed.

(** C37: Decoding a payload never aborts and fails only with [kBadFormat];
    when it succeeds, the fields of the result are well formed and it can be
    encoded again, except that a channel mask that cannot be decoded goes
    unreported: success is returned and the caller's dataset is left as it was. *)
Theorem active_dataset_decode_safe init d0 pl req :
  bytes pl -> typed init -> safe_result d0 pl req (DecodeActiveOperationalDataset init d0 pl).
Proof.
  intros Hb Hi. pose proof (ParseTlvs_total pl Hb) as Hs. unfold DecodeActiveOperationalDataset.
  destruct (ParseTlvs pl kMeshCoP) as [s| |] eqn:Ep; [|done..]. cbn [mbind outcome_bind].
  pose proof (with_flags_good init Hi) as Hd. revert Hd. generalize (with_flags init 0) as d. intros d Hd.
  assert (Hrest : forall d, good d -> exists d', decode_rest s d = Ok d' /\ good d') by (intros; by apply decode_rest_good).
  assert (Hfin : forall m, (exists d, m = Ok d /\ good d) -> safe_result d0 pl req m).
  { intros m (d' & -> & Ht & Hv). left. split; [done|]. rewrite Encode_rows by apply Ht.
    rewrite decide_True by by apply rows_valid_iff. by eexists. }
  apply block_safe.
  { destruct (s !! kActiveTimestamp) as [t|] eqn:Hk; [|by eexists].
    entry Hs Hk kActiveTimestamp (fun n => n = 8). decoded 8%nat set_ActiveTimestamp_decoded. }
  clear d Hd; intros d Hd. apply block_safe.
  { destruct (s !! kChannel) as [t|] eqn:Hk; [|by eexists].
    entry Hs Hk kChannel (fun n => n = 3). by apply Channel_good. }
  clear d Hd; intros d Hd.
  destruct (s !! kChannelMask) as [t|] eqn:Hk; [|by apply Hfin, Hrest].
  entry Hs Hk kChannelMask (fun n => n < kEscapeLength).
  pose proof (DecodeChannelMask_total (mValue t) ltac:(done)) as Hmask.
  destruct (DecodeChannelMask (mValue t)) as [mask|e|] eqn:Em; [|subst e|done].
  - destruct Hmask as [Htm Hbm]. apply Hfin, Hrest, set_ChannelMask_good; [|done]. by rewrite Hbm.
  - right. split; [done|]. exists s. split; [done|]. by exists t.
Qed.

Definition bad_mask_payload : ByteArray := [1; 2; 18; 52; 53; 2; 0; 9].

Lemma active_dataset_decode_safe_witness :
  safe_result sample_dataset bad_mask_payload Message.Message_init
    (DecodeActiveOperationalDataset sample_init sample_dataset bad_mask_payload) /\
  DecodeActiveOperationalDataset sample_init sample_dataset bad_mask_payload = Ok sample_dataset.
Proof.
  split; [apply active_dataset_decode_safe|].
  - closed.
  - unfold typed; split_and!; closed.
  - vm_compute. reflexivity.
Defined.
End ActiveCodec.

(** ** The Pending Operational Dataset *)
Module PendingCodec.
Import ActiveDataset PendingDataset ActiveCodec.

Definition extra_rows (d : PendingOperationalDataset) : list (bool * Tlv.Tlv) :=
  let f := mPresentFlags (mActive d) in
  [(has f kDelayTimerBit, Tlv_u32 kDelayTimer (mDelayTimer d));
   (has f kPendingTimestampBit, Tlv_u64 kPendingTimestamp (Timestamp.Encode (mPendingTimestamp d)))].
Definition pending_rows (d : PendingOperationalDataset) : list (bool * Tlv.Tlv) := rows (mActive d) ++ extra_rows d.

Definition pending_typed (d : PendingOperationalDataset) : Prop :=
  typed (mActive d) /\ fits 32 (mDelayTimer d) /\ Timestamp.timestamp_ok (mPendingTimestamp d).

(** The twelve flags. *)
Definition pending_flags : Z := bits [15; 14; 13; 12; 11; 10; 9; 8; 7; 6; 5; 4].

Definition pending_same (d d' : PendingOperationalDataset) : Prop :=
  let f := mPresentFlags (mActive d) in
  mPresentFlags (mActive d') = Z.land f pending_flags /\
  same (mActive d) (with_flags (mActive d') (Z.land f flags)) /\
  agrees f kDelayTimerBit (mDelayTimer d) (mDelayTimer d') /\
  agrees f kPendingTimestampBit (mPendingTimestamp d) (mPendingTimestamp d').

Lemma present_app a b : present (a ++ b) = present a ++ present b.
Proof. apply flat_map_app. Qed.

Lemma extra_valid d : rows_valid (extra_rows d).
Proof. repeat apply Forall_cons_2; [..|apply Forall_nil_2]; intros _; [by apply IsValid_u32|by apply IsValid_u64]. Qed.

Lemma Encode_pending req d :
  pending_typed d -> valid (mActive d) ->
  EncodePendingOperationalDataset req d =
    Ok (Message.Append req (concat (map encoding (present (pending_rows d))))).
Proof.
  intros (Ht & _) Hv. unfold EncodePendingOperationalDataset. rewrite Encode_rows by apply Ht.
  rewrite decide_True by by apply rows_valid_iff. cbn [mbind outcome_bind].
  transitivity (append_rows (Message.Append req (payload (mActive d))) (extra_rows d)); [reflexivity|].
  rewrite append_rows_spec, decide_True by apply extra_valid.
  unfold pending_rows. by rewrite present_app, map_app, concat_app, Append_app.
Qed.

Lemma pending_rows_distinct d : NoDup (map (fun r : bool * Tlv.Tlv => Tlv.mType r.2) (pending_rows d)).
Proof. by apply (bool_decide_eq_true_1 (NoDup [14; 0; 53; 2; 7; 5; 3; 1; 4; 12; 52; 51])). Qed.

Lemma pending_wire d : pending_typed d -> valid (mActive d) -> rows_wire (pending_rows d).
Proof.
  intros (Ht & _) Hv. apply Forall_app_2; [by apply rows_wire_typed|].
  repeat apply Forall_cons_2; [..|apply Forall_nil_2]; intros _;
    (split; [split; [closed|apply bytes_Encode_loop]|split; [closed|done]]).
Qed.

Lemma pending_flags_split f :
  Z.land f pending_flags =
    Z.lor (Z.lor (Z.land f flags) (if has f kDelayTimerBit then kDelayTimerBit else 0))
      (if has f kPendingTimestampBit then kPendingTimestampBit else 0).
Proof. unfold pending_flags, flags. rewrite !land_bits by (repeat constructor; lia). reflexivity. Qed.

Lemma same_with_flags d d' : same d d' -> same d (with_flags d' (Z.land (mPresentFlags d) flags)).
Proof. destruct d'. intros (_ & H). by split. Qed.

(** What the blocks of the two fields leave. *)
Lemma pending_blocks d base dt pt :
  same (mActive d) base ->
  let f := mPresentFlags (mActive d) in
  let d1 := if has f kDelayTimerBit then set_DelayTimer (mkPending base dt pt) (mDelayTimer d)
            else mkPending base dt pt in
  pending_same d (if has f kPendingTimestampBit then set_PendingTimestamp d1 (mPendingTimestamp d) else d1).
Proof.
  intros Hs f d1. pose proof (same_with_flags _ _ Hs) as Hw. destruct Hs as (Hf & _). fold f in Hf, Hw.
  unfold pending_same. fold f. rewrite pending_flags_split. unfold d1, agrees.
  destruct base; cbn in Hf, Hw |- *.
  destruct (has f kDelayTimerBit), (has f kPendingTimestampBit); cbn; rewrite ?Hf, ?Z.lor_0_r; by split_and!.
Qed.

(** A valid Pending Operational Dataset makes the same round trip, with
    its delay timer and pending timestamp. *)
Theorem pending_dataset_roundtrip req inner init d :
  pending_typed d -> valid (mActive d) -> Message.mPayload req = [] ->
  exists req' d', EncodePendingOperationalDataset req d = Ok req' /\
    forall rsp, Message.mPayload rsp = Message.mPayload req' ->
     DecodePendingOperationalDataset inner init rsp = Ok d' /\ pending_same d d'.
Proof.
  intros Ht Hv Hp. rewrite Encode_pending by done.
  destruct (parse_rows (pending_rows d)) as (s & Hs & Hf).
  { apply Forall_app_2; [by apply rows_valid_iff|apply extra_valid]. }
  { by apply pending_wire. }
  { apply pending_rows_distinct. }
  apply Forall_app in Hf as [Hf Hx]. unfold extra_rows in Hx. rewrite !Forall_cons in Hx.
  cbn [fst snd Tlv_u32 Tlv_u64 Tlv.mType] in Hx. destruct Hx as (H1 & H2 & _). destruct Ht as (Ht & Hdt & Hts).
  set (pl := concat _) in *.
  destruct (Decode_found inner (with_flags (mActive init) 0) pl s (mActive d) Hs Hf Ht Hv) as (base & Hb & Hsame).
  eexists; eexists; split; [done|]. unfold Message.Append. cbn [Message.mPayload]. rewrite Hp. cbn [app].
  intros rsp Hrsp. unfold DecodePendingOperationalDataset. rewrite Hrsp, Hb. cbn [mbind outcome_bind].
  rewrite Hs. cbn [mbind outcome_bind].
  rewrite H1. erewrite found_ok by (cbv beta; rewrite Decode_u32 by done; reflexivity).
  cbn [mbind outcome_bind]. rewrite H2.
  erewrite found_ok by (cbv beta; rewrite Decode_u64 by (by apply Timestamp_Encode_fits);
    cbn [mbind outcome_bind]; rewrite Timestamp_Decode_Encode by done; reflexivity).
  split; [reflexivity|]. by apply pending_blocks.
Qed.
Definition sample_pending : PendingOperationalDataset :=
  mkPending (with_flags sample_dataset (bits [15; 14; 13; 12; 9; 8; 6; 5; 4])) 30000 (Timestamp.mkTimestamp 21 0 0).

Lemma pending_dataset_roundtrip_witness :
  exists req' d', EncodePendingOperationalDataset (Message.Message_new kConfirmable Code.kPost) sample_pending = Ok req' /\
    DecodePendingOperationalDataset sample_init sample_pending req' = Ok d' /\ mDelayTimer d' = 30000.
Proof.
  destruct (pending_dataset_roundtrip (Message.Message_new kConfirmable Code.kPost) sample_init sample_pending
    sample_pending) as (req' & d' & He & H).
  - unfold pending_typed, typed. split_and!; closed.
  - unfold valid. split_and!; intros H; vm_compute in H; first [discriminate H|closed].
  - reflexivity.
  - destruct (H req' eq_refl) as [Hd Hs]. exists req', d'. split; [exact He|]. split; [exact Hd|].
    symmetry. apply Hs. reflexivity.
Defined.
End PendingCodec.

(** ** The Commissioner Dataset *)
Module CommissionerCodec.
Import CommissionerDataset.

Definition com_rows (d : CommissionerDataset) : list (bool * Tlv.Tlv) :=
  let f := mPresentFlags d in
  [(has f kSessionIdBit, Tlv_u16 kCommissionerSessionId (mSessionId d));
   (has f kBorderAgentLocatorBit, Tlv_u16 kBorderAgentLocator (mBorderAgentLocator d));
   (has f kSteeringDataBit, Tlv_bytes kSteeringData (mSteeringData d));
   (has f kAeSteeringDataBit, Tlv_bytes kAeSteeringData (mAeSteeringData d));
   (has f kNmkpSteeringDataBit, Tlv_bytes kNmkpSteeringData (mNmkpSteeringData d));
   (has f kJoinerUdpPortBit, Tlv_u16 kJoinerUdpPort (mJoinerUdpPort d));
   (has f kAeUdpPortBit, Tlv_u16 kAeUdpPort (mAeUdpPort d));
   (has f kNmkpUdpPortBit, Tlv_u16 kNmkpUdpPort (mNmkpUdpPort d))].

Definition com_typed (d : CommissionerDataset) : Prop :=
  fits 16 (mSessionId d) /\ fits 16 (mBorderAgentLocator d) /\ bytes (mSteeringData d) /\
  bytes (mAeSteeringData d) /\ bytes (mNmkpSteeringData d) /\ fits 16 (mJoinerUdpPort d) /\
  fits 16 (mAeUdpPort d) /\ fits 16 (mNmkpUdpPort d).

Definition com_valid (d : CommissionerDataset) : Prop :=
  let present bit (P : Prop) := has (mPresentFlags d) bit = true -> P in
  present kSteeringDataBit (zlen (mSteeringData d) <= 16) /\
  present kAeSteeringDataBit (zlen (mAeSteeringData d) <= 16) /\
  present kNmkpSteeringDataBit (zlen (mNmkpSteeringData d) <= 16).

Definition com_flags : Z := bits [14; 15; 13; 12; 11; 10; 9; 8].

(** The decoded dataset: absent fields have their default values. *)
Definition com_canonical (d : CommissionerDataset) : CommissionerDataset :=
  let f := mPresentFlags d in
  mkDataset (if has f kBorderAgentLocatorBit then mBorderAgentLocator d else 0)
    (if has f kSessionIdBit then mSessionId d else 0)
    (if has f kSteeringDataBit then mSteeringData d else [])
    (if has f kAeSteeringDataBit then mAeSteeringData d else [])
    (if has f kNmkpSteeringDataBit then mNmkpSteeringData d else [])
    (if has f kJoinerUdpPortBit then mJoinerUdpPort d else 0)
    (if has f kAeUdpPortBit then mAeUdpPort d else 0)
    (if has f kNmkpUdpPortBit then mNmkpUdpPort d else 0)
    (Z.land f com_flags).

Lemma com_rows_valid_iff d : rows_valid (com_rows d) <-> com_valid d.
Proof.
  unfold rows_valid, com_rows, com_valid. rewrite !Forall_cons, Forall_nil. cbn [fst snd].
  rewrite !IsValid_u16 by done.
  rewrite (IsValid_iff kSteeringData _ (fun n => n <= 16)) by len_rule.
  rewrite (IsValid_iff kAeSteeringData _ (fun n => n <= 16)) by len_rule.
  rewrite (IsValid_iff kNmkpSteeringData _ (fun n => n <= 16)) by len_rule.
  cbv beta. intuition lia.
Qed.

Lemma com_rows_wire d : com_typed d -> rows_wire (com_rows d).
Proof.
  intros (? & ? & ? & ? & ? & ? & ? & ?). unfold rows_wire, com_rows.
  repeat apply Forall_cons_2; [..|apply Forall_nil_2]; cbn [fst snd]; intros Hf;
    (split; [split; [closed|cbn [Tlv_bytes Tlv_u16 mValue]]|split; [closed|done]]);
    try apply bytes_Encode_loop; done.
Qed.

Lemma com_rows_distinct d : NoDup (map (fun r : bool * Tlv.Tlv => Tlv.mType r.2) (com_rows d)).
Proof. by apply (bool_decide_eq_true_1 (NoDup [11; 9; 8; 61; 62; 18; 65; 66])). Qed.

Lemma GetValueAsUint16_u16 t v : fits 16 v -> GetValueAsUint16 (Tlv_u16 t v) = Ok v.
Proof. intros H. unfold GetValueAsUint16. rewrite Decode_u16 by done. reflexivity. Qed.

Lemma if_com (b : bool) bl si sd ae nm jp ap np f bl' si' sd' ae' nm' jp' ap' np' f' :
  (if b then mkDataset bl si sd ae nm jp ap np f else mkDataset bl' si' sd' ae' nm' jp' ap' np' f')
  = mkDataset (if b then bl else bl') (if b then si else si') (if b then sd else sd') (if b then ae else ae')
      (if b then nm else nm') (if b then jp else jp') (if b then ap else ap') (if b then np else np')
      (if b then f else f').
Proof. by destruct b. Qed.

Ltac take_com H tac :=
  rewrite H; erewrite found_ok by tac;
  cbn [mbind outcome_bind set_SessionId set_BorderAgentLocator set_SteeringData set_AeSteeringData
       set_NmkpSteeringData set_JoinerUdpPort set_AeUdpPort set_NmkpUdpPort];
  rewrite ?if_com, ?if_same, ?lor_if.
Ltac port := cbv beta; rewrite GetValueAsUint16_u16 by done; reflexivity.

(** A typed Commissioner Dataset whose present steering data have at most 16
    bytes is encoded, and decoding gives exactly its present fields and flags
    with every other field at its default; others are refused. *)
Theorem commissioner_dataset_roundtrip req d :
  com_typed d -> Message.mPayload req = [] ->
  (com_valid d -> exists req', EncodeCommissionerDataset req d = Ok req' /\
     forall rsp, Message.mPayload rsp = Message.mPayload req' ->
       DecodeCommissionerDataset rsp = Ok (com_canonical d)) /\
  (~ com_valid d -> EncodeCommissionerDataset req d = Err kInvalidArgs).
Proof.
  intros Ht Hp. assert (E : EncodeCommissionerDataset req d = append_rows req (com_rows d)) by reflexivity.
  rewrite E, append_rows_spec. split; intros Hv.
  2:{ rewrite decide_False; [done|]. by rewrite com_rows_valid_iff. }
  apply com_rows_valid_iff in Hv. rewrite decide_True by done. eexists; split; [done|]. intros rsp.
  unfold Message.Append. cbn [Message.mPayload]. rewrite Hp. cbn [app]. intros Hr.
  destruct (parse_rows (com_rows d) Hv (com_rows_wire d Ht) (com_rows_distinct d)) as (s & Hs & Hf).
  unfold DecodeCommissionerDataset. rewrite Hr, Hs. cbn [mbind outcome_bind].
  destruct Ht as (F1 & F2 & F3 & F4 & F5 & F6 & F7 & F8).
  unfold found, com_rows in Hf. rewrite !Forall_cons in Hf. cbn [fst snd Tlv_bytes Tlv_u16 Tlv.mType] in Hf.
  destruct Hf as (H1 & H2 & H3 & H4 & H5 & H6 & H7 & H8 & _). unfold CommissionerDataset_init.
  take_com H1 ltac:(port). take_com H2 ltac:(port). take_com H3 ltac:(reflexivity).
  take_com H4 ltac:(reflexivity). take_com H5 ltac:(reflexivity). take_com H6 ltac:(port).
  take_com H7 ltac:(port). take_com H8 ltac:(port).
  unfold com_canonical, com_flags. by rewrite land_bits by (repeat constructor; lia).
Qed.
Definition sample_commissioner : CommissionerDataset :=
  mkDataset 1024 7 (replicate 16 255) [] [] 1000 0 0 (bits [15; 14; 13; 10; 3]).

Lemma commissioner_dataset_roundtrip_witness :
  exists req', EncodeCommissionerDataset (Message.Message_new kConfirmable Code.kPost) sample_commissioner = Ok req' /\
    DecodeCommissionerDataset req' = Ok (com_canonical sample_commissioner) /\
    mJoinerUdpPort (com_canonical sample_commissioner) = 1000.
Proof.
  destruct (proj1 (commissioner_dataset_roundtrip (Message.Message_new kConfirmable Code.kPost) sample_commissioner
    ltac:(unfold com_typed; split_and!; closed) eq_refl)) as (req' & He & H).
  - unfold com_valid. split_and!; intros H; vm_compute in H; first [discriminate H|closed].
  - exists req'. split; [exact He|]. split; [exact (H req' eq_refl)|reflexivity].
Defined.
End CommissionerCodec.

(** ** The BBR Dataset *)
Module BbrCodec.
Import BbrDataset.

Section Bbr.
Context (inet_pton4 inet_pton6 : string_t -> option ByteArray).
Context (inet_ntop4 inet_ntop6 : ByteArray -> option string_t).
Context `{HL : !Addr.InetLaws inet_pton4 inet_pton6 inet_ntop4 inet_ntop6}.

(** The address is written as text: [addr] are its bytes. *)
Definition bbr_rows (d : BbrDataset) (addr : ByteArray) : list (bool * Tlv.Tlv) :=
  let f := mPresentFlags d in
  [(has f kTriHostnameBit, Tlv_bytes kTriHostname (mTriHostname d));
   (has f kRegistrarHostnameBit, Tlv_bytes kRegistrarHostname (mRegistrarHostname d));
   (has f kRegistrarIpv6AddrBit, Tlv_bytes kRegistrarIpv6Address addr)].

Definition bbr_flags : Z := bits [15; 14; 13].

Definition bbr_canonical (d : BbrDataset) : BbrDataset :=
  let f := mPresentFlags d in
  mkDataset (if has f kTriHostnameBit then mTriHostname d else [])
    (if has f kRegistrarHostnameBit then mRegistrarHostname d else [])
    (if has f kRegistrarIpv6AddrBit then mRegistrarIpv6Addr d else [])
    (Z.land f bbr_flags).

Lemma if_bbr (b : bool) th rh ra f th' rh' ra' f' :
  (if b then mkDataset th rh ra f else mkDataset th' rh' ra' f')
  = mkDataset (if b then th else th') (if b then rh else rh') (if b then ra else ra') (if b then f else f').
Proof. by destruct b. Qed.

(** A BBR Dataset whose address is the text of the IPv6 address [addr] and
    whose names have at most 254 bytes is encoded, and decoding gives exactly
    its present fields. *)
Theorem bbr_dataset_roundtrip req d addr :
  bytes (mTriHostname d) -> bytes (mRegistrarHostname d) ->
  zlen (mTriHostname d) < kEscapeLength -> zlen (mRegistrarHostname d) < kEscapeLength ->
  bytes addr -> zlen addr = Addr.kIpv6Size -> inet_ntop6 addr = Some (mRegistrarIpv6Addr d) ->
  Message.mPayload req = [] ->
  exists req', EncodeBbrDataset inet_pton4 inet_pton6 req d = Ok req' /\
    forall rsp, Message.mPayload rsp = Message.mPayload req' ->
      DecodeBbrDataset inet_ntop4 inet_ntop6 rsp = Ok (bbr_canonical d).
Proof using HL.
  intros Ht Hr Htl Hrl Ha Hal Hn Hp.
  destruct (Addr.ntop6_text addr Ha Hal) as (s & Hs & _ & H4 & H6). rewrite Hn in Hs. injection Hs as <-.
  assert (E : EncodeBbrDataset inet_pton4 inet_pton6 req d = append_rows req (bbr_rows d addr)).
  { unfold EncodeBbrDataset, Addr.SetString. rewrite H4, H6. reflexivity. }
  assert (Hv : rows_valid (bbr_rows d addr)).
  { unfold rows_valid, bbr_rows. rewrite !Forall_cons, Forall_nil. cbn [fst snd].
    rewrite (IsValid_iff kTriHostname _ (fun n => n < 255)) by len_rule.
    rewrite (IsValid_iff kRegistrarHostname _ (fun n => n < 255)) by len_rule.
    rewrite (IsValid_iff kRegistrarIpv6Address _ (fun n => n = 16)) by len_rule. done. }
  assert (Hw : rows_wire (bbr_rows d addr)).
  { unfold rows_wire, bbr_rows. repeat apply Forall_cons_2; [..|apply Forall_nil_2]; intros _;
      (split; [split; [closed|done]|split; [closed|done]]). }
  rewrite E, append_rows_spec, decide_True by done. eexists; split; [done|]. intros rsp.
  unfold Message.Append. cbn [Message.mPayload]. rewrite Hp. cbn [app]. intros Hrsp.
  destruct (parse_rows (bbr_rows d addr) Hv Hw) as (st & Hst & Hf).
  { by apply (bool_decide_eq_true_1 (NoDup [67; 69; 68])). }
  unfold DecodeBbrDataset. rewrite Hrsp, Hst. cbn [mbind outcome_bind].
  unfold found, bbr_rows in Hf. rewrite !Forall_cons in Hf. cbn [fst snd Tlv_bytes Tlv.mType] in Hf.
  destruct Hf as (F1 & F2 & F3 & _). unfold BbrDataset_init.
  rewrite F1. erewrite found_ok by reflexivity. cbn [mbind outcome_bind set_TriHostname]. rewrite if_bbr, !if_same, lor_if.
  rewrite F2. erewrite found_ok by reflexivity. cbn [mbind outcome_bind set_RegistrarHostname]. rewrite if_bbr, !if_same, lor_if.
  assert (Eraw : Addr.SetRaw addr = Ok addr) by (unfold Addr.SetRaw; by rewrite Hal).
  assert (Etext : Addr.ToString inet_ntop4 inet_ntop6 addr = mRegistrarIpv6Addr d)
    by (unfold Addr.ToString; by rewrite Hal, Hn).
  rewrite F3. erewrite found_ok.
  2:{ cbv beta. cbn [Tlv_bytes mValue]. rewrite Eraw. cbn [mbind outcome_bind]. rewrite Etext. reflexivity. }
  cbn [set_RegistrarIpv6Addr]. rewrite if_bbr, !if_same, lor_if.
  unfold bbr_canonical, bbr_flags. rewrite (land_bits _ [15; 14; 13]) by (repeat constructor; lia). reflexivity.
Qed.
End Bbr.

Lemma bbr_dataset_roundtrip_witness :
  let d := mkDataset (str "tri") [] (HexString.Hex (replicate 16 171)) (bits [15; 13]) in
  exists req', EncodeBbrDataset Addr.sample_pton4 Addr.sample_pton6 Message.Message_init d = Ok req' /\
    DecodeBbrDataset Addr.sample_ntop4 Addr.sample_ntop6 req' = Ok d.
Proof.
  cbv zeta.
  destruct (bbr_dataset_roundtrip Addr.sample_pton4 Addr.sample_pton6 Addr.sample_ntop4 Addr.sample_ntop6
    Message.Message_init (mkDataset (str "tri") [] (HexString.Hex (replicate 16 171)) (bits [15; 13])) (replicate 16 171))
    as (req' & He & H); [closed|closed|closed|closed|closed|closed|reflexivity|reflexivity|].
  exists req'. split; [exact He|]. exact (H req' eq_refl).
Defined.

End BbrCodec.

(** ** Requests and encodings agree *)

(** For each kind of dataset: the TLV types that are requested for some flags
    are the types of the TLVs a dataset with these flags is encoded to, in the
    same order. *)
Theorem dataset_types_requested :
  (forall d, types_of (present (ActiveCodec.rows d))
             = GetActiveOperationalDatasetTlvs (ActiveDataset.mPresentFlags d)) /\
  (forall d, types_of (present (PendingCodec.pending_rows d))
             = GetPendingOperationalDatasetTlvs (ActiveDataset.mPresentFlags (PendingDataset.mActive d))) /\
  (forall d, types_of (present (CommissionerCodec.com_rows d))
             = GetCommissionerDatasetTlvs (CommissionerDataset.mPresentFlags d)) /\
  (forall d addr, types_of (present (BbrCodec.bbr_rows d addr)) = GetBbrDatasetTlvs (BbrDataset.mPresentFlags d)).
Proof.
  split_and!; intros; rewrite types_present_rows;
    unfold GetPendingOperationalDatasetTlvs, GetActiveOperationalDatasetTlvs, GetCommissionerDatasetTlvs,
      GetBbrDatasetTlvs; cbv zeta; rewrite !RequestIf_app by done; rewrite <- !app_assoc;
    cbn [app PendingCodec.pending_rows PendingCodec.extra_rows ActiveCodec.rows CommissionerCodec.com_rows
         BbrCodec.bbr_rows flat_map fst snd Tlv_bytes Tlv_u16 Tlv_u32 Tlv_u64 Tlv.mType];
    by rewrite app_nil_r.
Qed.
