(* ===== verification/Coap.v ===== *)
(** * The CoAP client and server

    [coap::Coap] of [src/library/coap.{hpp,cpp}] with its two caches and the
    timer of [src/library/timer.hpp]: sending and retransmitting requests,
    matching responses, dispatching requests to resources, the cache of sent
    responses, and the calls to user-provided handlers, which may call back
    into the object. *)

From S2P Require Import Prelude Outcome Common CoapMessage.
Import Message.

(** ** Protocol constants (RFC 7252), times in milliseconds where scaled *)

Definition kAckTimeout : Z := 2.
Definition kAckRandomFactorNumerator : Z := 3.
Definition kAckRandomFactorDenominator : Z := 2.
Definition kMaxRetransmit : Z := 4.
Definition kMaxTransmitSpan : Z :=
  kAckTimeout * (Z.shiftl 2 (kMaxRetransmit - 1) - 1) * kAckRandomFactorNumerator
  / kAckRandomFactorDenominator.
Definition kMaxLatency : Z := 100.
Definition kProcessingDelay : Z := kAckTimeout.
Definition kMaxRtt : Z := 2 * kMaxLatency + kProcessingDelay.
Definition kExchangeLifetime : Z := kMaxTransmitSpan + 2 * kMaxLatency + kProcessingDelay.

(** [GetUint32InRange] of [src/library/openthread/random.hpp], on the 32-bit
    value drawn. *)
Definition GetUint32InRange (drawn aMin aMax : Z) : Z := u32 (aMin + drawn mod (aMax - aMin)).

(** ** State *)

(** Requests are shared objects compared by address; [mRequestId] is that
    address.  The object does not change once it is in the cache: [Send] sets
    its endpoint before.  Handlers are named by numbers. *)
Record RequestHolder : Type := mkHolder {
  mRequestId : nat;
  mRequest : Message;
  mHandler : option nat;
  mRetransmissionCount : Z;
  mRetransmissionDelay : Z;
  mNextTimerShot : Z;
  mAcknowledged : bool }.

(** What the object does to the outside, in order: datagrams handed to an
    endpoint, and calls of handlers.  [EvIssue] marks a confirmable request
    sent with a handler, [EvRefused] a retransmission that could not be sent;
    they are markers of the proof, not effects. *)
Inductive CoapEvent : Type :=
| EvSend (endpoint : nat) (data : ByteArray) (subType : MessageSubType)
| EvResponse (request handler : nat) (response : option Message) (error : ErrorCode)
| EvRequest (handler : nat) (request : Message)
| EvIssue (request : nat)
| EvRefused (request : nat) (error : ErrorCode).

Record Coap : Type := mkCoap {
  mMessageId : Z;
  mResources : gmap string_t (option nat);
  mRequests : list RequestHolder;              (* RequestsCache::mContainer, a multiset *)
  mRetransmissionTimer : option Z;             (* fire time when running *)
  mResponses : list (Z * Message);             (* ResponsesCache::mContainer, a multimap *)
  mResponsesTimer : option Z;
  mDefaultHandler : option nat;
  mEndpointId : nat;
  clock : Z;                                   (* Clock::now() *)
  nextRequest : nat;                           (* next fresh address *)
  nextSend : nat;                              (* number of datagrams sent *)
  trace : list CoapEvent }.                    (* latest first *)

Definition Coap_init (aEndpoint : nat) (now : Z) : Coap :=
  mkCoap 0 ∅ [] None [] None None aEndpoint now 0 0 [].

Definition with_requests (c : Coap) (l : list RequestHolder) (t : option Z) : Coap :=
  mkCoap (mMessageId c) (mResources c) l t (mResponses c) (mResponsesTimer c)
    (mDefaultHandler c) (mEndpointId c) (clock c) (nextRequest c) (nextSend c) (trace c).
Definition with_responses (c : Coap) (l : list (Z * Message)) (t : option Z) : Coap :=
  mkCoap (mMessageId c) (mResources c) (mRequests c) (mRetransmissionTimer c) l t
    (mDefaultHandler c) (mEndpointId c) (clock c) (nextRequest c) (nextSend c) (trace c).
Definition with_handlers (c : Coap) (r : gmap string_t (option nat)) (d : option nat) : Coap :=
  mkCoap (mMessageId c) r (mRequests c) (mRetransmissionTimer c) (mResponses c) (mResponsesTimer c)
    d (mEndpointId c) (clock c) (nextRequest c) (nextSend c) (trace c).
Definition with_ids (c : Coap) (id : Z) (req snd : nat) : Coap :=
  mkCoap id (mResources c) (mRequests c) (mRetransmissionTimer c) (mResponses c) (mResponsesTimer c)
    (mDefaultHandler c) (mEndpointId c) (clock c) req snd (trace c).
Definition with_clock (c : Coap) (now : Z) : Coap :=
  mkCoap (mMessageId c) (mResources c) (mRequests c) (mRetransmissionTimer c) (mResponses c)
    (mResponsesTimer c) (mDefaultHandler c) (mEndpointId c) now (nextRequest c) (nextSend c) (trace c).
Definition emit (c : Coap) (e : CoapEvent) : Coap :=
  mkCoap (mMessageId c) (mResources c) (mRequests c) (mRetransmissionTimer c) (mResponses c)
    (mResponsesTimer c) (mDefaultHandler c) (mEndpointId c) (clock c) (nextRequest c) (nextSend c)
    (e :: trace c).

(** ** The cache of outstanding requests *)
Module RequestsCache.

Definition IsEmpty (c : Coap) : bool := match mRequests c with [] => true | _ => false end.

Definition Front (c : Coap) : outcome RequestHolder :=
  match mRequests c with h :: _ => Ok h | [] => Die end.
Definition Earliest (c : Coap) : outcome Z := h ← Front c; Ok (mNextTimerShot h).

(** [multiset::emplace]: behind the elements that are not greater. *)
Fixpoint emplace (h : RequestHolder) (l : list RequestHolder) : list RequestHolder :=
  match l with
  | [] => [h]
  | x :: l' => if mNextTimerShot h <? mNextTimerShot x then h :: l else x :: emplace h l'
  end.

Definition UpdateTimer (c : Coap) : outcome Coap :=
  if IsEmpty c then Ok (with_requests c (mRequests c) None)
  else
    e ← Earliest c;
    match mRetransmissionTimer c with
    | None => Ok (with_requests c (mRequests c) (Some e))
    | Some t => if e <? t then Ok (with_requests c (mRequests c) (Some e)) else Ok c
    end.

(** [Put(const RequestHolder &)] *)
Definition Put (c : Coap) (h : RequestHolder) : outcome Coap :=
  UpdateTimer (with_requests c (emplace h (mRequests c)) (mRetransmissionTimer c)).

(** [Eliminate()] *)
Definition EliminateFront (c : Coap) : outcome (RequestHolder * Coap) :=
  match mRequests c with
  | [] => Die
  | h :: l => c ← UpdateTimer (with_requests c l (mRetransmissionTimer c)); Ok (h, c)
  end.

(** Erase the first holder of a request. *)
Fixpoint erase (id : nat) (l : list RequestHolder) : list RequestHolder :=
  match l with
  | [] => []
  | x :: l => if Nat.eqb (mRequestId x) id then l else x :: erase id l
  end.

(** [Eliminate(const RequestHolder &)] *)
Definition Eliminate (c : Coap) (id : nat) : outcome Coap :=
  UpdateTimer (with_requests c (erase id (mRequests c)) (mRetransmissionTimer c)).

Definition find_holder (c : Coap) (id : nat) : option RequestHolder :=
  List.find (fun h => Nat.eqb (mRequestId h) id) (mRequests c).

Definition matches (aResponse : Message) (h : RequestHolder) : bool :=
  let request := mRequest h in
  bool_decide (mEndpoint aResponse = mEndpoint request) &&
  match GetType aResponse with
  | kReset | kAcknowledgment => GetMessageId aResponse =? GetMessageId request
  | kConfirmable | kNonConfirmable => IsTokenEqual aResponse request
  end.

Definition Match (c : Coap) (aResponse : Message) : option RequestHolder :=
  List.find (matches aResponse) (mRequests c).

(** Writes through the [mutable] members of a holder in the container. *)
Definition modify (c : Coap) (id : nat) (f : RequestHolder -> RequestHolder) : Coap :=
  with_requests c (map (fun h => if Nat.eqb (mRequestId h) id then f h else h) (mRequests c))
    (mRetransmissionTimer c).

Definition clear_handler (h : RequestHolder) : RequestHolder :=
  mkHolder (mRequestId h) (mRequest h) None (mRetransmissionCount h) (mRetransmissionDelay h)
    (mNextTimerShot h) (mAcknowledged h).
Definition set_acknowledged (h : RequestHolder) : RequestHolder :=
  mkHolder (mRequestId h) (mRequest h) (mHandler h) (mRetransmissionCount h)
    (mRetransmissionDelay h) (mNextTimerShot h) true.

End RequestsCache.

(** ** The cache of sent responses *)
Module ResponsesCache.

Fixpoint emplace (t : Z) (m : Message) (l : list (Z * Message)) : list (Z * Message) :=
  match l with
  | [] => [(t, m)]
  | x :: l' => if t <? x.1 then (t, m) :: l else x :: emplace t m l'
  end.

Definition Put (c : Coap) (aResponse : Message) : Coap :=
  with_responses c (emplace (clock c + 1000 * kExchangeLifetime) aResponse (mResponses c))
    (mResponsesTimer c).

Definition matches (aRequest : Message) (kv : Z * Message) : bool :=
  bool_decide (mEndpoint kv.2 = mEndpoint aRequest) && (GetMessageId kv.2 =? GetMessageId aRequest).

Definition Match (c : Coap) (aRequest : Message) : option Message :=
  match List.find (matches aRequest) (mResponses c) with Some kv => Some kv.2 | None => None end.

Definition Clear (c : Coap) : Coap := with_responses c [] None.

(** The action of [mTimer], which nothing starts. *)
Fixpoint drop_dead (now : Z) (l : list (Z * Message)) : list (Z * Message) :=
  match l with
  | [] => []
  | x :: l' => if now <? x.1 then l else drop_dead now l'
  end.
Definition Eliminate (c : Coap) : Coap :=
  with_responses c (drop_dead (clock c) (mResponses c)) (mResponsesTimer c).

End ResponsesCache.

(** ** Operations *)

Section Coap.

(** The environment: what the handlers of the user do to the object (they may
    call any operation of it), the result of the n-th [Endpoint::Send] for its data, and
    the random values drawn for the n-th request. *)
Context (run_handler : nat -> option Message -> ErrorCode -> Coap -> outcome Coap).
Context (run_resource : nat -> Message -> Coap -> outcome Coap).
Context (endpoint_send : nat -> ByteArray -> ErrorCode).
Context (random_token : nat -> ByteArray).
Context (random_u32 : nat -> Z).
(** A bound on the turns of the two loops whose length handlers can extend. *)
Context (loop_fuel : nat).

(** [++mMessageId] *)
Definition AllocMessageId (c : Coap) : Z * Coap :=
  let id := u16 (mMessageId c + 1) in (id, with_ids c id (nextRequest c) (nextSend c)).

(** [Send]: the message with its endpoint set, and the error. *)
Definition Send (c : Coap) (aMessage : Message) : outcome (Coap * Message * ErrorCode) :=
  match Serialize aMessage [] with
  | Die => Die
  | Err e => Ok (c, aMessage, e)
  | Ok data =>
      let endpoint := match mEndpoint aMessage with Some e => e | None => mEndpointId c end in
      let aMessage := SetEndpoint aMessage (Some endpoint) in
      let error := endpoint_send (nextSend c) data in
      let c := with_ids c (mMessageId c) (nextRequest c) (S (nextSend c)) in
      Ok (emit c (EvSend endpoint data (mSubType aMessage)), aMessage, error)
  end.

(** Call a response handler. *)
Definition call_handler (c : Coap) (request handler : nat) (aResponse : option Message)
    (aResult : ErrorCode) : outcome Coap :=
  run_handler handler aResponse aResult (emit c (EvResponse request handler aResponse aResult)).

(** [FinalizeTransaction] on a holder that is a copy. *)
Definition FinalizeCopy (c : Coap) (h : RequestHolder) (aResponse : option Message)
    (aResult : ErrorCode) : outcome Coap :=
  c ← match mHandler h with
      | Some handler => call_handler c (mRequestId h) handler aResponse aResult
      | None => Ok c
      end;
  RequestsCache.Eliminate c (mRequestId h).

(** [FinalizeTransaction] on a reference into the container.  If the handler
    removed the holder, the reference dangles; [Eliminate] reads it when there
    is an element to compare with. *)
Definition FinalizeRef (c : Coap) (id : nat) (aResponse : option Message) (aResult : ErrorCode)
    : outcome Coap :=
  match RequestsCache.find_holder c id with
  | None => Die
  | Some h =>
      match mHandler h with
      | None => RequestsCache.Eliminate c id
      | Some handler =>
          let c := RequestsCache.modify c id RequestsCache.clear_handler in
          c ← call_handler c id handler aResponse aResult;
          if RequestsCache.IsEmpty c then RequestsCache.Eliminate c id
          else match RequestsCache.find_holder c id with
               | Some _ => RequestsCache.Eliminate c id
               | None => Die
               end
      end
  end.

(** [CancelRequests] *)
Fixpoint CancelRequests_loop (fuel : nat) (c : Coap) : outcome Coap :=
  if RequestsCache.IsEmpty c then Ok c else
  match fuel with
  | O => Die
  | S fuel =>
      h ← RequestsCache.Front c;
      c ← FinalizeRef c (mRequestId h) None kCancelled;
      CancelRequests_loop fuel c
  end.
Definition CancelRequests (c : Coap) : outcome Coap := CancelRequests_loop loop_fuel c.

Definition ClearRequestsAndResponses (c : Coap) : outcome Coap :=
  c ← CancelRequests c; Ok (ResponsesCache.Clear c).

(** [AddResource], [RemoveResource], [SetDefaultHandler] *)
Definition AddResource (c : Coap) (aUriPath : string_t) (aHandler : option nat) : outcome Coap :=
  match mResources c !! aUriPath with
  | Some _ => Err kAlreadyExists
  | None => Ok (with_handlers c (<[aUriPath := aHandler]> (mResources c)) (mDefaultHandler c))
  end.
Definition RemoveResource (c : Coap) (aUriPath : string_t) : Coap :=
  with_handlers c (delete aUriPath (mResources c)) (mDefaultHandler c).
Definition SetDefaultHandler (c : Coap) (aHandler : option nat) : Coap :=
  with_handlers c (mResources c) aHandler.

(** [RequestHolder(const RequestPtr, ResponseHandler)] *)
Definition RequestHolder_new (c : Coap) (id : nat) (aRequest : Message) (aHandler : option nat)
    : RequestHolder :=
  let lowBound := 1000 * kAckTimeout in
  let upperBound := 1000 * kAckTimeout * kAckRandomFactorNumerator / kAckRandomFactorDenominator in
  let delay := GetUint32InRange (random_u32 id) lowBound upperBound in
  mkHolder id aRequest aHandler 0 delay (clock c + delay) false.

(** [SendRequest] up to its [exit] label: the state and the error. *)
Definition SendRequest_body (c : Coap) (id : nat) (aRequest : Message) (aHandler : option nat)
    : outcome (Coap * ErrorCode) :=
  if negb (IsConfirmable aRequest || IsNonConfirmable aRequest) then Ok (c, kInvalidArgs)
  else
    VerifyOrDie GetMessageId aRequest =? 0;;
    let '(mid, c) := AllocMessageId c in
    request ← SetTokenRandom (SetMessageId aRequest mid) kDefaultTokenLength (random_token id);
    '(c, request, error) ← Send c request;
    if bool_decide (error = kNone) then
      if IsConfirmable request then
        c ← RequestsCache.Put c (RequestHolder_new c id request aHandler); Ok (c, kNone)
      else Ok (c, kNone)
    else Ok (c, error).

Definition SendRequest (c : Coap) (aRequest : Message) (aHandler : option nat) : outcome Coap :=
  let id := nextRequest c in
  let c := with_ids c (mMessageId c) (S id) (nextSend c) in
  let mark := match aHandler with Some _ => IsConfirmable aRequest | None => false end in
  let c := if mark then emit c (EvIssue id) else c in
  '(c, error) ← SendRequest_body c id aRequest aHandler;
  match aHandler with
  | Some handler => if bool_decide (error = kNone) then Ok c else call_handler c id handler None error
  | None => Ok c
  end.

Definition SendResponse (c : Coap) (aRequest aResponse : Message) : outcome (Coap * ErrorCode) :=
  let aResponse := if GetMessageId aResponse =? 0
                   then SetMessageId aResponse (GetMessageId aRequest) else aResponse in
  let aResponse := SetTokenBytes aResponse (GetToken aRequest) in
  let aResponse := SetEndpoint aResponse (mEndpoint aRequest) in
  let c := ResponsesCache.Put c aResponse in
  '(c, _, error) ← Send c aResponse; Ok (c, error).

Definition SendHeaderResponse (c : Coap) (aCode : Z) (aRequest : Message) : outcome (Coap * ErrorCode) :=
  match GetType aRequest with
  | kConfirmable =>
      SendResponse c aRequest
        (SetMessageId (Message_new kAcknowledgment aCode) (GetMessageId aRequest))
  | kNonConfirmable =>
      let '(id, c) := AllocMessageId c in
      SendResponse c aRequest (SetMessageId (Message_new kNonConfirmable aCode) id)
  | _ => Ok (c, kInvalidArgs)
  end.

Definition SendEmptyChanged (c : Coap) (aRequest : Message) : outcome (Coap * ErrorCode) :=
  if negb (IsConfirmable aRequest) then Ok (c, kInvalidArgs)
  else SendHeaderResponse c Code.kChanged aRequest.

Definition SendNotFound (c : Coap) (aRequest : Message) : outcome (Coap * ErrorCode) :=
  SendHeaderResponse c Code.kNotFound aRequest.

Definition SendEmptyMessage (c : Coap) (aType : CoapType) (aRequest : Message)
    : outcome (Coap * ErrorCode) :=
  if negb (IsConfirmable aRequest) then Ok (c, kInvalidArgs) else
  let response := SetMessageId (Message_new aType Code.kEmpty) (GetMessageId aRequest) in
  let response := SetEndpoint response (mEndpoint aRequest) in
  '(c, _, error) ← Send c response; Ok (c, error).

Definition SendReset (c : Coap) (aRequest : Message) := SendEmptyMessage c kReset aRequest.
Definition SendAck (c : Coap) (aRequest : Message) := SendEmptyMessage c kAcknowledgment aRequest.

(** Call a request handler, which may be null. *)
Definition call_resource (c : Coap) (handler : option nat) (aRequest : Message) : outcome Coap :=
  match handler with
  | Some h => run_resource h aRequest (emit c (EvRequest h aRequest))
  | None => Ok c
  end.

Definition HandleRequest (c : Coap) (aRequest : Message) : outcome Coap :=
  match GetUriPath aRequest with
  | Die => Die
  | Err _ => Ok c
  | Ok uriPath =>
      match ResponsesCache.Match c aRequest with
      | Some response => '(c, _, _) ← Send c response; Ok c
      | None =>
          match mResources c !! uriPath with
          | Some handler => call_resource c handler aRequest
          | None =>
              match mDefaultHandler c with
              | Some h => call_resource c (Some h) aRequest
              | None => '(c, _) ← SendNotFound c aRequest; Ok c
              end
          end
      end
  end.

Definition unknown_uri : string_t := str "UNKNOWN_URI".

Definition HandleResponse (c : Coap) (aResponse : Message) : outcome Coap :=
  match RequestsCache.Match c aResponse with
  | None =>
      if IsConfirmable aResponse || IsNonConfirmable aResponse then
        '(c, _) ← SendReset c aResponse; Ok c
      else Ok c
  | Some requestHolder =>
      let id := mRequestId requestHolder in
      let requestUri := match GetUriPath (mRequest requestHolder) with
                        | Ok uri => uri | _ => unknown_uri end in
      aResponse ← (if IsResponse aResponse then SetRequestUri aResponse requestUri else Ok aResponse);
      match GetType aResponse with
      | kReset =>
          if IsEmpty aResponse then FinalizeRef c id None kAborted else Ok c
      | kAcknowledgment =>
          if IsEmpty aResponse then
            let c := if IsConfirmable (mRequest requestHolder)
                     then RequestsCache.modify c id RequestsCache.set_acknowledged else c in
            match mHandler requestHolder with
            | None => RequestsCache.Eliminate c id
            | Some _ => Ok c
            end
          else if IsResponse aResponse && IsTokenEqual aResponse (mRequest requestHolder) then
            FinalizeRef c id (Some aResponse) kNone
          else Ok c
      | kConfirmable =>
          '(c, _) ← SendAck c aResponse;
          FinalizeRef c id (Some aResponse) kNone
      | kNonConfirmable => FinalizeRef c id (Some aResponse) kNone
      end
  end.

(** [Receive] and [ReceiveMessage] *)
Definition Receive (c : Coap) (aEndpoint : nat) (aBuf : ByteArray) : outcome Coap :=
  match Message.Deserialize aBuf with
  | Die => Die
  | Err _ => Ok c
  | Ok message =>
      let message := SetEndpoint message (Some aEndpoint) in
      if IsRequest message then HandleRequest c message else HandleResponse c message
  end.

(** The next attempt of a holder. *)
Definition next_attempt (now : Z) (h : RequestHolder) : RequestHolder :=
  let delay := mRetransmissionDelay h * 2 in
  mkHolder (mRequestId h) (mRequest h) (mHandler h) (mRetransmissionCount h + 1) delay (now + delay)
    (mAcknowledged h).

(** The body of the loop of [Retransmit], on the holder removed from the front. *)
Definition Retransmit_one (c : Coap) (now : Z) (requestHolder : RequestHolder) : outcome Coap :=
  if IsConfirmable (mRequest requestHolder)
     && (mRetransmissionCount requestHolder <? kMaxRetransmit) then
    let requestHolder := next_attempt now requestHolder in
    c ← RequestsCache.Put c requestHolder;
    if negb (mAcknowledged requestHolder) then
      '(c, _, error) ← Send c (mRequest requestHolder);
      if bool_decide (error = kNone) then Ok c
      else FinalizeCopy (emit c (EvRefused (mRequestId requestHolder) error)) requestHolder None error
    else Ok c
  else FinalizeCopy c requestHolder None kTimeout.

Fixpoint Retransmit_loop (fuel : nat) (c : Coap) (now : Z) : outcome Coap :=
  if RequestsCache.IsEmpty c then Ok c else
  e ← RequestsCache.Earliest c;
  if negb (e <? now) then Ok c else
  match fuel with
  | O => Die
  | S fuel =>
      '(h, c) ← RequestsCache.EliminateFront c;
      c ← Retransmit_one c now h;
      Retransmit_loop fuel c now
  end.

Definition Retransmit (c : Coap) : outcome Coap :=
  c ← Retransmit_loop loop_fuel c (clock c);
  RequestsCache.UpdateTimer c.

(** [Timer::HandleEvent] of the retransmission timer: the timer is single-shot. *)
Definition HandleTimer (c : Coap) : outcome Coap :=
  match mRetransmissionTimer c with
  | None => Ok c
  | Some _ => Retransmit (with_requests c (mRequests c) None)
  end.

End Coap.
