(* ===== verification/CoapInvariant.v ===== *)
(** * Invariants of the CoAP client and server

    The handlers of the user may call back into the object.  [HandlersPreserve]
    is the interface the operations of [Coap] need from them; [CoapScript]
    shows that every handler that is a finite sequence of operations meets it. *)

From S2P Require Import Prelude Outcome CoapMessage Coap.
Import Message.
From Stdlib Require Import Sorted Permutation.

(** ** The invariant *)

Definition shot_le (a b : RequestHolder) : Prop := mNextTimerShot a <= mNextTimerShot b.

(** A holder in the container: a confirmable request on its way, with a delay
    that is the initial one doubled at each retransmission. *)
Definition holder_ok (next : nat) (h : RequestHolder) : Prop :=
  (mRequestId h < next)%nat /\ IsConfirmable (mRequest h) = true /\ mEndpoint (mRequest h) <> None /\
  0 <= mRetransmissionCount h <= kMaxRetransmit /\
  (exists data, Serialize (mRequest h) [] = Ok data) /\
  exists base, 2000 <= base < 3000 /\ mRetransmissionDelay h = base * 2 ^ mRetransmissionCount h.

(** The timer runs exactly when requests are pending, and is not late. *)
Definition timer_ok (c : Coap) : Prop :=
  match mRequests c with
  | [] => mRetransmissionTimer c = None
  | h :: _ => exists t, mRetransmissionTimer c = Some t /\ t <= mNextTimerShot h
  end.

(** The calls a request has received, and whether its handler is still armed. *)
Definition is_call (id : nat) (e : CoapEvent) : bool :=
  match e with EvResponse r _ _ _ => Nat.eqb r id | _ => false end.
Definition calls (id : nat) (tr : list CoapEvent) : nat := length (List.filter (is_call id) tr).
Definition armed (id : nat) (h : RequestHolder) : bool :=
  Nat.eqb (mRequestId h) id && match mHandler h with Some _ => true | None => false end.
Definition pending (id : nat) (l : list RequestHolder) : nat := length (List.filter (armed id) l).
Definition issued (id : nat) (tr : list CoapEvent) : bool :=
  existsb (fun e => match e with EvIssue r => Nat.eqb r id | _ => false end) tr.

(** The account of one request: issued with a handler, the handler has been
    called or is armed, never both; otherwise at most one call reports the
    failure to send. *)
Definition account_of (id : nat) (l : list RequestHolder) (tr : list CoapEvent) : Prop :=
  if issued id tr then (calls id tr + pending id l = 1)%nat
  else (calls id tr <= 1)%nat /\ pending id l = 0%nat.

(** Every retransmission of the request could be sent. *)
Definition clean (id : nat) (tr : list CoapEvent) : Prop := forall e, EvRefused id e ∉ tr.

(** The account is kept as long as that is so. *)
Definition kept (id : nat) (l : list RequestHolder) (tr : list CoapEvent) : Prop :=
  clean id tr -> account_of id l tr.

Definition fresh_ok (next : nat) (tr : list CoapEvent) : Prop :=
  forall id, (next <= id)%nat -> issued id tr = false /\ calls id tr = 0%nat.

(** The container without the timer, and the whole invariant. *)
Definition container_ok (c : Coap) : Prop :=
  NoDup (map mRequestId (mRequests c)) /\ StronglySorted shot_le (mRequests c) /\
  Forall (holder_ok (nextRequest c)) (mRequests c) /\ fresh_ok (nextRequest c) (trace c) /\
  mResponsesTimer c = None.

(** [strict] tells whether the accounts are part of the invariant. *)
Definition Inv (strict : Prop) (c : Coap) : Prop :=
  container_ok c /\ timer_ok c /\ (strict -> forall id, kept id (mRequests c) (trace c)).

(** What an operation may do to the counters and the trace. *)
Definition extends (c c' : Coap) : Prop :=
  (nextRequest c <= nextRequest c')%nat /\ exists l, trace c' = l ++ trace c.

Definition preserves (strict : Prop) (f : Coap -> outcome Coap) : Prop :=
  forall c c', Inv strict c -> f c = Ok c' -> Inv strict c' /\ extends c c'.

(** ** The interface of handlers *)

Class HandlersPreserve (strict : Prop)
    (run_handler : nat -> option Message -> ErrorCode -> Coap -> outcome Coap)
    (run_resource : nat -> Message -> Coap -> outcome Coap) : Prop := {
  response_preserves h r e : preserves strict (run_handler h r e);
  resource_preserves h m : preserves strict (run_resource h m) }.

(** ** Lemmas on the pieces *)

#[export] Instance extends_preorder : PreOrder extends.
Proof.
  split.
  - intros c. split; [lia|by exists []].
  - intros a b d (H1 & l1 & E1) (H2 & l2 & E2). split; [lia|].
    exists (l2 ++ l1). by rewrite E2, E1, app_assoc.
Qed.

Lemma calls_app id l tr : calls id (l ++ tr) = (calls id l + calls id tr)%nat.
Proof. unfold calls. by rewrite List.filter_app, length_app. Qed.

Lemma pending_perm id l l' : Permutation l l' -> pending id l = pending id l'.
Proof.
  unfold pending. induction 1; simpl; try congruence.
  - destruct (armed id x); simpl; congruence.
  - destruct (armed id x), (armed id y); simpl; congruence.
Qed.

Lemma pending_cons id h l : pending id (h :: l) = ((if armed id h then 1 else 0) + pending id l)%nat.
Proof. unfold pending. simpl. by destruct (armed id h). Qed.

Lemma armed_id id h : armed id h = true -> mRequestId h = id.
Proof. unfold armed. intros H. bool_to_prop. by apply Nat.eqb_eq. Qed.

Lemma pending_not_in id l : id ∉ map mRequestId l -> pending id l = 0%nat.
Proof.
  induction l as [|h l IH]; intros H; [done|]. rewrite pending_cons.
  apply not_elem_of_cons in H as [H1 H2]. rewrite IH by done.
  destruct (armed id h) eqn:E; [|done]. apply armed_id in E. congruence.
Qed.

(** *** The multiset *)

Lemma emplace_perm h l : Permutation (RequestsCache.emplace h l) (h :: l).
Proof.
  induction l as [|x l IH]; simpl; [done|]. case_if; [done|].
  rewrite IH. apply perm_swap.
Qed.

Lemma emplace_sorted h l : StronglySorted shot_le l -> StronglySorted shot_le (RequestsCache.emplace h l).
Proof.
  induction 1 as [|x l Hs IH Hx]; simpl; [by repeat constructor|].
  case_if; bool_to_prop.
  - constructor; [by constructor|]. constructor; [unfold shot_le; lia|].
    eapply Forall_impl; [exact Hx|]. unfold shot_le. intros; lia.
  - constructor; [done|]. rewrite emplace_perm. constructor; [unfold shot_le; lia|done].
Qed.

Lemma erase_sublist id l : RequestsCache.erase id l `sublist_of` l.
Proof. induction l as [|x l IH]; simpl; [done|]. case_if; [by apply sublist_cons|by apply sublist_skip]. Qed.

Lemma sublist_Forall {A} (P : A -> Prop) l k : l `sublist_of` k -> Forall P k -> Forall P l.
Proof. induction 1; intros HF; [done|inversion HF; subst; constructor; auto|inversion HF; subst; auto]. Qed.

Lemma sublist_sorted l k : l `sublist_of` k -> StronglySorted shot_le k -> StronglySorted shot_le l.
Proof.
  induction 1; intros HS; [done| |]; inversion HS; subst; auto.
  constructor; [auto|]. by eapply sublist_Forall.
Qed.

Lemma sublist_map {A B} (f : A -> B) l k : l `sublist_of` k -> map f l `sublist_of` map f k.
Proof. induction 1; simpl; by constructor. Qed.

Lemma erase_not_in id l : id ∉ map mRequestId l -> RequestsCache.erase id l = l.
Proof.
  induction l as [|x l IH]; intros H; [done|]. apply not_elem_of_cons in H as [H1 H2]. simpl.
  rewrite (proj2 (Nat.eqb_neq _ _)) by congruence. by rewrite IH.
Qed.

(** Erasing the only holder of a request. *)
Lemma erase_perm h l :
  NoDup (map mRequestId l) -> h ∈ l -> Permutation l (h :: RequestsCache.erase (mRequestId h) l).
Proof.
  induction l as [|x l IH]; intros Hnd Hin; [by apply elem_of_nil in Hin|].
  apply NoDup_cons in Hnd as [Hx Hnd]. simpl.
  apply elem_of_cons in Hin as [->|Hin]; [by rewrite Nat.eqb_refl|].
  rewrite (proj2 (Nat.eqb_neq _ _)).
  - rewrite (IH Hnd Hin) at 1. apply perm_swap.
  - intros E. apply Hx. rewrite E. apply (list_elem_of_fmap_2 mRequestId _ _ Hin).
Qed.

Lemma erase_removes id l : NoDup (map mRequestId l) -> id ∉ map mRequestId (RequestsCache.erase id l).
Proof.
  induction l as [|x l IH]; intros Hnd; simpl; [by apply not_elem_of_nil|].
  apply NoDup_cons in Hnd as [Hx Hnd]. destruct (Nat.eqb_spec (mRequestId x) id) as [<-|Hne]; [done|].
  simpl. apply not_elem_of_cons; split; [congruence|auto].
Qed.

Lemma find_holder_in c id h :
  RequestsCache.find_holder c id = Some h -> h ∈ mRequests c /\ mRequestId h = id.
Proof.
  intros H. apply find_some in H as [H1 H2]. split; [by apply list_elem_of_In|by apply Nat.eqb_eq].
Qed.

(** [UpdateTimer] always succeeds and establishes [timer_ok]. *)
Lemma UpdateTimer_spec c :
  exists t, RequestsCache.UpdateTimer c = Ok (with_requests c (mRequests c) t) /\
            timer_ok (with_requests c (mRequests c) t).
Proof.
  unfold RequestsCache.UpdateTimer, RequestsCache.IsEmpty, RequestsCache.Earliest,
    RequestsCache.Front, timer_ok.
  destruct (mRequests c) as [|h l] eqn:El; cbn [mbind outcome_bind].
  - by exists None.
  - destruct (mRetransmissionTimer c) as [t|] eqn:Et.
    + destruct (Z.ltb_spec (mNextTimerShot h) t).
      * eexists; split; [done|]. simpl. eauto with lia.
      * exists (Some t). split; [destruct c; simpl in *; by subst|]. simpl. eauto with lia.
    + eexists; split; [done|]. simpl. eauto with lia.
Qed.

(** *** Steps that do not touch requests *)

Definition quiet_event (e : CoapEvent) : bool :=
  match e with EvSend _ _ _ | EvRequest _ _ => true | _ => false end.

Definition quiet (c c' : Coap) : Prop :=
  mRequests c' = mRequests c /\ mRetransmissionTimer c' = mRetransmissionTimer c /\
  nextRequest c' = nextRequest c /\ mResponsesTimer c' = mResponsesTimer c /\
  exists l, trace c' = l ++ trace c /\ Forall (fun e => quiet_event e = true) l.

#[export] Instance quiet_preorder : PreOrder quiet.
Proof.
  split.
  - intros c. split_and!; [done..|]. by exists [].
  - intros a b d (A1 & A2 & A3 & A4 & l1 & A5 & A6) (B1 & B2 & B3 & B4 & l2 & B5 & B6).
    split_and!; [congruence..|]. exists (l2 ++ l1). split; [by rewrite B5, A5, app_assoc|].
    by apply Forall_app.
Qed.

Lemma quiet_counts id l tr :
  Forall (fun e => quiet_event e = true) l ->
  calls id (l ++ tr) = calls id tr /\ issued id (l ++ tr) = issued id tr.
Proof.
  induction 1 as [|e l He _ [IH1 IH2]]; [done|]. unfold calls, issued in *. simpl.
  by destruct e; simpl in *; try discriminate.
Qed.

Lemma not_refused id tr :
  existsb (fun e => match e with EvRefused r _ => Nat.eqb r id | _ => false end) tr = false -> clean id tr.
Proof.
  intros H e Hin. assert (existsb (fun e => match e with EvRefused r _ => Nat.eqb r id | _ => false end) tr = true).
  { apply existsb_exists. exists (EvRefused id e). split; [by apply list_elem_of_In|apply Nat.eqb_refl]. }
  congruence.
Qed.

Lemma clean_app id l tr : clean id (l ++ tr) -> clean id tr.
Proof. intros H e Hin. apply (H e), elem_of_app. by right. Qed.

Lemma clean_cons id e tr : clean id (e :: tr) -> clean id tr.
Proof. apply (clean_app id [e]). Qed.

Lemma quiet_Inv strict c c' : quiet c c' -> Inv strict c -> Inv strict c' /\ extends c c'.
Proof.
  intros (E1 & E2 & E3 & E4 & l & E5 & E6) ((H1 & H2 & H3 & H4 & H5) & H6 & H7). split; [split_and!|].
  - unfold container_ok, fresh_ok. rewrite E1, E3, E4, E5. split_and!; [done..| |done].
    intros id Hid. destruct (quiet_counts id l (trace c) E6) as [-> ->]. by apply H4.
  - unfold timer_ok. by rewrite E1, E2.
  - intros Hs id Hcl. unfold account_of. rewrite E5 in Hcl. rewrite E1, E5.
    destruct (quiet_counts id l (trace c) E6) as [-> ->]. apply clean_app in Hcl. by apply H7.
  - split; [lia|by exists l].
Qed.

Lemma emit_quiet c e : quiet_event e = true -> quiet c (emit c e).
Proof. intros H. split_and!; [done..|]. exists [e]. split; [done|]. by constructor. Qed.

Lemma with_ids_quiet c id snd : quiet c (with_ids c id (nextRequest c) snd).
Proof. split_and!; [done..|]. by exists []. Qed.

Lemma Put_response_quiet c m : quiet c (ResponsesCache.Put c m).
Proof. split_and!; [done..|]. by exists []. Qed.

(** *** Steps on the container *)

Lemma Put_spec c h :
  container_ok c -> holder_ok (nextRequest c) h -> mRequestId h ∉ map mRequestId (mRequests c) ->
  exists c', RequestsCache.Put c h = Ok c' /\ container_ok c' /\ timer_ok c' /\
    Permutation (mRequests c') (h :: mRequests c) /\ trace c' = trace c /\ nextRequest c' = nextRequest c.
Proof.
  intros (H1 & H2 & H3 & H4 & H5) Hh Hn. unfold RequestsCache.Put.
  destruct (UpdateTimer_spec (with_requests c (RequestsCache.emplace h (mRequests c))
                                (mRetransmissionTimer c))) as (t & -> & Ht).
  eexists; split; [done|]. unfold container_ok. split_and!; simpl in *.
  - rewrite emplace_perm. simpl. by constructor.
  - by apply emplace_sorted.
  - rewrite emplace_perm. by constructor.
  - done.
  - done.
  - done.
  - apply emplace_perm.
  - done.
  - done.
Qed.

Lemma Eliminate_spec c id :
  container_ok c ->
  exists c', RequestsCache.Eliminate c id = Ok c' /\ container_ok c' /\ timer_ok c' /\
    mRequests c' = RequestsCache.erase id (mRequests c) /\ trace c' = trace c /\
    nextRequest c' = nextRequest c.
Proof.
  intros (H1 & H2 & H3 & H4 & H5). unfold RequestsCache.Eliminate.
  destruct (UpdateTimer_spec (with_requests c (RequestsCache.erase id (mRequests c))
                                (mRetransmissionTimer c))) as (t & -> & Ht).
  pose proof (erase_sublist id (mRequests c)) as Hsub.
  eexists; split; [done|]. unfold container_ok. split_and!; simpl in *; try done.
  - eapply sublist_NoDup; [exact H1|by apply sublist_map].
  - by eapply sublist_sorted.
  - by eapply sublist_Forall.
Qed.

Lemma pending_erase id id' l :
  id' <> id -> pending id' (RequestsCache.erase id l) = pending id' l.
Proof.
  intros Hne. induction l as [|x l IH]; [done|]. cbn [RequestsCache.erase]. rewrite pending_cons.
  destruct (Nat.eqb_spec (mRequestId x) id) as [<-|Hx].
  - destruct (armed id' x) eqn:E; [|done]. apply armed_id in E. congruence.
  - by rewrite pending_cons, IH.
Qed.

Lemma pending_erase_self id l :
  NoDup (map mRequestId l) -> pending id (RequestsCache.erase id l) = 0%nat.
Proof. intros. apply pending_not_in. by apply erase_removes. Qed.

(** Removing a request whose handler is not armed. *)
Lemma Eliminate_Inv strict c id :
  Inv strict c -> (strict -> clean id (trace c) -> pending id (mRequests c) = 0%nat) ->
  exists c', RequestsCache.Eliminate c id = Ok c' /\ Inv strict c' /\ extends c c'.
Proof.
  intros (Hc & _ & Ha) Hp. destruct (Eliminate_spec c id Hc) as (c' & E & Hc' & Ht & El & Etr & En).
  exists c'. split; [done|]. split; [split_and!; [done..|]|].
  - intros Hs id' Hcl. rewrite Etr in Hcl. specialize (Ha Hs id' Hcl). unfold account_of in *. rewrite Etr, El.
    destruct (decide (id' = id)) as [->|Hne]; [|by rewrite pending_erase].
    rewrite pending_erase_self by apply Hc. by rewrite (Hp Hs Hcl) in Ha.
  - split; [lia|]. exists []. by rewrite Etr.
Qed.

(** *** The operations preserve the invariant *)

Section Operations.
Context (strict : Prop).
Context (run_handler : nat -> option Message -> ErrorCode -> Coap -> outcome Coap).
Context (run_resource : nat -> Message -> Coap -> outcome Coap).
Context (endpoint_send : nat -> ByteArray -> ErrorCode).
Context (random_token : nat -> ByteArray).
Context (random_u32 : nat -> Z).
Context (loop_fuel : nat).
Context {HP : HandlersPreserve strict run_handler run_resource}.

Abbreviation Inv_ := (Inv strict).

Lemma Send_quiet c m c' m' e : Send endpoint_send c m = Ok (c', m', e) -> quiet c c'.
Proof using Type.
  unfold Send. destruct (Serialize m []); intros H; simplify_eq; [|done].
  etransitivity; [apply (with_ids_quiet c (Coap.mMessageId c) (S (nextSend c)))|by apply emit_quiet].
Qed.

(** Serialization fails in one way. *)
Lemma SerializeOption_err n v l b : only_err kInvalidArgs (SerializeOption n v l b).
Proof using Type.
  unfold SerializeOption. repeat case_if; auto with ot.
  all: apply only_err_bind; [repeat case_if; eauto 8 with ot|intros [? ?]].
  all: apply only_err_bind; [apply only_err_bind; [auto with ot|intros; repeat case_if; eauto 8 with ot]|].
  all: intros [? ?]; case_if; auto with ot.
Qed.

Lemma SerializeOptions_err o l b : only_err kInvalidArgs (SerializeOptions o l b).
Proof using Type.
  rewrite MessageFacts.SerializeOptions_wire. generalize (MessageFacts.flatten o) as ws.
  intros ws; revert l b; induction ws as [|[n v] ws IH]; intros l b; [done|].
  apply only_err_bind; [apply SerializeOption_err|intros; apply IH].
Qed.

Lemma Serialize_err m : only_err kInvalidArgs (Serialize m []).
Proof using Type.
  apply only_err_bind; [unfold SerializeHeader; case_if; auto with ot|intros].
  apply only_err_bind; [apply SerializeOptions_err|done].
Qed.

(** A message that was sent has an endpoint and is otherwise the same. *)
Lemma Send_message c m c' m' :
  Send endpoint_send c m = Ok (c', m', kNone) ->
  (exists e, m' = SetEndpoint m (Some e)) /\ exists data, Serialize m [] = Ok data.
Proof using Type.
  unfold Send. pose proof (Serialize_err m) as HE. destruct (Serialize m []) as [d|e|]; intros H; simplify_eq.
  - split; eauto.
  - specialize (HE _ eq_refl). congruence.
Qed.

(** *** Calls of response handlers *)

Lemma calls_cons_same id h r e tr : calls id (EvResponse id h r e :: tr) = S (calls id tr).
Proof using Type. unfold calls. simpl. by rewrite Nat.eqb_refl. Qed.
Lemma calls_cons_other id id' h r e tr :
  id <> id' -> calls id' (EvResponse id h r e :: tr) = calls id' tr.
Proof using Type. intros. unfold calls. simpl. by rewrite (proj2 (Nat.eqb_neq _ _)). Qed.

(** A call is accounted for when the handler is taken from the holder first:
    the state in which the handler runs satisfies the invariant. *)
Lemma emit_call_Inv c id h r e :
  container_ok c -> timer_ok c -> (id < nextRequest c)%nat ->
  (strict -> forall id', id' <> id -> kept id' (mRequests c) (trace c)) ->
  (strict -> clean id (trace c) -> calls id (trace c) = 0%nat /\ pending id (mRequests c) = 0%nat) ->
  Inv_ (emit c (EvResponse id h r e)).
Proof using Type.
  intros (H1 & H2 & H3 & H4 & H5) Ht Hid Ho Hs. split; [|split; [done|]].
  - unfold container_ok. split_and!; [done..| |done]. intros id' Hid'. destruct (H4 id' Hid') as [Hi Hc].
    simpl. rewrite calls_cons_other by (simpl in Hid'; lia). split; [exact Hi|done].
  - intros Hst id' Hcl%clean_cons. destruct (decide (id' = id)) as [->|Hne].
    + destruct (Hs Hst Hcl) as [Hc Hp]. unfold account_of. simpl trace. simpl mRequests.
      rewrite calls_cons_same, Hc, Hp. case_if; lia.
    + specialize (Ho Hst id' Hne Hcl). unfold account_of in *. simpl. rewrite calls_cons_other by done.
      exact Ho.
Qed.

(** After the handler ran, its request is not armed. *)
Lemma called_not_pending c1 c2 id h r e :
  Inv_ c2 -> extends (emit c1 (EvResponse id h r e)) c2 ->
  strict -> clean id (trace c2) -> pending id (mRequests c2) = 0%nat.
Proof using Type.
  intros (_ & _ & Ha) (_ & l & El) Hs Hcl. specialize (Ha Hs id Hcl). simpl in El.
  assert (1 <= calls id (trace c2))%nat.
  { rewrite El, calls_app, calls_cons_same. lia. }
  unfold account_of in Ha. case_if; lia.
Qed.

Lemma modify_ids c id f :
  (forall h, mRequestId (f h) = mRequestId h) ->
  map mRequestId (mRequests (RequestsCache.modify c id f)) = map mRequestId (mRequests c).
Proof using Type.
  intros Hf. simpl. rewrite map_map. apply map_ext. intros h. case_if; auto.
Qed.

(** Writing the mutable members keeps the container in order. *)
Lemma modify_container c id f :
  (forall h, mRequestId (f h) = mRequestId h) -> (forall h, mNextTimerShot (f h) = mNextTimerShot h) ->
  (forall n h, holder_ok n h -> holder_ok n (f h)) ->
  container_ok c -> timer_ok c ->
  container_ok (RequestsCache.modify c id f) /\ timer_ok (RequestsCache.modify c id f).
Proof using Type.
  intros Hid Hshot Hok (H1 & H2 & H3 & H4 & H5) Ht. split; [unfold container_ok; split_and!|].
  - by rewrite modify_ids.
  - simpl. clear -H2 Hshot. induction H2 as [|x l Hs IH Hx]; simpl; [constructor|].
    constructor; [done|]. apply (Forall_fmap _ (shot_le _)). eapply Forall_impl; [exact Hx|].
    intros y Hy. unfold shot_le in *. simpl. repeat case_if; rewrite ?Hshot; done.
  - simpl. apply (Forall_fmap _ (holder_ok _)). eapply Forall_impl; [exact H3|].
    intros y Hy. simpl. case_if; auto.
  - done.
  - done.
  - unfold timer_ok in *. simpl. destruct (mRequests c) as [|x l]; simpl; [done|].
    destruct Ht as (t & E & Hle). exists t. split; [done|]. case_if; rewrite ?Hshot; done.
Qed.

Lemma pending_clear id id' l :
  NoDup (map mRequestId l) ->
  pending id' (map (fun h => if Nat.eqb (mRequestId h) id then RequestsCache.clear_handler h else h) l)
  = if decide (id' = id) then 0%nat else pending id' l.
Proof using Type.
  intros _. induction l as [|x l IH]; [by case_decide|]. cbn [map]. rewrite !pending_cons, IH.
  destruct (Nat.eqb_spec (mRequestId x) id) as [<-|Hx].
  - assert (E : armed id' (RequestsCache.clear_handler x) = false).
    { unfold armed. simpl. by rewrite andb_false_r. }
    rewrite E. case_decide as Hd; [done|]. destruct (armed id' x) eqn:Ea; [|done].
    apply armed_id in Ea. congruence.
  - case_decide as Hd; [|done]. subst. destruct (armed id x) eqn:Ea; [|done].
    apply armed_id in Ea. congruence.
Qed.

(** An armed holder means that its request was issued and not called. *)
Lemma armed_account c h hd :
  Inv_ c -> h ∈ mRequests c -> mHandler h = Some hd -> strict -> clean (mRequestId h) (trace c) ->
  issued (mRequestId h) (trace c) = true /\ calls (mRequestId h) (trace c) = 0%nat.
Proof using Type.
  intros ((H1 & _) & _ & Ha) Hin Hh Hs Hcl. specialize (Ha Hs (mRequestId h) Hcl).
  assert (1 <= pending (mRequestId h) (mRequests c))%nat.
  { rewrite (pending_perm _ _ _ (erase_perm h _ H1 Hin)), pending_cons.
    unfold armed. rewrite Nat.eqb_refl, Hh. simpl. lia. }
  unfold account_of in Ha. case_if; [split; [done|lia]|lia].
Qed.

Lemma FinalizeRef_preserves id r e :
  preserves strict (fun c => FinalizeRef run_handler c id r e).
Proof using HP.
  intros c c' HI H. unfold FinalizeRef in H.
  destruct (RequestsCache.find_holder c id) as [h|] eqn:Ef; [|done].
  apply find_holder_in in Ef as [Hin Hid].
  destruct (mHandler h) as [hd|] eqn:Eh.
  - set (c0 := RequestsCache.modify c id RequestsCache.clear_handler) in *.
    pose proof HI as (Hc & Ht & Ha). pose proof Hc as (Hnd & _ & Hok & _).
    destruct (modify_container c id RequestsCache.clear_handler) as [Hc0 Ht0]; [done..|].
    assert (Hlt : (id < nextRequest c0)%nat).
    { rewrite <- Hid. rewrite Forall_forall in Hok. by destruct (Hok h Hin). }
    assert (HI0 : Inv_ (emit c0 (EvResponse id hd r e))).
    { apply emit_call_Inv; [done..| |].
      - intros Hs id' Hne Hcl. specialize (Ha Hs id' Hcl). unfold account_of in *. unfold c0. simpl.
        rewrite pending_clear, decide_False by done. done.
      - intros Hs Hcl. rewrite <- Hid in Hcl.
        destruct (armed_account c h hd HI Hin Eh Hs Hcl) as [_ Hcalls]. rewrite Hid in Hcalls.
        split; [done|]. unfold c0. simpl. by rewrite pending_clear, decide_True. }
    apply bind_ok in H as (c2 & Hrun & H).
    destruct (response_preserves hd r e _ _ HI0 Hrun) as [HI2 Hext].
    assert (Hcc : extends c c2).
    { etransitivity; [|exact Hext]. split; [simpl; lia|]. by exists [EvResponse id hd r e]. }
    destruct (Eliminate_Inv strict c2 id HI2) as (c3 & E3 & HI3 & Hext3).
    { by eapply called_not_pending. }
    assert (Hc3 : RequestsCache.Eliminate c2 id = Ok c').
    { destruct (RequestsCache.IsEmpty c2); [done|]. by destruct (RequestsCache.find_holder c2 id). }
    rewrite E3 in Hc3. injection Hc3 as <-. split; [done|]. by etransitivity.
  - destruct (Eliminate_Inv strict c id HI) as (c3 & E3 & HI3 & Hext3).
    { intros Hs _. pose proof HI as ((Hnd & _) & _). rewrite (pending_perm _ _ _ (erase_perm h _ Hnd Hin)).
      rewrite pending_cons, Hid, pending_erase_self by done. unfold armed. by rewrite Eh, andb_false_r. }
    rewrite E3 in H. by injection H as <-.
Qed.

Lemma CancelRequests_preserves fuel : preserves strict (CancelRequests_loop run_handler fuel).
Proof using HP.
  induction fuel as [|fuel IH]; intros c c' HI H; cbn [CancelRequests_loop] in H;
    (case_if; [by injection H as <-|]); [done|].
  apply bind_ok in H as (h & _ & H). apply bind_ok in H as (c1 & H1 & H).
  destruct (FinalizeRef_preserves _ _ _ _ _ HI H1) as [HI1 He1].
  destruct (IH _ _ HI1 H) as [HI2 He2]. split; [done|]. by etransitivity.
Qed.

(** *** Responses *)

Lemma Alloc_quiet c id c' : AllocMessageId c = (id, c') -> quiet c c'.
Proof using Type. unfold AllocMessageId. intros [= _ <-]. apply with_ids_quiet. Qed.

Lemma SendResponse_quiet c rq rs c' e : SendResponse endpoint_send c rq rs = Ok (c', e) -> quiet c c'.
Proof using Type.
  unfold SendResponse. intros H. apply bind_ok in H as ([[c1 m1] e1] & H1 & H). simplify_eq.
  etransitivity; [|by eapply Send_quiet]. apply Put_response_quiet.
Qed.

Lemma SendHeaderResponse_quiet c code rq c' e :
  SendHeaderResponse endpoint_send c code rq = Ok (c', e) -> quiet c c'.
Proof using Type.
  unfold SendHeaderResponse. destruct (GetType rq).
  - apply SendResponse_quiet.
  - destruct (AllocMessageId c) as [id c1] eqn:Ea. intros H.
    etransitivity; [by eapply Alloc_quiet|by eapply SendResponse_quiet].
  - by intros [= <- _].
  - by intros [= <- _].
Qed.

Lemma SendEmptyChanged_quiet c rq c' e : SendEmptyChanged endpoint_send c rq = Ok (c', e) -> quiet c c'.
Proof using Type.
  unfold SendEmptyChanged. case_if; [by intros [= <- _]|]. apply SendHeaderResponse_quiet.
Qed.

Lemma SendEmptyMessage_quiet c t rq c' e : SendEmptyMessage endpoint_send c t rq = Ok (c', e) -> quiet c c'.
Proof using Type.
  unfold SendEmptyMessage. case_if; [by intros [= <- _]|]. intros H.
  apply bind_ok in H as ([[c1 m1] e1] & H1 & H). simplify_eq. by eapply Send_quiet.
Qed.

(** *** Requests *)

Lemma SetEndpoint_confirmable m e : IsConfirmable (SetEndpoint m e) = IsConfirmable m.
Proof using Type. done. Qed.

Lemma initial_delay id :
  2000 <= GetUint32InRange (random_u32 id) 2000 3000 < 3000.
Proof using Type.
  unfold GetUint32InRange. pose proof (Z.mod_pos_bound (random_u32 id) (3000 - 2000)).
  unfold u32. rewrite Z.mod_small; lia.
Qed.

Lemma RequestHolder_new_ok c id m e h n :
  (id < n)%nat -> IsConfirmable m = true -> (exists data, Serialize m [] = Ok data) ->
  holder_ok n (RequestHolder_new random_u32 c id (SetEndpoint m (Some e)) h).
Proof using Type.
  intros Hid Hm [d Hd]. unfold holder_ok, RequestHolder_new. simpl.
  change (1000 * kAckTimeout) with 2000.
  change (2000 * kAckRandomFactorNumerator / kAckRandomFactorDenominator) with 3000.
  split_and!; [done|done|done|done|done|by exists d|]. exists (GetUint32InRange (random_u32 id) 2000 3000).
  split; [apply initial_delay|]. lia.
Qed.

(** A request that is not in the container and not on record. *)
Definition new_request (c : Coap) (id : nat) : Prop :=
  (id ∉ map mRequestId (mRequests c)) /\ issued id (trace c) = false /\ calls id (trace c) = 0%nat.

Lemma Inv_new_request c : Inv_ c -> new_request c (nextRequest c).
Proof using Type.
  intros ((H1 & _ & H3 & H4 & _) & _). destruct (H4 (nextRequest c)) as [Hi Hc]; [lia|].
  split_and!; [|done..]. intros Hin. apply list_elem_of_fmap in Hin as (h & E & Hin).
  rewrite Forall_forall in H3. destruct (H3 h Hin). lia.
Qed.

(** The state after the address of the request was taken and, for a confirmable
    request with a handler, the issue recorded; nothing is owed for the others. *)
Definition issuing (c : Coap) (id : nat) (mark : bool) : Prop :=
  container_ok c /\ timer_ok c /\ (id < nextRequest c)%nat /\ (id ∉ map mRequestId (mRequests c)) /\
  calls id (trace c) = 0%nat /\ issued id (trace c) = mark /\
  (strict -> forall id', id' <> id -> kept id' (mRequests c) (trace c)).

Lemma issuing_start c (mark : bool) :
  Inv_ c ->
  let c1 := with_ids c (Coap.mMessageId c) (S (nextRequest c)) (nextSend c) in
  let c2 := if mark then emit c1 (EvIssue (nextRequest c)) else c1 in
  issuing c2 (nextRequest c) mark /\ extends c c2.
Proof using Type.
  intros HI c1 c2. destruct (Inv_new_request c HI) as (Hn & Hi & Hc).
  destruct HI as ((H1 & H2 & H3 & H4 & H5) & Ht & Ha). split.
  - assert (Hok : Forall (holder_ok (S (nextRequest c))) (mRequests c)).
    { eapply Forall_impl; [exact H3|]. intros h (? & ?). split; [lia|done]. }
    destruct mark; unfold issuing, container_ok, fresh_ok; simpl; split_and!; try done; try lia.
    + intros id Hid. destruct (H4 id ltac:(lia)) as [E1 E2]. unfold issued in *. simpl.
      rewrite E1, (proj2 (Nat.eqb_neq _ _)) by lia. done.
    + unfold issued in *. simpl. by rewrite Nat.eqb_refl.
    + intros Hs id' Hne Hcl%clean_cons. specialize (Ha Hs id' Hcl). unfold account_of, issued, calls in *. simpl.
      by rewrite (proj2 (Nat.eqb_neq _ _)) by congruence.
    + intros id Hid. by apply (H4 id ltac:(lia)).
    + auto.
  - split; [by destruct mark; simpl; lia|]. destruct mark; [by exists [EvIssue (nextRequest c)]|by exists []].
Qed.

Lemma issuing_quiet c c' id mark : quiet c c' -> issuing c id mark -> issuing c' id mark.
Proof using Type.
  intros (E1 & E2 & E3 & E4 & l & E5 & E6) ((H1 & H2 & H3 & H4 & H5) & Ht & Hid & Hn & Hc & Hi & Ha).
  unfold issuing, container_ok, fresh_ok, timer_ok in *. rewrite E1, E2, E3, E4, E5.
  split_and!; try done.
  - intros id' Hid'. destruct (quiet_counts id' l (trace c) E6) as [-> ->]. by apply H4.
  - by destruct (quiet_counts id l (trace c) E6) as [-> _].
  - by destruct (quiet_counts id l (trace c) E6) as [_ ->].
  - intros Hs id' Hne Hcl%clean_app. unfold account_of.
    destruct (quiet_counts id' l (trace c) E6) as [-> ->]. by apply Ha.
Qed.

(** Reporting a failure to the handler settles the account. *)
Lemma issuing_fail c c' id mark hd e :
  issuing c id mark -> call_handler run_handler c id hd None e = Ok c' -> Inv_ c' /\ extends c c'.
Proof using HP.
  intros (Hc & Ht & Hid & Hn & Hcalls & Hi & Ha) H.
  assert (HI : Inv_ (emit c (EvResponse id hd None e))).
  { apply emit_call_Inv; [done..|]. intros _ _. split; [done|by apply pending_not_in]. }
  destruct (response_preserves hd None e _ _ HI H) as [HI' He]. split; [done|].
  etransitivity; [|exact He]. split; [simpl; lia|]. by exists [EvResponse id hd None e].
Qed.

(** Nothing is owed when no handler was given or the request is not confirmable. *)
Lemma issuing_done c id : issuing c id false -> Inv_ c.
Proof using Type.
  intros (Hc & Ht & Hid & Hn & Hcalls & Hi & Ha). split_and!; [done..|]. intros Hs id' Hcl.
  destruct (decide (id' = id)) as [->|Hne]; [|by apply Ha]. unfold account_of.
  rewrite Hi, Hcalls. split; [lia|by apply pending_not_in].
Qed.

(** Entering the cache settles the account of a marked request. *)
Lemma issuing_put c c' id h (mark : bool) :
  issuing c id mark -> holder_ok (nextRequest c) h -> mRequestId h = id ->
  mark = (match mHandler h with Some _ => true | None => false end) ->
  RequestsCache.Put c h = Ok c' -> Inv_ c' /\ extends c c'.
Proof using Type.
  intros (Hc & Ht & Hid & Hn & Hcalls & Hi & Ha) Hh Ehid Hmark H.
  destruct (Put_spec c h Hc Hh) as (c1 & E & Hc1 & Ht1 & Hp & Etr & En); [by rewrite Ehid|].
  rewrite E in H. injection H as <-. split; [split_and!; [done..|]|].
  - intros Hs id' Hcl. rewrite Etr in Hcl. unfold account_of. rewrite Etr, (pending_perm _ _ _ Hp), pending_cons.
    destruct (decide (id' = id)) as [->|Hne].
    + rewrite Hi, Hcalls, Hmark, (pending_not_in id) by done. unfold armed. rewrite Ehid, Nat.eqb_refl.
      destruct (mHandler h); simpl; lia.
    + assert (Ea : armed id' h = false).
      { destruct (armed id' h) eqn:Ea; [|done]. apply armed_id in Ea. congruence. }
      rewrite Ea. by apply Ha.
  - split; [lia|]. exists []. by rewrite Etr.
Qed.

Lemma SetTokenRandom_confirmable m n t m' :
  SetTokenRandom m n t = Ok m' -> IsConfirmable m' = IsConfirmable m.
Proof using Type. unfold SetTokenRandom. destruct (n <=? 8); [|done]. by intros [= <-]. Qed.

(** The body of [SendRequest] either reports an error and leaves the account
    open, or settles it. *)
Lemma SendRequest_body_spec c0 id m h c1 err :
  let mark := match h with Some _ => IsConfirmable m | None => false end in
  issuing c0 id mark ->
  SendRequest_body endpoint_send random_token random_u32 c0 id m h = Ok (c1, err) ->
  extends c0 c1 /\ ((err <> kNone /\ issuing c1 id mark) \/ (err = kNone /\ Inv_ c1)).
Proof using Type.
  intros mark Hs0 H1. unfold SendRequest_body in H1.
  destruct (negb _); [simplify_eq; split; [done|by left]|].
  destruct (GetMessageId m =? 0); [|done]. destruct (AllocMessageId c0) as [mid c2] eqn:Eal.
  pose proof (Alloc_quiet _ _ _ Eal) as Hq. apply bind_ok in H1 as (rq & Hrq & H1).
  apply bind_ok in H1 as ([[c3 rq'] e3] & Hsend & H1).
  assert (Hq03 : quiet c0 c3) by (etransitivity; [exact Hq|by eapply Send_quiet]).
  pose proof (issuing_quiet _ _ _ _ Hq03 Hs0) as Hs3.
  assert (He03 : extends c0 c3).
  { destruct Hq03 as (_ & _ & En & _ & l & El & _). split; [lia|by exists l]. }
  case_bool_decide as Ee; [|injection H1 as <- <-; split; [done|by left]]. subst e3.
  destruct (Send_message _ _ _ _ Hsend) as [[ep ->] Hser]. apply SetTokenRandom_confirmable in Hrq.
  change (IsConfirmable (SetMessageId m mid)) with (IsConfirmable m) in Hrq.
  rewrite SetEndpoint_confirmable, Hrq in H1. destruct (IsConfirmable m) eqn:Em.
  - apply bind_ok in H1 as (c4 & Hput & H1). injection H1 as <- <-.
    assert (Hin : Inv_ c4 /\ extends c3 c4).
    { refine (issuing_put c3 c4 id (RequestHolder_new random_u32 c3 id _ h) mark Hs3 _ eq_refl _ Hput).
      - apply RequestHolder_new_ok; [by destruct Hs3 as (_ & _ & ? & _)|done|done].
      - unfold mark. destruct h; simpl; congruence. }
    destruct Hin as [HI4 He4]. split; [by etransitivity|by right].
  - injection H1 as <- <-. split; [done|]. right. split; [done|].
    assert (Emark : mark = false) by (unfold mark; destruct h; congruence). rewrite Emark in Hs3. by eapply issuing_done.
Qed.

Lemma SendRequest_preserves m h :
  preserves strict (fun c => SendRequest run_handler endpoint_send random_token random_u32 c m h).
Proof using HP.
  intros c c' HI H. unfold SendRequest in H.
  set (mark := match h with Some _ => IsConfirmable m | None => false end) in *.
  destruct (issuing_start c mark HI) as [Hs0 Hext0].
  set (c0 := if mark then _ else _) in *.
  apply bind_ok in H as ([c1 err] & H1 & H).
  destruct (SendRequest_body_spec _ _ _ _ _ _ Hs0 H1) as [Hx [[He Hs1]|[-> HI1]]].
  - destruct h as [hd|].
    + rewrite bool_decide_eq_false_2 in H by done.
      destruct (issuing_fail _ _ _ _ _ _ Hs1 H) as [HI' Hx']. split; [done|].
      etransitivity; [exact Hext0|]. by etransitivity.
    + injection H as <-. split; [|by etransitivity]. by eapply issuing_done.
  - assert (E : c' = c1) by (destruct h; simpl in H; congruence). subst.
    split; [done|by etransitivity].
Qed.

(** *** Retransmission *)

(** The invariant without the timer, which the expired timer leaves stopped. *)
Definition Inv0 (c : Coap) : Prop :=
  container_ok c /\ (strict -> forall id, kept id (mRequests c) (trace c)).

(** A holder taken out of the container, still on account. *)
Definition taken (c : Coap) (h : RequestHolder) : Prop :=
  container_ok c /\ timer_ok c /\ (mRequestId h ∉ map mRequestId (mRequests c)) /\
  holder_ok (nextRequest c) h /\
  (strict -> forall id, kept id (h :: mRequests c) (trace c)).

Lemma EliminateFront_spec c h c1 :
  Inv0 c -> RequestsCache.EliminateFront c = Ok (h, c1) -> taken c1 h /\ extends c c1.
Proof using Type.
  intros ((H1 & H2 & H3 & H4 & H5) & Ha) H. unfold RequestsCache.EliminateFront in H.
  destruct (mRequests c) as [|x l] eqn:El; [done|].
  destruct (UpdateTimer_spec (with_requests c l (mRetransmissionTimer c))) as (t & E & Ht).
  rewrite E in H. cbn [mbind outcome_bind] in H. injection H as <- <-.
  apply NoDup_cons in H1 as [Hx Hnd]. inversion H2; subst. inversion H3; subst.
  split; [|split; [simpl; lia|by exists []]].
  unfold taken, container_ok. simpl. split_and!; done.
Qed.

(** The handler of a holder that is no longer in the container. *)
Lemma FinalizeCopy_taken c h r e c' :
  taken c h -> FinalizeCopy run_handler c h r e = Ok c' -> Inv_ c' /\ extends c c'.
Proof using HP.
  intros (Hc & Ht & Hn & Hh & Ha) H. unfold FinalizeCopy in H. apply bind_ok in H as (c2 & H & HE).
  assert (Hmid : Inv_ c2 /\ extends c c2 /\ (strict -> clean (mRequestId h) (trace c2) -> pending (mRequestId h) (mRequests c2) = 0%nat)).
  { destruct (mHandler h) as [hd|] eqn:Eh.
    - assert (HI : Inv_ (emit c (EvResponse (mRequestId h) hd r e))).
      { apply emit_call_Inv; [done|done|by destruct Hh| |].
        - intros Hs id Hne Hcl. specialize (Ha Hs id Hcl). unfold account_of in *. rewrite pending_cons in Ha.
          assert (Ea : armed id h = false) by (unfold armed; by rewrite (proj2 (Nat.eqb_neq _ _)) by congruence).
          by rewrite Ea in Ha.
        - intros Hs Hcl. specialize (Ha Hs (mRequestId h) Hcl). unfold account_of in Ha.
          rewrite pending_cons, (pending_not_in (mRequestId h) (mRequests c)) in Ha by done.
          unfold armed in Ha. rewrite Nat.eqb_refl, Eh in Ha. simpl in Ha.
          split; [case_if; lia|by apply pending_not_in]. }
      destruct (response_preserves hd r e _ _ HI H) as [HI2 Hx].
      split_and!; [done| |by eapply called_not_pending].
      etransitivity; [|exact Hx]. split; [simpl; lia|]. by exists [EvResponse (mRequestId h) hd r e].
    - injection H as <-. split_and!; [|done|intros _ _; by apply pending_not_in].
      split_and!; [done..|]. intros Hs id Hcl. specialize (Ha Hs id Hcl). unfold account_of in *.
      rewrite pending_cons in Ha. unfold armed in Ha. by rewrite Eh, andb_false_r in Ha. }
  destruct Hmid as (HI2 & Hx & Hp).
  destruct (Eliminate_Inv strict c2 (mRequestId h) HI2 Hp) as (c3 & E3 & HI3 & Hx3).
  rewrite E3 in HE. injection HE as <-. split; [done|by etransitivity].
Qed.

(** The same for a holder that may still be there, after a retransmission of it
    failed: its own account is not kept, those of the others are. *)
Lemma FinalizeCopy_lax c h r e c' :
  (exists e', EvRefused (mRequestId h) e' ∈ trace c) -> Inv_ c -> FinalizeCopy run_handler c h r e = Ok c' ->
  (mRequestId h < nextRequest c)%nat -> Inv_ c' /\ extends c c'.
Proof using HP.
  intros [e' Hns] HI H Hlt. unfold FinalizeCopy in H. apply bind_ok in H as (c2 & H & HE).
  assert (Hmid : Inv_ c2 /\ extends c c2).
  { destruct (mHandler h) as [hd|]; [|by injection H as <-].
    destruct HI as (Hc & Ht & Ha).
    assert (HI : Inv_ (emit c (EvResponse (mRequestId h) hd r e))).
    { apply emit_call_Inv; [done..| |]; intros Hs; [by intros id' _; apply Ha|].
      intros Hcl. by destruct (Hcl e'). }
    destruct (response_preserves hd r e _ _ HI H) as [HI2 Hx]. split; [done|].
    etransitivity; [|exact Hx]. split; [simpl; lia|]. by exists [EvResponse (mRequestId h) hd r e]. }
  destruct Hmid as (HI2 & Hx).
  destruct (Eliminate_Inv strict c2 (mRequestId h) HI2) as (c3 & E3 & HI3 & Hx3).
  { intros _ Hcl. destruct (Hcl e'). destruct Hx as (_ & l & ->). apply elem_of_app. by right. }
  rewrite E3 in HE. injection HE as <-. split; [done|by etransitivity].
Qed.

Lemma next_attempt_ok n now h :
  holder_ok n h -> mRetransmissionCount h < kMaxRetransmit -> holder_ok n (next_attempt now h).
Proof using Type.
  intros (H1 & H2 & H3 & H4 & Hser & b & Hb & Hd) Hlt. unfold holder_ok. simpl.
  split_and!; [done|done|done|lia|lia|done|]. exists b. split; [done|].
  rewrite Hd, Z.pow_add_r by lia. lia.
Qed.

Lemma emit_refused_Inv c id e : Inv_ c -> Inv_ (emit c (EvRefused id e)).
Proof using Type.
  intros ((H1 & H2 & H3 & H4 & H5) & Ht & Ha). split_and!; [by split_and!|done|].
  intros Hs id' Hcl%clean_cons. exact (Ha Hs id' Hcl).
Qed.

Lemma Retransmit_one_spec c now h c' :
  taken c h -> Retransmit_one run_handler endpoint_send c now h = Ok c' -> Inv_ c' /\ extends c c'.
Proof using HP.
  intros Htk H. unfold Retransmit_one in H.
  case_if; [|by eapply FinalizeCopy_taken]. bool_to_prop.
  destruct Htk as (Hc & Ht & Hn & Hh & Ha). set (h' := next_attempt now h) in *.
  destruct (Put_spec c h' Hc) as (c1 & E & Hc1 & Ht1 & Hp & Etr & En);
    [by apply next_attempt_ok|done|].
  rewrite E in H. cbn [mbind outcome_bind] in H.
  assert (HI1 : Inv_ c1).
  { split_and!; [done..|]. intros Hs id Hcl. rewrite Etr in Hcl. specialize (Ha Hs id Hcl). unfold account_of in *.
    rewrite Etr, (pending_perm _ _ _ Hp), pending_cons. rewrite pending_cons in Ha. exact Ha. }
  assert (Hx1 : extends c c1) by (split; [lia|exists []; by rewrite Etr]).
  case_if; [|by injection H as <-].
  apply bind_ok in H as ([[c2 m2] e2] & Hs2 & H).
  destruct (quiet_Inv strict _ _ (Send_quiet _ _ _ _ _ Hs2) HI1) as [HI2 Hx2].
  assert (Hx02 : extends c c2) by (by etransitivity).
  case_bool_decide as He; [by injection H as <-|].
  assert (HI2' : Inv_ (emit c2 (EvRefused (mRequestId h') e2))) by by apply emit_refused_Inv.
  destruct (FinalizeCopy_lax (emit c2 (EvRefused (mRequestId h') e2)) h' None e2 c') as [HI3 Hx3].
  - exists e2. simpl. left.
  - done.
  - done.
  - destruct Hx02 as [? _], Hh as [? _]. simpl. lia.
  - split; [done|]. etransitivity; [exact Hx02|]. etransitivity; [|exact Hx3].
    split; [simpl; lia|by exists [EvRefused (mRequestId h') e2]].
Qed.

Lemma Retransmit_loop_spec fuel : forall c now c',
  Inv0 c -> Retransmit_loop run_handler endpoint_send fuel c now = Ok c' -> Inv0 c' /\ extends c c'.
Proof using HP.
  induction fuel as [|fuel IH]; intros c now c' HI H; cbn [Retransmit_loop] in H;
    (destruct (RequestsCache.IsEmpty c); [by injection H as <-|]);
    apply bind_ok in H as (e & _ & H); (destruct (negb (e <? now)); [by injection H as <-|]); [done|].
  apply bind_ok in H as ([h c1] & H1 & H). apply bind_ok in H as (c2 & H2 & H).
  destruct (EliminateFront_spec _ _ _ HI H1) as [Htk Hx1].
  destruct (Retransmit_one_spec _ _ _ _ Htk H2) as [(Hc2 & _ & Ha2) Hx2].
  destruct (IH _ _ _ (conj Hc2 Ha2) H) as [HI' Hx']. split; [done|].
  etransitivity; [exact Hx1|]. by etransitivity.
Qed.

Lemma HandleTimer_preserves : preserves strict (HandleTimer run_handler endpoint_send loop_fuel).
Proof using HP.
  intros c c' HI H. unfold HandleTimer in H.
  destruct (mRetransmissionTimer c) as [t|]; [|by injection H as <-].
  unfold Retransmit in H. apply bind_ok in H as (c1 & H1 & H).
  assert (HI0 : Inv0 (with_requests c (mRequests c) None)) by (destruct HI as (Hc & _ & Ha); by split).
  destruct (Retransmit_loop_spec _ _ _ _ HI0 H1) as [(Hc1 & Ha1) Hx1].
  destruct (UpdateTimer_spec c1) as (t' & E & Ht'). rewrite E in H. injection H as <-.
  split; [split_and!; [done..|exact Ha1]|exact Hx1].
Qed.

(** *** Reception *)

Lemma quiet_preserves c c' : quiet c c' -> Inv_ c -> Inv_ c' /\ extends c c'.
Proof using Type. apply quiet_Inv. Qed.

Lemma call_resource_preserves h m :
  preserves strict (fun c => call_resource run_resource c h m).
Proof using HP.
  intros c c' HI H. unfold call_resource in H. destruct h as [h|]; [|by injection H as <-].
  destruct (quiet_preserves _ _ (emit_quiet c (EvRequest h m) eq_refl) HI) as [HI1 Hx1].
  destruct (resource_preserves h m _ _ HI1 H) as [HI2 Hx2]. split; [done|by etransitivity].
Qed.

Lemma HandleRequest_preserves m : preserves strict (fun c => HandleRequest run_resource endpoint_send c m).
Proof using HP.
  intros c c' HI H. unfold HandleRequest in H.
  destruct (GetUriPath m) as [uri|e|]; [|by injection H as <-|done].
  destruct (ResponsesCache.Match c m) as [r|].
  - apply bind_ok in H as ([[c1 m1] e1] & H1 & H). injection H as <-.
    eapply quiet_preserves; [by eapply Send_quiet|done].
  - destruct (mResources c !! uri) as [h|]; [by eapply call_resource_preserves|].
    destruct (mDefaultHandler c) as [h|]; [by eapply call_resource_preserves|].
    apply bind_ok in H as ([c1 e1] & H1 & H). injection H as <-.
    eapply quiet_preserves; [by eapply SendHeaderResponse_quiet|done].
Qed.

Lemma Match_in c r h : RequestsCache.Match c r = Some h -> h ∈ mRequests c.
Proof using Type. intros H. apply find_some in H as [H _]. by apply list_elem_of_In. Qed.

Lemma pending_acknowledged id id' l :
  pending id' (map (fun h => if Nat.eqb (mRequestId h) id then RequestsCache.set_acknowledged h else h) l)
  = pending id' l.
Proof using Type.
  induction l as [|x l IH]; [done|]. cbn [map]. rewrite !pending_cons, IH. f_equal.
  by destruct (Nat.eqb (mRequestId x) id).
Qed.

Lemma acknowledge_Inv c id : Inv_ c -> Inv_ (RequestsCache.modify c id RequestsCache.set_acknowledged).
Proof using Type.
  intros (Hc & Ht & Ha).
  destruct (modify_container c id RequestsCache.set_acknowledged) as [Hc' Ht']; [done..|].
  split_and!; [done..|]. intros Hs id' Hcl. specialize (Ha Hs id' Hcl). unfold account_of in *. simpl.
  by rewrite pending_acknowledged.
Qed.

Lemma unarmed_pending c h :
  Inv_ c -> h ∈ mRequests c -> mHandler h = None -> pending (mRequestId h) (mRequests c) = 0%nat.
Proof using Type.
  intros ((Hnd & _) & _) Hin Eh. rewrite (pending_perm _ _ _ (erase_perm h _ Hnd Hin)), pending_cons.
  rewrite pending_erase_self by done. unfold armed. by rewrite Eh, andb_false_r.
Qed.

Lemma HandleResponse_preserves m :
  preserves strict (fun c => HandleResponse run_handler endpoint_send c m).
Proof using HP.
  intros c c' HI H. unfold HandleResponse in H.
  destruct (RequestsCache.Match c m) as [h|] eqn:Em.
  2:{ case_if; [|by injection H as <-]. apply bind_ok in H as ([c1 e1] & H1 & H). injection H as <-.
      eapply quiet_preserves; [by eapply SendEmptyMessage_quiet|done]. }
  apply Match_in in Em as Hin. apply bind_ok in H as (r & _ & H). destruct (GetType r).
  - apply bind_ok in H as ([c1 e1] & H1 & H).
    destruct (quiet_preserves c c1) as [HI1 Hx1]; [by eapply SendEmptyMessage_quiet|done|].
    destruct (FinalizeRef_preserves _ _ _ _ _ HI1 H) as [HI2 Hx2]. split; [done|by etransitivity].
  - by eapply FinalizeRef_preserves.
  - destruct (IsEmpty r).
    + set (c0 := if IsConfirmable (mRequest h) then _ else c) in H.
      assert (H0 : Inv_ c0 /\ extends c c0 /\ pending (mRequestId h) (mRequests c0) = pending (mRequestId h) (mRequests c)).
      { unfold c0. destruct (IsConfirmable (mRequest h)); [|done]. split_and!; [by apply acknowledge_Inv| |].
        - split; [simpl; lia|by exists []].
        - simpl. apply pending_acknowledged. }
      destruct H0 as (HI0 & Hx0 & Hp0). destruct (mHandler h) eqn:Eh; [by injection H as <-|].
      destruct (Eliminate_Inv strict c0 (mRequestId h) HI0) as (c3 & E3 & HI3 & Hx3).
      { intros _ _. rewrite Hp0. by apply unarmed_pending. }
      rewrite E3 in H. injection H as <-. split; [done|by etransitivity].
    + case_if; [by eapply FinalizeRef_preserves|by injection H as <-].
  - case_if; [by eapply FinalizeRef_preserves|by injection H as <-].
Qed.

Lemma Receive_preserves ep buf :
  preserves strict (fun c => Receive run_handler run_resource endpoint_send c ep buf).
Proof using HP.
  intros c c' HI H. unfold Receive in H.
  destruct (Message.Deserialize buf) as [m|e|]; [|by injection H as <-|done].
  case_if; [by eapply HandleRequest_preserves|by eapply HandleResponse_preserves].
Qed.

Lemma ClearRequestsAndResponses_preserves :
  preserves strict (ClearRequestsAndResponses run_handler loop_fuel).
Proof using HP.
  intros c c' HI H. apply bind_ok in H as (c1 & H1 & H). injection H as <-.
  destruct (CancelRequests_preserves _ _ _ HI H1) as [HI1 Hx1]. split; [|exact Hx1].
  destruct HI1 as ((A1 & A2 & A3 & A4 & A5) & Ht & Ha). by split_and!.
Qed.

End Operations.
