(* ===== verification/CoapScript.v ===== *)
(** * Runs of the CoAP client and server

    A user handler is any finite list of operations of the object, chosen from
    the arguments of the call; the events of the environment are calls of the
    application, datagrams, the passing of time and the timer.  The theorems
    hold of every run. *)

From S2P Require Import Prelude Outcome Common CoapMessage Coap CoapInvariant.
Import Message.
From Stdlib Require Import Sorted Permutation.

(** ** Operations as data *)

Inductive Api : Type :=
| ApiSendRequest (aRequest : Message) (aHandler : option nat)
| ApiSendResponse (aRequest aResponse : Message)
| ApiSendHeaderResponse (aCode : Z) (aRequest : Message)
| ApiSendEmptyChanged (aRequest : Message)
| ApiSendReset (aRequest : Message)
| ApiSendAck (aRequest : Message)
| ApiCancelRequests
| ApiClearRequestsAndResponses
| ApiAddResource (aUriPath : string_t) (aHandler : option nat)
| ApiRemoveResource (aUriPath : string_t)
| ApiSetDefaultHandler (aHandler : option nat).

(** What the environment decides: the operations each handler performs, the
    results of [Endpoint::Send] and the random values. *)
Record Env : Type := mkEnv {
  on_response : nat -> option Message -> ErrorCode -> list Api;
  on_request : nat -> Message -> list Api;
  env_send : nat -> ByteArray -> ErrorCode;
  env_token : nat -> ByteArray;
  env_u32 : nat -> Z }.

Section Scripts.
Context (env : Env).

(** The error an operation returns to its caller is not used by a script. *)
Definition drop_error (m : outcome (Coap * ErrorCode)) : outcome Coap := '(c, _) ← m; Ok c.

Definition do_api (run_handler : nat -> option Message -> ErrorCode -> Coap -> outcome Coap)
    (fuel : nat) (a : Api) (c : Coap) : outcome Coap :=
  match a with
  | ApiSendRequest m h => SendRequest run_handler (env_send env) (env_token env) (env_u32 env) c m h
  | ApiSendResponse rq rs => drop_error (SendResponse (env_send env) c rq rs)
  | ApiSendHeaderResponse code rq => drop_error (SendHeaderResponse (env_send env) c code rq)
  | ApiSendEmptyChanged rq => drop_error (SendEmptyChanged (env_send env) c rq)
  | ApiSendReset rq => drop_error (SendReset (env_send env) c rq)
  | ApiSendAck rq => drop_error (SendAck (env_send env) c rq)
  | ApiCancelRequests => CancelRequests run_handler fuel c
  | ApiClearRequestsAndResponses => ClearRequestsAndResponses run_handler fuel c
  | ApiAddResource u h => match AddResource c u h with Ok c => Ok c | Err _ => Ok c | Die => Die end
  | ApiRemoveResource u => Ok (RemoveResource c u)
  | ApiSetDefaultHandler h => Ok (SetDefaultHandler c h)
  end.

Fixpoint run_apis (f : Api -> Coap -> outcome Coap) (l : list Api) (c : Coap) : outcome Coap :=
  match l with [] => Ok c | a :: l => c ← f a c; run_apis f l c end.

(** Handlers, nested to a depth of [n]. *)
Fixpoint respond (n : nat) (h : nat) (r : option Message) (e : ErrorCode) (c : Coap) : outcome Coap :=
  match n with
  | O => Die
  | S n => run_apis (do_api (respond n) n) (on_response env h r e) c
  end.

Definition serve (n : nat) (h : nat) (m : Message) (c : Coap) : outcome Coap :=
  run_apis (do_api (respond n) n) (on_request env h m) c.

(** ** Events *)

Inductive Event : Type :=
| EvtApi (a : Api)
| EvtReceive (endpoint : nat) (data : ByteArray)
| EvtTime (now : Z)
| EvtTimer.

(** The timer fires when its time has come. *)
Definition due (c : Coap) : bool :=
  match mRetransmissionTimer c with Some t => t <=? clock c | None => false end.

Definition step (n : nat) (e : Event) (c : Coap) : outcome Coap :=
  match e with
  | EvtApi a => do_api (respond n) n a c
  | EvtReceive ep data => Receive (respond n) (serve n) (env_send env) c ep data
  | EvtTime now => Ok (with_clock c (Z.max (clock c) now))
  | EvtTimer => if due c then HandleTimer (respond n) (env_send env) n c else Ok c
  end.

Fixpoint run (n : nat) (l : list Event) (c : Coap) : outcome Coap :=
  match l with [] => Ok c | e :: l => c ← step n e c; run n l c end.

(** ** Every script meets the interface *)

Lemma with_handlers_quiet c r d : quiet c (with_handlers c r d).
Proof. split_and!; [done..|]. by exists []. Qed.

Lemma with_clock_quiet c now : quiet c (with_clock c now).
Proof. split_and!; [done..|]. by exists []. Qed.

Lemma drop_error_quiet strict (f : Coap -> outcome (Coap * ErrorCode)) :
  (forall c c' e, f c = Ok (c', e) -> quiet c c') -> preserves strict (fun c => drop_error (f c)).
Proof.
  intros Hf c c' HI H. apply bind_ok in H as ([c1 e] & H1 & H). injection H as <-.
  eapply quiet_Inv; [by eapply Hf|done].
Qed.

Lemma do_api_preserves strict run_handler run_resource fuel a :
  HandlersPreserve strict run_handler run_resource -> preserves strict (do_api run_handler fuel a).
Proof.
  intros HP. destruct a; unfold do_api.
  - by eapply SendRequest_preserves.
  - apply drop_error_quiet. intros ???. apply SendResponse_quiet.
  - apply drop_error_quiet. intros ???. apply SendHeaderResponse_quiet.
  - apply drop_error_quiet. intros ???. apply SendEmptyChanged_quiet.
  - apply drop_error_quiet. intros ???. apply SendEmptyMessage_quiet.
  - apply drop_error_quiet. intros ???. apply SendEmptyMessage_quiet.
  - by eapply CancelRequests_preserves.
  - by eapply ClearRequestsAndResponses_preserves.
  - intros c c' HI H. unfold AddResource in H.
    destruct (mResources c !! aUriPath); injection H as <-; [done|].
    eapply quiet_Inv; [apply with_handlers_quiet|done].
  - intros c c' HI [= <-]. eapply quiet_Inv; [apply with_handlers_quiet|done].
  - intros c c' HI [= <-]. eapply quiet_Inv; [apply with_handlers_quiet|done].
Qed.

Lemma run_apis_preserves strict f l :
  (forall a, preserves strict (f a)) -> preserves strict (run_apis f l).
Proof.
  intros Hf. induction l as [|a l IH]; intros c c' HI H; [by injection H as <-|].
  apply bind_ok in H as (c1 & H1 & H). destruct (Hf a _ _ HI H1) as [HI1 Hx1].
  destruct (IH _ _ HI1 H) as [HI2 Hx2]. split; [done|by etransitivity].
Qed.

#[export] Instance scripts_preserve strict n : HandlersPreserve strict (respond n) (serve n).
Proof.
  assert (Hr : forall n h r e, preserves strict (respond n h r e)).
  { clear n. induction n as [|n IH]; intros h r e; [by intros c c' _ H|].
    apply run_apis_preserves. intros a. apply (do_api_preserves strict _ (fun _ _ => Ok)).
    split; [done|]. by intros _ _ c c' HI [= <-]. }
  split; [apply Hr|]. intros h m. apply run_apis_preserves. intros a.
  apply (do_api_preserves strict _ (fun _ _ => Ok)). split; [apply Hr|]. by intros _ _ c c' HI [= <-].
Qed.

Lemma step_preserves (strict : Prop) n e : preserves strict (step n e).
Proof.
  destruct e; cbn [step] in *.
  - apply (do_api_preserves strict _ (serve n)). apply scripts_preserve.
  - apply Receive_preserves. apply scripts_preserve.
  - intros c c' HI [= <-]. eapply quiet_Inv; [apply with_clock_quiet|done].
  - intros c c' HI H. cbn [step] in H. destruct (due c); [|by injection H as <-].
    exact (HandleTimer_preserves strict _ (serve n) _ n c c' HI H).
Qed.

Lemma run_preserves (strict : Prop) n l : preserves strict (run n l).
Proof.
  induction l as [|e l IH]; intros c c' HI H; [by injection H as <-|].
  apply bind_ok in H as (c1 & H1 & H). destruct (step_preserves strict n e _ _ HI H1) as [HI1 Hx1].
  destruct (IH _ _ HI1 H) as [HI2 Hx2]. split; [done|by etransitivity].
Qed.

Lemma Inv_init strict ep now : Inv strict (Coap_init ep now).
Proof.
  split_and!; [|done|intros _ id _; split; [unfold calls; simpl; lia|done]].
  unfold container_ok; simpl. split_and!; [constructor|constructor|constructor|by intros id _|done].
Qed.

End Scripts.

(** ** Properties of every run *)

(** C32: The cache of requests in every reachable state, whatever the handlers do:
    one holder per request, in the order of the timer shots; each is a
    confirmable request bound to an endpoint that can be serialized, sent at
    most five times, with the delay of RFC 7252; the timer runs exactly when
    requests are pending and fires no later than the earliest shot. *)
Theorem coap_container_invariant env n events ep now c :
  run env n events (Coap_init ep now) = Ok c -> container_ok c /\ timer_ok c.
Proof.
  intros H. destruct (run_preserves env False n events _ _ (Inv_init False ep now) H)
    as [(Hc & Ht & _) _]. done.
Qed.

(** C33: The handler of a request, in every run in which no retransmission of that
    request fails to be sent: when the request is confirmable and was sent with
    a handler, the handler is called exactly once or still armed in the cache,
    never both and never neither; for every other request it is called at most
    once.  First transmissions, responses and the retransmissions of other
    requests may fail. *)
Theorem handler_called_once env n events ep now c id :
  run env n events (Coap_init ep now) = Ok c -> (forall e, EvRefused id e ∉ trace c) ->
  account_of id (mRequests c) (trace c).
Proof.
  intros H Hs. destruct (run_preserves env True n events _ _ (Inv_init True ep now) H)
    as [(_ & _ & Ha) _]. by apply Ha.
Qed.

(** *** A concrete exchange *)

(** POST /c/cp, confirmable, no payload. *)
Definition petition : Message :=
  mkMessage (mkHeader 1 0 0 Code.kPost 0 []) [(OptionType.kUriPath, str "/c/cp")] [] [] kSubTypeNone None.

(** An empty acknowledgment of message 1, then the separate response. *)
Definition ack_1 : ByteArray := [96; 0; 0; 1].
Definition token_of (n : nat) : ByteArray := [Z.of_nat n; 1; 2; 3; 4; 5; 6; 7].
Definition response_to (n : nat) : ByteArray := [88; 68; 0; 9] ++ token_of n.

(** Handlers that do nothing, handler 1 that cancels all, handler 2 that cancels
    all and starts over. *)
Definition sample_handlers (h : nat) (_ : option Message) (_ : ErrorCode) : list Api :=
  match h with
  | 1%nat => [ApiCancelRequests]
  | 2%nat => [ApiCancelRequests; ApiSendRequest petition (Some 0%nat)]
  | _ => []
  end.
Definition sample_env (send : nat -> ByteArray -> ErrorCode) : Env :=
  mkEnv sample_handlers (fun _ _ => []) send token_of (fun _ => 500).
Definition all_sent (_ : nat) (_ : ByteArray) : ErrorCode := kNone.
(** Every datagram after the first is refused. *)
Definition then_refused (n : nat) (_ : ByteArray) : ErrorCode := match n with O => kNone | _ => kIOError end.

Definition sample_events : list Event :=
  [EvtApi (ApiSendRequest petition (Some 0%nat)); EvtTime 3000; EvtTimer;
   EvtReceive 7 ack_1; EvtTime 9000; EvtTimer; EvtReceive 7 (response_to 0)].

Definition coap_state (o : outcome Coap) : Coap :=
  match o with Ok c => c | _ => Coap_init 0 0 end.

Lemma coap_container_invariant_witness :
  let c := coap_state (run (sample_env all_sent) 5 sample_events (Coap_init 7 0)) in
  container_ok c /\ timer_ok c.
Proof.
  apply (coap_container_invariant (sample_env all_sent) 5 sample_events 7 0).
  vm_compute. reflexivity.
Defined.

(** Two requests; the second one cannot be sent, the first one is retransmitted
    and answered. *)
Definition second_refused (n : nat) (_ : ByteArray) : ErrorCode :=
  match n with 1%nat => kIOError | _ => kNone end.
Definition mixed_events : list Event :=
  [EvtApi (ApiSendRequest petition (Some 0%nat)); EvtApi (ApiSendRequest petition (Some 3%nat));
   EvtTime 3000; EvtTimer; EvtReceive 7 ack_1; EvtReceive 7 (response_to 0)].

Lemma handler_called_once_witness :
  let c := coap_state (run (sample_env second_refused) 5 mixed_events (Coap_init 7 0)) in
  (account_of 0 (mRequests c) (trace c) /\ account_of 1 (mRequests c) (trace c)) /\
  calls 0 (trace c) = 1%nat /\ calls 1 (trace c) = 1%nat /\ mRequests c = [] /\ nextSend c = 3%nat.
Proof.
  cbv zeta. split; [split|split_and!; vm_compute; reflexivity].
  - apply (handler_called_once (sample_env second_refused) 5 mixed_events 7 0); [vm_compute; reflexivity|].
    apply not_refused. vm_compute. reflexivity.
  - apply (handler_called_once (sample_env second_refused) 5 mixed_events 7 0); [vm_compute; reflexivity|].
    apply not_refused. vm_compute. reflexivity.
Defined.

(** The limits of these guarantees when a handler calls back.  When a
    retransmission cannot be sent, the handler is called through a copy of the
    holder while the original in the cache is still armed: a handler that
    cancels all requests is called a second time.  When a handler, called for a
    response, cancels all requests and then sends a new one, the reference to
    the finished holder dangles while the cache is not empty. *)
Theorem reentrancy_faults :
  (exists c, run (sample_env then_refused) 5
      [EvtApi (ApiSendRequest petition (Some 1%nat)); EvtTime 3000; EvtTimer] (Coap_init 7 0) = Ok c
    /\ calls 0 (trace c) = 2%nat) /\
  (exists c, run (sample_env all_sent) 9
      [EvtApi (ApiSendRequest petition (Some 1%nat)); EvtReceive 7 (response_to 0)] (Coap_init 7 0) = Ok c) /\
  run (sample_env all_sent) 9
    [EvtApi (ApiSendRequest petition (Some 2%nat)); EvtReceive 7 (response_to 0)] (Coap_init 7 0) = Die.
Proof. split_and!; [eexists; split| eexists |]; vm_compute; reflexivity. Qed.

(** *** Handlers that do not call back

    With them the loops end and their effect is exact. *)

Definition quiet_handler (_ : nat) (_ : option Message) (_ : ErrorCode) (c : Coap) : outcome Coap := Ok c.

Lemma quiet_preserve strict : HandlersPreserve strict quiet_handler (fun _ _ => Ok).
Proof. split; [by intros _ _ _ c c' HI [= <-]|by intros _ _ c c' HI [= <-]]. Qed.

(** What becomes of a holder when the timer fires at [now]. *)
Definition is_due (now : Z) (h : RequestHolder) : bool := mNextTimerShot h <? now.
Definition after_timer (now : Z) (h : RequestHolder) : list RequestHolder :=
  if is_due now h then
    if mRetransmissionCount h <? kMaxRetransmit then [next_attempt now h] else []
  else [h].
Definition due_count (now : Z) (l : list RequestHolder) : nat := length (List.filter (is_due now) l).

Lemma after_timer_next now n h :
  holder_ok n h -> is_due now (next_attempt now h) = false.
Proof.
  intros (_ & _ & _ & Hc & _ & b & Hb & Hd). unfold is_due, next_attempt. simpl.
  apply Z.ltb_ge. rewrite Hd. assert (0 < 2 ^ mRetransmissionCount h) by (apply Z.pow_pos_nonneg; lia).
  nia.
Qed.

Lemma flat_map_perm {A B} (f : A -> list B) l l' :
  Permutation l l' -> Permutation (flat_map f l) (flat_map f l').
Proof. intros H. by rewrite !flat_map_concat_map, H. Qed.

Lemma sorted_not_due now h l :
  StronglySorted shot_le (h :: l) -> is_due now h = false ->
  flat_map (after_timer now) (h :: l) = h :: l /\ Forall (fun h => now <= mNextTimerShot h) (h :: l).
Proof.
  intros Hs Hd. apply StronglySorted_inv in Hs as [_ Hall]. unfold is_due in Hd. bool_to_prop.
  assert (HF : Forall (fun h => now <= mNextTimerShot h) (h :: l)).
  { constructor; [done|]. eapply Forall_impl; [exact Hall|]. unfold shot_le. intros; lia. }
  split; [|done]. clear -HF. induction HF as [|x k Hx _ IH]; [done|]. simpl. rewrite IH.
  unfold after_timer, is_due. by rewrite (proj2 (Z.ltb_ge _ _)).
Qed.

(** Processing one due holder: nothing fails, and the holder is replaced. *)
Lemma Retransmit_one_quiet endpoint_send c now h :
  (forall n b, endpoint_send n b = kNone) -> taken True c h -> is_due now h = true ->
  exists c', Retransmit_one quiet_handler endpoint_send c now h = Ok c' /\
    Permutation (mRequests c') (after_timer now h ++ mRequests c) /\
    (kMaxRetransmit <= mRetransmissionCount h -> forall hd, mHandler h = Some hd ->
       EvResponse (mRequestId h) hd None kTimeout ∈ trace c').
Proof.
  intros Hsend (Hc & Ht & Hn & Hh & _) Hd. pose proof Hh as (Hid & Hcon & _ & _ & [d Hser] & _).
  unfold Retransmit_one, after_timer. rewrite Hd, Hcon. cbn [andb].
  destruct (Z.ltb_spec (mRetransmissionCount h) kMaxRetransmit) as [Hlt|Hge].
  - destruct (Put_spec c (next_attempt now h) Hc) as (c1 & E & _ & _ & Hp & _ & _);
      [by apply next_attempt_ok|done|].
    rewrite E. cbn [mbind outcome_bind]. destruct (negb _).
    + unfold Send. change (mRequest (next_attempt now h)) with (mRequest h). rewrite Hser.
      cbn [mbind outcome_bind]. rewrite Hsend, bool_decide_eq_true_2 by done.
      eexists; split_and!; [done|exact Hp|lia].
    + eexists; split_and!; [done|exact Hp|lia].
  - unfold FinalizeCopy, call_handler, quiet_handler.
    destruct (mHandler h) as [hd|] eqn:Eh; cbn [mbind outcome_bind].
    + destruct (UpdateTimer_spec (with_requests (emit c (EvResponse (mRequestId h) hd None kTimeout))
        (RequestsCache.erase (mRequestId h) (mRequests c)) (mRetransmissionTimer c))) as (t & E & _).
      unfold RequestsCache.Eliminate. simpl mRequests. simpl mRetransmissionTimer in *.
      rewrite E. eexists; split_and!; [done| |].
      * simpl. by rewrite erase_not_in.
      * intros _ hd' [= <-]. simpl. left.
    + destruct (UpdateTimer_spec (with_requests c (RequestsCache.erase (mRequestId h) (mRequests c))
        (mRetransmissionTimer c))) as (t & E & _).
      unfold RequestsCache.Eliminate. rewrite E. eexists; split_and!; [done| |done].
      simpl. by rewrite erase_not_in.
Qed.

Definition timed_out (now : Z) (l : list RequestHolder) (tr : list CoapEvent) : Prop :=
  forall h hd, h ∈ l -> is_due now h = true -> kMaxRetransmit <= mRetransmissionCount h ->
    mHandler h = Some hd -> EvResponse (mRequestId h) hd None kTimeout ∈ tr.

Lemma due_count_perm now l l' : Permutation l l' -> due_count now l = due_count now l'.
Proof.
  unfold due_count. induction 1; simpl; try congruence.
  - destruct (is_due now x); simpl; congruence.
  - destruct (is_due now x), (is_due now y); simpl; congruence.
Qed.

Lemma after_timer_twice now n h :
  holder_ok n h -> flat_map (after_timer now) (after_timer now h) = after_timer now h /\
  due_count now (after_timer now h) = 0%nat.
Proof.
  intros Hh. unfold after_timer, due_count. destruct (is_due now h) eqn:E.
  - case_if; [|done]. simpl. unfold after_timer.
    by rewrite (after_timer_next now n h Hh).
  - simpl. unfold after_timer. by rewrite E.
Qed.

Lemma EliminateFront_cons c h l :
  mRequests c = h :: l ->
  exists c1, RequestsCache.EliminateFront c = Ok (h, c1) /\ mRequests c1 = l.
Proof.
  intros El. unfold RequestsCache.EliminateFront. rewrite El.
  destruct (UpdateTimer_spec (with_requests c l (mRetransmissionTimer c))) as (t & -> & _).
  eexists. split; reflexivity.
Qed.

Lemma Retransmit_loop_quiet endpoint_send now fuel : forall c,
  (forall n b, endpoint_send n b = kNone) -> Inv0 True c -> (due_count now (mRequests c) <= fuel)%nat ->
  exists c', Retransmit_loop quiet_handler endpoint_send fuel c now = Ok c' /\
    Permutation (mRequests c') (flat_map (after_timer now) (mRequests c)) /\
    Forall (fun h => now <= mNextTimerShot h) (mRequests c') /\
    timed_out now (mRequests c) (trace c').
Proof.
  induction fuel as [|fuel IH]; intros c Hsend HI Hf; cbn [Retransmit_loop];
    unfold RequestsCache.IsEmpty, RequestsCache.Earliest, RequestsCache.Front;
    destruct (mRequests c) as [|h l] eqn:El.
  1,3: exists c; rewrite El; split_and!; [done|done|constructor|intros h hd Hin; by apply elem_of_nil in Hin].
  all: cbn [mbind outcome_bind]; fold (is_due now h); destruct (is_due now h) eqn:Ed; cbn [negb].
  2,4: destruct HI as ((_ & Hs & _) & _); rewrite El in Hs;
    destruct (sorted_not_due now h l Hs Ed) as [Efm Hall];
    exists c; rewrite El; split_and!; [done|by rewrite Efm|done|];
    intros h' hd Hin Hd'; rewrite Forall_forall in Hall; specialize (Hall h' Hin);
    unfold is_due in Hd'; bool_to_prop; lia.
  - exfalso. unfold due_count in Hf. simpl in Hf. rewrite Ed in Hf. simpl in Hf. lia.
  - destruct (EliminateFront_cons c h l El) as (c1 & Ef & El1). rewrite Ef.
    destruct (EliminateFront_spec True c h c1 HI Ef) as [Htk Hx1].
    pose proof Htk as (_ & _ & _ & Hh & _).
    destruct (Retransmit_one_quiet endpoint_send c1 now h Hsend Htk Ed) as (c2 & E2 & Hp2 & Ht2).
    destruct (Retransmit_one_spec True quiet_handler (fun _ _ => Ok) endpoint_send
      (HP := quiet_preserve True) c1 now h c2 Htk E2) as [(Hc2 & _ & Ha2) Hx2].
    cbn [mbind outcome_bind]. rewrite E2. cbn [mbind outcome_bind].
    destruct (after_timer_twice now _ h Hh) as [Htw Hdc]. rewrite El1 in Hp2.
    destruct (IH c2 Hsend (conj Hc2 Ha2)) as (c' & E' & Hp' & Hall & Hto).
    { rewrite (due_count_perm _ _ _ Hp2). unfold due_count in *. rewrite List.filter_app, length_app, Hdc.
      simpl in Hf. rewrite Ed in Hf. simpl in Hf. lia. }
    exists c'. split_and!; [done| |done|].
    + rewrite Hp', (flat_map_perm _ _ _ Hp2), flat_map_app, Htw. done.
    + intros h' hd Hin Hd' Hcnt Hhd. apply elem_of_cons in Hin as [->|Hin].
      * destruct (Retransmit_loop_spec True quiet_handler (fun _ _ => Ok) endpoint_send
          (HP := quiet_preserve True) fuel c2 now c' (conj Hc2 Ha2) E') as [_ [_ [tr ->]]].
        apply elem_of_app. right. by apply Ht2.
      * apply Hto; [|done..]. rewrite Hp2. apply elem_of_app. by right.
Qed.

(** Retransmission, exactly.  When the timer fires (at the clock of the state)
    the loop ends; every due holder is moved to its next attempt, with count
    plus one and delay doubled, or, after four retransmissions, removed and its
    handler told [kTimeout]; the others are untouched; no holder is left due,
    and the timer is armed for the earliest one. *)
Theorem retransmission_schedule endpoint_send c fuel :
  (forall n b, endpoint_send n b = kNone) -> Inv True c -> mRetransmissionTimer c <> None ->
  (length (mRequests c) <= fuel)%nat ->
  exists c', HandleTimer quiet_handler endpoint_send fuel c = Ok c' /\
    Permutation (mRequests c') (flat_map (after_timer (clock c)) (mRequests c)) /\
    Forall (fun h => clock c <= mNextTimerShot h) (mRequests c') /\
    timed_out (clock c) (mRequests c) (trace c') /\ timer_ok c'.
Proof.
  intros Hsend (Hc & Ht & Ha) Hrun Hf. unfold HandleTimer, Retransmit.
  destruct (mRetransmissionTimer c) as [t0|]; [|done]. simpl clock.
  destruct (Retransmit_loop_quiet endpoint_send (clock c) fuel (with_requests c (mRequests c) None))
    as (c1 & E & Hp & Hall & Hto); [done|by split| |].
  { simpl. etransitivity; [|exact Hf]. unfold due_count.
    clear. induction (mRequests c) as [|x l IH]; simpl; [lia|]. case_if; simpl; lia. }
  rewrite E. cbn [mbind outcome_bind]. destruct (UpdateTimer_spec c1) as (t & Eu & Ht').
  rewrite Eu. eexists; split_and!; [done|exact Hp|exact Hall|exact Hto|exact Ht'].
Qed.

(** Two requests in the cache, the first one due. *)
Definition two_events : list Event :=
  [EvtApi (ApiSendRequest petition (Some 0%nat)); EvtTime 1000;
   EvtApi (ApiSendRequest petition None); EvtTime 3000].
Definition two_requests : Coap := coap_state (run (sample_env all_sent) 5 two_events (Coap_init 7 0)).

Lemma retransmission_schedule_witness :
  exists c', HandleTimer quiet_handler all_sent 2 two_requests = Ok c' /\
    map mNextTimerShot (mRequests two_requests) = [2500; 3500] /\
    Permutation (mRequests c') (flat_map (after_timer (clock two_requests)) (mRequests two_requests)).
Proof.
  destruct (retransmission_schedule all_sent two_requests 2) as (c' & E & Hp & _).
  - done.
  - refine (proj1 (run_preserves (sample_env all_sent) True 5 two_events _ two_requests (Inv_init True 7 0) _)).
    vm_compute. reflexivity.
  - vm_compute. discriminate.
  - vm_compute. repeat constructor.
  - exists c'. split; [exact E|]. split; [vm_compute; reflexivity|exact Hp].
Defined.

(** *** Cancellation *)

Lemma map_id_not_in id f l :
  id ∉ map mRequestId l ->
  map (fun h => if Nat.eqb (mRequestId h) id then f h else h) l = l.
Proof.
  induction l as [|x l IH]; intros H; [done|]. apply not_elem_of_cons in H as [H1 H2]. simpl.
  rewrite (proj2 (Nat.eqb_neq _ _)) by congruence. by rewrite IH.
Qed.

(** Finalizing the front of the container removes just that. *)
Lemma FinalizeRef_front c h l e :
  mRequests c = h :: l -> NoDup (map mRequestId (mRequests c)) ->
  exists c', FinalizeRef quiet_handler c (mRequestId h) None e = Ok c' /\ mRequests c' = l /\
    (forall hd, mHandler h = Some hd -> EvResponse (mRequestId h) hd None e ∈ trace c') /\
    exists tr, trace c' = tr ++ trace c.
Proof.
  intros El Hnd. rewrite El in Hnd. apply NoDup_cons in Hnd as [Hx _].
  unfold FinalizeRef, RequestsCache.find_holder. rewrite El. simpl List.find. rewrite Nat.eqb_refl.
  destruct (mHandler h) as [hd|] eqn:Eh.
  - unfold call_handler, quiet_handler, RequestsCache.IsEmpty, RequestsCache.modify.
    cbn [mbind outcome_bind]. simpl. rewrite El. simpl. rewrite Nat.eqb_refl. simpl.
    rewrite Nat.eqb_refl. unfold RequestsCache.Eliminate.
    match goal with |- context [RequestsCache.UpdateTimer ?x] =>
      destruct (UpdateTimer_spec x) as (t & -> & _) end.
    eexists; split_and!; [done| | |by exists [EvResponse (mRequestId h) hd None e]].
    + simpl. by rewrite Nat.eqb_refl, map_id_not_in.
    + intros hd' [= <-]. simpl. left.
  - unfold RequestsCache.Eliminate. rewrite El. simpl RequestsCache.erase. rewrite Nat.eqb_refl.
    destruct (UpdateTimer_spec (with_requests c l (mRetransmissionTimer c))) as (t & -> & _).
    eexists; split_and!; [done|done|done|by exists []].
Qed.

Definition cancelled (l : list RequestHolder) (tr : list CoapEvent) : Prop :=
  forall h hd, h ∈ l -> mHandler h = Some hd -> EvResponse (mRequestId h) hd None kCancelled ∈ tr.

Lemma CancelRequests_quiet fuel : forall c,
  NoDup (map mRequestId (mRequests c)) -> (length (mRequests c) <= fuel)%nat ->
  exists c', CancelRequests_loop quiet_handler fuel c = Ok c' /\ mRequests c' = [] /\
    cancelled (mRequests c) (trace c') /\ exists tr, trace c' = tr ++ trace c.
Proof.
  induction fuel as [|fuel IH]; intros c Hnd Hf; cbn [CancelRequests_loop];
    unfold RequestsCache.IsEmpty, RequestsCache.Front; destruct (mRequests c) as [|h l] eqn:El.
  1,3: exists c; split_and!; [done|done|intros h hd Hin; by apply elem_of_nil in Hin|by exists []].
  - simpl in Hf. lia.
  - cbn [mbind outcome_bind]. rewrite <- El in Hnd.
    destruct (FinalizeRef_front c h l kCancelled El Hnd) as (c1 & -> & El1 & Ht1 & tr1 & Etr1).
    cbn [mbind outcome_bind]. rewrite El in Hnd. apply NoDup_cons in Hnd as [_ Hnd]. simpl in Hf.
    destruct (IH c1) as (c' & E & Hnil & Hc & tr & Etr); [by rewrite El1|rewrite El1; lia|].
    exists c'. split_and!; [done|done| |exists (tr ++ tr1); by rewrite Etr, Etr1, app_assoc].
    intros h' hd Hin Hh. apply elem_of_cons in Hin as [->|Hin].
    + rewrite Etr. apply elem_of_app. right. by apply Ht1.
    + apply Hc; [by rewrite El1|done].
Qed.

(** [CancelRequests] ends, leaves no request and no timer, and tells every
    armed handler [kCancelled]. *)
Theorem CancelRequests_complete c fuel :
  container_ok c -> timer_ok c -> (length (mRequests c) <= fuel)%nat ->
  exists c', CancelRequests quiet_handler fuel c = Ok c' /\ mRequests c' = [] /\
    mRetransmissionTimer c' = None /\ cancelled (mRequests c) (trace c').
Proof.
  intros Hc Ht Hf. destruct (CancelRequests_quiet fuel c (proj1 Hc) Hf) as (c' & E & Hnil & Hcan & _).
  exists c'. split_and!; [done|done| |done].
  assert (HI : Inv False c) by (by split_and!).
  destruct (CancelRequests_preserves False quiet_handler (fun _ _ => Ok)
    (HP := quiet_preserve False) fuel c c' HI E) as [(_ & Ht' & _) _].
  unfold timer_ok in Ht'. by rewrite Hnil in Ht'.
Qed.

Lemma CancelRequests_complete_witness :
  exists c', CancelRequests quiet_handler 2 two_requests = Ok c' /\ mRequests c' = [] /\
    length (mRequests two_requests) = 2%nat.
Proof.
  pose proof (run_preserves (sample_env all_sent) False 5 two_events _ two_requests
    (Inv_init False 7 0) ltac:(vm_compute; reflexivity)) as [(Hc & Ht & _) _].
  destruct (CancelRequests_complete two_requests 2 Hc Ht) as (c' & E & Hn & _);
    [vm_compute; repeat constructor|].
  exists c'. split; [exact E|]. split; [exact Hn|reflexivity].
Defined.

(** *** Duplicate requests *)

Lemma emplace_member t m l : (t, m) ∈ ResponsesCache.emplace t m l.
Proof. induction l as [|x l IH]; simpl; [left|]. case_if; [left|by right]. Qed.

(** Once a request was answered, a request with the same message id from the
    same endpoint does not reach any handler any more: it is answered from the
    cache, if the cached message can be sent. *)
Theorem duplicate_request_cached run_resource run_resource' endpoint_send c rq rs c1 e dup :
  SendResponse endpoint_send c rq rs = Ok (c1, e) ->
  (GetMessageId rs = 0 \/ GetMessageId rs = GetMessageId rq) ->
  mEndpoint dup = mEndpoint rq -> GetMessageId dup = GetMessageId rq ->
  exists cached, ResponsesCache.Match c1 dup = Some cached /\ mEndpoint cached = mEndpoint dup /\
    GetMessageId cached = GetMessageId dup /\
    (forall uri, GetUriPath dup = Ok uri ->
      HandleRequest run_resource endpoint_send c1 dup = HandleRequest run_resource' endpoint_send c1 dup /\
      forall c2, HandleRequest run_resource endpoint_send c1 dup = Ok c2 ->
        quiet c1 c2 /\ exists s, trace c2 = s ++ trace c1 /\ (length s <= 1)%nat).
Proof.
  intros H Hid Hep Hdup. unfold SendResponse in H.
  set (r0 := if GetMessageId rs =? 0 then _ else rs) in H.
  assert (Hr0 : GetMessageId r0 = GetMessageId rq).
  { unfold r0. destruct (Z.eqb_spec (GetMessageId rs) 0); [done|]. naive_solver. }
  set (r := SetEndpoint (SetTokenBytes r0 (GetToken rq)) (mEndpoint rq)) in H.
  apply bind_ok in H as ([[c' m'] e'] & Hs & H). injection H as <- <-.
  assert (Hin : exists t, (t, r) ∈ mResponses c').
  { unfold Send in Hs. destruct (Serialize r []); simplify_eq; simpl; eexists; apply emplace_member. }
  assert (Hm : ResponsesCache.Match c' dup <> None).
  { unfold ResponsesCache.Match. destruct Hin as (t & Hin).
    destruct (List.find (ResponsesCache.matches dup) (mResponses c')) eqn:Ef; [done|].
    eapply find_none in Ef; [|by apply list_elem_of_In]. unfold ResponsesCache.matches in Ef.
    cbn [snd] in Ef. rewrite bool_decide_eq_true_2 in Ef by (unfold r; simpl; congruence).
    change (GetMessageId r) with (GetMessageId r0) in Ef. rewrite Hr0, Hdup, Z.eqb_refl in Ef. done. }
  destruct (ResponsesCache.Match c' dup) as [cached|] eqn:Ec; [|done].
  exists cached. unfold ResponsesCache.Match in Ec.
  destruct (List.find (ResponsesCache.matches dup) (mResponses c')) as [kv|] eqn:Ef; [|done].
  injection Ec as Ec. apply find_some in Ef as Ef'. destruct Ef' as [_ Ef']. unfold ResponsesCache.matches in Ef'.
  bool_to_prop. subst cached. split_and!; [done..|]. intros uri Huri.
  unfold HandleRequest, ResponsesCache.Match. rewrite Huri, Ef. split; [done|].
  intros c2 H2. apply bind_ok in H2 as ([[c3 m3] e3] & H3 & H2). injection H2 as <-.
  split; [by eapply Send_quiet|]. unfold Send in H3.
  destruct (Serialize kv.2 []); simplify_eq; simpl;
    [eexists [_]; split; [reflexivity|simpl; lia]|exists []; split; [done|simpl; lia]].
Qed.

Definition sample_request : Message :=
  mkMessage (mkHeader 1 0 0 Code.kPost 5 [9; 9]) [(OptionType.kUriPath, str "/c/cp")] [] [] kSubTypeNone (Some 7%nat).
Definition sample_response : Message :=
  mkMessage (mkHeader 1 2 0 Code.kChanged 5 []) [] [] [] kSubTypeNone None.
Definition answered : outcome (Coap * ErrorCode) :=
  SendResponse all_sent (Coap_init 7 0) sample_request sample_response.
Definition answered_state : Coap := match answered with Ok (c, _) => c | _ => Coap_init 7 0 end.

Lemma duplicate_request_cached_witness :
  exists cached, ResponsesCache.Match answered_state sample_request = Some cached /\
    mEndpoint cached = Some 7%nat /\ length (mResponses answered_state) = 1%nat.
Proof.
  destruct (duplicate_request_cached (fun _ _ => Ok) (fun _ _ _ => Die) all_sent (Coap_init 7 0)
    sample_request sample_response answered_state kNone sample_request) as (cached & Hm & He & _).
  - vm_compute. reflexivity.
  - right. vm_compute. reflexivity.
  - reflexivity.
  - reflexivity.
  - exists cached. split; [exact Hm|]. split; [exact He|]. vm_compute. reflexivity.
Defined.
