(* ===== verification/Commissioner.v ===== *)
(** * The commissioner

    [CommissionerImpl] of [src/library/commissioner_impl.{hpp,cpp}] with the
    parts it drives directly: the connection state of the DTLS session of the
    border agent client ([src/library/dtls.cpp], [coap_secure.hpp]) and the
    address logic of the UDP proxy client ([src/library/udp_proxy.cpp]).  The
    commands of commercial commissioning (CCM) are the ones of the build with
    [OT_COMM_CONFIG_CCM_ENABLE]; the signing of requests is the class
    [RequestSigner], which [Ccm.v] implements with the token manager.

    The two CoAP clients are used through what [CoapScript] proves of them: a
    confirmable request that was sent is answered exactly once, by a response
    or by an error, and cancelling answers every request with [kCancelled].  A
    request that was not answered yet is an entry of a list of continuations. *)

From S2P Require Import Prelude Outcome Common Crypto Tlv NetworkData CoapMessage Dataset.
Import Endian Addr Tlv Message Dataset.

(** ** Constants *)

Definition kLeaderAloc16 : Z := 64512.
Definition kPrimaryBbrAloc16 : Z := 64568.
Definition kDefaultMmPort : Z := 61631.
Definition kMinKeepAliveInterval : Z := 30.
Definition kMaxKeepAliveInterval : Z := 45.
Definition kMaxPSKcLength : Z := 16.

Module Uri.
Definition kPetitioning : string_t := str "/c/cp".
Definition kKeepAlive : string_t := str "/c/ca".
Definition kMgmtCommissionerGet : string_t := str "/c/cg".
Definition kMgmtCommissionerSet : string_t := str "/c/cs".
Definition kMgmtActiveGet : string_t := str "/c/ag".
Definition kMgmtActiveSet : string_t := str "/c/as".
Definition kMgmtPendingGet : string_t := str "/c/pg".
Definition kMgmtPendingSet : string_t := str "/c/ps".
Definition kMgmtAnnounceBegin : string_t := str "/c/ab".
Definition kMgmtPanidQuery : string_t := str "/c/pq".
Definition kMgmtEdScan : string_t := str "/c/es".
Definition kMgmtBbrGet : string_t := str "/c/bg".
Definition kMgmtBbrSet : string_t := str "/c/bs".
Definition kMgmtReenroll : string_t := str "/c/re".
Definition kMgmtDomainReset : string_t := str "/c/rt".
Definition kMgmtNetMigrate : string_t := str "/c/nm".
Definition kMgmtSecPendingSet : string_t := str "/c/sp".
Definition kMlr : string_t := str "/n/mr".
End Uri.

(** ** Configuration *)

Record Config : Type := mkConfig {
  mEnableCcm : bool;
  mKeepAliveInterval : Z;              (* in seconds *)
  mDomainName : string_t;
  mId : string_t;
  mPSKc : ByteArray;
  mPrivateKey : ByteArray;
  mCertificate : ByteArray;
  mTrustAnchor : ByteArray }.

Definition ValidateConfig (aConfig : Config) : outcome unit :=
  VerifyOrExit negb (zlen (mId aConfig) =? 0) else kInvalidArgs;;
  VerifyOrExit IsValid (Tlv_bytes kCommissionerId (mId aConfig)) else kInvalidArgs;;
  VerifyOrExit (kMinKeepAliveInterval <=? mKeepAliveInterval aConfig)
               && (mKeepAliveInterval aConfig <=? kMaxKeepAliveInterval) else kInvalidArgs;;
  if mEnableCcm aConfig then
    VerifyOrExit negb (zlen (mDomainName aConfig) =? 0) else kInvalidArgs;;
    VerifyOrExit IsValid (Tlv_bytes kDomainName (mDomainName aConfig)) else kInvalidArgs;;
    VerifyOrExit negb (zlen (mPrivateKey aConfig) =? 0) else kInvalidArgs;;
    VerifyOrExit negb (zlen (mCertificate aConfig) =? 0) else kInvalidArgs;;
    VerifyOrExit negb (zlen (mTrustAnchor aConfig) =? 0) else kInvalidArgs;;
    Ok tt
  else
    VerifyOrExit negb (zlen (mPSKc aConfig) =? 0) else kInvalidArgs;;
    VerifyOrExit zlen (mPSKc aConfig) <=? kMaxPSKcLength else kInvalidArgs;;
    Ok tt.

(** ** State *)

Inductive State : Type := kDisabled | kPetitioning | kActive.
Inductive DtlsState : Type := kOpen | kConnecting | kConnected | kDisconnected.

#[export] Instance State_eq_dec : EqDecision State.
Proof. solve_decision. Defined.
#[export] Instance DtlsState_eq_dec : EqDecision DtlsState.
Proof. solve_decision. Defined.

(** The handlers passed to [Connect]: the user's, or the one [Petition] makes. *)
Inductive ConnectHandler : Type := ConnUser (h : nat) | ConnPetition (h : nat).

(** The handlers passed to [SendRequest], one constructor for each lambda of
    the source; [h] is the handler of the user that the lambda captures. *)
Inductive OnResponse : Type :=
| RspPetition (h : nat)
| RspKeepAlive
| RspState (h : nat)                    (* SetCommissionerDataset, SetActiveDataset, SetPendingDataset *)
| RspCode (h : nat)                     (* AnnounceBegin, PanIdQuery, EnergyScan *)
| RspCommissionerDataset (h : nat)
| RspRawActive (h : nat)
| RspActive (h : nat)
| RspPending (h : nat)
| RspMlr (h : nat)
| RspStateOptional (h : nat)            (* SendProxyMessage, CommandMigrate *)
| RspBbr (h : nat)                      (* GetBbrDataset *)
| RspFetched (h : nat) (timer : Z) (d : PendingDataset.PendingOperationalDataset)  (* SetSecurePendingDataset *)
| RspPrefix (k : OnResponse) (request : Message) (aloc port : Z).  (* ProxyClient::FetchMeshLocalPrefix *)

Inductive Client : Type := BrClient | ProxyClient.

(** What a handler of the user gets. *)
Inductive Result : Type :=
| ResNone
| ResCommissionerId (id : string_t)
| ResCommissionerDataset (d : CommissionerDataset.CommissionerDataset)
| ResBytes (b : ByteArray)
| ResActive (d : ActiveDataset.ActiveOperationalDataset)
| ResPending (d : PendingDataset.PendingOperationalDataset)
| ResStatus (s : Z)
| ResBbr (d : BbrDataset.BbrDataset).

Inductive Output : Type :=
| OutHandler (h : nat) (r : Result) (e : ErrorCode)
| OutKeepAliveResponse (e : ErrorCode)                          (* CommissionerHandler::OnKeepAliveResponse *)
| OutRequest (cl : Client) (dst : option (Address * Z)) (m : Message).

Record Commissioner : Type := mkCommissioner {
  mState : State;
  mSessionId : Z;
  mConfig : Config;
  mKeepAliveTimer : option Z;           (* fire time when running, in milliseconds *)
  mDtls : DtlsState;
  mOnConnected : option ConnectHandler;
  brPending : list OnResponse;
  proxyPending : list OnResponse;
  mMeshLocalPrefix : ByteArray;
  clock : Z;
  nextSend : nat;
  outputs : list Output }.              (* latest first *)

Definition Commissioner_init (aConfig : Config) (now : Z) : Commissioner :=
  mkCommissioner kDisabled 0 aConfig None kOpen None [] [] [] now 0 [].

Definition with_state (c : Commissioner) (s : State) (id : Z) (t : option Z) : Commissioner :=
  mkCommissioner s id (mConfig c) t (mDtls c) (mOnConnected c) (brPending c) (proxyPending c)
    (mMeshLocalPrefix c) (clock c) (nextSend c) (outputs c).
Definition with_dtls (c : Commissioner) (d : DtlsState) (h : option ConnectHandler) : Commissioner :=
  mkCommissioner (mState c) (mSessionId c) (mConfig c) (mKeepAliveTimer c) d h (brPending c) (proxyPending c)
    (mMeshLocalPrefix c) (clock c) (nextSend c) (outputs c).
Definition with_pending (c : Commissioner) (b p : list OnResponse) : Commissioner :=
  mkCommissioner (mState c) (mSessionId c) (mConfig c) (mKeepAliveTimer c) (mDtls c) (mOnConnected c) b p
    (mMeshLocalPrefix c) (clock c) (nextSend c) (outputs c).
Definition with_prefix (c : Commissioner) (p : ByteArray) : Commissioner :=
  mkCommissioner (mState c) (mSessionId c) (mConfig c) (mKeepAliveTimer c) (mDtls c) (mOnConnected c)
    (brPending c) (proxyPending c) p (clock c) (nextSend c) (outputs c).
Definition with_clock (c : Commissioner) (now : Z) (n : nat) : Commissioner :=
  mkCommissioner (mState c) (mSessionId c) (mConfig c) (mKeepAliveTimer c) (mDtls c) (mOnConnected c)
    (brPending c) (proxyPending c) (mMeshLocalPrefix c) now n (outputs c).
Definition out (c : Commissioner) (o : Output) : Commissioner :=
  mkCommissioner (mState c) (mSessionId c) (mConfig c) (mKeepAliveTimer c) (mDtls c) (mOnConnected c)
    (brPending c) (proxyPending c) (mMeshLocalPrefix c) (clock c) (nextSend c) (o :: outputs c).

Definition set_state (c : Commissioner) (s : State) : Commissioner :=
  with_state c s (mSessionId c) (mKeepAliveTimer c).
Definition set_timer (c : Commissioner) (t : option Z) : Commissioner :=
  with_state c (mState c) (mSessionId c) t.

(** What the commissioner uses of commercial commissioning, and of the texts of
    addresses there: [SignRequest] of a request, with or without the token. *)
Class RequestSigner : Type := {
  sign_request : Message -> bool -> outcome Message;
  sign_ntop4 : ByteArray -> option string_t;
  sign_ntop6 : ByteArray -> option string_t }.

Definition IsCcmMode (c : Commissioner) : bool := mEnableCcm (mConfig c).
(** [if (IsCcmMode()) SuccessOrExit(error = SignRequest(request))] *)
Definition SignIfCcm `{RequestSigner} (c : Commissioner) (request : Message) (aAppendToken : bool) : outcome Message :=
  if IsCcmMode c then sign_request request aAppendToken else Ok request.

Definition IsActive (c : Commissioner) : bool := bool_decide (mState c = kActive).
Definition IsConnected (c : Commissioner) : bool := bool_decide (mDtls c = kConnected).
Definition GetKeepAliveInterval (c : Commissioner) : Z := 1000 * mKeepAliveInterval (mConfig c).

(** ** Responses *)

(** The text of the error names the path of the request: [GetRequestUri] asserts that the message is a response, which
    an empty confirmable or non-confirmable message with a known token is not. *)
Definition CheckCoapResponseCode (aResponse : Message) : outcome unit :=
  if GetCode aResponse =? Code.kChanged then Ok tt else _ ← GetRequestUri aResponse; Err kCoapError.

(** [SuccessOrExit(error = aError)] and the access to [*aResponse]. *)
Definition received (aResponse : option Message) (aError : ErrorCode) : outcome Message :=
  if bool_decide (aError = kNone) then
    match aResponse with Some r => Ok r | None => Die end
  else Err aError.

Definition HandleStateResponse (aResponse : option Message) (aError : ErrorCode)
    (aStateTlvIsMandatory : bool) : outcome unit :=
  response ← received aResponse aError;
  _ ← CheckCoapResponseCode response;
  match GetTlv kState (mPayload response) kMeshCoP with
  | None => VerifyOrExit negb aStateTlvIsMandatory else kBadFormat;; Ok tt
  | Some stateTlv =>
      v ← GetValueAsInt8 stateTlv;
      VerifyOrExit v =? kStateAccept else kRejected;; Ok tt
  end.

(** The response of a petition: the session id, or the error and the id of the
    existing commissioner. *)
Definition petition_response (aResponse : option Message) (aError : ErrorCode)
    : outcome (Z + ErrorCode * string_t) :=
  match (response ← received aResponse aError;
         _ ← CheckCoapResponseCode response;
         ParseTlvs (mPayload response) kMeshCoP) with
  | Die => Die
  | Err e => Ok (inr (e, []))
  | Ok tlvSet =>
      match tlvSet !! kState with
      | None => Ok (inr (kBadFormat, []))
      | Some stateTlv =>
          v ← GetValueAsInt8 stateTlv;
          if negb (v =? kStateAccept) then
            Ok (inr (kRejected,
                 match tlvSet !! kCommissionerId with
                 | Some t => if IsValid t then mValue t else [] | None => [] end))
          else
            match tlvSet !! kCommissionerSessionId with
            | None => Ok (inr (kBadFormat, []))
            | Some sessionIdTlv => id ← GetValueAsUint16 sessionIdTlv; Ok (inl id)
            end
      end
  end.

(** The handlers that get a value or an error; none gets both. *)
Definition answer (c : Commissioner) (h : nat) (r : outcome Result) : outcome Commissioner :=
  match r with
  | Ok v => Ok (out c (OutHandler h v kNone))
  | Err e => Ok (out c (OutHandler h ResNone e))
  | Die => Die
  end.

(** The values of the local variables of the decoders that no constructor sets. *)
Section Responses.
Context (channel0 : Channel) (panId0 rotation0 delay0 : Z).

Definition fresh_active (c : Commissioner) : ActiveDataset.ActiveOperationalDataset :=
  ActiveDataset.ActiveOperationalDataset_new (1000 * clock c) channel0 panId0 rotation0.
Definition fresh_pending (c : Commissioner) : PendingDataset.PendingOperationalDataset :=
  PendingDataset.PendingOperationalDataset_new (fresh_active c) delay0.

(** [onResponse] of [GetRawActiveDataset] *)
Definition raw_response (aResponse : option Message) (aError : ErrorCode) : outcome ByteArray :=
  response ← received aResponse aError;
  _ ← CheckCoapResponseCode response;
  Ok (mPayload response).

(** [rawDatasetHandler] of [GetActiveDataset] *)
Definition active_result (c : Commissioner) (raw : outcome ByteArray)
    : outcome ActiveDataset.ActiveOperationalDataset :=
  aRawDataset ← raw;
  DecodeActiveOperationalDataset (fresh_active c) (fresh_active c) aRawDataset.

Definition commissioner_result (aResponse : option Message) (aError : ErrorCode) : outcome Result :=
  response ← received aResponse aError;
  _ ← CheckCoapResponseCode response;
  d ← DecodeCommissionerDataset response;
  Ok (ResCommissionerDataset d).

Definition pending_result (c : Commissioner) (aResponse : option Message) (aError : ErrorCode) : outcome Result :=
  response ← received aResponse aError;
  _ ← CheckCoapResponseCode response;
  d ← DecodePendingOperationalDataset (fresh_active c) (fresh_pending c) response;
  let flags := ActiveDataset.mPresentFlags (PendingDataset.mActive d) in
  VerifyOrExit (flags =? 0) || has flags PendingDataset.kDelayTimerBit else kBadFormat;;
  Ok (ResPending d).

Definition mlr_result (aResponse : option Message) (aError : ErrorCode) : outcome Result :=
  response ← received aResponse aError;
  _ ← CheckCoapResponseCode response;
  match GetTlv kThreadStatus (mPayload response) kThread with
  | None => Err kBadFormat
  | Some statusTlv => v ← GetValueAsUint8 statusTlv; Ok (ResStatus v)
  end.

Definition code_result (aResponse : option Message) (aError : ErrorCode) : outcome Result :=
  response ← received aResponse aError;
  _ ← CheckCoapResponseCode response;
  Ok ResNone.

Definition state_result (aResponse : option Message) (aError : ErrorCode) : outcome Result :=
  _ ← HandleStateResponse aResponse aError true; Ok ResNone.

End Responses.

(** ** The mesh-local prefix of the proxy client *)

Definition kMeshLocalPrefixLength : Z := 8.

Definition SetMeshLocalPrefix (c : Commissioner) (aMeshLocalPrefix : ByteArray) : outcome Commissioner :=
  VerifyOrExit zlen aMeshLocalPrefix =? kMeshLocalPrefixLength else kInvalidArgs;;
  VerifyOrExit (match aMeshLocalPrefix with b :: _ => b =? 253 | [] => false end) else kInvalidArgs;;
  Ok (with_prefix c aMeshLocalPrefix).

(** The lambda of [FetchMeshLocalPrefix]: the result of setting the prefix is
    not looked at. *)
Definition fetch_prefix (c : Commissioner) (aActiveDataset : ActiveDataset.ActiveOperationalDataset) : Commissioner :=
  if has (ActiveDataset.mPresentFlags aActiveDataset) ActiveDataset.kMeshLocalPrefixBit
  then match SetMeshLocalPrefix c (ActiveDataset.mMeshLocalPrefix aActiveDataset) with Ok c => c | _ => c end
  else c.

Definition GetAnycastLocator (c : Commissioner) (aAloc16 : Z) : outcome Address :=
  VerifyOrDie negb (zlen (mMeshLocalPrefix c) =? 0);;
  let alocAddr := Encode 2 (mMeshLocalPrefix c) 0 in
  let alocAddr := Encode 2 alocAddr 255 in
  let alocAddr := Encode 2 alocAddr 65024 in
  let alocAddr := Encode 2 alocAddr aAloc16 in
  match SetRaw alocAddr with Ok a => Ok a | _ => Die end.

(** ** Operations *)

Section Commissioner.
Context (inet_pton4 inet_pton6 : string_t -> option ByteArray).
Context (channel0 : Channel) (panId0 rotation0 delay0 : Z).
(** The result of the n-th datagram handed to the connected DTLS session. *)
Context (env_send : nat -> ErrorCode).
Context `{HSign : RequestSigner}.

(** A request: confirmable POST to a path. *)
Definition new_request (aUri : string_t) : outcome Message :=
  SetUriPath (Message_new CoapMessage.kConfirmable Code.kPost) aUri.

Definition AppendSessionId (c : Commissioner) (m : Message) : outcome Message :=
  AppendTlv m (Tlv_u16 kCommissionerSessionId (mSessionId c)).

Section Step.
(** Calling a continuation, and a bound on the requests to cancel. *)
Context (respond : OnResponse -> option Message -> ErrorCode -> Commissioner -> outcome Commissioner).
Context (fuel : nat).

(** [DtlsSession::Send], as the two CoAP clients see it. *)
Definition dtls_send (c : Commissioner) : ErrorCode * Commissioner :=
  if IsConnected c then (env_send (nextSend c), with_clock c (clock c) (S (nextSend c)))
  else (kInvalidState, c).

(** [mBrClient.SendRequest] *)
Definition br_SendRequest (c : Commissioner) (aRequest : Message) (aHandler : OnResponse) : outcome Commissioner :=
  let '(error, c) := dtls_send c in
  if bool_decide (error = kNone) then
    let c := out c (OutRequest BrClient None aRequest) in
    if IsConfirmable aRequest then Ok (with_pending c (brPending c ++ [aHandler]) (proxyPending c)) else Ok c
  else respond aHandler None error c.

(** [ProxyEndpoint::Send]: whether the UDP_TX.ntf itself could be sent is not
    seen by the proxied request, since it has no handler. *)
Definition proxy_send (c : Commissioner) : ErrorCode * Commissioner :=
  if IsConnected c then (kNone, snd (dtls_send c)) else (kInvalidState, c).

(** [mProxyClient.SendRequest] to an address *)
Definition proxy_SendRequest (c : Commissioner) (aRequest : Message) (aHandler : OnResponse)
    (aPeerAddr : Address) (aPeerPort : Z) : outcome Commissioner :=
  VerifyOrDie Addr.IsValid aPeerAddr && IsIpv6 aPeerAddr;;
  let '(error, c) := proxy_send c in
  if bool_decide (error = kNone) then
    let c := out c (OutRequest ProxyClient (Some (aPeerAddr, aPeerPort)) aRequest) in
    if IsConfirmable aRequest then Ok (with_pending c (brPending c) (proxyPending c ++ [aHandler])) else Ok c
  else respond aHandler None error c.

(** *** Datasets of the border agent *)

(** The request of [GetRawActiveDataset]; [aHandler] gets the response. *)
Definition raw_active_request (c : Commissioner) (aDatasetFlags : Z) : outcome Message :=
  let datasetList := GetActiveOperationalDatasetTlvs aDatasetFlags in
  VerifyOrExit IsActive c else kInvalidState;;
  request ← new_request Uri.kMgmtActiveGet;
  request ← (if negb (zlen datasetList =? 0) then AppendTlv request (Tlv_bytes kGet datasetList) else Ok request);
  SignIfCcm c request true.

(** [exit:] of the operations that tell their handler an error: the handler is
    the lambda [k], which forwards the error to the user. *)
Definition send_or_report {R} (c : Commissioner) (request : outcome R) (k : OnResponse)
    (send : Commissioner -> R -> outcome Commissioner) : outcome Commissioner :=
  match request with
  | Ok request => send c request
  | Err e => respond k None e c
  | Die => Die
  end.

Definition GetRawActiveDataset (c : Commissioner) (aHandler : OnResponse) (aDatasetFlags : Z) : outcome Commissioner :=
  send_or_report c (raw_active_request c aDatasetFlags) aHandler
    (fun c request => br_SendRequest c request aHandler).

(** [mProxyClient.SendRequest] to an anycast locator *)
Definition proxy_SendRequest_aloc (c : Commissioner) (aRequest : Message) (aHandler : OnResponse)
    (aPeerAloc16 aPeerPort : Z) : outcome Commissioner :=
  if zlen (mMeshLocalPrefix c) =? 0 then
    GetRawActiveDataset c (RspPrefix aHandler aRequest aPeerAloc16 aPeerPort) ActiveDataset.kMeshLocalPrefixBit
  else
    addr ← GetAnycastLocator c aPeerAloc16;
    proxy_SendRequest c aRequest aHandler addr aPeerPort.

(** *** Petition and keep-alive *)

Definition petition_request (c : Commissioner) : outcome Message :=
  VerifyOrExit bool_decide (mState c = kDisabled) else kInvalidState;;
  request ← new_request Uri.kPetitioning;
  request ← AppendTlv request (Tlv_bytes kCommissionerId (mId (mConfig c)));
  SignIfCcm c request true.

Definition SendPetition (c : Commissioner) (h : nat) : outcome Commissioner :=
  match petition_request c with
  | Ok request => br_SendRequest (set_state c kPetitioning) request (RspPetition h)
  | Err e => Ok (out c (OutHandler h ResNone e))
  | Die => Die
  end.

(** A connect handler is called. *)
Definition call_connected (c : Commissioner) (aHandler : ConnectHandler) (aError : ErrorCode) : outcome Commissioner :=
  match aHandler with
  | ConnUser h => Ok (out c (OutHandler h ResNone aError))
  | ConnPetition h =>
      if bool_decide (aError = kNone) then SendPetition c h else Ok (out c (OutHandler h ResNone aError))
  end.

(** [DtlsSession::Connect] *)
Definition dtls_Connect (c : Commissioner) (aOnConnected : ConnectHandler) : outcome Commissioner :=
  VerifyOrDie bool_decide (mDtls c = kOpen);;
  Ok (with_dtls c kConnecting (Some aOnConnected)).

(** [DtlsSession::Disconnect], with [Reset]. *)
Definition dtls_Disconnect (c : Commissioner) (aError : ErrorCode) : outcome Commissioner :=
  match mDtls c with
  | kConnecting | kConnected =>
      let c := with_dtls c kDisconnected (mOnConnected c) in
      c ← match mOnConnected c with
          | Some h => c ← call_connected c h aError; Ok (with_dtls c (mDtls c) None)
          | None => Ok c
          end;
      Ok (with_dtls c kOpen (mOnConnected c))
  | _ => Ok c
  end.

(** [CoapSecure::Connect]; [socket] is the result of [UdpSocket::Connect].  That a failure also takes the
    descriptor from a session that is connected is followed in [Socket], not here. *)
Definition CoapSecure_Connect (c : Commissioner) (aHandler : ConnectHandler) (socket : bool) : outcome Commissioner :=
  if socket then dtls_Connect c aHandler else call_connected c aHandler kIOError.

(** [mCoap.CancelRequests] of the two clients *)
Fixpoint br_Cancel (n : nat) (c : Commissioner) : outcome Commissioner :=
  match brPending c with
  | [] => Ok c
  | k :: l =>
      match n with
      | O => Die
      | S n => c ← respond k None kCancelled (with_pending c l (proxyPending c)); br_Cancel n c
      end
  end.
Fixpoint proxy_Cancel (n : nat) (c : Commissioner) : outcome Commissioner :=
  match proxyPending c with
  | [] => Ok c
  | k :: l =>
      match n with
      | O => Die
      | S n => c ← respond k None kCancelled (with_pending c (brPending c) l); proxy_Cancel n c
      end
  end.

Definition CancelRequests (c : Commissioner) : outcome Commissioner :=
  c ← proxy_Cancel fuel c; br_Cancel fuel c.

Definition Disconnect (c : Commissioner) : outcome Commissioner :=
  c ← dtls_Disconnect c kCancelled;
  c ← br_Cancel fuel c;
  Ok (set_state (with_prefix c []) kDisabled).

Definition keep_alive_request (c : Commissioner) (aKeepAlive : bool) : outcome Message :=
  let state := if aKeepAlive then kStateAccept else kStateReject in
  VerifyOrExit IsActive c else kInvalidState;;
  request ← new_request Uri.kKeepAlive;
  request ← AppendTlv request (Tlv_u8 kState state);
  request ← AppendSessionId c request;
  SignIfCcm c request false.

Definition SendKeepAlive (c : Commissioner) (aKeepAlive : bool) : outcome Commissioner :=
  match keep_alive_request c aKeepAlive with
  | Ok request =>
      br_SendRequest (set_timer c (Some (clock c + GetKeepAliveInterval c))) request RspKeepAlive
  | Err _ => Disconnect c
  | Die => Die
  end.

(** [Resign] up to the call of its handler. *)
Definition Resign_body (c : Commissioner) : outcome Commissioner :=
  c ← (if IsActive c then SendKeepAlive c false else Ok c);
  Disconnect (set_timer c None).

(** *** Commands of commercial commissioning *)

Definition secure_pending_request (c : Commissioner) (aMaxRetrievalTimer : Z)
    (aDataset : PendingDataset.PendingOperationalDataset) (pbbrAddr : Address) : outcome Message :=
  request ← new_request Uri.kMgmtSecPendingSet;
  request ← AppendSessionId c request;
  let uri := str "coaps://[" ++ ToString sign_ntop4 sign_ntop6 pbbrAddr ++ str "]" ++ Uri.kMgmtPendingGet in
  let secureDissemination := Encode 8 [] (Timestamp.Encode (PendingDataset.mPendingTimestamp aDataset)) in
  let secureDissemination := Encode 4 secureDissemination aMaxRetrievalTimer ++ uri in
  request ← AppendTlv request (Tlv_bytes kSecureDissemination secureDissemination);
  request ← EncodePendingOperationalDataset request aDataset;
  SignIfCcm c request true.

Definition secure_pending_guard (c : Commissioner) (aDataset : PendingDataset.PendingOperationalDataset) : outcome unit :=
  VerifyOrExit has (ActiveDataset.mPresentFlags (PendingDataset.mActive aDataset)) PendingDataset.kDelayTimerBit else kInvalidArgs;;
  VerifyOrExit IsActive c else kInvalidState;;
  VerifyOrExit IsCcmMode c else kInvalidState;;
  Ok tt.

Definition SetSecurePendingDataset (c : Commissioner) (h : nat) (aMaxRetrievalTimer : Z)
    (aDataset : PendingDataset.PendingOperationalDataset) : outcome Commissioner :=
  match secure_pending_guard c aDataset with
  | Die => Die
  | Err e => Ok (out c (OutHandler h ResNone e))
  | Ok _ =>
      if zlen (mMeshLocalPrefix c) =? 0 then
        GetRawActiveDataset c (RspFetched h aMaxRetrievalTimer aDataset) ActiveDataset.kMeshLocalPrefixBit
      else
        pbbrAddr ← GetAnycastLocator c kPrimaryBbrAloc16;
        send_or_report c (secure_pending_request c aMaxRetrievalTimer aDataset pbbrAddr) (RspState h)
          (fun c request => proxy_SendRequest c request (RspState h) pbbrAddr kDefaultMmPort)
  end.

End Step.

(** *** The continuations *)

Definition respond_step (respond : OnResponse -> option Message -> ErrorCode -> Commissioner -> outcome Commissioner)
    (fuel : nat) (k : OnResponse) (aResponse : option Message) (aError : ErrorCode) (c : Commissioner)
    : outcome Commissioner :=
  match k with
  | RspPetition h =>
      r ← petition_response aResponse aError;
      match r with
      | inl id =>
          let c := with_state c kActive id (Some (clock c + GetKeepAliveInterval c)) in
          Ok (out c (OutHandler h ResNone kNone))
      | inr (e, existing) =>
          Ok (out (set_state c kDisabled)
                (OutHandler h (match existing with [] => ResNone | _ => ResCommissionerId existing end) e))
      end
  | RspKeepAlive =>
      match HandleStateResponse aResponse aError true with
      | Ok _ =>
          let c := set_timer c (Some (clock c + GetKeepAliveInterval c)) in
          Ok (out c (OutKeepAliveResponse kNone))
      | Err e => c ← Resign_body respond fuel (set_state c kDisabled); Ok (out c (OutKeepAliveResponse e))
      | Die => Die
      end
  | RspState h => answer c h (state_result aResponse aError)
  | RspCode h => answer c h (code_result aResponse aError)
  | RspCommissionerDataset h => answer c h (commissioner_result aResponse aError)
  | RspRawActive h => answer c h (b ← raw_response aResponse aError; Ok (ResBytes b))
  | RspActive h =>
      answer c h (d ← active_result channel0 panId0 rotation0 c (raw_response aResponse aError); Ok (ResActive d))
  | RspPending h => answer c h (pending_result channel0 panId0 rotation0 delay0 c aResponse aError)
  | RspMlr h => answer c h (mlr_result aResponse aError)
  | RspStateOptional h => answer c h (_ ← HandleStateResponse aResponse aError false; Ok ResNone)
  | RspBbr h =>
      answer c h (response ← received aResponse aError; _ ← CheckCoapResponseCode response;
                  d ← DecodeBbrDataset sign_ntop4 sign_ntop6 response; Ok (ResBbr d))
  | RspFetched h timer dataset =>
      match active_result channel0 panId0 rotation0 c (raw_response aResponse aError) with
      | Die => Die
      | Err e => Ok (out c (OutHandler h ResNone e))
      | Ok d => SetSecurePendingDataset respond (fetch_prefix c d) h timer dataset
      end
  | RspPrefix k request aloc port =>
      match active_result channel0 panId0 rotation0 c (raw_response aResponse aError) with
      | Die => Die
      | Err e => respond k None e c
      | Ok d =>
          let c := fetch_prefix c d in
          addr ← GetAnycastLocator c aloc;
          proxy_SendRequest respond c request k addr port
      end
  end.

Fixpoint respond (fuel : nat) (k : OnResponse) (aResponse : option Message) (aError : ErrorCode)
    (c : Commissioner) : outcome Commissioner :=
  match fuel with
  | O => Die
  | S fuel => respond_step (respond fuel) fuel k aResponse aError c
  end.

(** *** The public interface *)

Inductive Api : Type :=
| ApiConnect (h : nat) (socket : bool)
| ApiDisconnect
| ApiPetition (h : nat) (socket : bool)
| ApiResign (h : nat)
| ApiCancelRequests
| ApiGetCommissionerDataset (h : nat) (flags : Z)
| ApiSetCommissionerDataset (h : nat) (d : CommissionerDataset.CommissionerDataset)
| ApiGetRawActiveDataset (h : nat) (flags : Z)
| ApiGetActiveDataset (h : nat) (flags : Z)
| ApiSetActiveDataset (h : nat) (d : ActiveDataset.ActiveOperationalDataset)
| ApiGetPendingDataset (h : nat) (flags : Z)
| ApiSetPendingDataset (h : nat) (d : PendingDataset.PendingOperationalDataset)
| ApiRegisterMulticastListener (h : nat) (addrs : list string_t) (timeout : Z)
| ApiAnnounceBegin (h : nat) (mask count period : Z) (dst : string_t)
| ApiPanIdQuery (h : nat) (mask panId : Z) (dst : string_t)
| ApiEnergyScan (h : nat) (mask count period duration : Z) (dst : string_t)
| ApiSetBbrDataset (h : nat) (d : BbrDataset.BbrDataset)
| ApiGetBbrDataset (h : nat) (flags : Z)
| ApiSetSecurePendingDataset (h : nat) (timer : Z) (d : PendingDataset.PendingOperationalDataset)
| ApiCommandReenroll (h : nat) (dst : string_t)
| ApiCommandDomainReset (h : nat) (dst : string_t)
| ApiCommandMigrate (h : nat) (dst name : string_t).

Section Interface.
Context (fuel : nat).
Let rsp := respond fuel.

Definition Petition (c : Commissioner) (h : nat) (socket : bool) : outcome Commissioner :=
  if IsActive c then Ok (out c (OutHandler h ResNone kInvalidState))
  else if IsConnected c then SendPetition rsp c h
  else CoapSecure_Connect rsp c (ConnPetition h) socket.

Definition Resign (c : Commissioner) (h : nat) : outcome Commissioner :=
  c ← Resign_body rsp fuel c; Ok (out c (OutHandler h ResNone kNone)).

Definition GetCommissionerDataset (c : Commissioner) (h : nat) (aDatasetFlags : Z) : outcome Commissioner :=
  let tlvTypes := GetCommissionerDatasetTlvs aDatasetFlags in
  match new_request Uri.kMgmtCommissionerGet with
  | Die => Die
  | Err e => Ok (out c (OutHandler h ResNone e))
  | Ok request =>
      if negb (zlen tlvTypes =? 0) then
        match AppendTlv request (Tlv_bytes kGet tlvTypes) with
        | Ok request => proxy_SendRequest_aloc rsp c request (RspCommissionerDataset h) kLeaderAloc16 kDefaultMmPort
        | Err _ => Ok c
        | Die => Die
        end
      else proxy_SendRequest_aloc rsp c request (RspCommissionerDataset h) kLeaderAloc16 kDefaultMmPort
  end.

(** The requests of the operations; an error is what the handler is told. *)
Definition set_commissioner_request (c : Commissioner) (aDataset : CommissionerDataset.CommissionerDataset)
    : outcome Message :=
  let (bl, si, sd, ae, nm, jp, ap, np, flags) := aDataset in
  let flags := Z.ldiff flags CommissionerDataset.kSessionIdBit in
  let flags := Z.ldiff flags CommissionerDataset.kBorderAgentLocatorBit in
  VerifyOrExit negb (flags =? 0) else kInvalidArgs;;
  request ← new_request Uri.kMgmtCommissionerSet;
  request ← AppendSessionId c request;
  request ← EncodeCommissionerDataset request (CommissionerDataset.mkDataset bl si sd ae nm jp ap np flags);
  SignIfCcm c request true.

Definition set_active_request (c : Commissioner) (aDataset : ActiveDataset.ActiveOperationalDataset) : outcome Message :=
  let flags := ActiveDataset.mPresentFlags aDataset in
  VerifyOrExit has flags ActiveDataset.kActiveTimestampBit else kInvalidArgs;;
  VerifyOrExit Z.land flags ActiveDataset.kChannelBit =? 0 else kInvalidArgs;;
  VerifyOrExit Z.land flags ActiveDataset.kPanIdBit =? 0 else kInvalidArgs;;
  VerifyOrExit Z.land flags ActiveDataset.kMeshLocalPrefixBit =? 0 else kInvalidArgs;;
  VerifyOrExit Z.land flags ActiveDataset.kNetworkMasterKeyBit =? 0 else kInvalidArgs;;
  VerifyOrExit IsActive c else kInvalidState;;
  request ← new_request Uri.kMgmtActiveSet;
  request ← AppendSessionId c request;
  request ← EncodeActiveOperationalDataset request aDataset;
  SignIfCcm c request true.

Definition get_pending_request (c : Commissioner) (aDatasetFlags : Z) : outcome Message :=
  let datasetList := GetPendingOperationalDatasetTlvs aDatasetFlags in
  VerifyOrExit IsActive c else kInvalidState;;
  request ← new_request Uri.kMgmtPendingGet;
  request ← (if negb (zlen datasetList =? 0) then AppendTlv request (Tlv_bytes kGet datasetList) else Ok request);
  SignIfCcm c request true.

Definition set_pending_request (c : Commissioner) (aDataset : PendingDataset.PendingOperationalDataset) : outcome Message :=
  let flags := ActiveDataset.mPresentFlags (PendingDataset.mActive aDataset) in
  VerifyOrExit has flags ActiveDataset.kActiveTimestampBit else kInvalidArgs;;
  VerifyOrExit has flags PendingDataset.kPendingTimestampBit else kInvalidArgs;;
  VerifyOrExit has flags PendingDataset.kDelayTimerBit else kInvalidArgs;;
  VerifyOrExit IsActive c else kInvalidState;;
  request ← new_request Uri.kMgmtPendingSet;
  request ← AppendSessionId c request;
  request ← EncodePendingOperationalDataset request aDataset;
  SignIfCcm c request true.

(** The loop over the multicast addresses. *)
Fixpoint raw_addresses (l : list string_t) (rawAddresses : ByteArray) : outcome ByteArray :=
  match l with
  | [] => Ok rawAddresses
  | addr :: l =>
      multicastAddr ← SetString inet_pton4 inet_pton6 addr;
      VerifyOrExit IsIpv6 multicastAddr && IsMulticast multicastAddr else kInvalidArgs;;
      raw_addresses l (rawAddresses ++ multicastAddr)
  end.

Definition mlr_request (c : Commissioner) (aMulticastAddrList : list string_t) (aTimeout : Z) : outcome Message :=
  VerifyOrExit negb (zlen aMulticastAddrList =? 0) else kInvalidArgs;;
  rawAddresses ← raw_addresses aMulticastAddrList [];
  VerifyOrExit IsActive c else kInvalidState;;
  request ← new_request Uri.kMlr;
  request ← AppendTlv request (mkTlv kThread kThreadCommissionerSessionId (Encode 2 [] (mSessionId c)));
  request ← AppendTlv request (mkTlv kThread kThreadTimeout (Encode 4 [] aTimeout));
  request ← AppendTlv request (mkTlv kThread kThreadIpv6Addresses rawAddresses);
  SignIfCcm c request true.

(** The common part of [AnnounceBegin], [PanIdQuery] and [EnergyScan]: the
    message type chosen for the destination, and the request with the TLVs
    behind the channel mask. *)
Definition announce_type (dstAddr : Address) : CoapMessage.CoapType :=
  if IsMulticast dstAddr then CoapMessage.kNonConfirmable else CoapMessage.kConfirmable.

Fixpoint append_all (request : Message) (tlvs : list Tlv.Tlv) : outcome Message :=
  match tlvs with [] => Ok request | t :: tlvs => request ← AppendTlv request t; append_all request tlvs end.

Definition announce_request (c : Commissioner) (aUri : string_t) (aType : CoapMessage.CoapType) (aChannelMask : Z)
    (tlvs : list Tlv.Tlv) : outcome Message :=
  VerifyOrExit IsActive c else kInvalidState;;
  request ← SetUriPath (Message_new aType Code.kPost) aUri;
  request ← AppendSessionId c request;
  channelMask ← MakeChannelMask [] aChannelMask;
  request ← AppendTlv request (Tlv_bytes kChannelMask channelMask);
  request ← append_all request tlvs;
  SignIfCcm c request true.

(** The three operations.  Their [exit:] calls the handler when there is an
    error or the request is non-confirmable; [error] stays [kNone] when the
    request was handed to the client, whatever became of it. *)
Definition announce (c : Commissioner) (h : nat) (aUri : string_t) (aChannelMask : Z) (tlvs : list Tlv.Tlv)
    (aDstAddr : string_t) : outcome Commissioner :=
  match SetString inet_pton4 inet_pton6 aDstAddr with
  | Die => Die
  | Err e => Ok (out c (OutHandler h ResNone e))
  | Ok dstAddr =>
      match announce_request c aUri (announce_type dstAddr) aChannelMask tlvs with
      | Die => Die
      | Err e => Ok (out c (OutHandler h ResNone e))
      | Ok request =>
          c ← proxy_SendRequest rsp c request (RspCode h) dstAddr kDefaultMmPort;
          if IsNonConfirmable request then Ok (out c (OutHandler h ResNone kNone)) else Ok c
      end
  end.

Definition AnnounceBegin (c : Commissioner) (h : nat) (aChannelMask aCount aPeriod : Z) (aDstAddr : string_t) :=
  announce c h Uri.kMgmtAnnounceBegin aChannelMask [Tlv_u8 kCount aCount; Tlv_u16 kPeriod aPeriod] aDstAddr.
Definition PanIdQuery (c : Commissioner) (h : nat) (aChannelMask aPanId : Z) (aDstAddr : string_t) :=
  announce c h Uri.kMgmtPanidQuery aChannelMask [Tlv_u16 kPanId aPanId] aDstAddr.
Definition EnergyScan (c : Commissioner) (h : nat) (aChannelMask aCount aPeriod aScanDuration : Z) (aDstAddr : string_t) :=
  announce c h Uri.kMgmtEdScan aChannelMask
    [Tlv_u8 kCount aCount; Tlv_u16 kPeriod aPeriod; Tlv_u16 kScanDuration aScanDuration] aDstAddr.

(** *** Commands of commercial commissioning *)

Definition ccm_guard (c : Commissioner) : outcome unit :=
  VerifyOrExit IsActive c else kInvalidState;;
  VerifyOrExit IsCcmMode c else kInvalidState;;
  Ok tt.

Definition set_bbr_request (c : Commissioner) (aDataset : BbrDataset.BbrDataset) : outcome Message :=
  _ ← ccm_guard c;
  VerifyOrExit Z.land (BbrDataset.mPresentFlags aDataset) BbrDataset.kRegistrarIpv6AddrBit =? 0 else kInvalidArgs;;
  request ← new_request Uri.kMgmtBbrSet;
  request ← AppendSessionId c request;
  request ← EncodeBbrDataset inet_pton4 inet_pton6 request aDataset;
  SignIfCcm c request true.

Definition get_bbr_request (c : Commissioner) (aDatasetFlags : Z) : outcome Message :=
  let datasetList := GetBbrDatasetTlvs aDatasetFlags in
  _ ← ccm_guard c;
  request ← new_request Uri.kMgmtBbrGet;
  if negb (zlen datasetList =? 0) then AppendTlv request (Tlv_bytes kGet datasetList) else Ok request.

(** A request to an address given as text. *)
Definition to_address (c : Commissioner) (h : nat) (aDstAddr : string_t) (request : outcome Message) : outcome Commissioner :=
  send_or_report rsp c (dstAddr ← SetString inet_pton4 inet_pton6 aDstAddr; request ← request; Ok (dstAddr, request))
    (RspStateOptional h)
    (fun c r => proxy_SendRequest rsp c r.2 (RspStateOptional h) r.1 kDefaultMmPort).

Definition proxy_message (c : Commissioner) (aUriPath : string_t) : outcome Message :=
  request ← new_request aUriPath;
  request ← AppendSessionId c request;
  SignIfCcm c request true.

Definition SendProxyMessage (c : Commissioner) (h : nat) (aDstAddr aUriPath : string_t) : outcome Commissioner :=
  to_address c h aDstAddr (proxy_message c aUriPath).

(** [CommandReenroll] and [CommandDomainReset] *)
Definition guarded_message (c : Commissioner) (h : nat) (aDstAddr aUriPath : string_t) : outcome Commissioner :=
  match ccm_guard c with
  | Ok _ => SendProxyMessage c h aDstAddr aUriPath
  | Err e => Ok (out c (OutHandler h ResNone e))
  | Die => Die
  end.
Definition CommandReenroll (c : Commissioner) (h : nat) (aDstAddr : string_t) : outcome Commissioner :=
  guarded_message c h aDstAddr Uri.kMgmtReenroll.
Definition CommandDomainReset (c : Commissioner) (h : nat) (aDstAddr : string_t) : outcome Commissioner :=
  guarded_message c h aDstAddr Uri.kMgmtDomainReset.

Definition migrate_request (c : Commissioner) (aDstNetworkName : string_t) : outcome Message :=
  VerifyOrExit zlen aDstNetworkName <=? Pbkdf2.kMaxNetworkNameLength else kInvalidArgs;;
  request ← new_request Uri.kMgmtNetMigrate;
  request ← AppendSessionId c request;
  request ← AppendTlv request (Tlv_bytes kNetworkName aDstNetworkName);
  SignIfCcm c request true.

Definition CommandMigrate (c : Commissioner) (h : nat) (aDstAddr aDstNetworkName : string_t) : outcome Commissioner :=
  match ccm_guard c with
  | Ok _ => to_address c h aDstAddr (migrate_request c aDstNetworkName)
  | Err e => Ok (out c (OutHandler h ResNone e))
  | Die => Die
  end.

(** Send to an anycast locator, or tell the handler the error. *)
Definition to_aloc (c : Commissioner) (request : outcome Message) (k : OnResponse) (aloc : Z) : outcome Commissioner :=
  send_or_report rsp c request k
    (fun c request => proxy_SendRequest_aloc rsp c request k aloc kDefaultMmPort).

Definition do_api (a : Api) (c : Commissioner) : outcome Commissioner :=
  match a with
  | ApiConnect h socket => CoapSecure_Connect rsp c (ConnUser h) socket
  | ApiDisconnect => Disconnect rsp fuel c
  | ApiPetition h socket => Petition c h socket
  | ApiResign h => Resign c h
  | ApiCancelRequests => CancelRequests rsp fuel c
  | ApiGetCommissionerDataset h flags => GetCommissionerDataset c h flags
  | ApiSetCommissionerDataset h d => to_aloc c (set_commissioner_request c d) (RspState h) kLeaderAloc16
  | ApiGetRawActiveDataset h flags => GetRawActiveDataset rsp c (RspRawActive h) flags
  | ApiGetActiveDataset h flags => GetRawActiveDataset rsp c (RspActive h) flags
  | ApiSetActiveDataset h d => to_aloc c (set_active_request c d) (RspState h) kLeaderAloc16
  | ApiGetPendingDataset h flags => to_aloc c (get_pending_request c flags) (RspPending h) kLeaderAloc16
  | ApiSetPendingDataset h d => to_aloc c (set_pending_request c d) (RspState h) kLeaderAloc16
  | ApiRegisterMulticastListener h addrs timeout => to_aloc c (mlr_request c addrs timeout) (RspMlr h) kPrimaryBbrAloc16
  | ApiAnnounceBegin h mask count period dst => AnnounceBegin c h mask count period dst
  | ApiPanIdQuery h mask panId dst => PanIdQuery c h mask panId dst
  | ApiEnergyScan h mask count period duration dst => EnergyScan c h mask count period duration dst
  | ApiSetBbrDataset h d => to_aloc c (set_bbr_request c d) (RspState h) kLeaderAloc16
  | ApiGetBbrDataset h flags => to_aloc c (get_bbr_request c flags) (RspBbr h) kLeaderAloc16
  | ApiSetSecurePendingDataset h timer d => SetSecurePendingDataset rsp c h timer d
  | ApiCommandReenroll h dst => CommandReenroll c h dst
  | ApiCommandDomainReset h dst => CommandDomainReset c h dst
  | ApiCommandMigrate h dst name => CommandMigrate c h dst name
  end.

(** *** Events *)

Inductive Event : Type :=
| EvtApi (a : Api)
| EvtHandshakeOver                      (* DtlsSession::Handshake completes *)
| EvtDtlsError (e : ErrorCode)          (* DtlsSession::HandleEvent stops on an error *)
| EvtResponse (cl : Client) (i : nat) (response : option Message) (error : ErrorCode)
| EvtTime (now : Z)
| EvtKeepAliveTimer.

(** The end of the handshake, in [DtlsSession::Handshake]. *)
Definition handshake_over (c : Commissioner) : outcome Commissioner :=
  match mDtls c with
  | kConnecting =>
      let c := with_dtls c kConnected (mOnConnected c) in
      match mOnConnected c with
      | Some h => c ← call_connected rsp c h kNone; Ok (with_dtls c (mDtls c) None)
      | None => Ok c
      end
  | _ => Ok c
  end.

(** A client calls the handler of its [i]-th pending request. *)
Definition deliver (c : Commissioner) (cl : Client) (i : nat) (response : option Message) (error : ErrorCode)
    : outcome Commissioner :=
  let pending := match cl with BrClient => brPending c | ProxyClient => proxyPending c end in
  match pending !! i with
  | None => Ok c
  | Some k =>
      let rest := take i pending ++ drop (S i) pending in
      rsp k response error
        (match cl with
         | BrClient => with_pending c rest (proxyPending c)
         | ProxyClient => with_pending c (brPending c) rest
         end)
  end.

(** The keep-alive timer is single-shot: it is not running when its action is
    called. *)
Definition keep_alive_timer (c : Commissioner) : outcome Commissioner :=
  match mKeepAliveTimer c with
  | Some t => if t <=? clock c then SendKeepAlive rsp fuel (set_timer c None) true else Ok c
  | None => Ok c
  end.

Definition step (e : Event) (c : Commissioner) : outcome Commissioner :=
  match e with
  | EvtApi a => do_api a c
  | EvtHandshakeOver => handshake_over c
  | EvtDtlsError e => if bool_decide (e = kNone) then Ok c else dtls_Disconnect rsp c e
  | EvtResponse cl i response error => deliver c cl i response error
  | EvtTime now => Ok (with_clock c (Z.max (clock c) now) (nextSend c))
  | EvtKeepAliveTimer => keep_alive_timer c
  end.

Fixpoint run (l : list Event) (c : Commissioner) : outcome Commissioner :=
  match l with [] => Ok c | e :: l => c ← step e c; run l c end.

End Interface.
End Commissioner.
