(* ===== verification/CommissionerInvariant.v ===== *)
(** * Properties of the commissioner

    The state machine of petition and keep-alive in every reachable state, the
    accounting of the user's handlers, the guards of the management commands,
    and the ways to leave the active state. *)

From S2P Require Import Prelude Outcome Common Tlv NetworkData CoapMessage Dataset Commissioner.
Import Endian Addr Tlv Message Dataset.

(** ** The invariant *)

(** Continuations that never touch the state of the commissioner. *)
Definition user_kind (k : OnResponse) : Prop :=
  match k with RspPetition _ | RspKeepAlive | RspFetched _ _ _ | RspPrefix _ _ _ _ => False | _ => True end.

(** Continuations of the border agent client. *)
Definition br_kind (k : OnResponse) : Prop :=
  match k with RspPrefix k _ _ _ => user_kind k | _ => True end.

Definition weak (c : Commissioner) : Prop :=
  Forall br_kind (brPending c) /\ Forall user_kind (proxyPending c) /\ mDtls c <> kDisconnected.

Definition is_petition (k : OnResponse) : bool := match k with RspPetition _ => true | _ => false end.
Definition petitions (l : list OnResponse) : nat := length (List.filter is_petition l).

(** The requests that only an active commissioner has. *)
Definition needs_active (k : OnResponse) : bool :=
  match k with RspKeepAlive | RspFetched _ _ _ | RspPrefix _ _ _ _ => true | _ => false end.

(** The state machine, with the continuations [ks] that are being called. *)
Definition machine (ks : list OnResponse) (c : Commissioner) : Prop :=
  petitions (ks ++ brPending c) = (if bool_decide (mState c = kPetitioning) then 1%nat else 0%nat) /\
  (forall k, k ∈ ks ++ brPending c -> needs_active k = true -> mState c = kActive) /\
  (mMeshLocalPrefix c <> [] -> mState c = kActive).

Definition timer_running (c : Commissioner) : Prop :=
  mState c = kActive ->
  exists t, mKeepAliveTimer c = Some t /\ t <= clock c + GetKeepAliveInterval c.

Definition Inv (ks : list OnResponse) (c : Commissioner) : Prop :=
  weak c /\ machine ks c /\ timer_running c.

(** What [Disconnect] establishes. *)
Definition stopped (c : Commissioner) : Prop :=
  mState c = kDisabled /\ brPending c = [] /\ mMeshLocalPrefix c = [].

(** Signing a request only appends to its payload. *)
Class SignerLaws `{RequestSigner} : Prop := sign_header m b m' : sign_request m b = Ok m' -> Message.mHeader m' = Message.mHeader m.

Section Invariant.
Context `{HSign : RequestSigner} `{HLaws : !SignerLaws}.
Context (inet_pton4 inet_pton6 : string_t -> option ByteArray).
Context (channel0 : Channel) (panId0 rotation0 delay0 : Z).
Context (env_send : nat -> ErrorCode).
Abbreviation respond := (respond channel0 panId0 rotation0 delay0 env_send).
Abbreviation respond_step := (respond_step channel0 panId0 rotation0 delay0 env_send).

(** *** The weak part *)

Definition keeps_weak (f : OnResponse -> option Message -> ErrorCode -> Commissioner -> outcome Commissioner) : Prop :=
  forall k r e c c', br_kind k -> weak c -> f k r e c = Ok c' -> weak c'.

Lemma user_br k : user_kind k -> br_kind k.
Proof. by destruct k. Qed.

Lemma weak_out c o : weak c -> weak (out c o).
Proof. done. Qed.

Lemma dtls_send_weak c e c' : dtls_send env_send c = (e, c') -> weak c -> weak c'.
Proof. unfold dtls_send. intros H Hw. case_if; simplify_eq; done. Qed.

Lemma proxy_send_weak c e c' : proxy_send env_send c = (e, c') -> weak c -> weak c'.
Proof.
  unfold proxy_send. intros H Hw. destruct (IsConnected c); simplify_eq; [|done].
  destruct (dtls_send env_send c) eqn:E. by eapply dtls_send_weak.
Qed.

Lemma weak_app_br c k l : l = proxyPending c -> br_kind k -> weak c -> weak (with_pending c (brPending c ++ [k]) l).
Proof. intros -> Hk [H1 H2]. split; [|done]. apply Forall_app_2; [done|]. by repeat constructor. Qed.

Lemma weak_app_proxy c k l : l = brPending c -> user_kind k -> weak c -> weak (with_pending c l (proxyPending c ++ [k])).
Proof. intros -> Hk (H1 & H2 & H3). split_and!; [done| |done]. apply Forall_app_2; [done|]. by repeat constructor. Qed.

Section Ops.
Context (rsp : OnResponse -> option Message -> ErrorCode -> Commissioner -> outcome Commissioner).
Context (n : nat) (Hrsp : keeps_weak rsp).

Lemma br_SendRequest_weak c m k c' :
  br_kind k -> weak c -> br_SendRequest env_send rsp c m k = Ok c' -> weak c'.
Proof using Hrsp.
  intros Hk Hw H. unfold br_SendRequest in H. destruct (dtls_send env_send c) as [e c1] eqn:Ed.
  apply dtls_send_weak in Ed; [|done]. case_if; [|by eapply Hrsp].
  case_if; simplify_eq; [|done]. by apply (weak_app_br (out c1 _)).
Qed.

Lemma proxy_SendRequest_weak c m k a p c' :
  user_kind k -> weak c -> proxy_SendRequest env_send rsp c m k a p = Ok c' -> weak c'.
Proof using Hrsp.
  intros Hk Hw H. unfold proxy_SendRequest in H. case_if; [|done].
  destruct (proxy_send env_send c) as [e c1] eqn:Ed. apply proxy_send_weak in Ed; [|done].
  case_if; [|by eapply Hrsp; [apply user_br| |]]. case_if; simplify_eq; [|done]. by apply (weak_app_proxy (out c1 _)).
Qed.

Lemma GetRawActiveDataset_weak c k f c' :
  br_kind k -> weak c -> GetRawActiveDataset env_send rsp c k f = Ok c' -> weak c'.
Proof using Hrsp.
  intros Hk Hw H. unfold GetRawActiveDataset, send_or_report in H.
  destruct (raw_active_request c f); [|by eapply Hrsp|done]. by eapply br_SendRequest_weak.
Qed.

Lemma proxy_aloc_weak c m k a p c' :
  user_kind k -> weak c -> proxy_SendRequest_aloc env_send rsp c m k a p = Ok c' -> weak c'.
Proof using Hrsp.
  intros Hk Hw H. unfold proxy_SendRequest_aloc in H. case_if; [eapply GetRawActiveDataset_weak; [|done|exact H]; exact Hk|].
  apply bind_ok in H as (ad & _ & H). by eapply proxy_SendRequest_weak.
Qed.

Lemma SetSecurePendingDataset_weak c h t d c' :
  weak c -> SetSecurePendingDataset env_send rsp c h t d = Ok c' -> weak c'.
Proof using Hrsp.
  intros Hw H. unfold SetSecurePendingDataset in H. destruct (secure_pending_guard c d); simplify_eq; [|done].
  case_if; [by eapply (GetRawActiveDataset_weak _ (RspFetched _ _ _))|].
  apply bind_ok in H as (ad & _ & H). unfold send_or_report in H.
  destruct (secure_pending_request _ _ _ _); [|by eapply (Hrsp (RspState h))|done].
  by eapply (proxy_SendRequest_weak _ _ (RspState h)).
Qed.

Lemma SendPetition_weak c h c' : weak c -> SendPetition env_send rsp c h = Ok c' -> weak c'.
Proof using Hrsp.
  intros Hw H. unfold SendPetition in H. destruct (petition_request c); simplify_eq; [|done].
  by eapply br_SendRequest_weak; [| |exact H].
Qed.

Lemma call_connected_weak c h e c' : weak c -> call_connected env_send rsp c h e = Ok c' -> weak c'.
Proof using Hrsp.
  intros Hw H. destruct h; simpl in H; simplify_eq; [done|]. case_if; simplify_eq; [|done]. by eapply SendPetition_weak.
Qed.

(** A connect handler that gets an error only tells the user. *)
Lemma call_connected_error c h e :
  e <> kNone -> exists h', call_connected env_send rsp c h e = Ok (out c (OutHandler h' ResNone e)).
Proof. intros He. destruct h; simpl; [by eexists|]. rewrite bool_decide_eq_false_2 by done. by eexists. Qed.

(** [DtlsSession::Disconnect] leaves the session open or as it was. *)
Lemma dtls_Disconnect_weak c e c' :
  e <> kNone -> weak c -> dtls_Disconnect env_send rsp c e = Ok c' -> weak c'.
Proof.
  intros He (Hb & Hp & Hd) H. unfold dtls_Disconnect in H.
  destruct (mDtls c) eqn:Ed; try (injection H as <-; split_and!; [done|done|by rewrite Ed]).
  all: apply bind_ok in H as (c1 & H1 & H); injection H as <-; cbn [with_dtls mOnConnected] in H1.
  all: destruct (mOnConnected c) as [h|]; [|by injection H1 as <-].
  all: destruct (call_connected_error (with_dtls c kDisconnected (Some h)) h e He) as (h' & E).
  all: rewrite E in H1; cbn [mbind outcome_bind] in H1; by injection H1 as <-.
Qed.

Lemma br_Cancel_weak m : forall c c', weak c -> br_Cancel rsp m c = Ok c' -> weak c' /\ brPending c' = [].
Proof using Hrsp.
  induction m as [|m IH]; intros c c' Hw H; simpl in H; destruct (brPending c) as [|k l] eqn:El; simplify_eq; try done.
  apply bind_ok in H as (c1 & H1 & H). destruct Hw as (Hb & Hp & Hd). rewrite El in Hb.
  apply Forall_cons in Hb as [Hk Hb]. eapply IH; [|exact H]. eapply Hrsp; [exact Hk| |exact H1]. by split_and!.
Qed.

Lemma proxy_Cancel_weak m : forall c c', weak c -> proxy_Cancel rsp m c = Ok c' -> weak c'.
Proof using Hrsp.
  induction m as [|m IH]; intros c c' Hw H; simpl in H; destruct (proxyPending c) as [|k l] eqn:El; simplify_eq; try done.
  apply bind_ok in H as (c1 & H1 & H). destruct Hw as (Hb & Hp & Hd). rewrite El in Hp.
  apply Forall_cons in Hp as [Hk Hp]. eapply IH; [|exact H]. eapply Hrsp; [by apply user_br| |exact H1]. by split_and!.
Qed.

Lemma Disconnect_stops c c' :
  weak c -> Disconnect env_send rsp n c = Ok c' -> weak c' /\ stopped c'.
Proof using Hrsp.
  intros Hw H. unfold Disconnect in H. apply bind_ok in H as (c1 & H1 & H). apply bind_ok in H as (c2 & H2 & H).
  injection H as <-. apply dtls_Disconnect_weak in H1 as Hw1; [|done|done].
  apply br_Cancel_weak in H2 as [Hw2 Hn]; [|done]. by split_and!.
Qed.
Lemma SendKeepAlive_weak c b c' : weak c -> SendKeepAlive env_send rsp n c b = Ok c' -> weak c'.
Proof using Hrsp.
  intros Hw H. unfold SendKeepAlive in H. destruct (keep_alive_request c b); simplify_eq.
  - by eapply br_SendRequest_weak; [| |exact H].
  - by eapply Disconnect_stops in H as [? _].
Qed.

Lemma Resign_body_stops c c' : weak c -> Resign_body env_send rsp n c = Ok c' -> weak c' /\ stopped c'.
Proof using Hrsp.
  intros Hw H. unfold Resign_body in H. apply bind_ok in H as (c1 & H1 & H).
  assert (Hw1 : weak c1) by (case_if; simplify_eq; [by eapply SendKeepAlive_weak|done]).
  by eapply Disconnect_stops in H.
Qed.
End Ops.

Lemma SetMeshLocalPrefix_weak c p c' : SetMeshLocalPrefix c p = Ok c' -> exists q, c' = with_prefix c q.
Proof. unfold SetMeshLocalPrefix. intros H. repeat case_if; simplify_eq. by eexists. Qed.

Lemma fetch_prefix_weak c d : weak c -> weak (fetch_prefix c d).
Proof.
  intros Hw. unfold fetch_prefix. case_if; [|done]. destruct (SetMeshLocalPrefix c _) eqn:Es; try done.
  by apply SetMeshLocalPrefix_weak in Es as (q & ->).
Qed.

Lemma answer_out c h r c' : answer c h r = Ok c' -> exists v e, c' = out c (OutHandler h v e).
Proof. unfold answer. destruct r; intros; simplify_eq; by eexists _, _. Qed.

Lemma respond_weak fuel : keeps_weak (respond fuel).
Proof.
  induction fuel as [|fuel IH]; intros k r e c c' Hk Hw H; [done|]. cbn [Commissioner.respond] in H.
  unfold Commissioner.respond_step in H.
  destruct k; try (apply answer_out in H as (? & ? & ->); done).
  - apply bind_ok in H as ([id|[e' ex]] & _ & H); simplify_eq; done.
  - destruct (HandleStateResponse r e true); simplify_eq; [done|].
    apply bind_ok in H as (c1 & H1 & H). injection H as <-. eapply Resign_body_stops in H1 as [? _]; done.
  - destruct (active_result _ _ _ _ _) as [ad|e'|]; simplify_eq; [|done].
    eapply SetSecurePendingDataset_weak; [exact IH| |exact H]. by apply fetch_prefix_weak.
  - destruct (active_result _ _ _ _ _) as [ad|e'|]; [|eapply IH; [|exact Hw|exact H]; by apply user_br|done].
    apply bind_ok in H as (addr & _ & H). eapply proxy_SendRequest_weak; [exact IH|exact Hk| |exact H].
    by apply fetch_prefix_weak.
Qed.

(** *** Requests are confirmable *)

Lemma AppendTlv_header m t m' : AppendTlv m t = Ok m' -> mHeader m' = mHeader m.
Proof. unfold AppendTlv. intros H. case_if; [|done]. by apply bind_ok in H as (b & _ & [= <-]). Qed.

Lemma SetUriPath_header m u m' : SetUriPath m u = Ok m' -> mHeader m' = mHeader m.
Proof.
  unfold SetUriPath, AppendOption. intros H. apply bind_ok in H as (p & _ & H). case_if; [|done].
  apply bind_ok in H as (q & _ & H). by injection H as <-.
Qed.

Lemma confirmable_header m m' : mHeader m' = mHeader m -> IsConfirmable m' = IsConfirmable m.
Proof. unfold IsConfirmable, GetType. by intros ->. Qed.

Lemma new_request_confirmable u m : new_request u = Ok m -> IsConfirmable m = true.
Proof. intros H. apply SetUriPath_header in H. by rewrite (confirmable_header _ _ H). Qed.

Lemma AppendTlv_confirmable m t m' : AppendTlv m t = Ok m' -> IsConfirmable m = true -> IsConfirmable m' = true.
Proof. intros H. by rewrite (confirmable_header _ _ (AppendTlv_header _ _ _ H)). Qed.

Lemma SignIfCcm_header c m b m' : SignIfCcm c m b = Ok m' -> mHeader m' = mHeader m.
Proof using HLaws. unfold SignIfCcm. case_if; [apply sign_header|by intros [= ->]]. Qed.

Lemma SignIfCcm_confirmable c m b m' : SignIfCcm c m b = Ok m' -> IsConfirmable m = true -> IsConfirmable m' = true.
Proof using HLaws. intros H. by rewrite (confirmable_header _ _ (SignIfCcm_header _ _ _ _ H)). Qed.

Lemma raw_active_confirmable c f m : raw_active_request c f = Ok m -> IsConfirmable m = true.
Proof using HLaws.
  unfold raw_active_request. intros H. case_if; [|done]. apply bind_ok in H as (r & Hr & (r1 & H1 & H)%bind_ok).
  eapply SignIfCcm_confirmable; [exact H|].
  apply new_request_confirmable in Hr. case_if; [by eapply AppendTlv_confirmable|by injection H1 as <-].
Qed.

Lemma raw_active_active c f m : raw_active_request c f = Ok m -> mState c = kActive.
Proof. unfold raw_active_request, IsActive. intros H. case_if; [|done]. by bool_to_prop. Qed.

Lemma petition_confirmable c m : petition_request c = Ok m -> mState c = kDisabled /\ IsConfirmable m = true.
Proof using HLaws.
  unfold petition_request. intros H. case_if; [|done]. bool_to_prop. split; [done|].
  apply bind_ok in H as (r & Hr & (r1 & Hr1 & H)%bind_ok). apply new_request_confirmable in Hr.
  eapply SignIfCcm_confirmable; [exact H|]. by eapply AppendTlv_confirmable.
Qed.

Lemma keep_alive_confirmable c b m : keep_alive_request c b = Ok m -> mState c = kActive /\ IsConfirmable m = true.
Proof using HLaws.
  unfold keep_alive_request, IsActive. intros H. case_if; [|done]. bool_to_prop. split; [done|].
  apply bind_ok in H as (r & Hr & H). apply new_request_confirmable in Hr. apply bind_ok in H as (r1 & Hr1 & (r2 & Hr2 & H)%bind_ok).
  eapply SignIfCcm_confirmable; [exact H|]. eapply AppendTlv_confirmable; [exact Hr2|]. by eapply AppendTlv_confirmable.
Qed.

Lemma dataset_types_valid flags :
  negb (zlen (GetCommissionerDatasetTlvs flags) =? 0) = true ->
  IsValid (Tlv_bytes kGet (GetCommissionerDatasetTlvs flags)) = true.
Proof.
  unfold GetCommissionerDatasetTlvs, RequestIf. intros H.
  repeat match goal with |- context [has flags ?b] => destruct (has flags b) end; (reflexivity || discriminate H).
Qed.

(** *** The state machine *)

Definition keeps_strong (f : OnResponse -> option Message -> ErrorCode -> Commissioner -> outcome Commissioner) : Prop :=
  (forall k r e c c', br_kind k -> Inv [k] c -> f k r e c = Ok c' -> Inv [] c') /\
  (forall k m a p e c c', user_kind k -> Inv [] c -> f (RspPrefix k m a p) None e c = Ok c' -> Inv [] c').

(** A continuation of the user does not count. *)
Lemma Inv_user k c : user_kind k -> Inv [k] c <-> Inv [] c.
Proof.
  intros Hk. unfold Inv, machine. cbn [app].
  assert (Hp : petitions (k :: brPending c) = petitions (brPending c)) by (destruct k; done).
  rewrite Hp. setoid_rewrite elem_of_cons.
  assert (Hn : needs_active k = false) by by destruct k.
  split; intros (Hw & (HP & Hka & Hm) & Ht); (split_and!; [apply Hw..|exact HP| |exact Hm|exact Ht]); intros k' Hin E.
  - by eapply Hka; [right|].
  - destruct Hin as [-> |Hin]; [congruence|by eapply Hka].
Qed.

Lemma Inv_out ks c o : Inv ks (out c o) <-> Inv ks c.
Proof. done. Qed.

Lemma Inv_stopped ks c : weak c -> stopped c -> petitions ks = 0%nat -> Forall (fun k => needs_active k = false) ks -> Inv ks c.
Proof.
  intros Hw (Hs & Hb & Hm) Hp Hk. split; [done|]. split; [|intros Ha; congruence].
  unfold machine. rewrite Hb, Hm, app_nil_r, Hp, bool_decide_eq_false_2 by congruence. split_and!; [done| |done].
  intros k Hin E. rewrite Forall_forall in Hk. by rewrite Hk in E.
Qed.

(** Only the pending requests of the border agent client, the state and the
    timer matter. *)
Lemma Inv_same ks c c' :
  mState c' = mState c -> mKeepAliveTimer c' = mKeepAliveTimer c -> brPending c' = brPending c ->
  mConfig c' = mConfig c -> mMeshLocalPrefix c' = mMeshLocalPrefix c -> clock c <= clock c' -> weak c' -> Inv ks c -> Inv ks c'.
Proof.
  unfold Inv, machine, timer_running, GetKeepAliveInterval. intros Es Et Eb Ec Ep El Hw (_ & Hm & Ht).
  rewrite Es, Et, Eb, Ec, Ep. split; [done|]. split; [done|].
  intros Ha. destruct (Ht Ha) as (t & -> & Hle). exists t. split; [done|lia].
Qed.

Lemma dtls_send_same c e c' :
  dtls_send env_send c = (e, c') ->
  c' = c \/ c' = with_clock c (clock c) (S (nextSend c)).
Proof. unfold dtls_send. intros H. destruct (IsConnected c); simplify_eq; auto. Qed.

Lemma proxy_send_same c e c' :
  proxy_send env_send c = (e, c') -> c' = c \/ c' = with_clock c (clock c) (S (nextSend c)).
Proof.
  unfold proxy_send. intros H. destruct (IsConnected c); simplify_eq; [|by left].
  destruct (dtls_send env_send c) eqn:E. by apply dtls_send_same in E.
Qed.

Lemma Inv_counter ks c m : Inv ks c -> Inv ks (with_clock c (clock c) m).
Proof. intros H. eapply (Inv_same ks c); [done..|cbn; lia|apply H|exact H]. Qed.

Lemma petitions_snoc l k : petitions (l ++ [k]) = petitions (k :: l).
Proof. unfold petitions. rewrite List.filter_app, length_app. simpl. destruct (is_petition k); simpl; lia. Qed.

Lemma Inv_push k c : br_kind k -> Inv [k] c -> Inv [] (with_pending c (brPending c ++ [k]) (proxyPending c)).
Proof.
  intros Hk (Hw & (Hp & Hka & Hm) & Ht). split; [by apply weak_app_br|]. split; [|done].
  split_and!; cbn [app with_pending brPending]; [by rewrite petitions_snoc| |done].
  intros k' Hin. apply Hka. rewrite elem_of_app, list_elem_of_singleton in Hin. cbn [app].
  rewrite elem_of_cons. tauto.
Qed.

Section Strong.
Context (rsp : OnResponse -> option Message -> ErrorCode -> Commissioner -> outcome Commissioner).
Context (n : nat) (Hrsp : keeps_weak rsp) (Hst : keeps_strong rsp).

Lemma br_SendRequest_strong c m k c' :
  br_kind k -> IsConfirmable m = true -> Inv [k] c ->
  br_SendRequest env_send rsp c m k = Ok c' -> Inv [] c'.
Proof using Hst.
  intros Hk Hm HI H. unfold br_SendRequest in H. destruct (dtls_send env_send c) as [e c1] eqn:Ed.
  assert (HI1 : Inv [k] c1) by (apply dtls_send_same in Ed as [-> | ->]; [done|by apply Inv_counter]).
  case_if; [|by eapply (proj1 Hst)]. rewrite Hm in H. simplify_eq. by apply (Inv_push k (out c1 _)).
Qed.

Lemma proxy_SendRequest_strong c m k a p c' :
  user_kind k -> Inv [] c -> proxy_SendRequest env_send rsp c m k a p = Ok c' -> Inv [] c'.
Proof using Hst.
  intros Hk HI H. unfold proxy_SendRequest in H. case_if; [|done].
  destruct (proxy_send env_send c) as [e c1] eqn:Ed.
  assert (HI1 : Inv [] c1) by (apply proxy_send_same in Ed as [-> | ->]; [done|by apply Inv_counter]).
  case_if; [|eapply (proj1 Hst); [by apply user_br|by apply Inv_user|exact H]].
  case_if; simplify_eq; [|done].
  eapply (Inv_same [] c1); [done..|cbn; lia|apply (weak_app_proxy (out c1 _)); [done..|apply HI1]|exact HI1].
Qed.

Lemma GetRawActiveDataset_strong c k f c' :
  br_kind k -> Inv [k] c -> (forall m, raw_active_request c f = Ok m -> IsConfirmable m = true) ->
  GetRawActiveDataset env_send rsp c k f = Ok c' -> Inv [] c'.
Proof using Hst.
  intros Hk HI Hm H. unfold GetRawActiveDataset, send_or_report in H.
  destruct (raw_active_request c f); [|by eapply (proj1 Hst)|done]. eapply br_SendRequest_strong; eauto.
Qed.
Lemma proxy_aloc_strong c m k a p c' :
  user_kind k -> Inv [] c -> proxy_SendRequest_aloc env_send rsp c m k a p = Ok c' -> Inv [] c'.
Proof using Hst HLaws.
  intros Hk HI H. unfold proxy_SendRequest_aloc in H. case_if.
  - unfold GetRawActiveDataset, send_or_report in H. destruct (raw_active_request c _) as [m'| |] eqn:Em; [|by eapply (proj2 Hst)|done].
    assert (Ha : mState c = kActive) by by apply raw_active_active in Em.
    apply raw_active_confirmable in Em. eapply (br_SendRequest_strong c _ (RspPrefix k m a p)); [exact Hk|exact Em| |exact H].
    destruct HI as (Hw & (Hp & Hka & Hm) & Ht). split; [done|]. by split_and!.
  - apply bind_ok in H as (ad & _ & H). by eapply proxy_SendRequest_strong.
Qed.

Lemma SetSecurePendingDataset_strong c h t d c' :
  Inv [] c -> SetSecurePendingDataset env_send rsp c h t d = Ok c' -> Inv [] c'.
Proof using Hst HLaws.
  intros HI H. unfold SetSecurePendingDataset in H. destruct (secure_pending_guard c d) as [[]|e|] eqn:Eg; simplify_eq; [|done].
  assert (Ha : mState c = kActive).
  { unfold secure_pending_guard in Eg. destruct (has _ _); [|done]. destruct (IsActive c) eqn:E1; [|done].
    unfold IsActive in E1. by bool_to_prop. }
  case_if.
  - eapply (GetRawActiveDataset_strong c (RspFetched h t d)); [done| |intros m; apply raw_active_confirmable|exact H].
    destruct HI as (Hw & (Hp & Hka & Hm) & Ht). split; [done|]. split; [|done]. split_and!; [exact Hp| |done].
    by intros k Hin1 E1.
  - apply bind_ok in H as (ad & _ & H). unfold send_or_report in H.
    destruct (secure_pending_request _ _ _ _); [|by eapply (proj1 Hst); [|apply Inv_user|exact H]|done].
    by eapply (proxy_SendRequest_strong _ _ (RspState h)).
Qed.

Lemma SendPetition_strong c h c' : Inv [] c -> SendPetition env_send rsp c h = Ok c' -> Inv [] c'.
Proof using Hst HLaws.
  intros HI H. unfold SendPetition in H. destruct (petition_request c) as [m| |] eqn:Em; simplify_eq; [|done].
  apply petition_confirmable in Em as [Es Em].
  eapply (br_SendRequest_strong _ _ (RspPetition h)); [done|exact Em| |exact H].
  destruct HI as (Hw & (Hp & Hk & Hm) & Ht). split; [done|].
  split; [split_and!|done]; cbn [app set_state with_state brPending mMeshLocalPrefix mState] in *.
  - rewrite Es, bool_decide_eq_false_2 in Hp by done. unfold petitions in *. simpl. by rewrite Hp.
  - intros k [-> |Hin]%elem_of_cons E; [done|]. specialize (Hk _ Hin E). congruence.
  - intros Hne. specialize (Hm Hne). congruence.
Qed.

Lemma call_connected_strong c h e c' : Inv [] c -> call_connected env_send rsp c h e = Ok c' -> Inv [] c'.
Proof using Hst HLaws.
  intros HI H. destruct h; simpl in H; simplify_eq; [done|]. case_if; simplify_eq; [|done]. by eapply SendPetition_strong.
Qed.

Lemma dtls_Disconnect_strong c e c' :
  e <> kNone -> Inv [] c -> dtls_Disconnect env_send rsp c e = Ok c' -> Inv [] c'.
Proof using Hst Hrsp.
  intros He HI H. pose proof (dtls_Disconnect_weak _ _ _ _ He (proj1 HI) H) as Hw. unfold dtls_Disconnect in H.
  destruct (mDtls c) eqn:Ed; try (injection H as <-; done).
  all: apply bind_ok in H as (c1 & H1 & H); injection H as <-; cbn [with_dtls mOnConnected] in H1.
  all: destruct (mOnConnected c) as [h|].
  all: try (injection H1 as <-; by eapply (Inv_same [] c); [done..|cbn; lia|exact Hw|exact HI]).
  all: destruct (call_connected_error rsp (with_dtls c kDisconnected (Some h)) h e He) as (h' & E).
  all: rewrite E in H1; cbn [mbind outcome_bind] in H1; injection H1 as <-.
  all: by eapply (Inv_same [] c); [done..|cbn; lia|exact Hw|exact HI].
Qed.

Lemma br_Cancel_strong m : forall c c', Inv [] c -> br_Cancel rsp m c = Ok c' -> Inv [] c'.
Proof using Hst.
  induction m as [|m IH]; intros c c' HI H; simpl in H; destruct (brPending c) as [|k l] eqn:El; simplify_eq; try done.
  apply bind_ok in H as (c1 & H1 & H). eapply IH; [|exact H]. destruct HI as ((Hb & Hp & Hd) & Hm & Ht).
  rewrite El in Hb. apply Forall_cons in Hb as [Hk Hb]. eapply (proj1 Hst); [exact Hk| |exact H1].
  split; [by split_and!|]. split; [|done]. unfold machine in *. cbn [app with_pending brPending mMeshLocalPrefix] in *. by rewrite El in Hm.
Qed.

Lemma proxy_Cancel_strong m : forall c c', Inv [] c -> proxy_Cancel rsp m c = Ok c' -> Inv [] c'.
Proof using Hst.
  induction m as [|m IH]; intros c c' HI H; simpl in H; destruct (proxyPending c) as [|k l] eqn:El; simplify_eq; try done.
  apply bind_ok in H as (c1 & H1 & H). eapply IH; [|exact H]. destruct HI as ((Hb & Hp & Hd) & Hm & Ht).
  rewrite El in Hp. apply Forall_cons in Hp as [Hk Hp]. eapply (proj1 Hst); [by apply user_br| |exact H1].
  apply Inv_user; [done|]. split; [by split_and!|]. by split.
Qed.

Lemma Disconnect_strong ks c c' :
  petitions ks = 0%nat -> Forall (fun k => needs_active k = false) ks -> weak c -> Disconnect env_send rsp n c = Ok c' -> Inv ks c'.
Proof using Hrsp. intros Hp Hk Hw H. apply Disconnect_stops in H as [Hw' Hs]; [|done..]. by apply Inv_stopped. Qed.

(** The timer may have stopped: it is restarted, or the commissioner stops. *)
Lemma SendKeepAlive_strong c b c' :
  weak c -> machine [] c -> SendKeepAlive env_send rsp n c b = Ok c' -> Inv [] c'.
Proof using Hst Hrsp HLaws.
  intros Hw (Hp & Hk & Hm) H. unfold SendKeepAlive in H. destruct (keep_alive_request c b) as [m| |] eqn:Em; simplify_eq.
  - apply keep_alive_confirmable in Em as [Es Em].
    eapply (br_SendRequest_strong _ _ RspKeepAlive); [done|exact Em| |exact H].
    split; [done|]. split; [by split_and!|]. intros _. cbn. eexists; split; [done|].
    unfold GetKeepAliveInterval. cbn. lia.
  - eapply Disconnect_strong; [done| |exact Hw|exact H]. constructor.
Qed.

Lemma Resign_body_strong ks c c' :
  petitions ks = 0%nat -> Forall (fun k => needs_active k = false) ks -> weak c -> Resign_body env_send rsp n c = Ok c' -> Inv ks c'.
Proof using Hrsp. intros Hp Hk Hw H. apply Resign_body_stops in H as [Hw' Hs]; [|done..]. by apply Inv_stopped. Qed.
End Strong.

(** The only pending petition has been answered: the commissioner is active. *)
Lemma petition_granted c h id :
  Inv [RspPetition h] c -> Inv [] (with_state c kActive id (Some (clock c + GetKeepAliveInterval c))).
Proof.
  intros (Hw & (Hp & Hka & Hm) & Ht). split; [exact Hw|]. split; [split_and!|]; cbn [with_state mState brPending app] in *.
  - unfold petitions in *. simpl in Hp. rewrite bool_decide_eq_false_2 by done. case_bool_decide; lia.
  - done.
  - done.
  - intros _. cbn. eexists; split; [done|]. unfold GetKeepAliveInterval. cbn. lia.
Qed.

Lemma petition_refused c h : Inv [RspPetition h] c -> Inv [] (set_state c kDisabled).
Proof.
  intros (Hw & (Hp & Hka & Hm) & Ht). cbn [app] in *.
  assert (Hs : mState c <> kActive).
  { intros Ha. unfold petitions in Hp. simpl in Hp. rewrite Ha, bool_decide_eq_false_2 in Hp by done. lia. }
  split; [exact Hw|]. split; [split_and!|done]; cbn [set_state with_state mState brPending app mMeshLocalPrefix].
  - unfold petitions in *. simpl in Hp. rewrite bool_decide_eq_false_2 by done. case_bool_decide; lia.
  - intros k Hin E. destruct Hs. eapply Hka; [by right|done].
  - intros Hne. by destruct (Hs (Hm Hne)).
Qed.

Lemma keep_alive_accepted c : Inv [RspKeepAlive] c -> Inv [] (set_timer c (Some (clock c + GetKeepAliveInterval c))).
Proof.
  intros (Hw & (Hp & Hka & Hm) & Ht). cbn [app] in *. split; [exact Hw|]. split; [split_and!; [exact Hp| |exact Hm]|].
  - intros k Hin. apply Hka. by right.
  - intros _. cbn. eexists; split; [done|]. unfold GetKeepAliveInterval. cbn. lia.
Qed.

Lemma Inv_drop c k : needs_active k = true -> is_petition k = false -> Inv [k] c -> Inv [] c /\ mState c = kActive.
Proof.
  intros Hn Hk (Hw & (Hp & Hka & Hm) & Ht). cbn [app] in *. unfold petitions in Hp. cbn in Hp. rewrite Hk in Hp.
  split; [|by eapply Hka; [left|]]. split; [exact Hw|]. split; [|exact Ht]. split_and!; [exact Hp| |exact Hm].
  intros k' Hin. apply Hka. by right.
Qed.

Lemma prefix_learned c k d :
  needs_active k = true -> is_petition k = false -> Inv [k] c -> Inv [] (fetch_prefix c d).
Proof.
  intros Hn Hk [HI Ha]%Inv_drop; [|done..]. unfold fetch_prefix. case_if; [|done].
  destruct (SetMeshLocalPrefix c _) eqn:Es; try done. destruct HI as (Hw & (Hp & Hka & Hm) & Ht).
  apply SetMeshLocalPrefix_weak in Es as (q & ->). split; [exact Hw|]. split; [by split_and!|exact Ht].
Qed.

Lemma respond_strong fuel : keeps_strong (respond fuel).
Proof using HLaws.
  induction fuel as [|fuel IH]; [by split|]. pose proof (respond_weak fuel) as Hrw.
  split; cbn [Commissioner.respond].
  - intros k r e c c' Hk HI H. unfold Commissioner.respond_step in H.
    destruct k; try (apply answer_out in H as (v & e' & ->); by apply (Inv_user _ c) in HI).
    + apply bind_ok in H as ([id|[e' ex]] & _ & H); simplify_eq; apply Inv_out;
        [by eapply petition_granted|by eapply petition_refused].
    + destruct (HandleStateResponse r e true); simplify_eq; [by apply Inv_out, keep_alive_accepted|].
      apply bind_ok in H as (c1 & H1 & H). injection H as <-. apply Inv_out.
      eapply (Resign_body_strong _ _ Hrw [] (set_state c kDisabled)); [done|constructor|apply HI|exact H1].
    + destruct (active_result _ _ _ _ _) as [ad|e'|]; simplify_eq; [|apply Inv_out; eapply Inv_drop in HI as [HI _]; done].
      eapply SetSecurePendingDataset_strong; [exact IH| |exact H]. eapply prefix_learned; [| |exact HI]; done.
    + destruct (active_result _ _ _ _ _) as [ad|e'|]; [| |done].
      * apply bind_ok in H as (addr & _ & H). eapply proxy_SendRequest_strong; [exact IH|exact Hk| |exact H].
        eapply prefix_learned; [| |exact HI]; done.
      * eapply (proj1 IH); [by apply user_br| |exact H]. apply Inv_user; [done|].
        eapply Inv_drop in HI as [HI _]; done.
  - intros k m a p e c c' Hk HI H. unfold Commissioner.respond_step in H.
    destruct (active_result _ _ _ _ (raw_response None e)) as [d|e'|] eqn:Er; [|by eapply (proj1 IH); [apply user_br|apply Inv_user| ]|done].
    unfold raw_response, received in Er. by case_bool_decide.
Qed.

(** *** Every event *)

Abbreviation run := (run inet_pton4 inet_pton6 channel0 panId0 rotation0 delay0 env_send).
Abbreviation step := (step inet_pton4 inet_pton6 channel0 panId0 rotation0 delay0 env_send).
Abbreviation do_api := (do_api inet_pton4 inet_pton6 channel0 panId0 rotation0 delay0 env_send).

Section Events.
Context (fuel : nat).
Let Hw := respond_weak fuel.
Let Hs := respond_strong fuel.

Lemma to_aloc_strong c m k a c' :
  user_kind k -> Inv [] c -> to_aloc channel0 panId0 rotation0 delay0 env_send fuel c m k a = Ok c' -> Inv [] c'.
Proof using All.
  intros Hk HI H. unfold to_aloc, send_or_report in H. destruct m; [by eapply proxy_aloc_strong|..|done].
  eapply (proj1 Hs); [by apply user_br|by apply Inv_user|exact H].
Qed.

Lemma announce_strong c h u mk l d c' :
  Inv [] c -> announce inet_pton4 inet_pton6 channel0 panId0 rotation0 delay0 env_send fuel c h u mk l d = Ok c' -> Inv [] c'.
Proof using All.
  intros HI H. unfold announce in H. destruct (SetString _ _ d); simplify_eq; [|done].
  destruct (announce_request _ _ _ _ _); simplify_eq; [|done]. apply bind_ok in H as (c1 & H1 & H).
  eapply proxy_SendRequest_strong in H1; [|exact Hs|done|done]. by case_if; simplify_eq.
Qed.

Lemma to_address_strong c h d m c' :
  Inv [] c -> to_address inet_pton4 inet_pton6 channel0 panId0 rotation0 delay0 env_send fuel c h d m = Ok c' -> Inv [] c'.
Proof using All.
  intros HI H. unfold to_address, send_or_report in H. destruct (mbind _ _) as [[a r]| |]; [|by eapply (proj1 Hs); [|apply Inv_user|exact H]|done].
  by eapply (proxy_SendRequest_strong _ Hs _ _ (RspStateOptional h)).
Qed.

Lemma guarded_strong c h (g : outcome unit) k c' :
  (k = Ok c' -> Inv [] c') -> Inv [] c ->
  match g with Ok _ => k | Err e => Ok (out c (OutHandler h ResNone e)) | Die => Die end = Ok c' -> Inv [] c'.
Proof using All. intros Hk HI H. destruct g; [by apply Hk|by simplify_eq|done]. Qed.

Lemma CoapSecure_Connect_strong c h b c' :
  Inv [] c -> CoapSecure_Connect env_send (respond fuel) c h b = Ok c' -> Inv [] c'.
Proof using All.
  intros HI H. unfold CoapSecure_Connect, dtls_Connect in H. case_if; [|by eapply call_connected_strong].
  case_if; simplify_eq. destruct HI as ((? & ? & ?) & Hm & Ht). by split_and!.
Qed.

Lemma CancelRequests_strong c c' :
  Inv [] c -> CancelRequests (respond fuel) fuel c = Ok c' -> Inv [] c'.
Proof using All.
  intros HI H. unfold CancelRequests in H. apply bind_ok in H as (c1 & H1 & H).
  eapply br_Cancel_strong; [exact Hs| |exact H]. by eapply proxy_Cancel_strong.
Qed.

Lemma do_api_strong a c c' : Inv [] c -> do_api fuel a c = Ok c' -> Inv [] c'.
Proof using All.
  intros HI H. destruct a; cbn [Commissioner.do_api] in H.
  - by eapply CoapSecure_Connect_strong.
  - eapply Disconnect_strong; [exact Hw|done|constructor|apply HI|exact H].
  - unfold Petition in H. repeat case_if; simplify_eq; [done| |by eapply CoapSecure_Connect_strong].
    by eapply SendPetition_strong; [exact Hs| |exact H].
  - unfold Resign in H. apply bind_ok in H as (c1 & H1 & H). injection H as <-. apply Inv_out.
    eapply Resign_body_strong; [exact Hw|done|constructor|apply HI|exact H1].
  - by eapply CancelRequests_strong.
  - unfold GetCommissionerDataset in H. destruct (new_request _); simplify_eq; [|done].
    case_if; [destruct (AppendTlv _ _); simplify_eq; [|done]|]; (eapply proxy_aloc_strong; [exact Hs| |exact HI|exact H]; done).
  - by eapply to_aloc_strong; [| |exact H].
  - eapply (GetRawActiveDataset_strong _ Hs _ (RspRawActive h)); [done|by apply Inv_user|intros ?; apply raw_active_confirmable|exact H].
  - eapply (GetRawActiveDataset_strong _ Hs _ (RspActive h)); [done|by apply Inv_user|intros ?; apply raw_active_confirmable|exact H].
  - by eapply to_aloc_strong; [| |exact H].
  - by eapply to_aloc_strong; [| |exact H].
  - by eapply to_aloc_strong; [| |exact H].
  - by eapply to_aloc_strong; [| |exact H].
  - by eapply announce_strong.
  - by eapply announce_strong.
  - by eapply announce_strong.
  - by eapply to_aloc_strong; [| |exact H].
  - by eapply to_aloc_strong; [| |exact H].
  - by eapply SetSecurePendingDataset_strong; [exact Hs| |exact H].
  - eapply guarded_strong; [|exact HI|exact H]. by eapply to_address_strong.
  - eapply guarded_strong; [|exact HI|exact H]. by eapply to_address_strong.
  - eapply guarded_strong; [|exact HI|exact H]. by eapply to_address_strong.
Qed.

Lemma petitions_app l l' : petitions (l ++ l') = (petitions l + petitions l')%nat.
Proof using. unfold petitions. by rewrite List.filter_app, length_app. Qed.

Lemma petitions_cons k l : petitions (k :: l) = (petitions [k] + petitions l)%nat.
Proof using. apply (petitions_app [k]). Qed.

Lemma deliver_strong c cl i r e c' :
  Inv [] c -> deliver channel0 panId0 rotation0 delay0 env_send fuel c cl i r e = Ok c' -> Inv [] c'.
Proof using All.
  intros HI H. unfold deliver in H. destruct HI as ((Hb & Hp & Hd) & (Hn & Hk & Hm) & Ht). destruct cl.
  - destruct (brPending c !! i) as [k|] eqn:Ei; simplify_eq; [|by split_and!].
    pose proof (take_drop_middle _ _ _ Ei) as Em. rewrite <- Em in Hb.
    apply Forall_app in Hb as [Hb1 Hb2]. apply Forall_cons in Hb2 as [Hbk Hb2].
    eapply (proj1 Hs); [exact Hbk| |exact H]. split; [split_and!; [by apply Forall_app|done|done]|].
    split; [split_and!; [| |exact Hm]|exact Ht]; cbn [app with_pending brPending mState] in *.
    + pose proof (f_equal petitions Em) as Hq. rewrite petitions_app, petitions_cons in Hq.
      rewrite petitions_cons, petitions_app. lia.
    + intros k' Hin. apply Hk. rewrite <- Em. rewrite elem_of_cons, elem_of_app in Hin. rewrite elem_of_app, elem_of_cons. tauto.
  - destruct (proxyPending c !! i) as [k|] eqn:Ei; simplify_eq; [|by split_and!].
    pose proof (take_drop_middle _ _ _ Ei) as Em. rewrite <- Em in Hp.
    apply Forall_app in Hp as [Hp1 Hp2]. apply Forall_cons in Hp2 as [Hpk Hp2].
    eapply (proj1 Hs); [by apply user_br| |exact H]. apply Inv_user; [done|].
    split; [split_and!; [done|by apply Forall_app|done]|]. by split.
Qed.

Lemma step_strong e c c' : Inv [] c -> step fuel e c = Ok c' -> Inv [] c'.
Proof using All.
  intros HI H. destruct e; cbn [Commissioner.step] in H.
  - by eapply do_api_strong.
  - unfold handshake_over in H. destruct (mDtls c) eqn:Ed; simplify_eq; try done.
    assert (Hc : Inv [] (with_dtls c kConnected (mOnConnected c))) by (destruct HI as ((?&?&?)&?&?); by split_and!).
    destruct (mOnConnected _); simplify_eq; [|done]. apply bind_ok in H as (c1 & H1 & H). injection H as <-.
    eapply call_connected_strong in H1; [|exact Hs|exact Hc]. destruct H1 as ((?&?&?)&?&?). by split_and!.
  - case_if; simplify_eq; [done|]. bool_to_prop. by eapply dtls_Disconnect_strong; [..|exact H].
  - by eapply deliver_strong.
  - injection H as <-. eapply (Inv_same [] c); [done..|cbn; lia|apply HI|exact HI].
  - unfold keep_alive_timer in H. destruct (mKeepAliveTimer c); simplify_eq; [|done]. case_if; simplify_eq; [|done].
    eapply SendKeepAlive_strong; [exact Hw|exact Hs| | |exact H]; apply HI.
Qed.
End Events.

Lemma run_strong fuel l : forall c c', Inv [] c -> run fuel l c = Ok c' -> Inv [] c'.
Proof using HLaws.
  induction l as [|e l IH]; intros c c' HI H; [by injection H as <-|]. cbn [Commissioner.run] in H.
  apply bind_ok in H as (c1 & H1 & H). eapply IH; [|exact H]. by eapply step_strong.
Qed.

Lemma reachable_init cfg now : Inv [] (Commissioner_init cfg now).
Proof. split; [by split_and!|]. split; [split_and!; [done|by intros ? ?%elem_of_nil|done]|done]. Qed.

(** C18: In every state the commissioner reaches, whatever the order of the API calls, responses, errors and
    timers: it is petitioning exactly when one petition is waiting for its response (never two); keep-alives
    and requests for the mesh-local prefix wait for a response, and a prefix is known, only while the
    commissioner is active; and while it is active its keep-alive timer runs and expires within one keep-alive
    interval. *)
Theorem commissioner_invariant fuel cfg now l c :
  run fuel l (Commissioner_init cfg now) = Ok c ->
  (mState c = kPetitioning <-> petitions (brPending c) = 1%nat) /\
  (petitions (brPending c) <= 1)%nat /\
  (forall k, k ∈ brPending c -> needs_active k = true -> mState c = kActive) /\
  (mMeshLocalPrefix c <> [] -> mState c = kActive) /\
  (mState c = kActive -> exists t, mKeepAliveTimer c = Some t /\ t <= clock c + GetKeepAliveInterval c).
Proof using HLaws.
  intros H. apply run_strong in H as (_ & (Hp & Hk & Hm) & Ht); [|apply reachable_init]. cbn [app] in *.
  rewrite Hp. split_and!; [|by case_bool_decide; lia|done..]. case_bool_decide; split; intros ?; done.
Qed.
End Invariant.
