(* ===== verification/CommissionerHandlers.v ===== *)
(** * The handlers of the commissioner's users

    No handler that is passed to an operation is lost or called twice: at any
    time, the calls that were made and the handlers that are still waiting in
    one of the clients or in the DTLS session add up to the handlers that were
    passed in. *)

From S2P Require Import Prelude Outcome Common Tlv NetworkData CoapMessage Dataset Commissioner CommissionerInvariant.
Import Endian Addr Tlv Message Dataset.

(** ** Counting *)

Fixpoint uses (h : nat) (k : OnResponse) : nat :=
  match k with
  | RspKeepAlive => 0
  | RspPrefix k _ _ _ => uses h k
  | RspPetition h' | RspState h' | RspCode h' | RspCommissionerDataset h' | RspRawActive h'
  | RspActive h' | RspPending h' | RspMlr h' | RspStateOptional h' | RspBbr h'
  | RspFetched h' _ _ => if bool_decide (h' = h) then 1 else 0
  end.

Definition connect_uses (h : nat) (k : ConnectHandler) : nat :=
  match k with ConnUser h' | ConnPetition h' => if bool_decide (h' = h) then 1 else 0 end.
Definition armed_connect (h : nat) (k : option ConnectHandler) : nat :=
  match k with Some k => connect_uses h k | None => 0 end.
Definition call_of (h : nat) (o : Output) : nat :=
  match o with OutHandler h' _ _ => if bool_decide (h' = h) then 1 else 0 | _ => 0 end.

(** The calls of handler [h] so far, and the places where it waits. *)
Definition calls (h : nat) (c : Commissioner) : nat := sum_list_with (call_of h) (outputs c).
Definition armed (h : nat) (c : Commissioner) : nat :=
  sum_list_with (uses h) (brPending c) + sum_list_with (uses h) (proxyPending c) + armed_connect h (mOnConnected c).
Definition total (h : nat) (c : Commissioner) : nat := calls h c + armed h c.

(** The handler an event passes in. *)
Definition passed (h : nat) (e : Event) : nat :=
  match e with
  | EvtApi (ApiConnect h' _ | ApiPetition h' _ | ApiResign h' | ApiGetCommissionerDataset h' _
           | ApiSetCommissionerDataset h' _ | ApiGetRawActiveDataset h' _ | ApiGetActiveDataset h' _
           | ApiSetActiveDataset h' _ | ApiGetPendingDataset h' _ | ApiSetPendingDataset h' _
           | ApiRegisterMulticastListener h' _ _ | ApiAnnounceBegin h' _ _ _ _ | ApiPanIdQuery h' _ _ _
           | ApiEnergyScan h' _ _ _ _ _ | ApiSetBbrDataset h' _ | ApiGetBbrDataset h' _ | ApiSetSecurePendingDataset h' _ _
           | ApiCommandReenroll h' _ | ApiCommandDomainReset h' _ | ApiCommandMigrate h' _ _) => if bool_decide (h' = h) then 1 else 0
  | _ => 0
  end.

(** Requests that wait for the prefix are confirmable, and an idle session has
    no connect handler. *)
Fixpoint conf_kind (k : OnResponse) : Prop :=
  match k with RspPrefix k m _ _ => IsConfirmable m = true /\ conf_kind k | _ => True end.

Definition sound (c : Commissioner) : Prop :=
  Forall conf_kind (brPending c) /\ Forall conf_kind (proxyPending c) /\
  mDtls c <> kDisconnected /\ (mDtls c = kOpen -> mOnConnected c = None).

(** [c'] is [c] after the calls of [f], whose handlers are counted by [n]. *)
Definition settles (n : nat -> nat) (c c' : Commissioner) : Prop :=
  sound c' /\ forall h, total h c' = (total h c + n h)%nat.

Ltac count :=
  unfold total, calls, armed in *;
  cbn [outputs brPending proxyPending mOnConnected out with_state with_pending with_prefix with_clock with_dtls
       set_state set_timer armed_connect connect_uses] in *;
  repeat (rewrite sum_list_with_app in * );
  cbn [sum_list_with uses call_of] in *;
  lia.

Section Handlers.
Context `{HSign : RequestSigner} `{HLaws : !SignerLaws}.
Context (inet_pton4 inet_pton6 : string_t -> option ByteArray).
Context (channel0 : Channel) (panId0 rotation0 delay0 : Z).
Context (env_send : nat -> ErrorCode).
Abbreviation respond := (respond channel0 panId0 rotation0 delay0 env_send).

(** Requests stay confirmable while they are filled. *)
Ltac headers_with tac :=
  repeat match goal with
  | H : (_ ≫= _) = Ok _ |- _ => apply bind_ok in H as (? & ? & H)
  | H : (if _ then _ else _) = Ok _ |- _ => case_if
  | H : AppendTlv _ _ = Ok _ |- _ => apply AppendTlv_header in H
  | H : AppendSessionId _ _ = Ok _ |- _ => apply AppendTlv_header in H
  | H : SignIfCcm _ _ _ = Ok _ |- _ => apply SignIfCcm_header in H
  | H : Ok _ = Ok _ |- _ => injection H as H; subst
  | _ => tac
  end; try discriminate; congruence.
Ltac headers := headers_with ltac:(fail).

Lemma EncodeActive_header m d m' : EncodeActiveOperationalDataset m d = Ok m' -> mHeader m' = mHeader m.
Proof. unfold EncodeActiveOperationalDataset. intros H. headers. Qed.

Lemma EncodePending_header m d m' : EncodePendingOperationalDataset m d = Ok m' -> mHeader m' = mHeader m.
Proof.
  unfold EncodePendingOperationalDataset. intros H. apply bind_ok in H as (m1 & H1 & H).
  apply EncodeActive_header in H1. headers.
Qed.

Lemma EncodeCommissioner_header m d m' : EncodeCommissionerDataset m d = Ok m' -> mHeader m' = mHeader m.
Proof. unfold EncodeCommissionerDataset. intros H. headers. Qed.

Lemma EncodeBbr_header m d m' : EncodeBbrDataset inet_pton4 inet_pton6 m d = Ok m' -> mHeader m' = mHeader m.
Proof. unfold EncodeBbrDataset. intros H. headers. Qed.

Lemma append_all_header l : forall m m', append_all m l = Ok m' -> mHeader m' = mHeader m.
Proof.
  induction l as [|t l IH]; intros m m' H; simpl in H; [by injection H as <-|].
  apply bind_ok in H as (m1 & H1%AppendTlv_header & H). apply IH in H. congruence.
Qed.

Lemma filled_confirmable u m m' : new_request u = Ok m -> mHeader m' = mHeader m -> IsConfirmable m' = true.
Proof. intros H E. rewrite (confirmable_header _ _ E). by eapply new_request_confirmable. Qed.

Ltac encoded :=
  match goal with
  | H : EncodeActiveOperationalDataset _ _ = Ok _ |- _ => apply EncodeActive_header in H
  | H : EncodePendingOperationalDataset _ _ = Ok _ |- _ => apply EncodePending_header in H
  | H : EncodeCommissionerDataset _ _ = Ok _ |- _ => apply EncodeCommissioner_header in H
  | H : EncodeBbrDataset _ _ _ _ = Ok _ |- _ => apply EncodeBbr_header in H
  end.
(** [H] builds a request: its guards, then [new_request], then its TLVs. *)
Ltac confirmable H :=
  repeat (match type of H with (if _ then _ else _) = Ok _ => case_if; [|done] end);
  let r := fresh "r" in let Hr := fresh "Hr" in
  apply bind_ok in H as (r & Hr & H); eapply filled_confirmable; [exact Hr|]; clear Hr; headers_with ltac:(idtac; encoded).

Lemma set_commissioner_confirmable c d m : set_commissioner_request c d = Ok m -> IsConfirmable m = true.
Proof using HLaws. unfold set_commissioner_request. intros H. destruct d. confirmable H. Qed.

Lemma set_active_confirmable c d m : set_active_request c d = Ok m -> IsConfirmable m = true.
Proof using HLaws. unfold set_active_request. intros H. confirmable H. Qed.

Lemma set_pending_confirmable c d m : set_pending_request c d = Ok m -> IsConfirmable m = true.
Proof using HLaws. unfold set_pending_request. intros H. confirmable H. Qed.

Lemma get_pending_confirmable c f m : get_pending_request c f = Ok m -> IsConfirmable m = true.
Proof using HLaws. unfold get_pending_request. intros H. confirmable H. Qed.

Lemma mlr_confirmable c l t m : mlr_request inet_pton4 inet_pton6 c l t = Ok m -> IsConfirmable m = true.
Proof using HLaws.
  unfold mlr_request. intros H. case_if; [|done]. apply bind_ok in H as (b & _ & H). confirmable H.
Qed.

Lemma secure_pending_confirmable c t d a m : secure_pending_request c t d a = Ok m -> IsConfirmable m = true.
Proof using HLaws. unfold secure_pending_request. intros H. confirmable H. Qed.

Lemma set_bbr_confirmable c d m : set_bbr_request inet_pton4 inet_pton6 c d = Ok m -> IsConfirmable m = true.
Proof using HLaws.
  unfold set_bbr_request. intros H. apply bind_ok in H as (b & _ & H). confirmable H.
Qed.

Lemma get_bbr_confirmable c f m : get_bbr_request c f = Ok m -> IsConfirmable m = true.
Proof. unfold get_bbr_request. intros H. apply bind_ok in H as (b & _ & H). confirmable H. Qed.

Lemma proxy_message_confirmable c u m : proxy_message c u = Ok m -> IsConfirmable m = true.
Proof using HLaws. unfold proxy_message. intros H. confirmable H. Qed.

Lemma migrate_confirmable c u m : migrate_request c u = Ok m -> IsConfirmable m = true.
Proof using HLaws. unfold migrate_request. intros H. confirmable H. Qed.

Lemma announce_request_type c u t mk l m :
  announce_request c u t mk l = Ok m -> IsConfirmable m = IsConfirmable (Message_new t Code.kPost) /\
    IsNonConfirmable m = IsNonConfirmable (Message_new t Code.kPost).
Proof using HLaws.
  unfold announce_request. intros H. case_if; [|done].
  apply bind_ok in H as (m1 & H1%SetUriPath_header & H). apply bind_ok in H as (m2 & H2%AppendTlv_header & H).
  apply bind_ok in H as (v & _ & H). apply bind_ok in H as (m3 & H3%AppendTlv_header & H).
  apply bind_ok in H as (m4 & H4%append_all_header & H%SignIfCcm_header).
  unfold IsConfirmable, IsNonConfirmable, GetType. by rewrite H, H4, H3, H2, H1.
Qed.

Definition settling (f : OnResponse -> option Message -> ErrorCode -> Commissioner -> outcome Commissioner) : Prop :=
  forall k r e c c', conf_kind k -> sound c -> f k r e c = Ok c' -> settles (fun h => uses h k) c c'.

Lemma settles_refl c : sound c -> settles (fun _ => 0%nat) c c.
Proof. intros Hs. split; [done|]. intros h. lia. Qed.

Lemma settles_after n c1 c2 c3 :
  settles (fun _ => 0%nat) c1 c2 -> (sound c2 -> settles n c2 c3) -> settles n c1 c3.
Proof. intros [H1 E1] H2. destruct (H2 H1) as [H3 E3]. split; [done|]. intros h. rewrite E3, E1. lia. Qed.

Lemma settles_same n c1 c2 c3 :
  settles n c2 c3 -> (forall h, total h c1 = total h c2) -> settles n c1 c3.
Proof. intros [H1 E1] E. split; [done|]. intros h. by rewrite E1, E. Qed.

Lemma settles_call h v e c : sound c ->
  settles (fun h' => if bool_decide (h = h') then 1%nat else 0%nat) c (out c (OutHandler h v e)).
Proof. intros Hs. split; [done|]. intros h'. count. Qed.

Lemma dtls_send_settles c e c' : dtls_send env_send c = (e, c') -> sound c -> settles (fun _ => 0%nat) c c'.
Proof. intros H Hs. apply dtls_send_same in H as [-> | ->]; (split; [done|]; intros h; count). Qed.

Lemma proxy_send_settles c e c' : proxy_send env_send c = (e, c') -> sound c -> settles (fun _ => 0%nat) c c'.
Proof. intros H Hs. apply proxy_send_same in H as [-> | ->]; (split; [done|]; intros h; count). Qed.

Section Ops.
Context (rsp : OnResponse -> option Message -> ErrorCode -> Commissioner -> outcome Commissioner).
Context (n : nat) (Hrsp : settling rsp).

Lemma br_SendRequest_settles c m k c' :
  conf_kind k -> IsConfirmable m = true -> sound c ->
  br_SendRequest env_send rsp c m k = Ok c' -> settles (fun h => uses h k) c c'.
Proof using Hrsp.
  intros Hk Hm Hs H. unfold br_SendRequest in H. destruct (dtls_send env_send c) as [e c1] eqn:Ed.
  apply dtls_send_settles in Ed; [|done]. eapply settles_after; [exact Ed|]. intros Hs1.
  case_if; [|by eapply Hrsp]. rewrite Hm in H. simplify_eq. destruct Hs1 as (H1 & H2 & H3).
  split; [|intros h; count]. split; [|done]. apply Forall_app_2; [done|]. by repeat constructor.
Qed.

Lemma proxy_SendRequest_settles c m k a p c' :
  conf_kind k -> IsConfirmable m = true -> sound c ->
  proxy_SendRequest env_send rsp c m k a p = Ok c' -> settles (fun h => uses h k) c c'.
Proof using Hrsp.
  intros Hk Hm Hs H. unfold proxy_SendRequest in H. case_if; [|done].
  destruct (proxy_send env_send c) as [e c1] eqn:Ed.
  apply proxy_send_settles in Ed; [|done]. eapply settles_after; [exact Ed|]. intros Hs1.
  case_if; [|by eapply Hrsp]. rewrite Hm in H. simplify_eq. destruct Hs1 as (H1 & H2 & H3).
  split; [|intros h; count]. split; [done|]. split; [|done]. apply Forall_app_2; [done|]. by repeat constructor.
Qed.

Lemma GetRawActiveDataset_settles c k f c' :
  conf_kind k -> sound c -> GetRawActiveDataset env_send rsp c k f = Ok c' -> settles (fun h => uses h k) c c'.
Proof using Hrsp HLaws.
  intros Hk Hs H. unfold GetRawActiveDataset, send_or_report in H.
  destruct (raw_active_request c f) eqn:Em; [|by eapply Hrsp|done].
  eapply br_SendRequest_settles; eauto using raw_active_confirmable.
Qed.

Lemma proxy_aloc_settles c m k a p c' :
  conf_kind k -> IsConfirmable m = true -> sound c ->
  proxy_SendRequest_aloc env_send rsp c m k a p = Ok c' -> settles (fun h => uses h k) c c'.
Proof using Hrsp HLaws.
  intros Hk Hm Hs H. unfold proxy_SendRequest_aloc in H. case_if.
  - by eapply (GetRawActiveDataset_settles c (RspPrefix k m a p)).
  - apply bind_ok in H as (ad & _ & H). by eapply proxy_SendRequest_settles.
Qed.

Lemma SetSecurePendingDataset_settles c h t d c' :
  sound c -> SetSecurePendingDataset env_send rsp c h t d = Ok c' -> settles (fun h' => uses h' (RspState h)) c c'.
Proof using Hrsp HLaws.
  intros Hs H. unfold SetSecurePendingDataset, send_or_report in H.
  destruct (secure_pending_guard c d); simplify_eq; [|by apply settles_call]. case_if.
  - by eapply (GetRawActiveDataset_settles c (RspFetched h t d)).
  - apply bind_ok in H as (ad & _ & H). destruct (secure_pending_request _ _ _ _) as [m|e|] eqn:Em; [|by eapply (Hrsp (RspState h))|done].
    eapply (proxy_SendRequest_settles c m (RspState h)); [done|by eapply secure_pending_confirmable|done|exact H].
Qed.

Lemma SendPetition_settles c h c' :
  sound c -> SendPetition env_send rsp c h = Ok c' -> settles (fun h' => uses h' (RspPetition h)) c c'.
Proof using Hrsp HLaws.
  intros Hs H. unfold SendPetition in H. destruct (petition_request c) as [m| |] eqn:Em; simplify_eq.
  - apply petition_confirmable in Em as [_ Em]. eapply settles_same; [by eapply br_SendRequest_settles; [..|exact H]|done].
  - by apply settles_call.
Qed.

Lemma call_connected_settles c h e c' :
  sound c -> call_connected env_send rsp c h e = Ok c' -> settles (fun h' => connect_uses h' h) c c'.
Proof using Hrsp HLaws.
  intros Hs H. destruct h; simpl in H; simplify_eq; [by apply settles_call|].
  case_if; simplify_eq; [by eapply SendPetition_settles|by apply settles_call].
Qed.

Lemma dtls_Disconnect_settles c e c' :
  e <> kNone -> sound c -> dtls_Disconnect env_send rsp c e = Ok c' -> settles (fun _ => 0%nat) c c'.
Proof using.
  intros He (Hb & Hp & Hd & Ho) H. unfold dtls_Disconnect in H.
  destruct (mDtls c) eqn:Ed; try (injection H as <-; apply settles_refl; split_and!; [done|done|by rewrite Ed|by rewrite Ed]).
  all: apply bind_ok in H as (c1 & H1 & H); injection H as <-; cbn [with_dtls mOnConnected] in H1.
  all: destruct (mOnConnected c) as [h|] eqn:Eo.
  2, 4: injection H1 as <-; split; [by split_and!|intros h; unfold total, armed; cbn; by rewrite Eo].
  all: destruct h as [h|h]; cbn [call_connected] in H1.
  2, 4: rewrite bool_decide_eq_false_2 in H1 by done.
  all: injection H1 as <-; split; [by split_and!|intros h'; unfold total, armed; cbn; rewrite Eo; unfold calls; simpl; lia].
Qed.

Lemma br_Cancel_settles m : forall c c', sound c -> br_Cancel rsp m c = Ok c' -> settles (fun _ => 0%nat) c c'.
Proof using Hrsp.
  induction m as [|m IH]; intros c c' Hs H; simpl in H; destruct (brPending c) as [|k l] eqn:El; simplify_eq;
    try by apply settles_refl.
  apply bind_ok in H as (c1 & H1 & H). destruct Hs as (Hb & Hp & Hd & Ho). rewrite El in Hb.
  apply Forall_cons in Hb as [Hk Hb]. eapply Hrsp in H1 as [Hs1 E1]; [|exact Hk|by split_and!].
  destruct (IH _ _ Hs1 H) as [Hs2 E2]. split; [done|]. intros h. rewrite E2, E1.
  unfold total, armed. cbn. rewrite El. simpl. unfold calls. cbn. lia.
Qed.

Lemma proxy_Cancel_settles m : forall c c', sound c -> proxy_Cancel rsp m c = Ok c' -> settles (fun _ => 0%nat) c c'.
Proof using Hrsp.
  induction m as [|m IH]; intros c c' Hs H; simpl in H; destruct (proxyPending c) as [|k l] eqn:El; simplify_eq;
    try by apply settles_refl.
  apply bind_ok in H as (c1 & H1 & H). destruct Hs as (Hb & Hp & Hd & Ho). rewrite El in Hp.
  apply Forall_cons in Hp as [Hk Hp]. eapply Hrsp in H1 as [Hs1 E1]; [|exact Hk|by split_and!].
  destruct (IH _ _ Hs1 H) as [Hs2 E2]. split; [done|]. intros h. rewrite E2, E1.
  unfold total, armed. cbn. rewrite El. simpl. unfold calls. cbn. lia.
Qed.

Lemma Disconnect_settles c c' : sound c -> Disconnect env_send rsp n c = Ok c' -> settles (fun _ => 0%nat) c c'.
Proof using Hrsp.
  intros Hs H. unfold Disconnect in H. apply bind_ok in H as (c1 & H1 & H). apply bind_ok in H as (c2 & H2 & H).
  injection H as <-. apply dtls_Disconnect_settles in H1; [|done..].
  eapply settles_after; [exact H1|intros Hs1; by destruct (br_Cancel_settles _ _ _ Hs1 H2)].
Qed.

Lemma SendKeepAlive_settles c b c' : sound c -> SendKeepAlive env_send rsp n c b = Ok c' -> settles (fun _ => 0%nat) c c'.
Proof using Hrsp HLaws.
  intros Hs H. unfold SendKeepAlive in H. destruct (keep_alive_request c b) eqn:Em; simplify_eq.
  - apply keep_alive_confirmable in Em as [_ Em].
    eapply settles_same; [by eapply (br_SendRequest_settles _ _ RspKeepAlive); [..|exact H]|done].
  - by eapply Disconnect_settles.
Qed.

Lemma Resign_body_settles c c' : sound c -> Resign_body env_send rsp n c = Ok c' -> settles (fun _ => 0%nat) c c'.
Proof using Hrsp HLaws.
  intros Hs H. unfold Resign_body in H. apply bind_ok in H as (c1 & H1 & H).
  assert (Hs1 : settles (fun _ => 0%nat) c c1) by (case_if; simplify_eq; [by eapply SendKeepAlive_settles|by apply settles_refl]).
  eapply settles_after; [exact Hs1|]. intros Hs2.
  eapply settles_same; [by eapply Disconnect_settles; [|exact H]|done].
Qed.
End Ops.

Lemma fetch_prefix_is c d : exists q, fetch_prefix c d = with_prefix c q.
Proof.
  assert (Hc : with_prefix c (mMeshLocalPrefix c) = c) by by destruct c.
  unfold fetch_prefix. case_if; [|by exists (mMeshLocalPrefix c)].
  destruct (SetMeshLocalPrefix c _) eqn:Es; [|by exists (mMeshLocalPrefix c)..].
  by apply SetMeshLocalPrefix_weak in Es.
Qed.

Lemma answer_settles c h r c' : sound c -> answer c h r = Ok c' ->
  settles (fun h' => if bool_decide (h = h') then 1%nat else 0%nat) c c'.
Proof. intros Hs H. apply answer_out in H as (v & e & ->). by apply settles_call. Qed.

Lemma respond_settles fuel : settling (respond fuel).
Proof using HLaws.
  induction fuel as [|fuel IH]; intros k r e c c' Hk Hs H; [done|]. cbn [Commissioner.respond] in H.
  unfold Commissioner.respond_step in H. destruct k; try by eapply answer_settles.
  - apply bind_ok in H as ([id|[e' ex]] & _ & H); simplify_eq; eapply settles_same; try by apply settles_call.
    all: done.
  - destruct (HandleStateResponse r e true); simplify_eq.
    + split; [done|]. intros h. count.
    + apply bind_ok in H as (c1 & H1 & H). injection H as <-. eapply Resign_body_settles in H1 as [H1 E1]; [|done..].
      split; [done|]. intros h. specialize (E1 h). count.
  - destruct (active_result _ _ _ _ _) as [ad|e'|]; simplify_eq; [|by apply settles_call].
    destruct (fetch_prefix_is c ad) as (q & E). rewrite E in H.
    eapply settles_same; [by eapply (SetSecurePendingDataset_settles _ IH); [|exact H]|done].
  - destruct Hk as [Hm Hk]. destruct (active_result _ _ _ _ _) as [ad|e'|]; [|exact (IH _ _ _ _ _ Hk Hs H)|done].
    apply bind_ok in H as (addr & _ & H). destruct (fetch_prefix_is c ad) as (q & E). rewrite E in H.
    eapply settles_same; [eapply (proxy_SendRequest_settles _ IH _ _ k); [exact Hk|exact Hm| |exact H]|]; done.
Qed.

(** *** Every event *)

Abbreviation run := (run inet_pton4 inet_pton6 channel0 panId0 rotation0 delay0 env_send).
Abbreviation step := (step inet_pton4 inet_pton6 channel0 panId0 rotation0 delay0 env_send).
Abbreviation do_api := (do_api inet_pton4 inet_pton6 channel0 panId0 rotation0 delay0 env_send).

(** An announcement to a multicast address. *)
Definition multicast (d : string_t) : bool :=
  match SetString inet_pton4 inet_pton6 d with Ok a => IsMulticast a | _ => false end.
Definition multicast_announce (e : Event) : bool :=
  match e with
  | EvtApi (ApiAnnounceBegin _ _ _ _ d | ApiPanIdQuery _ _ _ d | ApiEnergyScan _ _ _ _ _ d) => multicast d
  | _ => false
  end.

Section Events.
Context (fuel : nat).
Let Hr := respond_settles fuel.

Lemma to_aloc_settles c m k a c' :
  conf_kind k -> (forall r, m = Ok r -> IsConfirmable r = true) -> sound c ->
  to_aloc channel0 panId0 rotation0 delay0 env_send fuel c m k a = Ok c' -> settles (fun h => uses h k) c c'.
Proof using All.
  intros Hk Hm Hs H. unfold to_aloc, send_or_report in H. destruct m; [|exact (Hr _ _ _ _ _ Hk Hs H)|done].
  eapply (proxy_aloc_settles _ Hr _ _ k); eauto.
Qed.

Lemma announce_settles c h u mk l d c' :
  multicast d = false -> sound c ->
  announce inet_pton4 inet_pton6 channel0 panId0 rotation0 delay0 env_send fuel c h u mk l d = Ok c' ->
  settles (fun h' => uses h' (RspCode h)) c c'.
Proof using All.
  unfold announce, multicast, announce_type. intros Hd Hs H.
  destruct (SetString _ _ d); simplify_eq; [|by apply settles_call]. rewrite Hd in H.
  destruct (announce_request _ _ _ _ _) eqn:Em; simplify_eq; [|by apply settles_call].
  apply announce_request_type in Em as [E1 E2]. apply bind_ok in H as (c1 & H1 & H). rewrite E2 in H. cbn in H.
  injection H as <-. by eapply (proxy_SendRequest_settles _ Hr _ _ (RspCode h)).
Qed.

Lemma to_address_settles c h d m c' :
  (forall r, m = Ok r -> IsConfirmable r = true) -> sound c ->
  to_address inet_pton4 inet_pton6 channel0 panId0 rotation0 delay0 env_send fuel c h d m = Ok c' ->
  settles (fun h' => uses h' (RspStateOptional h)) c c'.
Proof using All.
  intros Hm Hs H. unfold to_address, send_or_report in H.
  destruct (mbind _ _) as [[a r]| |] eqn:Er; [|by eapply (Hr (RspStateOptional h))|done].
  apply bind_ok in Er as (a' & _ & (r' & Er & [= <- <-])%bind_ok).
  eapply (proxy_SendRequest_settles _ Hr _ _ (RspStateOptional h)); [done|by apply Hm|done|exact H].
Qed.

Lemma guarded_settles c h (g : outcome unit) k c' :
  (k = Ok c' -> settles (fun h' => uses h' (RspStateOptional h)) c c') -> sound c ->
  match g with Ok _ => k | Err e => Ok (out c (OutHandler h ResNone e)) | Die => Die end = Ok c' ->
  settles (fun h' => uses h' (RspStateOptional h)) c c'.
Proof using All. intros Hk Hs H. destruct g; [by apply Hk|simplify_eq; by apply settles_call|done]. Qed.

Lemma CoapSecure_Connect_settles c h b c' :
  sound c -> CoapSecure_Connect env_send (respond fuel) c h b = Ok c' -> settles (fun h' => connect_uses h' h) c c'.
Proof using All.
  intros Hs H. unfold CoapSecure_Connect, dtls_Connect in H. case_if; [|by eapply call_connected_settles].
  case_if; simplify_eq. bool_to_prop. destruct Hs as (? & ? & ? & Ho). split; [by split_and!|].
  intros h'. unfold total, armed. cbn. rewrite (Ho E0). unfold calls. cbn. lia.
Qed.

Lemma GetCommissionerDataset_settles c h flags c' : sound c ->
  GetCommissionerDataset channel0 panId0 rotation0 delay0 env_send fuel c h flags = Ok c' ->
  settles (fun h' => uses h' (RspCommissionerDataset h)) c c'.
Proof using All.
  intros Hs H. unfold GetCommissionerDataset in H. destruct (new_request _) as [m| |] eqn:Em; simplify_eq.
  case_if; [rewrite DatasetFacts.AppendTlv_valid in H by (by apply dataset_types_valid)|].
  all: eapply (proxy_aloc_settles _ Hr _ _ (RspCommissionerDataset h)); [done| |exact Hs|exact H].
  - by eapply filled_confirmable.
  - by eapply new_request_confirmable.
Qed.

Lemma do_api_settles a c c' : multicast_announce (EvtApi a) = false -> sound c -> do_api fuel a c = Ok c' ->
  settles (fun h => passed h (EvtApi a)) c c'.
Proof using All.
  intros Hm Hs H. destruct a; cbn [Commissioner.do_api passed] in *.
  - by eapply (CoapSecure_Connect_settles c (ConnUser h)).
  - by eapply Disconnect_settles.
  - unfold Petition in H. repeat case_if; simplify_eq; [by apply settles_call| |].
    + by eapply SendPetition_settles.
    + by eapply (CoapSecure_Connect_settles c (ConnPetition h)).
  - unfold Resign in H. apply bind_ok in H as (c1 & H1 & H). injection H as <-.
    eapply settles_after; [by eapply Resign_body_settles|]. intros Hs1. by apply settles_call.
  - unfold CancelRequests in H. apply bind_ok in H as (c1 & H1 & H).
    eapply settles_after; [by eapply proxy_Cancel_settles|]. intros Hs1. by eapply br_Cancel_settles.
  - by eapply GetCommissionerDataset_settles.
  - eapply (to_aloc_settles c _ (RspState h)); [done|apply set_commissioner_confirmable|exact Hs|exact H].
  - by eapply (GetRawActiveDataset_settles _ Hr _ (RspRawActive h)).
  - by eapply (GetRawActiveDataset_settles _ Hr _ (RspActive h)).
  - eapply (to_aloc_settles c _ (RspState h)); [done|apply set_active_confirmable|exact Hs|exact H].
  - eapply (to_aloc_settles c _ (RspPending h)); [done|apply get_pending_confirmable|exact Hs|exact H].
  - eapply (to_aloc_settles c _ (RspState h)); [done|apply set_pending_confirmable|exact Hs|exact H].
  - eapply (to_aloc_settles c _ (RspMlr h)); [done|apply mlr_confirmable|exact Hs|exact H].
  - by eapply announce_settles.
  - by eapply announce_settles.
  - by eapply announce_settles.
  - eapply (to_aloc_settles c _ (RspState h)); [done|apply set_bbr_confirmable|exact Hs|exact H].
  - eapply (to_aloc_settles c _ (RspBbr h)); [done|apply get_bbr_confirmable|exact Hs|exact H].
  - by eapply (SetSecurePendingDataset_settles _ Hr).
  - eapply guarded_settles; [|exact Hs|exact H].
    intros Hk. eapply to_address_settles; [apply proxy_message_confirmable|exact Hs|exact Hk].
  - eapply guarded_settles; [|exact Hs|exact H].
    intros Hk. eapply to_address_settles; [apply proxy_message_confirmable|exact Hs|exact Hk].
  - eapply guarded_settles; [|exact Hs|exact H].
    intros Hk. eapply to_address_settles; [apply migrate_confirmable|exact Hs|exact Hk].
Qed.

(** The petition that a new session starts leaves its connect handler alone. *)
Lemma call_connected_keeps c h c' :
  call_connected env_send (respond fuel) c h kNone = Ok c' -> mOnConnected c' = mOnConnected c.
Proof using Type HLaws.
  destruct h as [h|h]; simpl; intros H; [by injection H as <-|]. unfold SendPetition in H.
  destruct (petition_request c); simplify_eq; [|done]. unfold br_SendRequest in H.
  destruct (dtls_send env_send _) as [e c1] eqn:Ed.
  assert (E1 : mOnConnected c1 = mOnConnected c) by (by apply dtls_send_same in Ed as [-> | ->]).
  repeat case_if; simplify_eq; try done. destruct fuel; [done|]. cbn [Commissioner.respond] in H.
  unfold Commissioner.respond_step in H. apply bind_ok in H as ([?|[??]] & _ & H); by simplify_eq.
Qed.

Lemma deliver_settles c cl i r e c' : sound c ->
  deliver channel0 panId0 rotation0 delay0 env_send fuel c cl i r e = Ok c' -> settles (fun _ => 0%nat) c c'.
Proof using All.
  intros (Hb & Hp & Hd & Ho) H. unfold deliver in H.
  destruct ((match cl with BrClient => brPending c | ProxyClient => proxyPending c end) !! i) as [k|] eqn:Ei;
    simplify_eq; [|by apply settles_refl; split_and!].
  pose proof (take_drop_middle _ _ _ Ei) as Em.
  assert (Hf : Forall conf_kind (match cl with BrClient => brPending c | ProxyClient => proxyPending c end)) by by destruct cl.
  rewrite <- Em in Hf. apply Forall_app in Hf as [Hf1 Hf2]. apply Forall_cons in Hf2 as [Hk Hf2].
  apply Hr in H as [Hs' E]; [|exact Hk|destruct cl; split_and!; try done; by apply Forall_app_2].
  split; [exact Hs'|]. intros h. rewrite E.
  pose proof (f_equal (sum_list_with (uses h)) Em) as Hq. rewrite !sum_list_with_app in Hq.
  cbn [sum_list_with] in Hq. destruct cl; unfold total, armed; cbn; rewrite sum_list_with_app; unfold calls; cbn; lia.
Qed.

Lemma step_settles e c c' : multicast_announce e = false -> sound c -> step fuel e c = Ok c' ->
  settles (fun h => passed h e) c c'.
Proof using All.
  intros Hm Hs H. destruct e; cbn [Commissioner.step] in H.
  - by eapply do_api_settles.
  - unfold handshake_over in H. destruct (mDtls c) eqn:Ed; simplify_eq; try by apply settles_refl.
    cbn [mOnConnected with_dtls] in H. destruct Hs as (Hb & Hp & _ & _).
    destruct (mOnConnected c) as [h|] eqn:Eo.
    + apply bind_ok in H as (c1 & H1 & H). injection H as <-.
      apply call_connected_keeps in H1 as E1. eapply call_connected_settles in H1 as [(Hb1 & Hp1 & Hd1 & _) E2]; [|exact Hr|by split_and!].
      split; [by split_and!|]. intros h'. specialize (E2 h').
      unfold total, armed in *. rewrite E1 in E2. cbn in *. rewrite Eo. unfold calls in *. cbn in *. lia.
    + injection H as <-. split; [by split_and!|]. intros h. unfold total, armed. cbn. rewrite Eo. unfold calls. cbn. lia.
  - case_if; simplify_eq; [by apply settles_refl|]. bool_to_prop. by eapply dtls_Disconnect_settles; [..|exact H].
  - by eapply deliver_settles.
  - injection H as <-. split; [done|]. intros h. unfold total, calls, armed; cbn; lia.
  - unfold keep_alive_timer in H. destruct (mKeepAliveTimer c); simplify_eq; [|by apply settles_refl].
    case_if; simplify_eq; [|by apply settles_refl].
    eapply settles_same; [by eapply SendKeepAlive_settles; [..|exact H]|done].
Qed.

Lemma run_settles l : forall c c', Forall (fun e => multicast_announce e = false) l -> sound c ->
  run fuel l c = Ok c' -> settles (fun h => sum_list_with (passed h) l) c c'.
Proof using All.
  induction l as [|e l IH]; intros c c' Hm Hs H; cbn [Commissioner.run] in H; [injection H as <-; by apply settles_refl|].
  apply Forall_cons in Hm as [Hm Hms]. apply bind_ok in H as (c1 & H1 & H).
  apply step_settles in H1 as [Hs1 E1]; [|done..]. destruct (IH _ _ Hms Hs1 H) as [Hs2 E2].
  split; [done|]. intros h. rewrite E2, E1. simpl. lia.
Qed.
End Events.

End Handlers.
