(* ===== verification/CommissionerControl.v ===== *)
(** * Starting and stopping the commissioner

    The validation of the configuration, the answers to petitions, the guards
    of the management commands, and what disconnecting and resigning leave
    behind. *)

From S2P Require Import Prelude Outcome Common Tlv NetworkData CoapMessage Dataset DatasetCodec Commissioner CommissionerInvariant CommissionerHandlers.
Import Endian CommonFacts Addr Tlv TlvFacts Message Dataset DatasetFacts.

(** ** Cancelled requests *)

Fixpoint user_of (k : OnResponse) : nat :=
  match k with
  | RspKeepAlive => 0
  | RspPrefix k _ _ _ => user_of k
  | RspPetition h | RspState h | RspCode h | RspCommissionerDataset h | RspRawActive h
  | RspActive h | RspPending h | RspMlr h | RspStateOptional h | RspBbr h | RspFetched h _ _ => h
  end.

(** What is reported for a request that failed. *)
Fixpoint failed (e : ErrorCode) (k : OnResponse) : Output :=
  match k with
  | RspKeepAlive => OutKeepAliveResponse e
  | RspPrefix k _ _ _ => failed e k
  | _ => OutHandler (user_of k) ResNone e
  end.

Definition connect_failed (e : ErrorCode) (k : ConnectHandler) : Output :=
  match k with ConnUser h | ConnPetition h => OutHandler h ResNone e end.

(** The calls that answering a request with an error takes. *)
Fixpoint cost (k : OnResponse) : nat := match k with RspPrefix k _ _ _ => S (cost k) | _ => 1 end.
Definition costs (l : list OnResponse) : nat := sum_list_with cost l.

Lemma costs_length l : (length l <= costs l)%nat.
Proof. induction l as [|k l IH]; simpl; [lia|]. unfold costs in *. simpl. destruct k; simpl; lia. Qed.

Section Control.
Context `{HSign : RequestSigner} `{HLaws : !SignerLaws}.
Context (inet_pton4 inet_pton6 : string_t -> option ByteArray).
Context (channel0 : Channel) (panId0 rotation0 delay0 : Z).
Context (env_send : nat -> ErrorCode).
Abbreviation respond := (respond channel0 panId0 rotation0 delay0 env_send).
Abbreviation do_api := (do_api inet_pton4 inet_pton6 channel0 panId0 rotation0 delay0 env_send).

(** [c'] is [c] after some of its border agent requests were cancelled, with
    [os] reported besides. *)
Record cancels (os : list Output) (c c' : Commissioner) : Prop := {
  cancels_dtls : mDtls c' = kOpen;
  cancels_pending : brPending c' = brPending c \/ brPending c' = [];
  cancels_proxy : proxyPending c' = proxyPending c;
  cancels_timer : mKeepAliveTimer c' = mKeepAliveTimer c \/ mKeepAliveTimer c' = None;
  cancels_outputs : map (failed kCancelled) (brPending c') ++ outputs c' ≡ₚ
                    os ++ map (failed kCancelled) (brPending c) ++ outputs c }.

Lemma cancels_out o c : mDtls c = kOpen -> cancels [o] c (out c o).
Proof. intros Hd. split; auto. cbn. symmetry. apply Permutation_middle. Qed.

Section Cancel.
Context (rsp : OnResponse -> option Message -> ErrorCode -> Commissioner -> outcome Commissioner) (f : nat).
Context (Hrsp : forall k c, mDtls c = kOpen -> (cost k + costs (brPending c) <= f)%nat ->
  exists c', rsp k None kCancelled c = Ok c' /\ cancels [failed kCancelled k] c c').

Lemma br_Cancel_complete m : forall c,
  mDtls c = kOpen -> (length (brPending c) <= m)%nat -> (costs (brPending c) <= f)%nat ->
  exists c', br_Cancel rsp m c = Ok c' /\ cancels [] c c' /\ brPending c' = [].
Proof using Hrsp env_send.
  induction m as [|m IH]; intros c Hd Hl Hf; simpl; destruct (brPending c) as [|k l] eqn:El.
  1, 3: exists c; (split; [done|]); split; [by split; auto|done].
  { simpl in Hl. lia. }
  simpl in Hl. unfold costs in Hf; simpl in Hf.
  destruct (Hrsp k (with_pending c l (proxyPending c))) as (c1 & E1 & [D1 P1 X1 T1 O1]); [done|unfold costs; cbn; lia|].
  rewrite E1. cbn [mbind outcome_bind]. cbn [brPending with_pending outputs proxyPending mKeepAliveTimer] in *.
  destruct (IH c1) as (c2 & E2 & [D2 P2 X2 T2 O2] & N2).
  - done.
  - destruct P1 as [-> | ->]; simpl; lia.
  - destruct P1 as [-> | ->]; unfold costs; simpl; lia.
  - exists c2. split; [done|]. split; [|done]. split; [done|by right|congruence|intuition congruence|].
    rewrite O2, O1, El. done.
Qed.
End Cancel.

(** The connect handler that an end of the session calls. *)
Definition waiting (c : Commissioner) : list ConnectHandler :=
  match mDtls c with kConnecting | kConnected => option_list (mOnConnected c) | _ => [] end.

Lemma dtls_Disconnect_complete rsp c e :
  e <> kNone -> mDtls c <> kDisconnected ->
  exists c', dtls_Disconnect env_send rsp c e = Ok c' /\ mDtls c' = kOpen /\ brPending c' = brPending c /\
    proxyPending c' = proxyPending c /\ mKeepAliveTimer c' = mKeepAliveTimer c /\
    outputs c' = map (connect_failed e) (waiting c) ++ outputs c.
Proof.
  intros He Hd. unfold dtls_Disconnect, waiting. destruct (mDtls c) eqn:Ed; [by exists c; rewrite Ed|..|done].
  all: cbn [with_dtls mOnConnected]; destruct (mOnConnected c) as [h|]; [|by eexists].
  all: destruct h; cbn [call_connected]; rewrite ?bool_decide_eq_false_2 by done; by eexists.
Qed.

Lemma Disconnect_cancels rsp n f c :
  (forall k c, mDtls c = kOpen -> (cost k + costs (brPending c) <= f)%nat ->
    exists c', rsp k None kCancelled c = Ok c' /\ cancels [failed kCancelled k] c c') ->
  mDtls c <> kDisconnected -> (costs (brPending c) <= f)%nat -> (costs (brPending c) <= n)%nat ->
  exists c', Disconnect env_send rsp n c = Ok c' /\ stopped c' /\
    cancels (map (connect_failed kCancelled) (waiting c)) c c'.
Proof.
  intros Hrsp Hd Hf Hn. unfold Disconnect.
  destruct (dtls_Disconnect_complete rsp c kCancelled) as (c1 & -> & D1 & P1 & X1 & T1 & O1); [done..|].
  cbn [mbind outcome_bind]. pose proof (costs_length (brPending c)).
  destruct (br_Cancel_complete rsp f Hrsp n c1) as (c2 & -> & [D2 P2 X2 T2 O2] & N2); [done|rewrite P1; lia..|].
  cbn [mbind outcome_bind]. eexists. split; [done|]. split; [done|].
  split; cbn; [done|by right|congruence|intuition congruence|]. cbn in O2. rewrite N2 in *. simpl in *.
  rewrite O2, O1, P1. rewrite !app_assoc. f_equiv. apply Permutation_app_comm.
Qed.

Lemma cancels_state os c s t c' :
  t = mKeepAliveTimer c \/ t = None -> cancels os (with_state c s (mSessionId c) t) c' -> cancels os c c'.
Proof. intros Ht [D P X T O]. split; try done. cbn in T. intuition congruence. Qed.

Lemma no_state_response e : e <> kNone -> HandleStateResponse None e true = Err e.
Proof. intros He. unfold HandleStateResponse, received. by rewrite bool_decide_eq_false_2. Qed.

(** Losing a keep-alive resigns: everything stops, and every request is told. *)
Lemma keep_alive_lost f c r e e' :
  (forall k c, mDtls c = kOpen -> (cost k + costs (brPending c) <= f)%nat ->
    exists c', respond f k None kCancelled c = Ok c' /\ cancels [failed kCancelled k] c c') ->
  HandleStateResponse r e true = Err e' -> mDtls c <> kDisconnected -> (costs (brPending c) <= f)%nat ->
  exists c', respond (S f) RspKeepAlive r e c = Ok c' /\ stopped c' /\ mKeepAliveTimer c' = None /\
    cancels (OutKeepAliveResponse e' :: map (connect_failed kCancelled) (waiting c)) c c'.
Proof.
  intros Hrsp He Hd Hf. cbn [Commissioner.respond]. unfold Commissioner.respond_step. rewrite He.
  assert (Er : Resign_body env_send (respond f) f (set_state c kDisabled)
               = Disconnect env_send (respond f) f (with_state c kDisabled (mSessionId c) None)) by done.
  rewrite Er. destruct (Disconnect_cancels (respond f) f f (with_state c kDisabled (mSessionId c) None))
    as (c1 & -> & Hs & Hc); [done..|]. cbn [mbind outcome_bind]. eexists. split; [done|]. split; [done|].
  assert (Ht : mKeepAliveTimer c1 = None) by by destruct (cancels_timer _ _ _ Hc).
  split; [done|]. apply cancels_state in Hc as [D P X T O]; [|by right].
  split; [done..|]. cbn [out brPending outputs]. destruct Hs as (_ & Hb & _). rewrite Hb in *. cbn [map app] in *.
  by rewrite O.
Qed.

Lemma respond_cancels f : forall k c, mDtls c = kOpen -> (cost k + costs (brPending c) <= f)%nat ->
  exists c', respond f k None kCancelled c = Ok c' /\ cancels [failed kCancelled k] c c'.
Proof.
  induction f as [|f IH]; intros k c Hd Hc; [destruct k; simpl in Hc; lia|].
  destruct k as [h| |h|h|h|h|h|h|h|h|h|h t d|k m a p]; simpl in Hc.
  1: eexists; (split; [done|]); eapply (cancels_state _ _ kDisabled); [by left|by apply (cancels_out (OutHandler h ResNone kCancelled))].
  2-11: eexists; (split; [done|]); by apply cancels_out.
  - destruct (keep_alive_lost f c None kCancelled kCancelled IH) as (c' & E & _ & _ & Hc'); [done|by rewrite Hd|lia|].
    exists c'. split; [exact E|]. unfold waiting in Hc'. by rewrite Hd in Hc'.
  - apply (IH k c Hd). lia.
Qed.

(** [Disconnect] always ends, also when cancelling a keep-alive makes it resign and disconnect again from
    inside: the session is closed, the commissioner is disabled without a mesh-local prefix, no request to the
    border agent is left, and exactly the handlers of these requests, and the one of a session that was being
    set up, were called, each once, with [kCancelled].  Requests to other peers keep waiting. *)
Theorem Disconnect_complete fuel c :
  mDtls c <> kDisconnected -> (costs (brPending c) <= fuel)%nat ->
  exists c', do_api fuel ApiDisconnect c = Ok c' /\
    stopped c' /\ mDtls c' = kOpen /\ proxyPending c' = proxyPending c /\
    outputs c' ≡ₚ map (connect_failed kCancelled) (waiting c) ++ map (failed kCancelled) (brPending c) ++ outputs c.
Proof.
  intros Hd Hf. cbn [Commissioner.do_api].
  destruct (Disconnect_cancels (respond fuel) fuel fuel c (respond_cancels fuel)) as (c' & E & Hs & [D P X T O]); [done..|].
  exists c'. split_and!; try done; try apply Hs. destruct Hs as (_ & Hb & _). by rewrite Hb in O.
Qed.

(** The keep-alive request of an active commissioner can always be built; in a
    commercial network it is then signed. *)
Lemma keep_alive_request_is c b : mState c = kActive ->
  exists m, keep_alive_request c b = SignIfCcm c m false /\
    mPayload m = concat (map encoding [Tlv_u8 kState (if b then kStateAccept else kStateReject);
                                       Tlv_u16 kCommissionerSessionId (mSessionId c)]).
Proof.
  intros Ha. unfold keep_alive_request, IsActive. rewrite bool_decide_eq_true_2 by done.
  destruct (new_request Uri.kKeepAlive) as [m| |] eqn:Em; [|by vm_compute in Em..]. cbn [mbind outcome_bind].
  rewrite DatasetFacts.AppendTlv_valid by by destruct b. cbn [mbind outcome_bind]. unfold AppendSessionId.
  rewrite DatasetFacts.AppendTlv_valid by done. eexists. split; [done|]. cbn [Append mPayload map concat].
  assert (Hr : mPayload m = []) by (by vm_compute in Em; injection Em as <-). rewrite Hr. by rewrite app_nil_r.
Qed.

(** What a resignation reports of its keep-alive message [m]. *)
Definition send_result (c : Commissioner) : ErrorCode :=
  if IsConnected c then env_send (nextSend c) else kInvalidState.
Definition goodbye (c : Commissioner) : list Output :=
  match keep_alive_request c false with
  | Ok m =>
      if bool_decide (send_result c = kNone) then [OutKeepAliveResponse kCancelled; OutRequest BrClient None m]
      else [OutKeepAliveResponse (send_result c)]
  | _ => []
  end.

Lemma Disconnect_complete' f n c :
  mDtls c <> kDisconnected -> (costs (brPending c) <= f)%nat -> (costs (brPending c) <= n)%nat ->
  exists c', Disconnect env_send (respond f) n c = Ok c' /\ stopped c' /\
    cancels (map (connect_failed kCancelled) (waiting c)) c c'.
Proof. intros. apply (Disconnect_cancels _ _ f); [apply respond_cancels|done..]. Qed.

Lemma dtls_send_is c : exists n, dtls_send env_send c = (send_result c, with_clock c (clock c) n).
Proof. unfold dtls_send, send_result. destruct (IsConnected c); [by eexists|]. exists (nextSend c). by destruct c. Qed.

(** Stopping after the keep-alive was sent. *)
Lemma goodbye_sent f c c2 m :
  mDtls c <> kDisconnected -> (costs (brPending c) + 2 <= f)%nat ->
  mDtls c2 = mDtls c -> mOnConnected c2 = mOnConnected c -> brPending c2 = brPending c ++ [RspKeepAlive] ->
  proxyPending c2 = proxyPending c -> mKeepAliveTimer c2 = None -> outputs c2 = OutRequest BrClient None m :: outputs c ->
  exists c', Disconnect env_send (respond f) f c2 = Ok c' /\
    stopped c' /\ mDtls c' = kOpen /\ mKeepAliveTimer c' = None /\ proxyPending c' = proxyPending c /\
    outputs c' ≡ₚ [OutKeepAliveResponse kCancelled; OutRequest BrClient None m]
                  ++ map (connect_failed kCancelled) (waiting c) ++ map (failed kCancelled) (brPending c) ++ outputs c.
Proof.
  intros Hd Hf Ed Eo Eb Ep Et Eu.
  assert (Hc : costs (brPending c2) = S (costs (brPending c)))
    by (rewrite Eb; unfold costs; rewrite sum_list_with_app; simpl; lia).
  destruct (Disconnect_complete' f f c2) as (c' & -> & (Hs & Hb & Hm) & [D P X T O]); [congruence|lia..|].
  exists c'. split; [done|]. split; [done|]. split; [done|]. split; [intuition congruence|]. split; [congruence|].
  rewrite Hb, Eb, Eu in O. unfold waiting in *. rewrite Ed, Eo in O. rewrite map_app in O. cbn [map app failed] in O.
  rewrite O. cbn [app]. set (w := map (connect_failed kCancelled) _). set (p := map (failed kCancelled) _).
  rewrite <- !app_assoc. cbn [app]. rewrite <- !Permutation_middle.
  reflexivity.
Qed.

Lemma Resign_body_complete f c :
  keep_alive_request c false <> Die -> mDtls c <> kDisconnected -> (costs (brPending c) + 2 <= f)%nat ->
  exists c', Resign_body env_send (respond f) f c = Ok c' /\ stopped c' /\ mDtls c' = kOpen /\
    mKeepAliveTimer c' = None /\ proxyPending c' = proxyPending c /\
    outputs c' ≡ₚ goodbye c ++ map (connect_failed kCancelled) (waiting c)
                  ++ map (failed kCancelled) (brPending c) ++ outputs c.
Proof using HLaws.
  intros Hk Hd Hf. unfold Resign_body, IsActive, goodbye. case_bool_decide as Ha.
  - unfold SendKeepAlive. destruct (keep_alive_request c false) as [m|e|] eqn:Em; [| |done].
    2: { destruct (Disconnect_complete' f f c) as (c1 & -> & (Hs & Hb & Hm) & [D P X T O]); [done|lia..|].
      cbn [mbind outcome_bind]. destruct (Disconnect_complete' f f (set_timer c1 None)) as (c2 & E2 & (Hs2 & Hb2 & Hm2) & [D2 P2 X2 T2 O2]);
        [by cbn; rewrite D|cbn [brPending set_timer with_state]; rewrite Hb; unfold costs; simpl; lia..|].
      exists c2. split; [done|]. split; [done|]. split; [done|]. split; [by destruct T2|]. split; [cbn in X2; congruence|].
      rewrite Hb2 in O2. unfold waiting in O2. cbn in O2. rewrite D in O2. rewrite Hb in O2, O. cbn in O2, O. by rewrite O2, O. }
    unfold br_SendRequest.
    destruct (dtls_send_is (set_timer c (Some (clock c + GetKeepAliveInterval c)))) as [n ->].
    change (send_result (set_timer c _)) with (send_result c). case_bool_decide as He.
    + assert (Hm : IsConfirmable m = true) by by apply keep_alive_confirmable in Em as [_ ?].
      rewrite Hm. cbn [mbind outcome_bind]. by eapply goodbye_sent.
    + destruct f as [|f]; [lia|].
      destruct (keep_alive_lost f (with_clock (set_timer c (Some (clock c + GetKeepAliveInterval c)))
        (clock c) n) None (send_result c) _ (respond_cancels f) (no_state_response _ He)) as (c1 & E1 & (Hs & Hb & Hm) & Ht & [D P X T O]);
        [done|cbn [brPending with_clock set_timer with_state]; lia|].
      cbn [clock set_timer with_state] in *. rewrite E1. cbn [mbind outcome_bind].
      destruct (Disconnect_complete' (S f) (S f) (set_timer c1 None)) as (c2 & E2 & (Hs2 & Hb2 & Hm2) & [D2 P2 X2 T2 O2]);
        [by cbn; rewrite D|cbn [brPending set_timer with_state]; rewrite Hb; unfold costs; simpl; lia..|].
      exists c2. split; [done|]. split; [done|]. split; [done|]. split; [by destruct T2|]. split; [cbn in X2; cbn in X; congruence|].
      rewrite Hb2 in O2. unfold waiting in O2. cbn in O2. rewrite D in O2. rewrite Hb in O2, O. cbn in O2, O. by rewrite O2, O.
  - cbn [mbind outcome_bind]. unfold keep_alive_request, IsActive. rewrite bool_decide_eq_false_2 by done.
    destruct (Disconnect_complete' f f (set_timer c None)) as (c' & -> & Hs & [D P X T O]);
      [done|cbn [brPending set_timer with_state]; lia..|].
    exists c'. destruct Hs as (Hs & Hb & Hm). rewrite Hb in O. by destruct T.
Qed.

(** C20: [Resign] always ends.  An active commissioner first sends a keep-alive that says it leaves; it does not
    wait for the answer.  Then it is disabled, the session is closed, the keep-alive timer is stopped, nothing is
    pending at the border agent, the handler is told success, and every request that was pending there, its own
    keep-alive included, is reported as cancelled exactly once; requests that are pending at the UDP proxy keep
    waiting.  In a commercial network it resigns all the same
    when the keep-alive cannot be signed. *)
Theorem Resign_complete fuel h c :
  keep_alive_request c false <> Die ->
  mDtls c <> kDisconnected -> (costs (brPending c) + 2 <= fuel)%nat ->
  exists c', do_api fuel (ApiResign h) c = Ok c' /\
    stopped c' /\ mDtls c' = kOpen /\ mKeepAliveTimer c' = None /\ proxyPending c' = proxyPending c /\
    outputs c' ≡ₚ OutHandler h ResNone kNone :: goodbye c ++ map (connect_failed kCancelled) (waiting c)
                  ++ map (failed kCancelled) (brPending c) ++ outputs c.
Proof using HLaws.
  intros Hk Hd Hf. cbn [Commissioner.do_api]. unfold Resign.
  destruct (Resign_body_complete fuel c Hk Hd Hf) as (c' & -> & Hs & D & T & X & O). cbn [mbind outcome_bind].
  eexists. split; [done|]. split; [done|]. split_and!; [done..|]. cbn [out outputs]. by rewrite O.
Qed.

(** The answers to a keep-alive that end the session, with the error that is reported. *)
Inductive keep_alive_refused : option Message -> ErrorCode -> ErrorCode -> Prop :=
| unanswered r e : e <> kNone -> keep_alive_refused r e e
| error_answer m : IsResponse m = true -> GetCode m <> Code.kChanged -> keep_alive_refused (Some m) kNone kCoapError
| stateless_answer m : GetCode m = Code.kChanged -> GetTlv kState (mPayload m) kMeshCoP = None ->
    keep_alive_refused (Some m) kNone kBadFormat
| rejecting_answer m t v : GetCode m = Code.kChanged -> GetTlv kState (mPayload m) kMeshCoP = Some t ->
    GetValueAsInt8 t = Ok v -> v <> kStateAccept -> keep_alive_refused (Some m) kNone kRejected.

Lemma keep_alive_refused_is r e e' : keep_alive_refused r e e' -> HandleStateResponse r e true = Err e'.
Proof.
  unfold HandleStateResponse, received, CheckCoapResponseCode, GetRequestUri.
  intros [r0 e0 He|m Hr Hc|m Hc Ht|m t v Hc Ht Hv Hn].
  - by rewrite bool_decide_eq_false_2.
  - cbn [mbind outcome_bind bool_decide decide decide_rel]. apply Z.eqb_neq in Hc. rewrite bool_decide_eq_true_2 by done.
    cbn [mbind outcome_bind]. by rewrite Hc, Hr.
  - rewrite bool_decide_eq_true_2 by done. cbn [mbind outcome_bind]. by rewrite Hc, Z.eqb_refl, Ht.
  - rewrite bool_decide_eq_true_2 by done. cbn [mbind outcome_bind]. rewrite Hc, Z.eqb_refl, Ht. cbn [mbind outcome_bind].
    rewrite Hv. cbn [mbind outcome_bind]. by rewrite (proj2 (Z.eqb_neq _ _) Hn).
Qed.

(** An empty confirmable or non-confirmable message with the token of the keep-alive. *)
Lemma empty_answer_asserts m : IsEmpty m = true -> HandleStateResponse (Some m) kNone true = Die.
Proof.
  intros He. unfold HandleStateResponse, received, CheckCoapResponseCode, GetRequestUri, IsResponse. rewrite bool_decide_eq_true_2 by done.
  cbn [mbind outcome_bind]. rewrite He. unfold IsEmpty in He. apply Z.eqb_eq in He. by rewrite He.
Qed.


(** *** The guards of the commands *)

(** The operations that need an active commissioner, with their handlers. *)
Definition command (a : Api) : option nat :=
  match a with
  | ApiConnect _ _ | ApiDisconnect | ApiPetition _ _ | ApiResign _ | ApiCancelRequests => None
  | ApiGetCommissionerDataset h _ | ApiSetCommissionerDataset h _ | ApiGetRawActiveDataset h _
  | ApiGetActiveDataset h _ | ApiSetActiveDataset h _ | ApiGetPendingDataset h _ | ApiSetPendingDataset h _
  | ApiRegisterMulticastListener h _ _ | ApiAnnounceBegin h _ _ _ _ | ApiPanIdQuery h _ _ _
  | ApiEnergyScan h _ _ _ _ _ | ApiSetBbrDataset h _ | ApiGetBbrDataset h _ | ApiSetSecurePendingDataset h _ _
  | ApiCommandReenroll h _ | ApiCommandDomainReset h _ | ApiCommandMigrate h _ _ => Some h
  end.

(** The errors of an operation that does not get to send anything. *)
Definition refused (m : outcome Message) : Prop := m = Err kInvalidState \/ m = Err kInvalidArgs.

Lemma user_told f c k h e :
  user_kind k -> user_of k = h -> e <> kNone ->
  respond (S f) k None e c = Ok (out c (OutHandler h ResNone e)).
Proof.
  intros Hk <- He. cbn [Commissioner.respond]. unfold Commissioner.respond_step.
  destruct k; try done; cbn [answer user_of].
  all: unfold state_result, HandleStateResponse, code_result, commissioner_result, raw_response, active_result,
    pending_result, mlr_result, raw_response, received; by rewrite bool_decide_eq_false_2.
Qed.

(** Requests to other peers are cancelled by [CancelRequests]: their handlers are told, and nothing else happens. *)
Lemma proxy_Cancel_complete f m : forall c, Forall user_kind (proxyPending c) -> (length (proxyPending c) <= m)%nat ->
  exists c', proxy_Cancel (respond (S f)) m c = Ok c' /\ proxyPending c' = [] /\ brPending c' = brPending c /\ mDtls c' = mDtls c.
Proof.
  induction m as [|m IH]; intros c Hu Hl; cbn [proxy_Cancel]; destruct (proxyPending c) as [|k l] eqn:El;
    [by exists c|cbn in Hl; lia|by exists c|].
  apply Forall_cons in Hu as [Hk Hu]. unfold respond at 1. rewrite (user_told f _ k (user_of k) kCancelled) by done.
  cbn [mbind outcome_bind]. destruct (IH (out (with_pending c (brPending c) l) (OutHandler (user_of k) ResNone kCancelled)))
    as (c' & E & Hp & Hb & Hd); [done|cbn in *; lia|]. by exists c'.
Qed.

(** C19: No handler of the commissioner is lost or called twice.  In every run that does not end the process, with
    whatever responses, errors, failed sends, lost sessions, cancellations and resignations: the calls of a handler
    and the places in a client or in the session where it still waits add up to the number of times that it was
    passed to an operation.  And disconnecting and cancelling the requests then ends, and leaves none waiting: every
    handler was called exactly as often as it was passed.  Announcements to multicast addresses are left out: their
    handler is called twice when they cannot be sent. *)
Theorem handlers_answered_once fuel cfg now l c h :
  Forall (fun e => multicast_announce inet_pton4 inet_pton6 e = false) l ->
  Commissioner.run inet_pton4 inet_pton6 channel0 panId0 rotation0 delay0 env_send fuel l (Commissioner_init cfg now) = Ok c ->
  (calls h c + armed h c = sum_list_with (passed h) l)%nat /\
  forall fuel', (costs (brPending c) + length (proxyPending c) < fuel')%nat ->
    exists c', Commissioner.run inet_pton4 inet_pton6 channel0 panId0 rotation0 delay0 env_send fuel'
                 [EvtApi ApiDisconnect; EvtApi ApiCancelRequests] c = Ok c' /\
      calls h c' = sum_list_with (passed h) l /\ armed h c' = 0%nat.
Proof using HLaws.
  intros Hm H. assert (Hw : weak c) by (eapply run_strong; [apply reachable_init|exact H]).
  apply run_settles in H as [Hs E]; [|done|by split_and!]. specialize (E h). split; [exact E|]. intros fuel' Hf.
  destruct Hw as (_ & Hu & Hd). destruct (Disconnect_complete fuel' c Hd) as (c1 & E1 & (_ & Hb1 & _) & Hd1 & Hp1 & _); [lia|].
  destruct fuel' as [|f]; [lia|].
  destruct (proxy_Cancel_complete f (S f) c1) as (c2 & E2 & Hp2 & Hb2 & Hd2); [by rewrite Hp1|rewrite Hp1; lia|].
  assert (Hr : Commissioner.run inet_pton4 inet_pton6 channel0 panId0 rotation0 delay0 env_send (S f)
    [EvtApi ApiDisconnect; EvtApi ApiCancelRequests] c = Ok c2).
  { cbn [Commissioner.run Commissioner.step]. rewrite E1. cbn [mbind outcome_bind Commissioner.do_api]. unfold CancelRequests.
    rewrite E2. cbn [mbind outcome_bind br_Cancel]. by rewrite Hb2, Hb1. }
  exists c2. split; [exact Hr|]. apply run_settles in Hr as [(_ & _ & _ & Ho) Ht]; [|by repeat constructor|done].
  assert (Ha : armed h c2 = 0%nat) by (unfold armed; rewrite Hb2, Hb1, Hp2, Ho by congruence; done).
  split; [|exact Ha]. specialize (Ht h). unfold total in *. cbn in Ht, E. lia.
Qed.

Lemma raw_active_refused c f : mState c <> kActive -> raw_active_request c f = Err kInvalidState.
Proof. intros Ha. unfold raw_active_request, IsActive. by rewrite bool_decide_eq_false_2. Qed.

Lemma prefix_told f c k h m a p e :
  user_kind k -> user_of k = h -> e <> kNone ->
  respond (S (S f)) (RspPrefix k m a p) None e c = Ok (out c (OutHandler h ResNone e)).
Proof.
  intros Hk Hh He. transitivity (respond (S f) k None e c); [|by apply user_told].
  cbn [Commissioner.respond]. unfold Commissioner.respond_step at 1, active_result, raw_response, received.
  by rewrite bool_decide_eq_false_2.
Qed.

Lemma raw_addresses_error l b : (exists b', raw_addresses inet_pton4 inet_pton6 l b = Ok b') \/ raw_addresses inet_pton4 inet_pton6 l b = Err kInvalidArgs.
Proof.
  revert b. induction l as [|a l IH]; intros b; simpl; [by left; eexists|]. unfold SetString.
  repeat case_match; simpl; try case_if; auto.
Qed.

Lemma to_aloc_refused f c m k h a :
  mState c <> kActive -> mMeshLocalPrefix c = [] -> user_kind k -> user_of k = h -> (exists r, m = Ok r) \/ refused m ->
  exists e, to_aloc channel0 panId0 rotation0 delay0 env_send (S (S f)) c m k a = Ok (out c (OutHandler h ResNone e))
    /\ (e = kInvalidState \/ e = kInvalidArgs).
Proof.
  intros Ha Hm Hk Hh [[r ->]|Hr]; unfold to_aloc, send_or_report.
  - exists kInvalidState. split; [|by left]. unfold proxy_SendRequest_aloc, GetRawActiveDataset, send_or_report.
    rewrite Hm. cbn [zlen length]. rewrite raw_active_refused by done. by apply prefix_told.
  - destruct Hr as [-> | ->]; eexists; (split; [by apply user_told|auto]).
Qed.

(** Filling a request either works or is refused. *)
Definition fillable (m : outcome Message) : Prop := (exists r, m = Ok r) \/ refused m.

Lemma fillable_bind m f : fillable m -> (forall r, fillable (f r)) -> fillable (m ≫= f).
Proof. intros [[r ->]|[-> | ->]] Hf; simpl; [apply Hf|by right; left|by right; right]. Qed.

Lemma fillable_AppendTlv m t : fillable (AppendTlv m t).
Proof.
  destruct (IsValid t) eqn:E.
  - left. eexists. by apply DatasetFacts.AppendTlv_valid.
  - right. right. by apply DatasetFacts.AppendTlv_invalid.
Qed.

Lemma fillable_if (b : bool) m m' : fillable m -> fillable m' -> fillable (if b then m else m').
Proof. by destruct b. Qed.

Lemma fillable_ok m : fillable (Ok m).
Proof. left. by eexists. Qed.

Lemma set_commissioner_fillable c d : mEnableCcm (mConfig c) = false -> fillable (set_commissioner_request c d).
Proof.
  intros Hn. unfold set_commissioner_request. destruct d. apply fillable_if; [|by right; right].
  destruct (new_request Uri.kMgmtCommissionerSet) as [m| |] eqn:Em; [|by vm_compute in Em..]. cbn [mbind outcome_bind].
  apply fillable_bind; [apply fillable_AppendTlv|]. intros r. unfold EncodeCommissionerDataset.
  apply fillable_bind; [|intros ?; unfold SignIfCcm, IsCcmMode; rewrite Hn; apply fillable_ok].
  repeat (apply fillable_bind; [apply fillable_if; [apply fillable_AppendTlv|apply fillable_ok]|intros ?]).
  apply fillable_ok.
Qed.

Lemma ccm_guard_refused c : mState c <> kActive -> ccm_guard c = Err kInvalidState.
Proof. intros Ha. unfold ccm_guard, IsActive. by rewrite bool_decide_eq_false_2. Qed.

Ltac refuse := unfold fillable, refused; repeat case_if; auto.

Lemma get_commissioner_refused fuel c h flags :
  mState c <> kActive -> mMeshLocalPrefix c = [] ->
  GetCommissionerDataset channel0 panId0 rotation0 delay0 env_send (S (S fuel)) c h flags
    = Ok (out c (OutHandler h ResNone kInvalidState)).
Proof.
  intros Ha Hm. unfold GetCommissionerDataset.
  destruct (new_request Uri.kMgmtCommissionerGet) as [m| |] eqn:Em; [|by vm_compute in Em..].
  assert (Hp : forall r, proxy_SendRequest_aloc env_send (respond (S (S fuel))) c r (RspCommissionerDataset h)
    kLeaderAloc16 kDefaultMmPort = Ok (out c (OutHandler h ResNone kInvalidState))).
  { intros r. unfold proxy_SendRequest_aloc, GetRawActiveDataset, send_or_report. rewrite Hm. cbn [zlen length].
    rewrite raw_active_refused by done. by apply prefix_told. }
  case_if; [|apply Hp]. by rewrite DatasetFacts.AppendTlv_valid by by apply dataset_types_valid.
Qed.

Lemma announce_refused fuel c h u mk l d :
  mState c <> kActive ->
  exists e, announce inet_pton4 inet_pton6 channel0 panId0 rotation0 delay0 env_send fuel c h u mk l d
    = Ok (out c (OutHandler h ResNone e)) /\ (e = kInvalidState \/ e = kInvalidArgs).
Proof.
  intros Ha. unfold announce, SetString, announce_request, IsActive. rewrite bool_decide_eq_false_2 by done.
  destruct (inet_pton4 d) as [a|]; [exists kInvalidState; auto|].
  destruct (inet_pton6 d) as [a|]; [exists kInvalidState; auto|exists kInvalidArgs; auto].
Qed.

(** Unless the commissioner is active (in every reachable state it then knows no mesh-local prefix), a
    management command changes nothing and sends nothing: its handler, and no other, is called at once, with
    [kInvalidState] or, when the arguments are wrong too, [kInvalidArgs].  (The commissioner dataset is signed
    before the state is looked at, so that in a commercial network the signing may fail first.) *)
Theorem commands_require_active fuel c a h :
  command a = Some h -> (forall h' d, a = ApiSetCommissionerDataset h' d -> mEnableCcm (mConfig c) = false) -> mState c <> kActive -> mMeshLocalPrefix c = [] ->
  exists e, do_api (S (S fuel)) a c = Ok (out c (OutHandler h ResNone e)) /\ (e = kInvalidState \/ e = kInvalidArgs).
Proof.
  intros Hc Hn Ha Hm.
  assert (Hi : IsActive c = false) by (unfold IsActive; by apply bool_decide_eq_false).
  destruct a; simpl in Hc; simplify_eq; cbn [Commissioner.do_api].
  - exists kInvalidState. split; [by apply get_commissioner_refused|auto].
  - apply to_aloc_refused; [done..|]. by eapply set_commissioner_fillable, Hn.
  - exists kInvalidState. split; [|by left]. unfold GetRawActiveDataset, send_or_report.
    rewrite raw_active_refused by done. by apply user_told.
  - exists kInvalidState. split; [|by left]. unfold GetRawActiveDataset, send_or_report.
    rewrite raw_active_refused by done. by apply user_told.
  - apply to_aloc_refused; [done..|]. unfold set_active_request. rewrite Hi. refuse.
  - apply to_aloc_refused; [done..|]. unfold get_pending_request. rewrite Hi. refuse.
  - apply to_aloc_refused; [done..|]. unfold set_pending_request. rewrite Hi. refuse.
  - apply to_aloc_refused; [done..|]. unfold mlr_request. rewrite Hi. case_if; [|refuse].
    destruct (raw_addresses_error addrs []) as [[b ->]| ->]; refuse.
  - by apply announce_refused.
  - by apply announce_refused.
  - by apply announce_refused.
  - apply to_aloc_refused; [done..|]. unfold set_bbr_request. rewrite ccm_guard_refused by done. by right; left.
  - apply to_aloc_refused; [done..|]. unfold get_bbr_request. rewrite ccm_guard_refused by done. by right; left.
  - unfold SetSecurePendingDataset, secure_pending_guard. rewrite Hi. case_if; eexists; (split; [done|auto]).
  - exists kInvalidState. unfold CommandReenroll, guarded_message. rewrite ccm_guard_refused by done. auto.
  - exists kInvalidState. unfold CommandDomainReset, guarded_message. rewrite ccm_guard_refused by done. auto.
  - exists kInvalidState. unfold CommandMigrate. rewrite ccm_guard_refused by done. auto.
Qed.

(** *** Configurations and petitions *)

Definition valid_config (cfg : Config) : Prop :=
  1 <= zlen (mId cfg) <= 64 /\ 30 <= mKeepAliveInterval cfg <= 45 /\
  if mEnableCcm cfg then
    1 <= zlen (mDomainName cfg) <= 16 /\ 1 <= zlen (mPrivateKey cfg) /\
    1 <= zlen (mCertificate cfg) /\ 1 <= zlen (mTrustAnchor cfg)
  else 1 <= zlen (mPSKc cfg) <= 16.

Lemma IsValid_id id : IsValid (Tlv_bytes kCommissionerId id) = (zlen id <=? 64).
Proof. apply eq_iff_eq_true. rewrite Z.leb_le. apply (IsValid_iff _ _ (fun n => n <= 64)); [len_rule|lia]. Qed.

Lemma IsValid_domain name : IsValid (Tlv_bytes kDomainName name) = (zlen name <=? 16).
Proof. apply eq_iff_eq_true. rewrite Z.leb_le. apply (IsValid_iff _ _ (fun n => n <= 16)); [len_rule|lia]. Qed.

(** Exactly the configurations with a commissioner id of 1 to 64 bytes, a keep-alive interval of 30 to 45
    seconds and, for a commercial network, a domain name of 1 to 16 bytes with a key, a certificate and a trust
    anchor, otherwise a PSKc of 1 to 16 bytes are accepted, any other is refused with [kInvalidArgs]; and under an
    accepted configuration the petition of an idle commissioner can always be filled, and is signed in a
    commercial network. *)
Theorem config_validated cfg :
  (ValidateConfig cfg = Ok tt /\ valid_config cfg \/ ValidateConfig cfg = Err kInvalidArgs /\ ~ valid_config cfg) /\
  (ValidateConfig cfg = Ok tt -> forall c, mConfig c = cfg -> mState c = kDisabled ->
   exists m, petition_request c = SignIfCcm c m true /\ IsConfirmable m = true).
Proof.
  assert (H : ValidateConfig cfg = Ok tt /\ valid_config cfg \/ ValidateConfig cfg = Err kInvalidArgs /\ ~ valid_config cfg).
  { unfold ValidateConfig, valid_config. rewrite IsValid_id.
    unfold kMinKeepAliveInterval, kMaxKeepAliveInterval, kMaxPSKcLength.
    pose proof (zlen_nonneg (mId cfg)). pose proof (zlen_nonneg (mPSKc cfg)).
    repeat (case_if; [|right; split; [done|]; bool_to_prop; intuition (congruence || lia)]).
    destruct (mEnableCcm cfg).
    - rewrite IsValid_domain. pose proof (zlen_nonneg (mDomainName cfg)). pose proof (zlen_nonneg (mPrivateKey cfg)).
      pose proof (zlen_nonneg (mCertificate cfg)). pose proof (zlen_nonneg (mTrustAnchor cfg)).
      repeat (case_if; [|right; split; [done|]; bool_to_prop; intuition (congruence || lia)]).
      left. split; [done|]. bool_to_prop. intuition lia.
    - repeat (case_if; [|right; split; [done|]; bool_to_prop; intuition (congruence || lia)]).
      left. split; [done|]. bool_to_prop. intuition lia. }
  split; [exact H|]. intros Hv c Hc Hs. destruct H as [[_ H]|[H _]]; [|congruence].
  unfold petition_request. rewrite bool_decide_eq_true_2 by done.
  destruct (new_request Uri.kPetitioning) as [m| |] eqn:Em; [|by vm_compute in Em..]. cbn [mbind outcome_bind].
  rewrite DatasetFacts.AppendTlv_valid by (rewrite IsValid_id, Hc; apply Z.leb_le; apply H).
  eexists. split; [done|]. apply (new_request_confirmable Uri.kPetitioning m Em).
Qed.

(** The payload of the answer to a petition. *)
Definition petition_answer (v id : Z) (name : ByteArray) : ByteArray :=
  concat (map encoding [Tlv_u8 kState v; Tlv_u16 kCommissionerSessionId id; Tlv_bytes kCommissionerId name]).

Lemma GetValueAsInt8_u8 t v : 0 <= v < 256 -> GetValueAsInt8 (Tlv_u8 t v) = Ok (if v <? 128 then v else v - 256).
Proof. intros Hv. unfold GetValueAsInt8. cbn [Tlv_u8 Tlv.mValue]. by rewrite rd_cons_0, u8_id. Qed.

Lemma petition_response_answer m v id name :
  0 <= v < 256 -> fits 16 id -> bytes name -> zlen name <= 64 ->
  GetCode m = Code.kChanged -> mPayload m = petition_answer v id name ->
  petition_response (Some m) kNone = Ok (if v =? 1 then inl id else inr (kRejected, name)).
Proof.
  intros Hv Hid Hn Hl Hc Hp. unfold petition_response, received, CheckCoapResponseCode.
  rewrite bool_decide_eq_true_2 by done. cbn [mbind outcome_bind]. rewrite Hc, Z.eqb_refl. cbn [mbind outcome_bind].
  rewrite Hp. unfold petition_answer. rewrite DatasetFacts.ParseTlvs_encodings.
  2: { repeat (apply Forall_cons_2); [..|done]; (split_and!; [|split|..]); try done; try apply bytes_Encode_loop.
       - repeat constructor; apply u8_byte.
       - rewrite IsValid_id. by apply Z.leb_le. }
  set (ts := [_; _; _]).
  change (last_wins ts ∅ !! kState) with (Some (Tlv_u8 kState v)).
  change (last_wins ts ∅ !! kCommissionerId) with (Some (Tlv_bytes kCommissionerId name)).
  change (last_wins ts ∅ !! kCommissionerSessionId) with (Some (Tlv_u16 kCommissionerSessionId id)).
  cbv beta iota. rewrite GetValueAsInt8_u8 by done. cbn [mbind outcome_bind].
  rewrite IsValid_id, (proj2 (Z.leb_le _ _)) by done.
  rewrite CommissionerCodec.GetValueAsUint16_u16 by done. cbn [mbind outcome_bind Tlv_bytes Tlv.mValue].
  assert (E : ((if v <? 128 then v else v - 256) =? kStateAccept) = (v =? 1)).
  { unfold kStateAccept. destruct (v <? 128) eqn:Ev; bool_to_prop; [done|].
    by rewrite (proj2 (Z.eqb_neq (v - 256) 1)), (proj2 (Z.eqb_neq v 1)) by lia. }
  rewrite E. by destruct (v =? 1).
Qed.

(** The answer to a petition decides the session.  Accepted: the commissioner is active under the session id
    of the answer, its keep-alive timer is started, the handler is told success, and from then on its keep-alives
    carry exactly this session id.  Refused: it is disabled again and the handler is told [kRejected] with the
    name of the commissioner that holds the session. *)
Theorem petition_decided fuel c h m v id name :
  0 <= v < 256 -> fits 16 id -> bytes name -> zlen name <= 64 ->
  GetCode m = Code.kChanged -> mPayload m = petition_answer v id name ->
  respond (S fuel) (RspPetition h) (Some m) kNone c =
    (if v =? 1 then
       Ok (out (with_state c kActive id (Some (clock c + GetKeepAliveInterval c))) (OutHandler h ResNone kNone))
     else Ok (out (set_state c kDisabled)
                (OutHandler h (match name with [] => ResNone | _ => ResCommissionerId name end) kRejected))) /\
  (forall c' b, mState c' = kActive -> mSessionId c' = id -> exists r, keep_alive_request c' b = SignIfCcm c' r false /\
     mPayload r = concat (map encoding [Tlv_u8 kState (if b then kStateAccept else kStateReject);
                                        Tlv_u16 kCommissionerSessionId id])).
Proof.
  intros Hv Hid Hn Hl Hc Hp. split.
  - cbn [Commissioner.respond]. unfold Commissioner.respond_step.
    rewrite (petition_response_answer m v id name) by done. cbn [mbind outcome_bind]. by destruct (v =? 1).
  - intros c' b Ha <-. by apply keep_alive_request_is.
Qed.
End Control.
