(* ===== verification/CommissionerWalk.v ===== *)
(** * What every operation of the commissioner keeps

    Much of what is proved of the commissioner says of each request that leaves
    it, of each continuation that waits, and of each call of a handler, that
    it has some property.  [Walk] is what such properties have to satisfy, and
    [step_ok] follows the operations once for all of them.  [CommissionerSigned]
    and [CommissionerTyped] are two instances. *)

From S2P Require Import Prelude Outcome Common Tlv NetworkData CoapMessage Dataset Commissioner CommissionerInvariant CommissionerControl.
Import Endian Addr Tlv Message Dataset.

(** The requests that are not signed: they ask for a dataset. *)
Definition data_requests : list string_t := [Uri.kMgmtCommissionerGet; Uri.kMgmtBbrGet].
Definition asks_for_data (m : Message) : Prop := exists u, u ∈ data_requests /\ GetUriPath m = Ok u.

(** The continuations whose handler only gets an error. *)
Definition only_error (k : OnResponse) : bool :=
  match k with RspState _ | RspCode _ | RspStateOptional _ | RspFetched _ _ _ | RspPetition _ => true | _ => false end.

Section Told.
Context `{HSign : RequestSigner}.
Context (channel0 : Channel) (panId0 rotation0 delay0 : Z).

(** What the continuations of the user make of a response. *)
Definition told_result (c : Commissioner) (k : OnResponse) (aResponse : option Message) (aError : ErrorCode) : outcome Result :=
  match k with
  | RspState _ => state_result aResponse aError
  | RspCode _ => code_result aResponse aError
  | RspCommissionerDataset _ => commissioner_result aResponse aError
  | RspRawActive _ => b ← raw_response aResponse aError; Ok (ResBytes b)
  | RspActive _ => d ← active_result channel0 panId0 rotation0 c (raw_response aResponse aError); Ok (ResActive d)
  | RspPending _ => pending_result channel0 panId0 rotation0 delay0 c aResponse aError
  | RspMlr _ => mlr_result aResponse aError
  | RspStateOptional _ => _ ← HandleStateResponse aResponse aError false; Ok ResNone
  | RspBbr _ =>
      response ← received aResponse aError; _ ← CheckCoapResponseCode response;
      d ← DecodeBbrDataset sign_ntop4 sign_ntop6 response; Ok (ResBbr d)
  | _ => Die
  end.

Lemma respond_step_told env_send rsp fuel k r e c : user_kind k ->
  respond_step channel0 panId0 rotation0 delay0 env_send rsp fuel k r e c = answer c (user_of k) (told_result c k r e).
Proof. by destruct k. Qed.
End Told.

(** The report of a result. *)
Definition reported (h : nat) (r : outcome Result) : option Output :=
  match r with Ok v => Some (OutHandler h v kNone) | Err e => Some (OutHandler h ResNone e) | Die => None end.

Class Walk `{RequestSigner} (channel0 : Channel) (panId0 rotation0 delay0 : Z) : Type := {
  wB : Config -> Prop;
  wM : Message -> Prop;
  wK : OnResponse -> Prop;
  wC : ConnectHandler -> Prop;
  wO : Output -> Prop;
  w_signed c r b m : wB (mConfig c) -> SignIfCcm c r b = Ok m -> wM m;
  w_data m : asks_for_data m -> wM m;
  w_request cl a m : wM m -> wO (OutRequest cl a m);
  w_keepalive_out e : wO (OutKeepAliveResponse e);
  w_keepalive : wK RspKeepAlive;
  w_prefix k m a p : wK (RspPrefix k m a p) <-> wM m /\ wK k;
  w_fetched h t d : wK (RspState h) <-> wK (RspFetched h t d);
  w_connected h e : wC (ConnUser h) -> wO (OutHandler h ResNone e);
  w_petition h : wC (ConnPetition h) -> wK (RspPetition h);
  w_error k e : wK k -> only_error k = true -> wO (OutHandler (user_of k) ResNone e);
  w_told c k r e o : wK k -> user_kind k ->
    reported (user_of k) (told_result channel0 panId0 rotation0 delay0 c k r e) = Some o -> wO o;
  w_rejected h r e e' id : wK (RspPetition h) -> petition_response r e = Ok (inr (e', id)) -> id <> [] ->
    wO (OutHandler h (ResCommissionerId id) e') }.

Section Walk.
Context `{HSign : RequestSigner} (channel0 : Channel) (panId0 rotation0 delay0 : Z).
Context `{HW : !Walk channel0 panId0 rotation0 delay0}.
Context (inet_pton4 inet_pton6 : string_t -> option ByteArray).
Context (env_send : nat -> ErrorCode).
Abbreviation respond := (respond channel0 panId0 rotation0 delay0 env_send).

Definition all_ok (c : Commissioner) : Prop :=
  wB (mConfig c) /\ Forall wK (brPending c) /\ Forall wK (proxyPending c) /\ Forall wO (outputs c) /\
  (forall h, mOnConnected c = Some h -> wC h).

(** What is asked of the handler of an operation. *)
Definition api_ok (a : Api) : Prop :=
  match a with
  | ApiConnect h _ => wC (ConnUser h)
  | ApiPetition h _ => wC (ConnPetition h)
  | ApiDisconnect | ApiCancelRequests => True
  | ApiResign h => forall e, wO (OutHandler h ResNone e)
  | ApiGetCommissionerDataset h _ => wK (RspCommissionerDataset h)
  | ApiSetCommissionerDataset h _ | ApiSetActiveDataset h _ | ApiSetPendingDataset h _ | ApiSetBbrDataset h _
  | ApiSetSecurePendingDataset h _ _ => wK (RspState h)
  | ApiGetRawActiveDataset h _ => wK (RspRawActive h)
  | ApiGetActiveDataset h _ => wK (RspActive h)
  | ApiGetPendingDataset h _ => wK (RspPending h)
  | ApiRegisterMulticastListener h _ _ => wK (RspMlr h)
  | ApiAnnounceBegin h _ _ _ _ | ApiPanIdQuery h _ _ _ | ApiEnergyScan h _ _ _ _ _ => wK (RspCode h)
  | ApiGetBbrDataset h _ => wK (RspBbr h)
  | ApiCommandReenroll h _ | ApiCommandDomainReset h _ | ApiCommandMigrate h _ _ => wK (RspStateOptional h)
  end.

(** *** Requests *)

(** [H] builds a request whose last step is the signature. *)
Ltac signed H :=
  repeat (match type of H with (if _ then _ else _) = Ok _ => case_if; [|done] end);
  repeat (apply bind_ok in H as (? & ? & H));
  repeat (match type of H with (if _ then _ else _) = Ok _ => case_if; [|done] end);
  repeat (apply bind_ok in H as (? & ? & H)); by eapply w_signed.

Lemma raw_active_ok c f m : wB (mConfig c) -> raw_active_request c f = Ok m -> wM m.
Proof. unfold raw_active_request. intros Hc H. signed H. Qed.
Lemma get_pending_ok c f m : wB (mConfig c) -> get_pending_request c f = Ok m -> wM m.
Proof. unfold get_pending_request. intros Hc H. signed H. Qed.
Lemma petition_ok c m : wB (mConfig c) -> petition_request c = Ok m -> wM m.
Proof. unfold petition_request. intros Hc H. signed H. Qed.
Lemma keep_alive_ok c b m : wB (mConfig c) -> keep_alive_request c b = Ok m -> wM m.
Proof. unfold keep_alive_request. intros Hc H. signed H. Qed.
Lemma secure_pending_ok c t d a m : wB (mConfig c) -> secure_pending_request c t d a = Ok m -> wM m.
Proof. unfold secure_pending_request. intros Hc H. signed H. Qed.
Lemma set_commissioner_ok c d m : wB (mConfig c) -> set_commissioner_request c d = Ok m -> wM m.
Proof. unfold set_commissioner_request. destruct d. intros Hc H. signed H. Qed.
Lemma set_active_ok c d m : wB (mConfig c) -> set_active_request c d = Ok m -> wM m.
Proof. unfold set_active_request. intros Hc H. signed H. Qed.
Lemma set_pending_ok c d m : wB (mConfig c) -> set_pending_request c d = Ok m -> wM m.
Proof. unfold set_pending_request. intros Hc H. signed H. Qed.
Lemma mlr_ok c l t m : wB (mConfig c) -> mlr_request inet_pton4 inet_pton6 c l t = Ok m -> wM m.
Proof. unfold mlr_request. intros Hc H. signed H. Qed.
Lemma announce_ok c u t mk l m : wB (mConfig c) -> announce_request c u t mk l = Ok m -> wM m.
Proof. unfold announce_request. intros Hc H. signed H. Qed.
Lemma set_bbr_ok c d m : wB (mConfig c) -> set_bbr_request inet_pton4 inet_pton6 c d = Ok m -> wM m.
Proof. unfold set_bbr_request. intros Hc H. signed H. Qed.
Lemma proxy_message_ok c u m : wB (mConfig c) -> proxy_message c u = Ok m -> wM m.
Proof. unfold proxy_message. intros Hc H. signed H. Qed.
Lemma migrate_ok c u m : wB (mConfig c) -> migrate_request c u = Ok m -> wM m.
Proof. unfold migrate_request. intros Hc H. signed H. Qed.

Lemma new_data_request u m m' :
  u ∈ data_requests -> new_request u = Ok m -> (m' = m \/ exists b, m' = Append m b) -> asks_for_data m'.
Proof.
  intros Hu Hm Hm'. exists u. split; [done|].
  assert (E : GetUriPath m' = GetUriPath m) by (by destruct Hm' as [-> |[b ->]]). rewrite E. clear E Hm'.
  unfold data_requests in Hu. rewrite !elem_of_cons, elem_of_nil in Hu.
  destruct Hu as [-> |[-> |[]]]; vm_compute in Hm; injection Hm as <-; vm_compute; reflexivity.
Qed.

Lemma AppendTlv_is m t m' : AppendTlv m t = Ok m' -> exists b, m' = Append m b.
Proof. unfold AppendTlv. intros H. case_if; [|done]. apply bind_ok in H as (b & _ & [= <-]). by exists b. Qed.

Lemma data_ok u m t m' b : u ∈ data_requests -> new_request u = Ok m ->
  (if b : bool then AppendTlv m t else Ok m) = Ok m' -> wM m'.
Proof.
  intros Hu Hm H. eapply w_data, new_data_request; [done..|]. destruct b; [right; by apply AppendTlv_is in H|left; congruence].
Qed.

Ltac in_list := unfold data_requests; rewrite !elem_of_cons; tauto.

Lemma get_bbr_ok c f m : get_bbr_request c f = Ok m -> wM m.
Proof.
  unfold get_bbr_request. intros H. apply bind_ok in H as (g & _ & (r & Hr & H)%bind_ok).
  eapply data_ok; [|exact Hr|exact H]. in_list.
Qed.

(** *** Operations *)

Definition preserving (f : OnResponse -> option Message -> ErrorCode -> Commissioner -> outcome Commissioner) : Prop :=
  forall k r e c c', wK k -> all_ok c -> f k r e c = Ok c' -> all_ok c'.

Lemma all_ok_out c o : wO o -> all_ok c -> all_ok (out c o).
Proof. intros Ho (H & Hb & Hp & Hs & Hc). split_and!; try done. by constructor. Qed.

(** The session's handler is the one it had, or none. *)
Lemma all_ok_dtls c d h : (forall k, h = Some k -> mOnConnected c = Some k) -> all_ok c -> all_ok (with_dtls c d h).
Proof. intros Hh (H & Hb & Hp & Hs & Hc). split_and!; try done. intros k Hk. by apply Hc, Hh. Qed.

Lemma dtls_send_ok c e c' : dtls_send env_send c = (e, c') -> all_ok c -> all_ok c'.
Proof. by intros [-> | ->]%dtls_send_same. Qed.

Lemma proxy_send_ok c e c' : proxy_send env_send c = (e, c') -> all_ok c -> all_ok c'.
Proof. by intros [-> | ->]%proxy_send_same. Qed.

Section Ops.
Context (rsp : OnResponse -> option Message -> ErrorCode -> Commissioner -> outcome Commissioner).
Context (n : nat) (Hrsp : preserving rsp).

Lemma br_SendRequest_ok c m k c' : wM m -> wK k -> all_ok c -> br_SendRequest env_send rsp c m k = Ok c' -> all_ok c'.
Proof using Hrsp.
  intros Hm Hk Hc H. unfold br_SendRequest in H. destruct (dtls_send env_send c) as [e c1] eqn:Ed.
  apply dtls_send_ok in Ed; [|done]. case_if; [|by eapply Hrsp].
  apply (all_ok_out c1 (OutRequest BrClient None m)) in Ed as (H1 & Hb & Hp & Hs & Hh); [|by apply w_request]. case_if; simplify_eq; [|done].
  split_and!; try done. apply Forall_app_2; [done|]. by repeat constructor.
Qed.

Lemma proxy_SendRequest_ok c m k a p c' :
  wM m -> wK k -> all_ok c -> proxy_SendRequest env_send rsp c m k a p = Ok c' -> all_ok c'.
Proof using Hrsp.
  intros Hm Hk Hc H. unfold proxy_SendRequest in H. case_if; [|done]. destruct (proxy_send env_send c) as [e c1] eqn:Ed.
  apply proxy_send_ok in Ed; [|done]. case_if; [|by eapply Hrsp].
  apply (all_ok_out c1 (OutRequest ProxyClient (Some (a, p)) m)) in Ed as (H1 & Hb & Hp & Hs & Hh); [|by apply w_request]. case_if; simplify_eq; [|done].
  split_and!; try done. apply Forall_app_2; [done|]. by repeat constructor.
Qed.

Lemma send_or_report_ok {R} c (m : outcome R) k f c' :
  wK k -> all_ok c -> (forall r, m = Ok r -> f c r = Ok c' -> all_ok c') ->
  send_or_report rsp c m k f = Ok c' -> all_ok c'.
Proof using Hrsp. intros Hk Hc Hf H. unfold send_or_report in H. destruct m; [by eapply Hf|by eapply Hrsp|done]. Qed.

Lemma GetRawActiveDataset_ok c k f c' : wK k -> all_ok c -> GetRawActiveDataset env_send rsp c k f = Ok c' -> all_ok c'.
Proof using Hrsp.
  intros Hk Hc H. eapply send_or_report_ok; [exact Hk|exact Hc| |exact H].
  intros r Hr Hs. eapply br_SendRequest_ok; [eapply raw_active_ok; [apply Hc|exact Hr]|exact Hk|exact Hc|exact Hs].
Qed.

Lemma proxy_aloc_ok c m k a p c' :
  wM m -> wK k -> all_ok c -> proxy_SendRequest_aloc env_send rsp c m k a p = Ok c' -> all_ok c'.
Proof using Hrsp.
  intros Hm Hk Hc H. unfold proxy_SendRequest_aloc in H. case_if.
  - eapply (GetRawActiveDataset_ok c (RspPrefix k m a p)); [|exact Hc|exact H]. by apply w_prefix.
  - apply bind_ok in H as (ad & _ & H). by eapply proxy_SendRequest_ok.
Qed.

Lemma SetSecurePendingDataset_ok c h t d c' : wK (RspState h) -> all_ok c -> SetSecurePendingDataset env_send rsp c h t d = Ok c' -> all_ok c'.
Proof using Hrsp.
  intros Hk Hc H. unfold SetSecurePendingDataset in H.
  destruct (secure_pending_guard c d); simplify_eq; [|by apply all_ok_out; [apply (w_error (RspState h))|]]. case_if.
  - eapply (GetRawActiveDataset_ok c (RspFetched h t d)); [|exact Hc|exact H]. by apply w_fetched.
  - apply bind_ok in H as (ad & _ & H). eapply send_or_report_ok; [exact Hk|exact Hc| |exact H].
    intros r Hr Hs. eapply proxy_SendRequest_ok; [eapply secure_pending_ok; [apply Hc|exact Hr]|exact Hk|exact Hc|exact Hs].
Qed.

Lemma SendPetition_ok c h c' : wK (RspPetition h) -> all_ok c -> SendPetition env_send rsp c h = Ok c' -> all_ok c'.
Proof using Hrsp.
  intros Hk Hc H. unfold SendPetition in H. destruct (petition_request c) as [m| |] eqn:Em; simplify_eq.
  - eapply br_SendRequest_ok; [eapply petition_ok; [apply Hc|exact Em]|exact Hk| |exact H]. exact Hc.
  - apply all_ok_out; [by apply (w_error (RspPetition h))|done].
Qed.

Lemma call_connected_ok c h e c' : wC h -> all_ok c -> call_connected env_send rsp c h e = Ok c' -> all_ok c'.
Proof using Hrsp.
  intros Hh Hc H. destruct h; simpl in H; simplify_eq; [by apply all_ok_out, Hc; apply w_connected|].
  apply w_petition in Hh. case_if; simplify_eq; [by eapply SendPetition_ok|].
  apply all_ok_out; [by apply (w_error (RspPetition h))|done].
Qed.

Lemma dtls_Disconnect_ok c e c' : all_ok c -> dtls_Disconnect env_send rsp c e = Ok c' -> all_ok c'.
Proof using Hrsp.
  intros Hc H. unfold dtls_Disconnect in H. destruct (mDtls c); try (by injection H as <-).
  all: apply bind_ok in H as (c1 & H1 & H); injection H as <-; cbn [with_dtls mOnConnected] in H1.
  all: destruct (mOnConnected c) as [h|] eqn:Eh; [|injection H1 as <-; by do 2 (apply all_ok_dtls; [done|])].
  all: apply bind_ok in H1 as (c2 & H2 & [= <-]); apply call_connected_ok in H2; [|by apply Hc|by apply all_ok_dtls; [rewrite Eh|]].
  all: by do 2 (apply all_ok_dtls; [done|]).
Qed.

Lemma br_Cancel_ok m : forall c c', all_ok c -> br_Cancel rsp m c = Ok c' -> all_ok c'.
Proof using Hrsp.
  induction m as [|m IH]; intros c c' Hc H; simpl in H; destruct (brPending c) as [|k l] eqn:El; simplify_eq; try done.
  apply bind_ok in H as (c1 & H1 & H). eapply IH; [|exact H]. destruct Hc as (Hm & Hb & Hp & Hs & Hh).
  rewrite El in Hb. apply Forall_cons in Hb as [Hk Hb]. eapply Hrsp; [exact Hk| |exact H1]. by split_and!.
Qed.

Lemma proxy_Cancel_ok m : forall c c', all_ok c -> proxy_Cancel rsp m c = Ok c' -> all_ok c'.
Proof using Hrsp.
  induction m as [|m IH]; intros c c' Hc H; simpl in H; destruct (proxyPending c) as [|k l] eqn:El; simplify_eq; try done.
  apply bind_ok in H as (c1 & H1 & H). eapply IH; [|exact H]. destruct Hc as (Hm & Hb & Hp & Hs & Hh).
  rewrite El in Hp. apply Forall_cons in Hp as [Hk Hp]. eapply Hrsp; [exact Hk| |exact H1]. by split_and!.
Qed.

Lemma Disconnect_ok c c' : all_ok c -> Disconnect env_send rsp n c = Ok c' -> all_ok c'.
Proof using Hrsp.
  intros Hc H. unfold Disconnect in H. apply bind_ok in H as (c1 & H1 & (c2 & H2 & [= <-])%bind_ok).
  apply dtls_Disconnect_ok in H1; [|done]. by apply br_Cancel_ok in H2.
Qed.

Lemma SendKeepAlive_ok c b c' : all_ok c -> SendKeepAlive env_send rsp n c b = Ok c' -> all_ok c'.
Proof using Hrsp.
  intros Hc H. unfold SendKeepAlive in H. destruct (keep_alive_request c b) eqn:Em; simplify_eq; [|by eapply Disconnect_ok].
  eapply br_SendRequest_ok; [eapply keep_alive_ok; [apply Hc|exact Em]| | |exact H]; [apply w_keepalive|exact Hc].
Qed.

Lemma Resign_body_ok c c' : all_ok c -> Resign_body env_send rsp n c = Ok c' -> all_ok c'.
Proof using Hrsp.
  intros Hc H. unfold Resign_body in H. apply bind_ok in H as (c1 & H1 & H). eapply Disconnect_ok; [|exact H].
  assert (all_ok c1); [|done]. case_if; simplify_eq; [by eapply SendKeepAlive_ok|done].
Qed.
End Ops.

Lemma fetch_prefix_ok c d : all_ok c -> all_ok (fetch_prefix c d).
Proof.
  intros Hc. unfold fetch_prefix. case_if; [|done]. destruct (SetMeshLocalPrefix c _) eqn:Es; [|done..].
  by apply SetMeshLocalPrefix_weak in Es as (q & ->).
Qed.

Lemma answer_ok c h r c' : (forall o, reported h r = Some o -> wO o) -> all_ok c -> answer c h r = Ok c' -> all_ok c'.
Proof. intros Ho Hc H. destruct r; simplify_eq/=; by apply all_ok_out; [apply Ho|]. Qed.

Lemma respond_ok fuel : preserving (respond fuel).
Proof.
  induction fuel as [|fuel IH]; intros k r e c c' Hk Hc H; [done|]. cbn [Commissioner.respond] in H.
  assert (Hu : user_kind k \/ ~ user_kind k) by (destruct k; cbn; tauto). destruct Hu as [Hu|Hu].
  { rewrite respond_step_told in H by done. eapply answer_ok; [|exact Hc|exact H]. intros o. by eapply w_told. }
  unfold Commissioner.respond_step in H. destruct k; try by destruct Hu.
  - apply bind_ok in H as ([id|[e' ex]] & Ep & H); simplify_eq; (apply all_ok_out; [|exact Hc]).
    + by apply (w_error (RspPetition h)).
    + destruct ex; [by apply (w_error (RspPetition h))|by eapply w_rejected].
  - destruct (HandleStateResponse r e true); simplify_eq; [by apply all_ok_out; [apply w_keepalive_out|]|].
    apply bind_ok in H as (c1 & H1 & [= <-]). apply all_ok_out; [apply w_keepalive_out|].
    eapply (Resign_body_ok _ _ IH (set_state c kDisabled)); [exact Hc|exact H1].
  - destruct (active_result _ _ _ _ _) as [ad|e'|]; simplify_eq.
    + eapply SetSecurePendingDataset_ok; [exact IH|by eapply w_fetched|by apply fetch_prefix_ok|exact H].
    + apply all_ok_out; [by eapply (w_error (RspFetched h timer d))|done].
  - apply w_prefix in Hk as [Hm Hk]. destruct (active_result _ _ _ _ _) as [ad|e'|]; [|by eapply (IH k)|done].
    apply bind_ok in H as (addr & _ & H). eapply proxy_SendRequest_ok; [exact IH|exact Hm|exact Hk| |exact H].
    by apply fetch_prefix_ok.
Qed.

(** *** Every event *)

Section Events.
Context (fuel : nat).
Let Hr := respond_ok fuel.

Lemma to_aloc_ok c m k a c' :
  wK k -> (forall r, m = Ok r -> wM r) -> all_ok c ->
  to_aloc channel0 panId0 rotation0 delay0 env_send fuel c m k a = Ok c' -> all_ok c'.
Proof.
  intros Hk Hm Hc H. eapply (send_or_report_ok _ Hr); [exact Hk|exact Hc| |exact H].
  intros r Er Hs. eapply proxy_aloc_ok; [exact Hr|by apply Hm|exact Hk|exact Hc|exact Hs].
Qed.

Lemma to_address_ok c h d m c' :
  wK (RspStateOptional h) -> (forall r, m = Ok r -> wM r) -> all_ok c ->
  to_address inet_pton4 inet_pton6 channel0 panId0 rotation0 delay0 env_send fuel c h d m = Ok c' -> all_ok c'.
Proof.
  intros Hk Hm Hc H. eapply (send_or_report_ok _ Hr); [exact Hk|exact Hc| |exact H].
  intros [a r] (a' & _ & (r' & Er & [= <- <-])%bind_ok)%bind_ok Hs.
  eapply proxy_SendRequest_ok; [exact Hr|by apply Hm|exact Hk|exact Hc|exact Hs].
Qed.

Lemma guarded_ok c h (g : outcome unit) k c' :
  wK (RspStateOptional h) -> (k = Ok c' -> all_ok c') -> all_ok c ->
  match g with Ok _ => k | Err e => Ok (out c (OutHandler h ResNone e)) | Die => Die end = Ok c' -> all_ok c'.
Proof. intros Hh Hk Hc H. destruct g; [by apply Hk|simplify_eq; by apply all_ok_out; [apply (w_error (RspStateOptional h))|]|done]. Qed.

Lemma announce_all_ok c h u mk l d c' :
  wK (RspCode h) -> all_ok c -> announce inet_pton4 inet_pton6 channel0 panId0 rotation0 delay0 env_send fuel c h u mk l d = Ok c' -> all_ok c'.
Proof.
  intros Hk Hc H. assert (Ho : forall e, wO (OutHandler h ResNone e)) by (intros e; by apply (w_error (RspCode h))).
  unfold announce in H. destruct (SetString _ _ d); simplify_eq; [|by apply all_ok_out].
  destruct (announce_request _ _ _ _ _) eqn:Em; simplify_eq; [|by apply all_ok_out].
  apply bind_ok in H as (c1 & H1 & H).
  eapply proxy_SendRequest_ok in H1; [|exact Hr|eapply announce_ok; [apply Hc|exact Em]|exact Hk|exact Hc].
  case_if; simplify_eq; [by apply all_ok_out|done].
Qed.

Lemma CoapSecure_Connect_ok c h b c' : wC h -> all_ok c -> CoapSecure_Connect env_send (respond fuel) c h b = Ok c' -> all_ok c'.
Proof.
  intros Hh Hc H. unfold CoapSecure_Connect, dtls_Connect in H. case_if; [|by eapply call_connected_ok].
  case_if; simplify_eq. destruct Hc as (H1 & Hb & Hp & Hs & _). split_and!; try done. by intros ? [= <-].
Qed.

Lemma GetCommissionerDataset_ok c h flags c' :
  wK (RspCommissionerDataset h) -> all_ok c -> GetCommissionerDataset channel0 panId0 rotation0 delay0 env_send fuel c h flags = Ok c' -> all_ok c'.
Proof.
  intros Hk Hc H. unfold GetCommissionerDataset in H. destruct (new_request _) as [m| |] eqn:Em; [|by vm_compute in Em..].
  assert (Hu : Uri.kMgmtCommissionerGet ∈ data_requests) by in_list.
  case_if; [destruct (AppendTlv _ _) as [m'| |] eqn:Ea; simplify_eq; [|done]|].
  - eapply proxy_aloc_ok; [exact Hr| |exact Hk|exact Hc|exact H]. by eapply (data_ok _ m _ m' true).
  - eapply proxy_aloc_ok; [exact Hr| |exact Hk|exact Hc|exact H].
    by eapply (data_ok _ m (Tlv_bytes kGet []) m false).
Qed.

Lemma do_api_ok a c c' : api_ok a -> all_ok c ->
  do_api inet_pton4 inet_pton6 channel0 panId0 rotation0 delay0 env_send fuel a c = Ok c' -> all_ok c'.
Proof.
  intros Ha Hc H. pose proof (proj1 Hc) as Hm. destruct a; cbn [Commissioner.do_api] in H; cbn [api_ok] in Ha.
  - by eapply CoapSecure_Connect_ok.
  - by eapply Disconnect_ok.
  - unfold Petition in H. destruct (IsActive c); [|destruct (IsConnected c)]; simplify_eq; [|eapply SendPetition_ok; [exact Hr|by apply w_petition|exact Hc|exact H]|by eapply CoapSecure_Connect_ok].
    apply all_ok_out; [|done]. by apply (w_error (RspPetition h)); [apply w_petition|].
  - unfold Resign in H. apply bind_ok in H as (c1 & H1 & [= <-]). apply all_ok_out; [apply Ha|]. by eapply Resign_body_ok.
  - unfold CancelRequests in H. apply bind_ok in H as (c1 & H1 & H). eapply br_Cancel_ok; [exact Hr| |exact H].
    by eapply proxy_Cancel_ok.
  - by eapply GetCommissionerDataset_ok.
  - eapply to_aloc_ok; [..|exact H]; [done|by intros r; apply set_commissioner_ok|done].
  - eapply GetRawActiveDataset_ok; [exact Hr|..|exact H]; done.
  - eapply GetRawActiveDataset_ok; [exact Hr|..|exact H]; done.
  - eapply to_aloc_ok; [..|exact H]; [done|by intros r; apply set_active_ok|done].
  - eapply to_aloc_ok; [..|exact H]; [done|by intros r; apply get_pending_ok|done].
  - eapply to_aloc_ok; [..|exact H]; [done|by intros r; apply set_pending_ok|done].
  - eapply to_aloc_ok; [..|exact H]; [done|by intros r; apply mlr_ok|done].
  - by eapply announce_all_ok.
  - by eapply announce_all_ok.
  - by eapply announce_all_ok.
  - eapply to_aloc_ok; [..|exact H]; [done|by intros r; apply set_bbr_ok|done].
  - eapply to_aloc_ok; [..|exact H]; [done|by intros r; apply get_bbr_ok|done].
  - by eapply SetSecurePendingDataset_ok.
  - eapply guarded_ok; [exact Ha| |exact Hc|exact H]. eapply to_address_ok; [exact Ha|by intros r; apply proxy_message_ok|done].
  - eapply guarded_ok; [exact Ha| |exact Hc|exact H]. eapply to_address_ok; [exact Ha|by intros r; apply proxy_message_ok|done].
  - eapply guarded_ok; [exact Ha| |exact Hc|exact H]. eapply to_address_ok; [exact Ha|by intros r; apply migrate_ok|done].
Qed.

Definition event_ok (e : Event) : Prop := match e with EvtApi a => api_ok a | _ => True end.

Lemma step_ok e c c' : event_ok e -> all_ok c ->
  step inet_pton4 inet_pton6 channel0 panId0 rotation0 delay0 env_send fuel e c = Ok c' -> all_ok c'.
Proof.
  intros He Hc H. destruct e as [a| |e|cl i r e|now|]; cbn [Commissioner.step] in H.
  - by eapply do_api_ok.
  - unfold handshake_over in H. destruct (mDtls c); simplify_eq; try done. cbn [mOnConnected with_dtls] in H.
    destruct (mOnConnected c) eqn:Eh; simplify_eq; [|by apply all_ok_dtls]. apply bind_ok in H as (c1 & H1 & [= <-]).
    apply call_connected_ok in H1; [by apply all_ok_dtls|exact Hr|by apply Hc|by apply all_ok_dtls; [rewrite Eh|]].
  - case_if; simplify_eq; [done|]. by eapply dtls_Disconnect_ok.
  - unfold deliver in H. destruct Hc as (Hm & Hb & Hp & Hs & Hh).
    destruct (_ !! i) as [k|] eqn:Ei; simplify_eq; [|by split_and!].
    assert (Hf : Forall wK (match cl with BrClient => brPending c | ProxyClient => proxyPending c end)) by by destruct cl.
    rewrite <- (take_drop_middle _ _ _ Ei) in Hf. apply Forall_app in Hf as [H1 [Hk H2]%Forall_cons].
    eapply Hr; [exact Hk| |exact H]. destruct cl; split_and!; try done; by apply Forall_app_2.
  - by injection H as <-.
  - unfold keep_alive_timer in H. destruct (mKeepAliveTimer c); simplify_eq; [|done]. case_if; simplify_eq; [|done].
    by eapply SendKeepAlive_ok in H.
Qed.
End Events.
End Walk.
