(* ===== verification/ResponseFacts.v ===== *)
(** * Which responses end the process

    The continuations of the commissioner that only tell the user what came
    ([user_kind]; all those of the UDP proxy are) decode any payload without
    running into an assertion or out of a buffer: the entries of a parsed set
    are as long as the decoders read.  What ends the process is an empty
    message, whose request URI [CheckCoapResponseCode] asks for. *)

From stdpp Require Import gmap.
From S2P Require Import Prelude Outcome Common Tlv NetworkData CoapMessage Dataset DatasetCodec Commissioner CommissionerInvariant CommissionerWalk.
Import Endian Addr Tlv TlvFacts Message Dataset ActiveDataset DatasetFacts.

(** ** Entries of parsed sets *)

Definition rules_of (sc : Scope) : list (Z * (Z -> bool)) :=
  match sc with kMeshCoP => mesh_cop_rules | kThread => thread_rules | kMeshLink => [] end.

Lemma entry_long sc s k t n : set_ok sc s -> s !! k = Some t ->
  (forall l, switch (rules_of sc) (fun _ => false) k l = true -> n <= l) -> n <= zlen (mValue t).
Proof.
  intros Hs Hk Hn. destruct (Hs _ _ Hk) as (Hv & <- & <- & _). unfold IsValid in Hv. case_if; [done|]. bool_to_prop.
  rewrite <- E. apply Hn. by destruct (mScope t).
Qed.

(** The least length that a rule allows. *)
Ltac least := intros ?; cbn; rewrite ?orb_true_iff, ?Z.eqb_eq, ?Z.leb_le, ?Z.ltb_lt; lia.

Lemma Decode_not_die n v : Z.of_nat n <= zlen v -> not_die (Decode n v).
Proof. intros H. unfold Decode. by rewrite (proj2 (Z.leb_le _ _)) by done. Qed.

Lemma ParseTlvs_safe sc pl : bytes pl -> not_die (ParseTlvs pl sc) /\ forall s, ParseTlvs pl sc = Ok s -> set_ok sc s.
Proof.
  intros Hb. unfold ParseTlvs, GetTlvSet.
  destruct (GetTlvSet_loop_safe sc pl (length pl) ∅ 0 Hb (set_ok_empty _) ltac:(lia) ltac:(unfold zlen; lia)) as [Hs Hr].
  destruct (GetTlvSet_loop _ _ _ _ _) as [s r]. cbn [fst snd] in *. destruct Hr as [-> | ->]; split; try done. by intros ? [= <-].
Qed.

Lemma GetTlv_entry sc k pl t : bytes pl -> GetTlv k pl sc = Some t -> exists s, set_ok sc s /\ s !! k = Some t.
Proof.
  intros Hb. unfold GetTlv. pose proof (proj2 (ParseTlvs_safe sc pl Hb)) as Hs. unfold ParseTlvs in Hs.
  destruct (GetTlvSet ∅ pl sc) as [s [[]|?|]]; [|done..]. cbn [mbind outcome_bind] in Hs. eauto.
Qed.

(** An optional entry. *)
Lemma entry_not_die {A} (o : option Tlv) (f : Tlv -> outcome A) g :
  (forall t, o = Some t -> not_die (f t)) -> not_die g -> not_die (match o with Some t => f t | None => g end).
Proof. intros Hf Hg. destruct o; [by apply Hf|done]. Qed.

Section Entries.
Context (sc : Scope) (s : TlvSet) (Hs : set_ok sc s).

Lemma decoded_entry {A} n k t (f : Z -> outcome A) : s !! k = Some t ->
  (forall l, switch (rules_of sc) (fun _ => false) k l = true -> Z.of_nat n <= l) ->
  (forall v, not_die (f v)) -> not_die (v ← Decode n (mValue t); f v).
Proof using Hs. intros Hk Hl Hf. apply bind_not_die; [|auto]. apply Decode_not_die. by eapply entry_long. Qed.

Lemma u16_entry {A} k t (f : Z -> outcome A) : s !! k = Some t ->
  (forall l, switch (rules_of sc) (fun _ => false) k l = true -> 2 <= l) ->
  (forall v, not_die (f v)) -> not_die (v ← GetValueAsUint16 t; f v).
Proof using Hs.
  intros Hk Hl Hf. pose proof (entry_long sc s k t 2 Hs Hk Hl). unfold GetValueAsUint16.
  rewrite (proj2 (Z.leb_le _ _)) by done. apply bind_not_die; [by apply Decode_not_die|auto].
Qed.
End Entries.

(** One field of a decoder after the other. *)
Ltac field := apply bind_not_die; [apply entry_not_die; [intros ? ?|done]|intros ? _].
Ltac stored_field := field; [done|].

(** ** The decoders *)

Lemma decode_rest_not_die s d : set_ok kMeshCoP s -> not_die (decode_rest s d).
Proof.
  intros Hs. unfold decode_rest. do 4 stored_field. field; [by eapply (decoded_entry _ s Hs 2 kPanId); [|least|]|]. stored_field.
  apply entry_not_die; [|done]. intros t Ht. eapply (decoded_entry _ s Hs 2 kSecurityPolicy); [done|least|]. intros v.
  pose proof (entry_long _ s kSecurityPolicy t 3 Hs Ht ltac:(least)). by rewrite rdt_ok by lia.
Qed.

Lemma DecodeActive_not_die init d0 pl : bytes pl -> not_die (DecodeActiveOperationalDataset init d0 pl).
Proof.
  intros Hb. unfold DecodeActiveOperationalDataset. destruct (ParseTlvs_safe kMeshCoP pl Hb) as [Hp Hset].
  apply bind_not_die; [done|]. intros s Es. apply Hset in Es as Hs.
  field; [by eapply (decoded_entry _ s Hs 8 kActiveTimestamp); [|least|]|].
  field.
  { pose proof (entry_long _ s kChannel _ 3 Hs ltac:(done) ltac:(least)). apply bind_not_die; [apply rd_not_die; lia|]. intros page _.
    rewrite rdt_ok by lia. cbn [mbind outcome_bind]. apply bind_not_die; [|done]. apply Decode_not_die.
    unfold zdrop, zlen in *. rewrite length_drop. lia. }
  apply entry_not_die; [|by apply decode_rest_not_die]. intros t Ht. destruct (Hs _ _ Ht) as (_ & _ & _ & Hbt).
  pose proof (DecodeChannelMask_total (mValue t) (proj2 Hbt)).
  destruct (DecodeChannelMask (mValue t)); [by apply decode_rest_not_die|done|done].
Qed.

Lemma DecodePending_not_die a d r : bytes (mPayload r) -> not_die (DecodePendingOperationalDataset a d r).
Proof.
  intros Hb. unfold DecodePendingOperationalDataset. destruct (ParseTlvs_safe kMeshCoP _ Hb) as [Hp Hset].
  apply bind_not_die; [by apply DecodeActive_not_die|]. intros base _. apply bind_not_die; [done|]. intros s Es. apply Hset in Es as Hs.
  field; [by eapply (decoded_entry _ s Hs 4 kDelayTimer); [|least|]|].
  apply entry_not_die; [|done]. intros t Ht. by eapply (decoded_entry _ s Hs 8 kPendingTimestamp); [|least|].
Qed.

Lemma DecodeCommissioner_not_die r : bytes (mPayload r) -> not_die (DecodeCommissionerDataset r).
Proof.
  intros Hb. unfold DecodeCommissionerDataset. destruct (ParseTlvs_safe kMeshCoP _ Hb) as [Hp Hset].
  apply bind_not_die; [done|]. intros s Es. apply Hset in Es as Hs.
  field; [by eapply (u16_entry _ s Hs kCommissionerSessionId); [|least|]|].
  field; [by eapply (u16_entry _ s Hs kBorderAgentLocator); [|least|]|]. do 3 stored_field.
  field; [by eapply (u16_entry _ s Hs kJoinerUdpPort); [|least|]|].
  field; [by eapply (u16_entry _ s Hs kAeUdpPort); [|least|]|].
  apply entry_not_die; [|done]. intros t Ht. by eapply (u16_entry _ s Hs kNmkpUdpPort); [|least|].
Qed.

Lemma DecodeBbr_not_die n4 n6 r : bytes (mPayload r) -> not_die (DecodeBbrDataset n4 n6 r).
Proof.
  intros Hb. unfold DecodeBbrDataset. destruct (ParseTlvs_safe kMeshCoP _ Hb) as [Hp _].
  apply bind_not_die; [done|]. intros s _. do 2 stored_field. apply entry_not_die; [|done]. intros t _.
  apply bind_not_die; [|done]. unfold SetRaw. by case_if.
Qed.

(** ** The continuations *)

Section Told.
Context `{HSign : RequestSigner} (channel0 : Channel) (panId0 rotation0 delay0 : Z).
Abbreviation told := (told_result channel0 panId0 rotation0 delay0).

Lemma HandleStateResponse_not_die r b : bytes (mPayload r) -> not_die (CheckCoapResponseCode r) ->
  not_die (HandleStateResponse (Some r) kNone b).
Proof using.
  intros Hb Hc. unfold HandleStateResponse, received. rewrite bool_decide_eq_true_2 by done. cbn [mbind outcome_bind].
  apply bind_not_die; [done|]. intros _ _. destruct (GetTlv kState (mPayload r) kMeshCoP) as [t|] eqn:Et; [|by destruct b].
  apply GetTlv_entry in Et as (s & Hs & Ht); [|done]. pose proof (entry_long _ s kState t 1 Hs Ht ltac:(least)).
  unfold GetValueAsInt8. rewrite (proj2 (Z.leb_le _ _)) by done.
  apply bind_not_die; [|intros v _; by case_if]. apply bind_not_die; [apply rd_not_die; lia|done].
Qed.

(** Errors are passed on. *)
Lemma told_result_error c k r e : user_kind k -> e <> kNone -> told c k r e = Err e.
Proof using.
  intros Hk He. destruct k; try by destruct Hk.
  all: cbn; unfold state_result, HandleStateResponse, code_result, commissioner_result, raw_response, active_result, pending_result, mlr_result, received.
  all: by rewrite bool_decide_eq_false_2 by done.
Qed.

(** The request URI of an empty message. *)
Lemma told_result_empty c k m : user_kind k -> IsEmpty m = true -> told c k (Some m) kNone = Die.
Proof using.
  intros Hk Ee. assert (Hc : CheckCoapResponseCode m = Die).
  { unfold CheckCoapResponseCode, GetRequestUri, IsResponse. rewrite Ee. unfold IsEmpty in Ee. apply Z.eqb_eq in Ee. by rewrite Ee. }
  destruct k; try by destruct Hk.
  all: cbn; unfold state_result, HandleStateResponse, code_result, commissioner_result, raw_response, active_result, pending_result, mlr_result, received.
  all: by rewrite bool_decide_eq_true_2 by done; cbn [mbind outcome_bind]; rewrite Hc.
Qed.

(** What a response with a payload of bytes is made of. *)
Lemma checked_not_die {A} m (f : Message -> outcome A) : IsResponse m = true -> not_die (f m) ->
  not_die (response ← received (Some m) kNone; _ ← CheckCoapResponseCode response; f response).
Proof using.
  intros Hr Hf. unfold received. rewrite bool_decide_eq_true_2 by done. cbn [mbind outcome_bind].
  apply bind_not_die; [|done]. unfold CheckCoapResponseCode, GetRequestUri. rewrite Hr. by case_if.
Qed.

Lemma told_result_response c k m : user_kind k -> bytes (mPayload m) -> IsResponse m = true -> not_die (told c k (Some m) kNone).
Proof using.
  intros Hk Hb Hr. pose proof (fun A f => @checked_not_die A m f Hr) as Hbind.
  assert (Hc : not_die (CheckCoapResponseCode m)) by (unfold CheckCoapResponseCode, GetRequestUri; rewrite Hr; by case_if).
  destruct k; try by destruct Hk.
  - apply bind_not_die; [by apply HandleStateResponse_not_die|done].
  - by apply Hbind.
  - apply Hbind, bind_not_die; [by apply DecodeCommissioner_not_die|done].
  - apply bind_not_die; [by apply Hbind|done].
  - apply bind_not_die; [|done]. apply bind_not_die; [by apply Hbind|]. intros pl Hpl.
    apply DecodeActive_not_die. apply bind_ok in Hpl as (m' & Hm & (_ & _ & [= <-])%bind_ok).
    unfold received in Hm. rewrite bool_decide_eq_true_2 in Hm by done. by injection Hm as <-.
  - apply Hbind, bind_not_die; [by apply DecodePending_not_die|]. intros d _. cbv zeta. by case_if.
  - apply Hbind. destruct (GetTlv kThreadStatus (mPayload m) kThread) as [t|] eqn:Et; [|done].
    apply GetTlv_entry in Et as (s & Hs & Ht); [|done]. pose proof (entry_long _ s kThreadStatus t 1 Hs Ht ltac:(least)).
    unfold GetValueAsUint8. rewrite (proj2 (Z.leb_le _ _)) by done. apply bind_not_die; [by apply Decode_not_die|done].
  - apply bind_not_die; [by apply HandleStateResponse_not_die|done].
  - apply Hbind, bind_not_die; [by apply DecodeBbr_not_die|done].
Qed.

(** Exactly the empty messages end the process. *)
Lemma told_result_dies c k r e : user_kind k -> (e = kNone -> exists m, r = Some m /\ bytes (mPayload m) /\ IsRequest m = false) ->
  (told c k r e = Die <-> e = kNone /\ exists m, r = Some m /\ IsEmpty m = true).
Proof using.
  intros Hk Hr. destruct (decide (e = kNone)) as [->|He].
  2: { rewrite told_result_error by done. split; [done|by intros [? _]]. }
  destruct (Hr eq_refl) as (m & -> & Hb & Hq). split; [|intros [_ (m' & [= <-] & ?)]; by apply told_result_empty].
  intros Hd. split; [done|]. exists m. split; [done|]. destruct (IsEmpty m) eqn:Ee; [done|]. exfalso. revert Hd.
  apply told_result_response; [done..|]. unfold IsResponse. by rewrite Ee, Hq.
Qed.
End Told.
