(* ===== verification/CommissionerTyped.v ===== *)
(** * What the handlers of the commissioner's users are told

    The three kinds of handlers of [include/commissioner/commissioner.hpp] and
    what is documented of them: a response without an error, and a response
    only then; the id of the existing commissioner only with an error.  The
    proof is [CommissionerWalk] for the types of the handlers. *)

From S2P Require Import Prelude Outcome Common Tlv NetworkData CoapMessage Dataset Commissioner CommissionerInvariant CommissionerControl CommissionerWalk.
Import Endian Addr Tlv Message Dataset.

(** ** Types of handlers *)

Inductive HandlerType : Type :=
| ErrorHandler
| PetitionHandler
| HandlerCommissionerDataset | HandlerBbrDataset | HandlerActiveDataset | HandlerByteArray | HandlerPendingDataset | HandlerStatus.

#[export] Instance HandlerType_eq_dec : EqDecision HandlerType.
Proof. solve_decision. Defined.

(** The handler that an operation is given; [Disconnect] and [CancelRequests] have none. *)
Definition handler_of (a : Api) : option nat :=
  match a with
  | ApiConnect h _ | ApiPetition h _ | ApiResign h | ApiGetCommissionerDataset h _ | ApiSetCommissionerDataset h _
  | ApiGetRawActiveDataset h _ | ApiGetActiveDataset h _ | ApiSetActiveDataset h _ | ApiGetPendingDataset h _
  | ApiSetPendingDataset h _ | ApiRegisterMulticastListener h _ _ | ApiAnnounceBegin h _ _ _ _ | ApiPanIdQuery h _ _ _
  | ApiEnergyScan h _ _ _ _ _ | ApiSetBbrDataset h _ | ApiGetBbrDataset h _ | ApiSetSecurePendingDataset h _ _
  | ApiCommandReenroll h _ | ApiCommandDomainReset h _ | ApiCommandMigrate h _ _ => Some h
  | ApiDisconnect | ApiCancelRequests => None
  end.

(** Its type. *)
Definition handler_type (a : Api) : HandlerType :=
  match a with
  | ApiPetition _ _ => PetitionHandler
  | ApiGetCommissionerDataset _ _ => HandlerCommissionerDataset
  | ApiGetBbrDataset _ _ => HandlerBbrDataset
  | ApiGetActiveDataset _ _ => HandlerActiveDataset
  | ApiGetRawActiveDataset _ _ => HandlerByteArray
  | ApiGetPendingDataset _ _ => HandlerPendingDataset
  | ApiRegisterMulticastListener _ _ _ => HandlerStatus
  | _ => ErrorHandler
  end.

(** A response that a handler can get. *)
Definition response_of (t : HandlerType) (v : Result) : bool :=
  match t, v with
  | HandlerCommissionerDataset, ResCommissionerDataset _ | HandlerBbrDataset, ResBbr _ | HandlerActiveDataset, ResActive _
  | HandlerByteArray, ResBytes _ | HandlerPendingDataset, ResPending _ | HandlerStatus, ResStatus _
  | PetitionHandler, ResCommissionerId _ => true
  | _, _ => false
  end.

(** What is promised of a call with [v] and [e], where [ResNone] is the null pointer. *)
Definition conforms (t : HandlerType) (v : Result) (e : ErrorCode) : Prop :=
  match t with
  | ErrorHandler => v = ResNone
  | PetitionHandler => v = ResNone \/ (response_of PetitionHandler v = true /\ e = kRejected)
  | _ => if bool_decide (e = kNone) then response_of t v = true else v = ResNone
  end.

(** ** Errors are errors *)

Definition real {A} (m : outcome A) : Prop := m <> Err kNone.

Create HintDb real.

Lemma real_bind {A B} (m : outcome A) (f : A -> outcome B) : real m -> (forall a, real (f a)) -> real (m ≫= f).
Proof. unfold real. destruct m; intros Hm Hf; cbn; [apply Hf|naive_solver|done]. Qed.
Lemma real_ok {A} (a : A) : real (Ok a).
Proof. done. Qed.
Lemma real_die {A} : real (@Die A).
Proof. done. Qed.
Lemma real_err {A} e : e <> kNone -> real (@Err A e).
Proof. unfold real. congruence. Qed.
Lemma real_guard {A} (b : bool) (m k : outcome A) : real m -> real k -> real (if b then m else k).
Proof. by destruct b. Qed.
#[export] Hint Resolve real_ok real_die : real.

(** Follows the definition of a decoder. *)
Ltac real := repeat (first
  [ done
  | apply real_err; congruence
  | solve [eauto with real]
  | apply real_bind; [|intros]
  | apply real_guard
  | match goal with |- real (match ?x with _ => _ end) => destruct x end ]).

Lemma rd_real {A} (l : list A) i : real (rd l i).
Proof. unfold rd. real. Qed.
Lemma Decode_real n b : real (Decode n b).
Proof. unfold Decode. real. Qed.
#[export] Hint Resolve rd_real Decode_real : real.

Lemma GetValueAsInt8_real t : real (GetValueAsInt8 t).
Proof. unfold GetValueAsInt8. real. Qed.
Lemma GetValueAsUint8_real t : real (GetValueAsUint8 t).
Proof. unfold GetValueAsUint8. real. Qed.
Lemma GetValueAsUint16_real t : real (GetValueAsUint16 t).
Proof. unfold GetValueAsUint16. real. Qed.
Lemma SetRaw_real b : real (SetRaw b).
Proof. unfold SetRaw. real. Qed.
Lemma Deserialize_real o b s : real (Tlv.Deserialize o b s).
Proof. unfold Tlv.Deserialize. real. Qed.
#[export] Hint Resolve GetValueAsInt8_real GetValueAsUint8_real GetValueAsUint16_real SetRaw_real Deserialize_real : real.

Lemma GetTlvSet_loop_real fuel : forall set o b s, real (GetTlvSet_loop fuel set o b s).2.
Proof.
  induction fuel as [|fuel IH]; intros set o b s; cbn [GetTlvSet_loop]; case_if; try done.
  pose proof (Deserialize_real o b s) as Hd. destruct (Tlv.Deserialize o b s) as [[t o']|e|]; [apply IH|cbn; unfold real in *; congruence|done].
Qed.
Lemma ParseTlvs_real b s : real (ParseTlvs b s).
Proof.
  unfold ParseTlvs, GetTlvSet. pose proof (GetTlvSet_loop_real (length b) ∅ 0 b s) as H.
  destruct (GetTlvSet_loop _ _ _ _ _) as [set r]. by apply real_bind.
Qed.
#[export] Hint Resolve ParseTlvs_real : real.

Lemma DecodeChannelMask_real b : real (DecodeChannelMask b).
Proof.
  unfold DecodeChannelMask. generalize (length b) as fuel, (@nil ChannelMaskEntry) as mask, 0 as o.
  induction fuel as [|fuel IH]; intros mask o; cbn [DecodeChannelMask_loop]; real.
Qed.
#[export] Hint Resolve DecodeChannelMask_real : real.

Lemma DecodeActive_real i d b : real (DecodeActiveOperationalDataset i d b).
Proof. unfold DecodeActiveOperationalDataset, decode_rest. real. Qed.
#[export] Hint Resolve DecodeActive_real : real.
Lemma DecodePending_real i d r : real (DecodePendingOperationalDataset i d r).
Proof. unfold DecodePendingOperationalDataset. real. Qed.
Lemma DecodeCommissioner_real r : real (DecodeCommissionerDataset r).
Proof. unfold DecodeCommissionerDataset. real. Qed.
Lemma DecodeBbr_real n4 n6 r : real (DecodeBbrDataset n4 n6 r).
Proof. unfold DecodeBbrDataset. real. Qed.
#[export] Hint Resolve DecodePending_real DecodeCommissioner_real DecodeBbr_real : real.

Lemma received_real r e : real (received r e).
Proof. unfold received. case_bool_decide; [by destruct r|by apply real_err]. Qed.
Lemma CheckCoapResponseCode_real r : real (CheckCoapResponseCode r).
Proof. unfold CheckCoapResponseCode. real. Qed.
#[export] Hint Resolve received_real CheckCoapResponseCode_real : real.

(** ** Handlers get what their type promises *)

Section Typed.
Context `{HSign : RequestSigner}.
Context (ty : nat -> HandlerType).
Context (inet_pton4 inet_pton6 : string_t -> option ByteArray).
Context (channel0 : Channel) (panId0 rotation0 delay0 : Z).
Context (env_send : nat -> ErrorCode) (fuel : nat).

(** The continuations hold a handler of their type, and the calls so far kept the promise. *)
Fixpoint kind_typed (k : OnResponse) : Prop :=
  match k with
  | RspPetition h => ty h = PetitionHandler
  | RspKeepAlive => True
  | RspState h | RspCode h | RspStateOptional h | RspFetched h _ _ => ty h = ErrorHandler
  | RspCommissionerDataset h => ty h = HandlerCommissionerDataset
  | RspRawActive h => ty h = HandlerByteArray
  | RspActive h => ty h = HandlerActiveDataset
  | RspPending h => ty h = HandlerPendingDataset
  | RspMlr h => ty h = HandlerStatus
  | RspBbr h => ty h = HandlerBbrDataset
  | RspPrefix k _ _ _ => kind_typed k
  end.
Definition connect_typed (k : ConnectHandler) : Prop :=
  match k with ConnUser h => ty h = ErrorHandler | ConnPetition h => ty h = PetitionHandler end.
Definition told_typed (o : Output) : Prop := match o with OutHandler h v e => conforms (ty h) v e | _ => True end.

(** The user passes handlers of the type that the operation declares. *)
Definition api_typed (a : Api) : Prop := match handler_of a with Some h => ty h = handler_type a | None => True end.
Definition event_typed (e : Event) : Prop := match e with EvtApi a => api_typed a | _ => True end.

(** A continuation that gives its handler a value gives one of its type, or a real error. *)
Lemma told_result_typed c k r e : kind_typed k -> user_kind k ->
  real (told_result channel0 panId0 rotation0 delay0 c k r e) /\
  forall v, told_result channel0 panId0 rotation0 delay0 c k r e = Ok v ->
    if bool_decide (ty (user_of k) = ErrorHandler) then v = ResNone
    else ty (user_of k) <> PetitionHandler /\ response_of (ty (user_of k)) v = true.
Proof using.
  intros Hk Hu. destruct k; try by destruct Hu.
  all: cbn [kind_typed told_result user_of] in *; rewrite Hk.
  all: split; [unfold state_result, code_result, HandleStateResponse, commissioner_result, raw_response, active_result, pending_result, mlr_result; real|].
  all: intros v Hv; cbn [bool_decide decide decide_rel]; revert Hv.
  all: unfold state_result, code_result, commissioner_result, pending_result, mlr_result.
  all: intros Hv; repeat (apply bind_ok in Hv as (? & _ & Hv)); repeat (case_match; try done); simplify_eq; try done.
  all: repeat (apply bind_ok in Hv as (? & _ & Hv)); by simplify_eq.
Qed.

Lemma reported_typed c k r e o : kind_typed k -> user_kind k ->
  reported (user_of k) (told_result channel0 panId0 rotation0 delay0 c k r e) = Some o -> told_typed o.
Proof using.
  intros Hk Hu Ho. destruct (told_result_typed c k r e Hk Hu) as [Hr Hv].
  assert (Hp : ty (user_of k) <> PetitionHandler) by (destruct k; cbn in *; by rewrite ?Hk).
  destruct (told_result _ _ _ _ _ _ _ _) as [v|e'|] eqn:Et; simplify_eq/=; unfold conforms.
  - specialize (Hv v eq_refl). case_bool_decide as Eb; [by rewrite Eb|]. destruct Hv as [_ Hv]. by destruct (ty (user_of k)).
  - clear Hv. unfold real in Hr. destruct (ty (user_of k)); try done; case_bool_decide; congruence.
Qed.

#[local] Instance typed_walk : Walk channel0 panId0 rotation0 delay0.
Proof using ty fuel env_send.
  refine {| wB _ := True; wM _ := True; wK := kind_typed; wC := connect_typed; wO := told_typed |}; try done.
  - intros k m a p. cbn. tauto.
  - intros h e Hh. cbn in *. by rewrite Hh.
  - intros k e Hk Ho. destruct k; try done; cbn in *; rewrite Hk; cbn; by auto.
  - apply reported_typed.
  - intros h r e e' id Hh Hr Hid. cbn in *. rewrite Hh. right. split; [done|].
    revert Hr. unfold petition_response. destruct (received r e ≫= _) as [tlvs|e1|]; [|congruence|done].
    destruct (tlvs !! kState); [|congruence]. intros (v & _ & H)%bind_ok. case_if; [congruence|].
    destruct (tlvs !! kCommissionerSessionId); [|congruence]. by apply bind_ok in H as (? & _ & [=]).
Defined.

Definition all_typed (c : Commissioner) : Prop :=
  Forall kind_typed (brPending c) /\ Forall kind_typed (proxyPending c) /\ Forall told_typed (outputs c) /\
  forall h, mOnConnected c = Some h -> connect_typed h.

Lemma api_typed_ok a : api_typed a -> api_ok channel0 panId0 rotation0 delay0 a.
Proof using. unfold api_typed. destruct a; cbn; intros E; rewrite ?E; done. Qed.

Lemma typed_init cfg now : all_typed (Commissioner_init cfg now).
Proof using. by split_and!. Qed.

Lemma typed_told c h v e : all_typed c -> OutHandler h v e ∈ outputs c -> conforms (ty h) v e.
Proof using. intros (_ & _ & Ho & _) Hin. rewrite Forall_forall in Ho. exact (Ho _ Hin). Qed.

Lemma typed_step e c c' : event_typed e -> all_typed c ->
  step inet_pton4 inet_pton6 channel0 panId0 rotation0 delay0 env_send fuel e c = Ok c' -> all_typed c'.
Proof using.
  intros He (Hb & Hp & Ho & Hh) H. destruct (step_ok channel0 panId0 rotation0 delay0 inet_pton4 inet_pton6 env_send fuel e c c')
    as (_ & H1 & H2 & H3 & H4); [|by split_and!|exact H|by split_and!].
  destruct e; try done. by apply api_typed_ok.
Qed.

Lemma typed_run l : forall c c', Forall event_typed l -> all_typed c ->
  run inet_pton4 inet_pton6 channel0 panId0 rotation0 delay0 env_send fuel l c = Ok c' -> all_typed c'.
Proof using.
  induction l as [|e l IH]; intros c c' Hl Hc H; cbn in H; [by injection H as <-|].
  apply Forall_cons in Hl as [He Hl]. apply bind_ok in H as (c1 & H1 & H). eapply IH; [exact Hl| |exact H]. by eapply typed_step.
Qed.
End Typed.
