(* ===== verification/CommissionerSigned.v ===== *)
(** * What the commissioner sends in a commercial network

    Every request that leaves the commissioner, or waits in a continuation, was
    signed or asks for data: [CommissionerWalk] for a predicate on messages that
    holds of what the signer made and of the two requests that are not signed. *)

From S2P Require Import Prelude Outcome Common Tlv NetworkData CoapMessage Dataset Commissioner CommissionerInvariant CommissionerControl CommissionerWalk.

Section Signed.
Context `{HSign : RequestSigner}.
Context (ok : Message.Message -> Prop).
Context (ok_signed : forall r b m, sign_request r b = Ok m -> ok m) (ok_data : forall m, asks_for_data m -> ok m).
Context (inet_pton4 inet_pton6 : string_t -> option ByteArray).
Context (channel0 : Channel) (panId0 rotation0 delay0 : Z).
Context (env_send : nat -> ErrorCode) (fuel : nat).

Fixpoint kind_ok (k : OnResponse) : Prop := match k with RspPrefix k m _ _ => ok m /\ kind_ok k | _ => True end.
Definition out_ok (o : Output) : Prop := match o with OutRequest _ _ m => ok m | _ => True end.
Definition all_signed (c : Commissioner) : Prop :=
  IsCcmMode c = true /\ Forall kind_ok (brPending c) /\ Forall kind_ok (proxyPending c) /\ Forall out_ok (outputs c).

#[local] Instance signed_walk : Walk channel0 panId0 rotation0 delay0.
Proof using ok_signed ok_data.
  refine {| wB cfg := mEnableCcm cfg = true; wM := ok; wK := kind_ok; wC _ := True; wO := out_ok |}; try done.
  - intros c r b m Hc. unfold SignIfCcm, IsCcmMode. rewrite Hc. apply ok_signed.
  - by intros c k r e o _ _ Ho; destruct (told_result _ _ _ _ _ _ _ _); simplify_eq/=.
Defined.

Lemma signed_step e c c' : all_signed c ->
  step inet_pton4 inet_pton6 channel0 panId0 rotation0 delay0 env_send fuel e c = Ok c' -> all_signed c'.
Proof using ok_signed ok_data.
  intros (Hm & Hb & Hp & Ho) H. destruct (step_ok channel0 panId0 rotation0 delay0 inet_pton4 inet_pton6 env_send fuel e c c')
    as (H1 & H2 & H3 & H4 & _); [|by split_and!|exact H|done].
  destruct e as [[]| | | | |]; cbn; by (intros; apply I) || done.
Qed.
End Signed.
