(* ===== verification/CommissionerScript.v ===== *)
(** * Runs of the commissioner

    Concrete runs: a session from the petition to the resignation, which shows
    that the hypotheses of the theorems about the commissioner can hold, and
    the runs that go wrong. *)

From S2P Require Import Prelude Outcome Common Tlv NetworkData CoapMessage Dataset DatasetCodec.
From S2P Require Import Commissioner CommissionerInvariant CommissionerHandlers CommissionerControl.
Import Endian CommonFacts Addr Tlv TlvFacts Message Dataset DatasetFacts.

Definition channel : Channel := mkChannel 0 0.
Definition cfg : Config := mkConfig false 30 [] (str "comm") (repeat 1 16) [] [] [].

(** Outside commercial networks nothing is signed. *)
#[export] Instance unsigned : RequestSigner :=
  {| sign_request m _ := Ok m; sign_ntop4 _ := None; sign_ntop6 _ := None |}.
#[export] Instance unsigned_laws : SignerLaws.
Proof. by intros m b m' [= ->]. Qed.
Abbreviation idle := (Commissioner_init cfg 0).
Definition all_sent (n : nat) : ErrorCode := kNone.

Definition response (payload : ByteArray) : Message :=
  Append (Message_new CoapMessage.kAcknowledgment Code.kChanged) payload.
Definition accepted : Message := response (petition_answer 1 4660 []).
Definition the_prefix : Message := response (encoding (Tlv_bytes kNetworkMeshLocalPrefix [253; 0; 0; 0; 0; 0; 0; 1])).
Definition everyone : string_t := str "ff020000000000000000000000000001".
Definition channels : Z := 134215680.

Abbreviation play_with pton4 l := (run pton4 sample_pton6 channel 0 0 0 all_sent 10 l idle).
Abbreviation play l := (play_with sample_pton4 l).
Definition ending (l : list Event) : Commissioner := match play l with Ok c => c | _ => idle end.

(** The errors a handler was called with, latest first. *)
Definition told (h : nat) (m : outcome Commissioner) : option (list ErrorCode) :=
  match m with
  | Ok c => Some (flat_map (fun o => match o with
                                     | OutHandler h' _ e => if bool_decide (h' = h) then [e] else []
                                     | _ => []
                                     end) (outputs c))
  | _ => None
  end.
Definition keep_alives_told (m : outcome Commissioner) : option (list ErrorCode) :=
  match m with
  | Ok c => Some (flat_map (fun o => match o with OutKeepAliveResponse e => [e] | _ => [] end) (outputs c))
  | _ => None
  end.

Definition joined : list Event :=
  [EvtApi (ApiPetition 1 true); EvtHandshakeOver; EvtResponse BrClient 0 (Some accepted) kNone].
Definition asking : list Event :=
  joined ++ [EvtTime 30000; EvtKeepAliveTimer; EvtApi (ApiGetPendingDataset 2 0);
             EvtResponse BrClient 1 (Some the_prefix) kNone; EvtApi (ApiGetRawActiveDataset 3 0)].

(** ** The theorems apply *)

Lemma commissioner_invariant_witness :
  play joined = Ok (ending joined) /\ mState (ending joined) = kActive /\
  exists t, mKeepAliveTimer (ending joined) = Some t /\ t <= clock (ending joined) + GetKeepAliveInterval (ending joined).
Proof.
  assert (E : play joined = Ok (ending joined)) by (vm_compute; reflexivity).
  destruct (commissioner_invariant _ _ _ _ _ _ _ _ _ _ _ _ E) as (_ & _ & _ & _ & H).
  assert (Ha : mState (ending joined) = kActive) by (vm_compute; reflexivity).
  exact (conj E (conj Ha (H Ha))).
Defined.

Lemma handlers_answered_once_witness :
  play asking = Ok (ending asking) /\
  (calls 2 (ending asking) + armed 2 (ending asking) = 1)%nat /\ armed 2 (ending asking) = 1%nat /\
  exists c', run sample_pton4 sample_pton6 channel 0 0 0 all_sent 10 [EvtApi ApiDisconnect; EvtApi ApiCancelRequests] (ending asking) = Ok c' /\
    calls 2 c' = 1%nat /\ armed 2 c' = 0%nat.
Proof.
  assert (E : play asking = Ok (ending asking)) by (vm_compute; reflexivity).
  destruct (handlers_answered_once sample_pton4 sample_pton6 channel 0 0 0 all_sent 10 cfg 0 asking (ending asking) 2) as [H1 H2];
    [repeat constructor|exact E|].
  split; [exact E|]. split; [exact H1|]. split; [vm_compute; reflexivity|].
  apply (H2 10%nat). apply Nat.ltb_lt. vm_compute. reflexivity.
Defined.

(** The state of [asking]: a keep-alive and a request at the border agent, a request at the leader. *)
Lemma asking_pending :
  brPending (ending asking) = [RspKeepAlive; RspRawActive 3] /\ proxyPending (ending asking) = [RspPending 2] /\
  mDtls (ending asking) <> kDisconnected /\ (costs (brPending (ending asking)) + 2 <= 10)%nat /\
  (costs (brPending (ending asking)) <= 9)%nat.
Proof. vm_compute. repeat split; try discriminate; repeat constructor. Qed.

Lemma Disconnect_complete_witness :
  exists c', do_api sample_pton4 sample_pton6 channel 0 0 0 all_sent 10 ApiDisconnect (ending asking) = Ok c' /\
    stopped c' /\ mDtls c' = kOpen /\ proxyPending c' = proxyPending (ending asking) /\
    outputs c' ≡ₚ map (connect_failed kCancelled) (waiting (ending asking)) ++
                  map (failed kCancelled) (brPending (ending asking)) ++ outputs (ending asking).
Proof.
  destruct asking_pending as (_ & _ & Hd & Hf & _).
  apply (Disconnect_complete sample_pton4 sample_pton6 channel 0 0 0 all_sent 10 (ending asking) Hd).
  eapply Nat.le_trans; [|exact Hf]. apply Nat.le_add_r.
Defined.

Lemma Resign_complete_witness :
  exists c', do_api sample_pton4 sample_pton6 channel 0 0 0 all_sent 10 (ApiResign 4) (ending asking) = Ok c' /\
    stopped c' /\ mDtls c' = kOpen /\ mKeepAliveTimer c' = None /\ proxyPending c' = proxyPending (ending asking) /\
    outputs c' ≡ₚ OutHandler 4 ResNone kNone :: goodbye all_sent (ending asking) ++
                  map (connect_failed kCancelled) (waiting (ending asking)) ++
                  map (failed kCancelled) (brPending (ending asking)) ++ outputs (ending asking).
Proof.
  destruct asking_pending as (_ & _ & Hd & Hf & _).
  apply (Resign_complete sample_pton4 sample_pton6 channel 0 0 0 all_sent 10 4 (ending asking)); [|exact Hd|exact Hf].
  vm_compute. discriminate.
Defined.

(** An answer that refuses the keep-alive. *)
Definition refusal : Message := response (petition_answer 255 0 []).


Lemma commands_require_active_witness :
  exists e, do_api sample_pton4 sample_pton6 channel 0 0 0 all_sent 2 (ApiEnergyScan 5 channels 1 1 1 everyone) idle
      = Ok (out idle (OutHandler 5 ResNone e)) /\ (e = kInvalidState \/ e = kInvalidArgs).
Proof.
  apply (commands_require_active sample_pton4 sample_pton6 channel 0 0 0 all_sent 0 idle
    (ApiEnergyScan 5 channels 1 1 1 everyone) 5); [reflexivity|discriminate|discriminate|reflexivity].
Defined.

Lemma config_validated_witness :
  exists m, petition_request idle = Ok m /\ IsConfirmable m = true.
Proof. apply (proj2 (config_validated cfg)); vm_compute; reflexivity. Defined.

Lemma petition_decided_witness :
  respond channel 0 0 0 all_sent 1 (RspPetition 1) (Some (response (petition_answer 255 0 (str "other")))) kNone idle
  = Ok (out (set_state idle kDisabled) (OutHandler 1 (ResCommissionerId (str "other")) kRejected)).
Proof.
  apply (petition_decided channel 0 0 0 all_sent 0 idle 1 _ 255 0 (str "other"));
    [split; [discriminate|reflexivity]|split; [discriminate|reflexivity]
    |apply (bool_decide_eq_true_1 (bytes (str "other"))); vm_compute; reflexivity|discriminate|reflexivity|vm_compute; reflexivity].
Defined.

(** ** Runs that go wrong *)

(** Faults of the commissioner, each with a run that shows it. (1) An answer of the leader without a
    mesh-local prefix ends the process when the prefix is needed. (2) So does petitioning a second time while
    the session is being set up. (3) And so does an announcement to an IPv4 address. (4) [Disconnect] does not
    stop the keep-alive timer of the old session, which then cuts off the petition of the next one: its handler
    is told [kCancelled] although nobody cancelled it. (5) A multicast announcement without a session calls its
    handler twice, the second time with success. (6) A resignation that is done as asked reports a failed
    keep-alive. *)
Theorem commissioner_faults :
  play (joined ++ [EvtApi (ApiGetPendingDataset 2 0); EvtResponse BrClient 0 (Some (response [])) kNone]) = Die /\
  play [EvtApi (ApiPetition 1 true); EvtApi (ApiPetition 2 true)] = Die /\
  play_with (fun _ => Some [10; 0; 0; 1]) (joined ++ [EvtApi (ApiAnnounceBegin 2 channels 1 1 (str "10.0.0.1"))]) = Die /\
  told 2 (play (joined ++ [EvtApi ApiDisconnect; EvtTime 29000; EvtApi (ApiPetition 2 true); EvtHandshakeOver;
                           EvtTime 30000; EvtKeepAliveTimer])) = Some [kCancelled] /\
  told 2 (play (joined ++ [EvtDtlsError kIOError; EvtApi (ApiAnnounceBegin 2 channels 1 1 everyone)]))
    = Some [kNone; kInvalidState] /\
  told 2 (play (joined ++ [EvtApi (ApiResign 2)])) = Some [kNone] /\
  keep_alives_told (play (joined ++ [EvtApi (ApiResign 2)])) = Some [kCancelled].
Proof. vm_compute. repeat split. Qed.
