(* ===== verification/Safe.v ===== *)
(** * The thread-safe commissioner

    [CommissionerSafe] of [src/library/commissioner_safe.{hpp,cpp}] runs the
    commissioner ([Commissioner]) in the thread of the event loop.  The user's
    thread posts requests to a queue and activates an event; the callback of
    the event takes one request out of the queue.  An operation without handler
    posts a request whose handler fulfills a promise, and waits for it.

    Activating an event that is active does nothing, and the loop takes an event
    out of its active queue before it calls the callback (libevent).  The steps
    below are the points where the two threads take turns: the mutex makes
    [PushAsyncRequest] and [PopAsyncRequest] atomic. *)

From S2P Require Import Prelude Outcome Common Tlv NetworkData CoapMessage Dataset Commissioner CommissionerHandlers CommissionerTyped.

(** The requests: an operation of the commissioner, or the one that ends the loop. *)
Inductive AsyncRequest : Type := ReqApi (a : Api) | ReqBreak.

(** What the user's thread waits for: a promise, named by the handler that fulfills it. *)
Record Safe : Type := mkSafe {
  mAsyncRequestQueue : list AsyncRequest;
  mInvokeEvent : bool;                  (* it is active *)
  mInvoking : bool;                     (* the loop is about to call [Invoke] *)
  mRunning : bool;                      (* the event loop *)
  mImpl : Commissioner;
  mWaiting : option nat;
  mPromises : list nat;                 (* the promises of all blocking calls so far *)
  mHandlers : list nat;                 (* the handlers of all other calls so far *)
  mReturned : list (nat * Result * ErrorCode);    (* what blocking calls returned, latest first *)
  mPushed : list AsyncRequest }.        (* all requests so far, oldest first *)

Definition Safe_init (impl : Commissioner) : Safe := mkSafe [] false false true impl None [] [] [] [].

Definition with_user (s : Safe) (waiting : option nat) (promises handlers : list nat) (returned : list (nat * Result * ErrorCode)) : Safe :=
  mkSafe (mAsyncRequestQueue s) (mInvokeEvent s) (mInvoking s) (mRunning s) (mImpl s) waiting promises handlers returned (mPushed s).
Definition with_loop (s : Safe) (active invoking running : bool) (impl : Commissioner) : Safe :=
  mkSafe (mAsyncRequestQueue s) active invoking running impl (mWaiting s) (mPromises s) (mHandlers s) (mReturned s) (mPushed s).

(** ** The queue *)

Definition PushAsyncRequest (aAsyncRequest : AsyncRequest) (s : Safe) : Safe :=
  mkSafe (mAsyncRequestQueue s ++ [aAsyncRequest]) true (mInvoking s) (mRunning s) (mImpl s) (mWaiting s) (mPromises s)
    (mHandlers s) (mReturned s) (mPushed s ++ [aAsyncRequest]).

Definition PopAsyncRequest (s : Safe) : Safe * option AsyncRequest :=
  match mAsyncRequestQueue s with
  | [] => (s, None)
  | ret :: queue =>
      (mkSafe queue (mInvokeEvent s) (mInvoking s) (mRunning s) (mImpl s) (mWaiting s) (mPromises s) (mHandlers s)
         (mReturned s) (mPushed s), Some ret)
  end.

(** The value of a promise: the first call of its handler. *)
Definition promise_value (c : Commissioner) (h : nat) : option (Result * ErrorCode) :=
  foldr (fun o r => match r, o with
                    | None, OutHandler h' v e => if bool_decide (h' = h) then Some (v, e) else None
                    | _, _ => r
                    end) None (outputs c).

(** [std::promise::set_value] throws when the promise has a value, and nothing catches that. *)
Definition fulfilled_once (s : Safe) : outcome Safe :=
  VerifyOrDie forallb (fun h => Nat.leb (calls h (mImpl s)) 1) (mPromises s);; Ok s.

(** ** The user's thread *)

(** *** The operations with a handler

    Each posts a request that calls the operation of the commissioner; from any thread, also in a handler that the
    loop calls. *)
Module Async.
Definition Connect (aHandler : nat) (socket : bool) : Safe -> Safe :=
  PushAsyncRequest (ReqApi (ApiConnect aHandler socket)).
Definition Disconnect : Safe -> Safe := PushAsyncRequest (ReqApi ApiDisconnect).
Definition CancelRequests : Safe -> Safe := PushAsyncRequest (ReqApi ApiCancelRequests).
Definition Petition (aHandler : nat) (socket : bool) : Safe -> Safe :=
  PushAsyncRequest (ReqApi (ApiPetition aHandler socket)).
Definition Resign (aHandler : nat) : Safe -> Safe :=
  PushAsyncRequest (ReqApi (ApiResign aHandler)).
Definition GetCommissionerDataset (aHandler : nat) (aDatasetFlags : Z) : Safe -> Safe :=
  PushAsyncRequest (ReqApi (ApiGetCommissionerDataset aHandler aDatasetFlags)).
Definition SetCommissionerDataset (aHandler : nat) (aDataset : CommissionerDataset.CommissionerDataset) : Safe -> Safe :=
  PushAsyncRequest (ReqApi (ApiSetCommissionerDataset aHandler aDataset)).
Definition GetBbrDataset (aHandler : nat) (aDatasetFlags : Z) : Safe -> Safe :=
  PushAsyncRequest (ReqApi (ApiGetBbrDataset aHandler aDatasetFlags)).
Definition SetBbrDataset (aHandler : nat) (aDataset : BbrDataset.BbrDataset) : Safe -> Safe :=
  PushAsyncRequest (ReqApi (ApiSetBbrDataset aHandler aDataset)).
Definition GetActiveDataset (aHandler : nat) (aDatasetFlags : Z) : Safe -> Safe :=
  PushAsyncRequest (ReqApi (ApiGetActiveDataset aHandler aDatasetFlags)).
Definition GetRawActiveDataset (aHandler : nat) (aDatasetFlags : Z) : Safe -> Safe :=
  PushAsyncRequest (ReqApi (ApiGetRawActiveDataset aHandler aDatasetFlags)).
Definition SetActiveDataset (aHandler : nat) (aDataset : ActiveDataset.ActiveOperationalDataset) : Safe -> Safe :=
  PushAsyncRequest (ReqApi (ApiSetActiveDataset aHandler aDataset)).
Definition GetPendingDataset (aHandler : nat) (aDatasetFlags : Z) : Safe -> Safe :=
  PushAsyncRequest (ReqApi (ApiGetPendingDataset aHandler aDatasetFlags)).
Definition SetPendingDataset (aHandler : nat) (aDataset : PendingDataset.PendingOperationalDataset) : Safe -> Safe :=
  PushAsyncRequest (ReqApi (ApiSetPendingDataset aHandler aDataset)).
Definition SetSecurePendingDataset (aHandler : nat) (aMaxRetrievalTimer : Z) (aDataset : PendingDataset.PendingOperationalDataset) : Safe -> Safe :=
  PushAsyncRequest (ReqApi (ApiSetSecurePendingDataset aHandler aMaxRetrievalTimer aDataset)).
Definition CommandReenroll (aHandler : nat) (aDstAddr : string_t) : Safe -> Safe :=
  PushAsyncRequest (ReqApi (ApiCommandReenroll aHandler aDstAddr)).
Definition CommandDomainReset (aHandler : nat) (aDstAddr : string_t) : Safe -> Safe :=
  PushAsyncRequest (ReqApi (ApiCommandDomainReset aHandler aDstAddr)).
Definition CommandMigrate (aHandler : nat) (aDstAddr aDstNetworkName : string_t) : Safe -> Safe :=
  PushAsyncRequest (ReqApi (ApiCommandMigrate aHandler aDstAddr aDstNetworkName)).
Definition RegisterMulticastListener (aHandler : nat) (aMulticastAddrList : list string_t) (aTimeout : Z) : Safe -> Safe :=
  PushAsyncRequest (ReqApi (ApiRegisterMulticastListener aHandler aMulticastAddrList aTimeout)).
Definition AnnounceBegin (aHandler : nat) (aChannelMask aCount aPeriod : Z) (aDstAddr : string_t) : Safe -> Safe :=
  PushAsyncRequest (ReqApi (ApiAnnounceBegin aHandler aChannelMask aCount aPeriod aDstAddr)).
Definition PanIdQuery (aHandler : nat) (aChannelMask aPanId : Z) (aDstAddr : string_t) : Safe -> Safe :=
  PushAsyncRequest (ReqApi (ApiPanIdQuery aHandler aChannelMask aPanId aDstAddr)).
Definition EnergyScan (aHandler : nat) (aChannelMask aCount aPeriod aScanDuration : Z) (aDstAddr : string_t) : Safe -> Safe :=
  PushAsyncRequest (ReqApi (ApiEnergyScan aHandler aChannelMask aCount aPeriod aScanDuration aDstAddr)).
End Async.

(** The promise is waited for while [operation] runs with the handler that fulfills it. *)
Definition fresh (h : nat) (s : Safe) : bool := negb (bool_decide (h ∈ mPromises s)) && negb (bool_decide (h ∈ mHandlers s)).
Definition wait_for (pro : nat) (operation : nat -> Safe -> Safe) (s : Safe) : Safe :=
  match mWaiting s with
  | None => if fresh pro s then operation pro (with_user s (Some pro) (pro :: mPromises s) (mHandlers s) (mReturned s)) else s
  | Some _ => s
  end.

(** *** The operations that wait

    The handler [wait] fulfills the promise [pro], which is an object of its own: it is told apart from all other
    handlers. *)
Module Blocking.
Definition Connect (pro : nat) (socket : bool) : Safe -> Safe :=
  wait_for pro (fun wait => Async.Connect wait socket).
Definition Petition (pro : nat) (socket : bool) : Safe -> Safe :=
  wait_for pro (fun wait => Async.Petition wait socket).
Definition Resign (pro : nat) : Safe -> Safe :=
  wait_for pro (fun wait => Async.Resign wait).
Definition GetCommissionerDataset (pro : nat) (aDatasetFlags : Z) : Safe -> Safe :=
  wait_for pro (fun wait => Async.GetCommissionerDataset wait aDatasetFlags).
Definition SetCommissionerDataset (pro : nat) (aDataset : CommissionerDataset.CommissionerDataset) : Safe -> Safe :=
  wait_for pro (fun wait => Async.SetCommissionerDataset wait aDataset).
Definition GetBbrDataset (pro : nat) (aDatasetFlags : Z) : Safe -> Safe :=
  wait_for pro (fun wait => Async.GetBbrDataset wait aDatasetFlags).
Definition SetBbrDataset (pro : nat) (aDataset : BbrDataset.BbrDataset) : Safe -> Safe :=
  wait_for pro (fun wait => Async.SetBbrDataset wait aDataset).
Definition GetActiveDataset (pro : nat) (aDatasetFlags : Z) : Safe -> Safe :=
  wait_for pro (fun wait => Async.GetActiveDataset wait aDatasetFlags).
Definition GetRawActiveDataset (pro : nat) (aDatasetFlags : Z) : Safe -> Safe :=
  wait_for pro (fun wait => Async.GetRawActiveDataset wait aDatasetFlags).
Definition SetActiveDataset (pro : nat) (aDataset : ActiveDataset.ActiveOperationalDataset) : Safe -> Safe :=
  wait_for pro (fun wait => Async.SetActiveDataset wait aDataset).
Definition GetPendingDataset (pro : nat) (aDatasetFlags : Z) : Safe -> Safe :=
  wait_for pro (fun wait => Async.GetPendingDataset wait aDatasetFlags).
Definition SetPendingDataset (pro : nat) (aDataset : PendingDataset.PendingOperationalDataset) : Safe -> Safe :=
  wait_for pro (fun wait => Async.SetPendingDataset wait aDataset).
Definition SetSecurePendingDataset (pro : nat) (aMaxRetrievalTimer : Z) (aDataset : PendingDataset.PendingOperationalDataset) : Safe -> Safe :=
  wait_for pro (fun wait => Async.SetSecurePendingDataset wait aMaxRetrievalTimer aDataset).
Definition CommandReenroll (pro : nat) (aDstAddr : string_t) : Safe -> Safe :=
  wait_for pro (fun wait => Async.CommandReenroll wait aDstAddr).
Definition CommandDomainReset (pro : nat) (aDstAddr : string_t) : Safe -> Safe :=
  wait_for pro (fun wait => Async.CommandDomainReset wait aDstAddr).
Definition CommandMigrate (pro : nat) (aDstAddr aDstNetworkName : string_t) : Safe -> Safe :=
  wait_for pro (fun wait => Async.CommandMigrate wait aDstAddr aDstNetworkName).
Definition RegisterMulticastListener (pro : nat) (aMulticastAddrList : list string_t) (aTimeout : Z) : Safe -> Safe :=
  wait_for pro (fun wait => Async.RegisterMulticastListener wait aMulticastAddrList aTimeout).
Definition AnnounceBegin (pro : nat) (aChannelMask aCount aPeriod : Z) (aDstAddr : string_t) : Safe -> Safe :=
  wait_for pro (fun wait => Async.AnnounceBegin wait aChannelMask aCount aPeriod aDstAddr).
Definition PanIdQuery (pro : nat) (aChannelMask aPanId : Z) (aDstAddr : string_t) : Safe -> Safe :=
  wait_for pro (fun wait => Async.PanIdQuery wait aChannelMask aPanId aDstAddr).
Definition EnergyScan (pro : nat) (aChannelMask aCount aPeriod aScanDuration : Z) (aDstAddr : string_t) : Safe -> Safe :=
  wait_for pro (fun wait => Async.EnergyScan wait aChannelMask aCount aPeriod aScanDuration aDstAddr).
End Blocking.

(** *** The state of the commissioner

    It is read in the user's thread, past the queue. *)
Module Direct.
Definition GetConfig (s : Safe) : Config := mConfig (mImpl s).
Definition GetSessionId (s : Safe) : Z := mSessionId (mImpl s).
Definition GetState (s : Safe) : State := mState (mImpl s).
Definition IsActive (s : Safe) : bool := Commissioner.IsActive (mImpl s).
Definition IsCcmMode (s : Safe) : bool := Commissioner.IsCcmMode (mImpl s).
Definition GetDomainName (s : Safe) : string_t := mDomainName (mConfig (mImpl s)).
End Direct.

(** *** Any call of the user

    A call whose handler is one that fulfills a promise is none that a user can make. *)
Definition async (a : Api) : Safe -> Safe :=
  match a with
  | ApiConnect h socket => Async.Connect h socket
  | ApiDisconnect => Async.Disconnect
  | ApiCancelRequests => Async.CancelRequests
  | ApiPetition h socket => Async.Petition h socket
  | ApiResign h => Async.Resign h
  | ApiGetCommissionerDataset h aDatasetFlags => Async.GetCommissionerDataset h aDatasetFlags
  | ApiSetCommissionerDataset h aDataset => Async.SetCommissionerDataset h aDataset
  | ApiGetBbrDataset h aDatasetFlags => Async.GetBbrDataset h aDatasetFlags
  | ApiSetBbrDataset h aDataset => Async.SetBbrDataset h aDataset
  | ApiGetActiveDataset h aDatasetFlags => Async.GetActiveDataset h aDatasetFlags
  | ApiGetRawActiveDataset h aDatasetFlags => Async.GetRawActiveDataset h aDatasetFlags
  | ApiSetActiveDataset h aDataset => Async.SetActiveDataset h aDataset
  | ApiGetPendingDataset h aDatasetFlags => Async.GetPendingDataset h aDatasetFlags
  | ApiSetPendingDataset h aDataset => Async.SetPendingDataset h aDataset
  | ApiSetSecurePendingDataset h aMaxRetrievalTimer aDataset => Async.SetSecurePendingDataset h aMaxRetrievalTimer aDataset
  | ApiCommandReenroll h aDstAddr => Async.CommandReenroll h aDstAddr
  | ApiCommandDomainReset h aDstAddr => Async.CommandDomainReset h aDstAddr
  | ApiCommandMigrate h aDstAddr aDstNetworkName => Async.CommandMigrate h aDstAddr aDstNetworkName
  | ApiRegisterMulticastListener h aMulticastAddrList aTimeout => Async.RegisterMulticastListener h aMulticastAddrList aTimeout
  | ApiAnnounceBegin h aChannelMask aCount aPeriod aDstAddr => Async.AnnounceBegin h aChannelMask aCount aPeriod aDstAddr
  | ApiPanIdQuery h aChannelMask aPanId aDstAddr => Async.PanIdQuery h aChannelMask aPanId aDstAddr
  | ApiEnergyScan h aChannelMask aCount aPeriod aScanDuration aDstAddr => Async.EnergyScan h aChannelMask aCount aPeriod aScanDuration aDstAddr
  end.

Definition call_async (a : Api) (s : Safe) : Safe :=
  match handler_of a with
  | Some h => if bool_decide (h ∈ mPromises s) then s else async a (with_user s (mWaiting s) (mPromises s) (h :: mHandlers s) (mReturned s))
  | None => async a s
  end.

Definition call_blocking (a : Api) : Safe -> Safe :=
  match a with
  | ApiConnect pro socket => Blocking.Connect pro socket
  | ApiPetition pro socket => Blocking.Petition pro socket
  | ApiResign pro => Blocking.Resign pro
  | ApiGetCommissionerDataset pro aDatasetFlags => Blocking.GetCommissionerDataset pro aDatasetFlags
  | ApiSetCommissionerDataset pro aDataset => Blocking.SetCommissionerDataset pro aDataset
  | ApiGetBbrDataset pro aDatasetFlags => Blocking.GetBbrDataset pro aDatasetFlags
  | ApiSetBbrDataset pro aDataset => Blocking.SetBbrDataset pro aDataset
  | ApiGetActiveDataset pro aDatasetFlags => Blocking.GetActiveDataset pro aDatasetFlags
  | ApiGetRawActiveDataset pro aDatasetFlags => Blocking.GetRawActiveDataset pro aDatasetFlags
  | ApiSetActiveDataset pro aDataset => Blocking.SetActiveDataset pro aDataset
  | ApiGetPendingDataset pro aDatasetFlags => Blocking.GetPendingDataset pro aDatasetFlags
  | ApiSetPendingDataset pro aDataset => Blocking.SetPendingDataset pro aDataset
  | ApiSetSecurePendingDataset pro aMaxRetrievalTimer aDataset => Blocking.SetSecurePendingDataset pro aMaxRetrievalTimer aDataset
  | ApiCommandReenroll pro aDstAddr => Blocking.CommandReenroll pro aDstAddr
  | ApiCommandDomainReset pro aDstAddr => Blocking.CommandDomainReset pro aDstAddr
  | ApiCommandMigrate pro aDstAddr aDstNetworkName => Blocking.CommandMigrate pro aDstAddr aDstNetworkName
  | ApiRegisterMulticastListener pro aMulticastAddrList aTimeout => Blocking.RegisterMulticastListener pro aMulticastAddrList aTimeout
  | ApiAnnounceBegin pro aChannelMask aCount aPeriod aDstAddr => Blocking.AnnounceBegin pro aChannelMask aCount aPeriod aDstAddr
  | ApiPanIdQuery pro aChannelMask aPanId aDstAddr => Blocking.PanIdQuery pro aChannelMask aPanId aDstAddr
  | ApiEnergyScan pro aChannelMask aCount aPeriod aScanDuration aDstAddr => Blocking.EnergyScan pro aChannelMask aCount aPeriod aScanDuration aDstAddr
  | ApiDisconnect | ApiCancelRequests => id
  end.

Section Safe.
Context `{HSign : RequestSigner}.
Context (inet_pton4 inet_pton6 : string_t -> option ByteArray).
Context (channel0 : Channel) (panId0 rotation0 delay0 : Z).
Context (env_send : nat -> ErrorCode) (fuel : nat).
Abbreviation impl_step := (Commissioner.step inet_pton4 inet_pton6 channel0 panId0 rotation0 delay0 env_send fuel).

(** [pro.get_future().get()] returns. *)
Definition get_future (s : Safe) : Safe :=
  match mWaiting s with
  | Some h =>
      match promise_value (mImpl s) h with
      | Some (v, e) => with_user s None (mPromises s) (mHandlers s) ((h, v, e) :: mReturned s)
      | None => s
      end
  | None => s
  end.

(** [StopEventLoopThread]: a thread that waits for a promise does not get here. *)
Definition StopEventLoopThread (s : Safe) : Safe :=
  match mWaiting s with None => PushAsyncRequest ReqBreak s | Some _ => s end.

(** ** The thread of the event loop *)

(** The event is taken out of the active queue; its timeout (a day) also triggers it. *)
Definition loop_wake (timeout : bool) (s : Safe) : Safe :=
  if mRunning s && negb (mInvoking s) && (mInvokeEvent s || timeout) then with_loop s false true (mRunning s) (mImpl s) else s.

Definition run_request (r : AsyncRequest) (s : Safe) : outcome Safe :=
  match r with
  | ReqApi a => c ← impl_step (EvtApi a) (mImpl s); Ok (with_loop s (mInvokeEvent s) (mInvoking s) (mRunning s) c)
  | ReqBreak => Ok (with_loop s (mInvokeEvent s) (mInvoking s) false (mImpl s))
  end.

Definition Invoke (s : Safe) : outcome Safe :=
  if mInvoking s then
    let s := with_loop s (mInvokeEvent s) false (mRunning s) (mImpl s) in
    match PopAsyncRequest s with
    | (s, Some asyncReq) => run_request asyncReq s
    | (s, None) => Ok s
    end
  else Ok s.

(** Any other event of the loop. *)
Definition is_api (e : Event) : bool := match e with EvtApi _ => true | _ => false end.
Definition loop_event (e : Event) (s : Safe) : outcome Safe :=
  if mRunning s && negb (mInvoking s) && negb (is_api e) then
    c ← impl_step e (mImpl s); Ok (with_loop s (mInvokeEvent s) (mInvoking s) (mRunning s) c)
  else Ok s.

(** *** Interleavings *)

Inductive SafeStep : Type :=
| UserAsync (a : Api)
| UserBlocking (a : Api)
| UserReturns
| UserStops
| LoopWake (timeout : bool)
| LoopInvoke
| LoopEvent (e : Event).

Definition safe_step (x : SafeStep) (s : Safe) : outcome Safe :=
  match x with
  | UserAsync a => Ok (call_async a s)
  | UserBlocking a => Ok (call_blocking a s)
  | UserReturns => Ok (get_future s)
  | UserStops => Ok (StopEventLoopThread s)
  | LoopWake timeout => Ok (loop_wake timeout s)
  | LoopInvoke => s ← Invoke s; fulfilled_once s
  | LoopEvent e => s ← loop_event e s; fulfilled_once s
  end.

Fixpoint safe_run (l : list SafeStep) (s : Safe) : outcome Safe :=
  match l with [] => Ok s | x :: l => s ← safe_step x s; safe_run l s end.
End Safe.
