(* ===== verification/SafeFacts.v ===== *)
(** * Properties of the thread-safe commissioner

    Whatever the interleaving, the commissioner behind the queue executes the
    requests in the order in which they were posted; blocking calls return what
    their handler was told; and a user who only makes blocking calls never
    waits for a request that the loop forgot. *)

From S2P Require Import Prelude Outcome Common Tlv NetworkData CoapMessage Dataset Commissioner.
From S2P Require Import CommissionerInvariant CommissionerHandlers CommissionerTyped Safe.

(** The operations among requests and among events. *)
Definition api_of (r : AsyncRequest) : option Api := match r with ReqApi a => Some a | ReqBreak => None end.
Definition api_event (e : Event) : option Api := match e with EvtApi a => Some a | _ => None end.

(** How often a handler is given to requests. *)
Definition given (h : nat) (r : AsyncRequest) : nat := match r with ReqApi a => passed h (EvtApi a) | ReqBreak => 0 end.
Definition uses_in (h : nat) (l : list AsyncRequest) : nat := sum_list_with (given h) l.

Lemma passed_handler h a : passed h (EvtApi a) = match handler_of a with Some h' => if bool_decide (h' = h) then 1%nat else 0%nat | None => 0%nat end.
Proof. by destruct a. Qed.

Lemma uses_in_app h l k : uses_in h (l ++ k) = (uses_in h l + uses_in h k)%nat.
Proof. apply sum_list_with_app. Qed.

Lemma passed_events h evs ex : omap api_event evs = omap api_of ex -> sum_list_with (passed h) evs = uses_in h ex.
Proof.
  intros E. transitivity (sum_list_with (fun a => passed h (EvtApi a)) (omap api_event evs)).
  - clear E. induction evs as [|e evs IH]; [done|]. cbn [omap list_omap sum_list_with]. rewrite IH. by destruct e.
  - rewrite E. clear E. unfold uses_in. induction ex as [|r ex IH]; [done|]. cbn [omap list_omap sum_list_with].
    rewrite <- IH. by destruct r.
Qed.

Section Safe.
Context `{HSign : RequestSigner} `{HLaws : !SignerLaws}.
Context (inet_pton4 inet_pton6 : string_t -> option ByteArray).
Context (channel0 : NetworkData.Channel) (panId0 rotation0 delay0 : Z).
Context (env_send : nat -> ErrorCode) (fuel : nat).
Abbreviation run_c := (Commissioner.run inet_pton4 inet_pton6 channel0 panId0 rotation0 delay0 env_send fuel).
Abbreviation step_c := (Commissioner.step inet_pton4 inet_pton6 channel0 panId0 rotation0 delay0 env_send fuel).
Abbreviation step_s := (safe_step inet_pton4 inet_pton6 channel0 panId0 rotation0 delay0 env_send fuel).
Abbreviation run_s := (safe_run inet_pton4 inet_pton6 channel0 panId0 rotation0 delay0 env_send fuel).

Lemma run_c_app l1 l2 : forall c c1, run_c l1 c = Ok c1 -> run_c (l1 ++ l2) c = run_c l2 c1.
Proof.
  induction l1 as [|e l1 IH]; intros c c1 E; cbn in *; [by injection E as ->|].
  apply bind_ok in E as (c2 & -> & E). cbn. by apply IH.
Qed.

(** ** Refinement of the single-threaded commissioner *)

(** The commissioner behind the queue made a run whose operations are the requests that are no longer queued. *)
Definition linearized (c0 : Commissioner) (s : Safe) : Prop := exists evs executed,
  run_c evs c0 = Ok (mImpl s) /\ mPushed s = executed ++ mAsyncRequestQueue s /\ omap api_event evs = omap api_of executed.

Lemma linearized_impl c0 s s' : mImpl s' = mImpl s -> mPushed s' = mPushed s -> mAsyncRequestQueue s' = mAsyncRequestQueue s ->
  linearized c0 s -> linearized c0 s'.
Proof. unfold linearized. by intros -> -> ->. Qed.

Lemma linearized_push c0 r s : linearized c0 s -> linearized c0 (PushAsyncRequest r s).
Proof. intros (evs & ex & E & Ep & Ea). exists evs, ex. split; [done|]. split; [|done]. cbn. by rewrite Ep, app_assoc. Qed.

Lemma async_push a s : async a s = PushAsyncRequest (ReqApi a) s.
Proof. by destruct a. Qed.

Lemma call_blocking_push a s : call_blocking a s =
  match handler_of a with Some h => wait_for h (fun _ => PushAsyncRequest (ReqApi a)) s | None => s end.
Proof. by destruct a. Qed.

Lemma call_async_cases a s :
  call_async a s = s \/ (exists s0, call_async a s = PushAsyncRequest (ReqApi a) s0 /\ mImpl s0 = mImpl s /\ mPushed s0 = mPushed s /\
    mAsyncRequestQueue s0 = mAsyncRequestQueue s /\ mReturned s0 = mReturned s).
Proof. unfold call_async. destruct (handler_of a); [case_bool_decide|]; rewrite ?async_push; eauto 10. Qed.

Lemma call_blocking_cases a s :
  call_blocking a s = s \/ exists h, handler_of a = Some h /\ mWaiting s = None /\ fresh h s = true /\
    call_blocking a s = PushAsyncRequest (ReqApi a) (with_user s (Some h) (h :: mPromises s) (mHandlers s) (mReturned s)).
Proof.
  rewrite call_blocking_push. unfold wait_for. destruct (handler_of a) as [h|]; [|by left]. destruct (mWaiting s); [by left|].
  destruct (fresh h s) eqn:E; [right|by left]. by exists h.
Qed.

Lemma fulfilled_ok s s' : fulfilled_once s = Ok s' -> s' = s /\ forall h, h ∈ mPromises s -> (calls h (mImpl s) <= 1)%nat.
Proof.
  unfold fulfilled_once. destruct (forallb _ _) eqn:E; [|done]. intros [= <-]. split; [done|]. intros h Hh.
  rewrite forallb_forall in E. apply list_elem_of_In in Hh. apply E in Hh. by apply Nat.leb_le.
Qed.

Lemma Invoke_linearized c0 s s' :
  linearized c0 s -> Invoke inet_pton4 inet_pton6 channel0 panId0 rotation0 delay0 env_send fuel s = Ok s' -> linearized c0 s'.
Proof.
  intros Hl E. unfold Invoke in E. destruct (mInvoking s); [|by injection E as <-]. unfold PopAsyncRequest in E. cbn in E.
  destruct Hl as (evs & ex & Er & Ep & Ea). destruct (mAsyncRequestQueue s) as [|r q] eqn:Eq.
  { injection E as <-. exists evs, ex. cbn. by rewrite Eq. }
  destruct r as [a|]; cbn [run_request] in E.
  - apply bind_ok in E as (c & Ec & [= <-]). cbn in Ec. exists (evs ++ [EvtApi a]), (ex ++ [ReqApi a]). cbn. split; [|split].
    + rewrite (run_c_app _ _ _ _ Er). cbn [Commissioner.run Commissioner.step]. by rewrite Ec.
    + by rewrite Ep, <- app_assoc.
    + by rewrite !omap_app, Ea.
  - injection E as <-. exists evs, (ex ++ [ReqBreak]). cbn. split; [done|]. split; [by rewrite Ep, <- app_assoc|].
    by rewrite omap_app, Ea, app_nil_r.
Qed.

Lemma loop_event_linearized c0 e s s' :
  linearized c0 s -> loop_event inet_pton4 inet_pton6 channel0 panId0 rotation0 delay0 env_send fuel e s = Ok s' -> linearized c0 s'.
Proof.
  intros (evs & ex & Er & Ep & Ea) E. unfold loop_event in E. destruct (_ && _) eqn:Eb; [|injection E as <-; by exists evs, ex].
  apply andb_true_iff in Eb as [_ Hapi]. apply bind_ok in E as (c & Ec & [= <-]).
  exists (evs ++ [e]), ex. cbn. split; [rewrite (run_c_app _ _ _ _ Er); cbn; by rewrite Ec|]. split; [done|].
  rewrite omap_app, Ea. destruct e; by rewrite ?app_nil_r.
Qed.

Lemma safe_step_linearized c0 x s s' : linearized c0 s -> step_s x s = Ok s' -> linearized c0 s'.
Proof.
  intros Hl E. destruct x as [a|a| | |t| |e]; cbn [safe_step] in E.
  - injection E as <-. destruct (call_async_cases a s) as [->|(s0 & -> & ? & ? & ? & _)]; [done|]. apply linearized_push. by apply (linearized_impl c0 s).
  - injection E as <-. destruct (call_blocking_cases a s) as [->|(h & _ & _ & _ & ->)]; [done|]. apply linearized_push. by apply (linearized_impl c0 s).
  - injection E as <-. unfold get_future. destruct (mWaiting s) as [h|]; [|done]. destruct (promise_value _ _) as [[v e]|]; [|done].
    by apply (linearized_impl c0 s).
  - injection E as <-. unfold StopEventLoopThread. destruct (mWaiting s); [done|]. by apply linearized_push.
  - injection E as <-. unfold loop_wake. case_if; [|done]. by apply (linearized_impl c0 s).
  - apply bind_ok in E as (s1 & E & [-> _]%fulfilled_ok). by eapply Invoke_linearized.
  - apply bind_ok in E as (s1 & E & [-> _]%fulfilled_ok). by eapply loop_event_linearized.
Qed.

Lemma safe_run_linearized c0 l : forall s s', linearized c0 s -> run_s l s = Ok s' -> linearized c0 s'.
Proof.
  induction l as [|x l IH]; intros s s' Hl E; [by injection E as <-|]. apply bind_ok in E as (s1 & E1 & E).
  apply (safe_step_linearized c0) in E1; [|done]. by eapply IH.
Qed.

Lemma linearized_init c0 : linearized c0 (Safe_init c0).
Proof. by exists [], []. Qed.

(** C23: The wrapper refines the commissioner.  However the two threads interleave, the state of the commissioner in
    the event loop is one that the single-threaded commissioner reaches by a sequence of events whose operations are,
    in the order in which they were posted and each exactly once, the requests that are no longer in the queue. *)
Theorem safe_refines_commissioner c0 l s :
  run_s l (Safe_init c0) = Ok s ->
  exists evs executed, run_c evs c0 = Ok (mImpl s) /\ mPushed s = executed ++ mAsyncRequestQueue s /\
    omap api_event evs = omap api_of executed.
Proof. intros E. exact (safe_run_linearized c0 l _ _ (linearized_init c0) E). Qed.

(** ** The ledger of the handlers *)

(** A step that posts no announcement to a multicast address. *)
Definition no_multicast (x : SafeStep) : Prop :=
  match x with
  | UserAsync a | UserBlocking a => multicast_announce inet_pton4 inet_pton6 (EvtApi a) = false
  | _ => True
  end.

(** Whose promise it is, and how often requests were given a handler. *)
Definition waiting_for (s : Safe) : list nat := match mWaiting s with Some h => [h] | None => [] end.
Record ledger (s : Safe) : Prop := {
  ledger_promises : mPromises s = waiting_for s ++ map (fun r => r.1.1) (mReturned s);
  ledger_nodup : NoDup (mPromises s);
  ledger_once : forall h, h ∈ mPromises s -> uses_in h (mPushed s) = 1%nat;
  ledger_never : forall h, h ∉ mPromises s -> h ∉ mHandlers s -> uses_in h (mPushed s) = 0%nat;
  ledger_unicast : Forall (fun r => match api_of r with Some a => multicast_announce inet_pton4 inet_pton6 (EvtApi a) = false | None => True end)
                     (mPushed s) }.

Lemma given_handler h a : handler_of a = Some h -> given h (ReqApi a) = 1%nat.
Proof. intros E. unfold given. rewrite passed_handler, E. by case_bool_decide. Qed.
Lemma given_other h a : handler_of a <> Some h -> given h (ReqApi a) = 0%nat.
Proof. intros N. unfold given. rewrite passed_handler. destruct (handler_of a); [case_bool_decide; congruence|done]. Qed.

Lemma uses_in_snoc h l r : uses_in h (l ++ [r]) = (uses_in h l + given h r)%nat.
Proof. rewrite uses_in_app. unfold uses_in. cbn. lia. Qed.

Lemma ledger_same s s' : mPromises s' = mPromises s -> mHandlers s' = mHandlers s -> mPushed s' = mPushed s ->
  mWaiting s' = mWaiting s -> mReturned s' = mReturned s -> ledger s -> ledger s'.
Proof. intros E1 E2 E3 E4 E5 []. split; unfold waiting_for in *; rewrite ?E1, ?E2, ?E3, ?E4, ?E5; done. Qed.

Lemma ledger_async a s : multicast_announce inet_pton4 inet_pton6 (EvtApi a) = false -> ledger s -> ledger (call_async a s).
Proof.
  intros Hm Hl. pose proof Hl as [Hp Hn Ho Hz Hu]. unfold call_async.
  destruct (handler_of a) as [h|] eqn:Eh; [case_bool_decide as Hin; [done|]|]; rewrite async_push.
  all: split; unfold waiting_for in *; cbn -[uses_in given]; [done|done|intros h' Hh|intros h' N1 N2|by apply Forall_app_2; [|repeat constructor]].
  all: rewrite uses_in_snoc, given_other, Nat.add_0_r; [|rewrite Eh].
  - by apply Ho.
  - by intros [= ->].
  - apply not_elem_of_cons in N2 as [_ N2]. by apply Hz.
  - intros [= ->]. by apply not_elem_of_cons in N2 as [? _].
  - by apply Ho.
  - done.
  - by apply Hz.
  - done.
Qed.

Lemma ledger_blocking a s : multicast_announce inet_pton4 inet_pton6 (EvtApi a) = false -> ledger s -> ledger (call_blocking a s).
Proof.
  intros Hm Hl. pose proof Hl as [Hp Hn Ho Hz Hu].
  destruct (call_blocking_cases a s) as [->|(h & Eh & Ew & Ef & ->)]; [done|].
  unfold fresh in Ef. apply andb_true_iff in Ef as [E1%negb_true_iff%bool_decide_eq_false E2%negb_true_iff%bool_decide_eq_false].
  split; unfold waiting_for in *; cbn -[uses_in given]; [by rewrite Hp, Ew|by constructor|intros h'|intros h' N1 N2|by apply Forall_app_2; [|repeat constructor]].
  all: rewrite uses_in_snoc.
  - rewrite elem_of_cons. intros [->|Hh]; [by rewrite Hz, given_handler|]. rewrite given_other, Nat.add_0_r; [by apply Ho|].
    rewrite Eh. intros [= ->]. done.
  - apply not_elem_of_cons in N1 as [N0 N1]. rewrite given_other, Nat.add_0_r; [by apply Hz|]. rewrite Eh. congruence.
Qed.

Lemma loop_ledger s s' : ledger s ->
  Invoke inet_pton4 inet_pton6 channel0 panId0 rotation0 delay0 env_send fuel s = Ok s' \/
  (exists e, loop_event inet_pton4 inet_pton6 channel0 panId0 rotation0 delay0 env_send fuel e s = Ok s') -> ledger s'.
Proof.
  intros Hl [E|[e E]].
  - unfold Invoke in E. destruct (mInvoking s); [|by injection E as <-]. unfold PopAsyncRequest in E. cbn in E.
    destruct (mAsyncRequestQueue s) as [|[a|] q]; [injection E as <-; by eapply ledger_same; [..|exact Hl]| |].
    + apply bind_ok in E as (c & Ec & [= <-]). by eapply ledger_same; [..|exact Hl].
    + injection E as <-. by eapply ledger_same; [..|exact Hl].
  - unfold loop_event in E. destruct (_ && _); [|by injection E as <-].
    apply bind_ok in E as (c & Ec & [= <-]). by eapply ledger_same; [..|exact Hl].
Qed.

Lemma safe_step_ledger x s s' : no_multicast x -> ledger s -> step_s x s = Ok s' -> ledger s'.
Proof.
  intros Hm Hl E. destruct x as [a|a| | |t| |e]; cbn [safe_step no_multicast] in *.
  - injection E as <-. by apply ledger_async.
  - injection E as <-. by apply ledger_blocking.
  - injection E as <-. unfold get_future. destruct (mWaiting s) as [h|] eqn:Ew; [|done]. destruct (promise_value _ _) as [[v e]|]; [|done].
    destruct Hl as [Hp ????]. split; unfold waiting_for in *; cbn; try done. by rewrite Hp, Ew.
  - injection E as <-. unfold StopEventLoopThread. destruct (mWaiting s) eqn:Ew; [done|]. destruct Hl as [Hp Hn Ho Hz Hu].
    split; unfold waiting_for in *; cbn -[uses_in given]; try done; [intros h Hh|intros h N1 N2|by apply Forall_app_2; [|repeat constructor]].
    all: rewrite uses_in_snoc, Nat.add_0_r; auto.
  - injection E as <-. unfold loop_wake. case_if; [|done]. by eapply ledger_same; [..|exact Hl].
  - apply bind_ok in E as (s1 & E & [-> _]%fulfilled_ok). by eapply loop_ledger; [|left].
  - apply bind_ok in E as (s1 & E & [-> _]%fulfilled_ok). by eapply loop_ledger; [|right; exists e].
Qed.

Lemma events_unicast evs ex : omap api_event evs = omap api_of ex ->
  Forall (fun r => match api_of r with Some a => multicast_announce inet_pton4 inet_pton6 (EvtApi a) = false | None => True end) ex ->
  Forall (fun e => multicast_announce inet_pton4 inet_pton6 e = false) evs.
Proof.
  intros E H. assert (Ha : Forall (fun a => multicast_announce inet_pton4 inet_pton6 (EvtApi a) = false) (omap api_event evs)).
  { rewrite E. clear E. induction H as [|[a|] ex Hr _ IH]; cbn; [done|by constructor|done]. }
  clear E H. induction evs as [|e evs IH]; [done|]. destruct e; cbn in Ha |- *.
  1: apply Forall_cons in Ha as [??].
  all: constructor; auto.
Qed.

(** Every handler that was given to a request is in a queued request, waits in the commissioner, or was called. *)
Lemma conserved cfg now s h : linearized (Commissioner_init cfg now) s -> ledger s ->
  (calls h (mImpl s) + armed h (mImpl s) + uses_in h (mAsyncRequestQueue s) = uses_in h (mPushed s))%nat.
Proof using All.
  intros (evs & ex & Er & Ep & Ea) [_ _ _ _ Hu]. rewrite Ep in Hu |- *. apply Forall_app in Hu as [Hu _].
  apply run_settles in Er as [_ E]; [|by eapply events_unicast|by split_and!].
  rewrite uses_in_app. specialize (E h). rewrite (passed_events _ _ _ Ea) in E. unfold total in E. cbn in E. lia.
Qed.

Lemma once cfg now s : linearized (Commissioner_init cfg now) s -> ledger s -> fulfilled_once s = Ok s.
Proof using All.
  intros Hl Hg. unfold fulfilled_once. replace (forallb _ _) with true; [done|]. symmetry. apply forallb_forall.
  intros h Hh%list_elem_of_In. apply Nat.leb_le. pose proof (conserved _ _ _ h Hl Hg) as E. rewrite (ledger_once _ Hg h Hh) in E. lia.
Qed.

Lemma ledger_init c0 : ledger (Safe_init c0).
Proof. split; try done; cbn; [apply NoDup_nil_2|by intros h Hh%elem_of_nil]. Qed.

Lemma run_ledger cfg now l : forall s s', Forall no_multicast l -> linearized (Commissioner_init cfg now) s -> ledger s ->
  run_s l s = Ok s' -> linearized (Commissioner_init cfg now) s' /\ ledger s'.
Proof.
  induction l as [|x l IH]; intros s s' Hm Hl Hg E; [by injection E as <-|]. apply Forall_cons in Hm as [Hx Hm].
  apply bind_ok in E as (s1 & E1 & E). eapply IH; [exact Hm| |by eapply safe_step_ledger|exact E]. by eapply safe_step_linearized.
Qed.

(** Every handler is accounted for, however the threads interleave (announcements to multicast addresses
    apart): requests that still hold it, places in the commissioner where it waits, and calls add up to the operations
    it was given to.  For the promise of a blocking call the sum is one, so it is never fulfilled twice; and the
    promises are those of the calls that returned and of the one that is waited for, all different. *)
Theorem blocking_calls_accounted cfg now l s h :
  Forall no_multicast l -> run_s l (Safe_init (Commissioner_init cfg now)) = Ok s ->
  (calls h (mImpl s) + armed h (mImpl s) + uses_in h (mAsyncRequestQueue s) = uses_in h (mPushed s))%nat /\
  (h ∈ mPromises s -> uses_in h (mPushed s) = 1%nat) /\
  mPromises s = waiting_for s ++ map (fun r => r.1.1) (mReturned s) /\ NoDup (mPromises s).
Proof using All.
  intros Hm E. apply (run_ledger cfg now) in E as [Hl Hg]; [|done|apply linearized_init|apply ledger_init].
  split; [by eapply conserved|]. destruct Hg; split_and!; auto.
Qed.

(** A step of the loop fails when a step of the commissioner does. *)
Definition impl_fails (cfg : Config) (now : Z) : Prop :=
  exists evs c e, run_c evs (Commissioner_init cfg now) = Ok c /\ forall c', step_c e c <> Ok c'.

Lemma bind_fails {A B} (m : outcome A) (f : A -> B) : (exists b, (a ← m; Ok (f a)) = Ok b) \/ forall a, m <> Ok a.
Proof. destruct m; [left; by eexists|by right..]. Qed.

Lemma loop_fails s x :
  (x = Invoke inet_pton4 inet_pton6 channel0 panId0 rotation0 delay0 env_send fuel s \/
   exists e, x = loop_event inet_pton4 inet_pton6 channel0 panId0 rotation0 delay0 env_send fuel e s) ->
  (exists s', x = Ok s') \/ exists e, forall c', step_c e (mImpl s) <> Ok c'.
Proof.
  intros [->|[e ->]].
  - unfold Invoke. destruct (mInvoking s); [|eauto]. unfold PopAsyncRequest. cbn. destruct (mAsyncRequestQueue s) as [|[a|] q]; [eauto| |cbn; eauto].
    destruct (bind_fails (step_c (EvtApi a) (mImpl s)) (fun c => with_loop (mkSafe q (mInvokeEvent s) false (mRunning s) (mImpl s)
      (mWaiting s) (mPromises s) (mHandlers s) (mReturned s) (mPushed s)) (mInvokeEvent s) false (mRunning s) c)); eauto.
  - unfold loop_event. destruct (_ && _); [|eauto].
    destruct (bind_fails (step_c e (mImpl s)) (with_loop s (mInvokeEvent s) (mInvoking s) (mRunning s))); eauto.
Qed.

Lemma step_fails cfg now x s : linearized (Commissioner_init cfg now) s -> ledger s ->
  (exists s', step_s x s = Ok s') \/ impl_fails cfg now.
Proof using All.
  intros Hl Hg. destruct x as [a|a| | |t| |e]; try (left; eexists; reflexivity); cbn [safe_step].
  - destruct (loop_fails s _ (or_introl eq_refl)) as [[s1 E]|[e He]]; [left|right; destruct Hl as (evs & ? & ? & _); by exists evs, (mImpl s), e].
    rewrite E. exists s1. eapply once; [by eapply Invoke_linearized|by eapply loop_ledger; [|left]].
  - destruct (loop_fails s _ (or_intror (ex_intro _ e eq_refl))) as [[s1 E]|[e' He]];
      [left|right; destruct Hl as (evs & ? & ? & _); by exists evs, (mImpl s), e'].
    rewrite E. exists s1. eapply once; [by eapply loop_event_linearized|by eapply loop_ledger; [|right; exists e]].
Qed.

(** The threads add no failure of their own: unless the commissioner behind the queue fails, every
    interleaving runs to its end, and no promise is fulfilled twice (announcements to multicast addresses apart). *)
Theorem safe_fails_with_commissioner cfg now l :
  Forall no_multicast l ->
  (exists s, run_s l (Safe_init (Commissioner_init cfg now)) = Ok s) \/
  (exists evs c e, run_c evs (Commissioner_init cfg now) = Ok c /\ forall c', step_c e c <> Ok c').
Proof using All.
  intros Hm. cut (forall s, linearized (Commissioner_init cfg now) s -> ledger s -> (exists s', run_s l s = Ok s') \/ impl_fails cfg now).
  { intros H. exact (H _ (linearized_init _) (ledger_init _)). }
  induction Hm as [|x l Hx Hm IH]; intros s Hl Hg; [left; by exists s|]. cbn [safe_run].
  destruct (step_fails cfg now x s Hl Hg) as [[s1 E]|?]; [|by right]. rewrite E. cbn.
  apply IH; [by eapply safe_step_linearized|by eapply safe_step_ledger].
Qed.

(** ** No request is forgotten *)

(** The user makes blocking calls only. *)
Definition blocking_only (x : SafeStep) : Prop := match x with UserAsync _ | UserStops => False | _ => True end.

(** A queued request is the one that is waited for, and the loop will look for it. *)
Record attended (s : Safe) : Prop := {
  attended_one : match mAsyncRequestQueue s with
                 | [] => True
                 | [ReqApi a] => exists h, handler_of a = Some h /\ mWaiting s = Some h
                 | _ => False
                 end;
  attended_event : mAsyncRequestQueue s <> [] -> mInvokeEvent s = true \/ mInvoking s = true;
  attended_idle : mWaiting s = None -> mAsyncRequestQueue s = [] }.

Lemma promise_calls c h r : promise_value c h = Some r -> (1 <= calls h c)%nat.
Proof.
  unfold promise_value, calls. induction (outputs c) as [|o os IH]; [done|]. cbn. intros E.
  destruct (foldr _ None os) as [r'|] eqn:Ef; [specialize (IH E); lia|]. destruct o; try done. cbn. case_bool_decide; [lia|done].
Qed.
Lemma calls_promise c h : (1 <= calls h c)%nat -> exists r, promise_value c h = Some r.
Proof.
  unfold promise_value, calls. induction (outputs c) as [|o os IH]; cbn; [lia|]. intros E.
  destruct (foldr _ None os) as [r'|] eqn:Ef; [by exists r'|]. destruct o; cbn in E; try (apply IH in E as [? [=]]; fail).
  case_bool_decide; [eauto|]. apply IH in E as [? [=]].
Qed.

Lemma attended_same s s' : mAsyncRequestQueue s' = mAsyncRequestQueue s -> mWaiting s' = mWaiting s ->
  (mInvokeEvent s = true \/ mInvoking s = true -> mInvokeEvent s' = true \/ mInvoking s' = true) -> attended s -> attended s'.
Proof. intros E1 E2 E3 []. split; rewrite ?E1, ?E2; auto. Qed.
Lemma attended_empty s : mAsyncRequestQueue s = [] -> attended s.
Proof. intros E. split; by rewrite E. Qed.

Lemma safe_step_attended cfg now x s s' : blocking_only x -> linearized (Commissioner_init cfg now) s -> ledger s -> attended s ->
  step_s x s = Ok s' -> attended s'.
Proof using All.
  intros Hx Hl Hg Ha E. destruct x as [a|a| | |t| |e]; cbn [safe_step blocking_only] in *; try done.
  - injection E as <-. destruct (call_blocking_cases a s) as [->|(h & Eh & Ew & _ & ->)]; [done|].
    split; cbn; rewrite (attended_idle _ Ha Ew); cbn; [eauto|by left|done].
  - injection E as <-. unfold get_future. destruct (mWaiting s) as [h|] eqn:Ew; [|done].
    destruct (promise_value _ _) as [[v e]|] eqn:Ev; [|done]. apply attended_empty. cbn. apply promise_calls in Ev.
    pose proof (conserved _ _ _ h Hl Hg) as Ec. rewrite (ledger_once _ Hg) in Ec by (rewrite (ledger_promises _ Hg); unfold waiting_for; rewrite Ew; constructor).
    pose proof (attended_one _ Ha) as H1. destruct (mAsyncRequestQueue s) as [|[a|] [|? ?]]; try done. destruct H1 as (h' & Eh & E').
    rewrite Ew in E'. injection E' as <-. unfold uses_in in Ec. cbn [sum_list_with] in Ec. rewrite (given_handler _ _ Eh) in Ec. lia.
  - injection E as <-. unfold loop_wake. destruct (_ && _); [|done]. eapply attended_same; [..|exact Ha]; cbn; auto.
  - apply bind_ok in E as (s1 & E & [-> _]%fulfilled_ok). unfold Invoke in E. destruct (mInvoking s); [|by injection E as <-].
    apply attended_empty. pose proof (attended_one _ Ha) as H1. unfold PopAsyncRequest in E. cbn in E.
    destruct (mAsyncRequestQueue s) as [|[a|] [|? ?]] eqn:Eq; try done; [by injection E as <-|].
    apply bind_ok in E as (c & _ & [= <-]). done.
  - apply bind_ok in E as (s1 & E & [-> _]%fulfilled_ok). unfold loop_event in E. destruct (_ && _); [|by injection E as <-].
    apply bind_ok in E as (c & _ & [= <-]). by eapply attended_same; [..|exact Ha].
Qed.

Lemma run_attended cfg now l : forall s s', Forall no_multicast l -> Forall blocking_only l ->
  linearized (Commissioner_init cfg now) s -> ledger s -> attended s -> run_s l s = Ok s' -> attended s'.
Proof using All.
  induction l as [|x l IH]; intros s s' Hm Hb Hl Hg Ha E; [by injection E as <-|]. apply Forall_cons in Hm as [Hx Hm].
  apply Forall_cons in Hb as [Hbx Hb]. apply bind_ok in E as (s1 & E1 & E).
  eapply IH; [exact Hm|exact Hb|by eapply safe_step_linearized|by eapply safe_step_ledger|by eapply safe_step_attended|exact E].
Qed.

Lemma turn_empties s s' : attended s -> mRunning s = true -> run_s [LoopWake false; LoopInvoke] s = Ok s' ->
  mAsyncRequestQueue s' = [] /\ mWaiting s' = mWaiting s.
Proof.
  intros [H1 H2 _] Hr E. cbn [safe_run safe_step] in E. apply bind_ok in E as (s1 & [= <-] & E).
  apply bind_ok in E as (s2 & E & [= <-]). apply bind_ok in E as (s1 & E & [-> _]%fulfilled_ok).
  destruct (mAsyncRequestQueue s) as [|r q] eqn:Eq.
  - unfold Invoke, PopAsyncRequest, loop_wake in E. repeat case_if; cbn in E; rewrite ?Eq in E; injection E as <-; cbn; by rewrite ?Eq.
  - assert (Hi : mInvoking (loop_wake false s) = true).
    { unfold loop_wake. rewrite Hr. destruct (mInvoking s) eqn:Ei; [done|]. destruct H2 as [->|?]; done. }
    unfold Invoke in E. rewrite Hi in E. assert (Hq : mAsyncRequestQueue (loop_wake false s) = r :: q) by (unfold loop_wake; by case_if).
    assert (Hw : mWaiting (loop_wake false s) = mWaiting s) by (unfold loop_wake; by case_if).
    unfold PopAsyncRequest in E. cbn in E. rewrite Hq in E. destruct r as [a|], q; try done. cbn in E.
    apply bind_ok in E as (c & _ & [= <-]). by cbn.
Qed.

(** One turn of the loop runs to its end if the commissioner executes the request. *)
Lemma turn_runs cfg now s : linearized (Commissioner_init cfg now) s -> ledger s -> attended s -> mRunning s = true ->
  (forall a, mAsyncRequestQueue s = [ReqApi a] -> exists c, step_c (EvtApi a) (mImpl s) = Ok c) ->
  exists s', run_s [LoopWake false; LoopInvoke] s = Ok s'.
Proof using All.
  intros Hl Hg Ha Hr Hok. set (s1 := loop_wake false s). assert (Hs1 : step_s (LoopWake false) s = Ok s1) by done.
  assert (Hl1 : linearized (Commissioner_init cfg now) s1) by by eapply safe_step_linearized.
  assert (Hg1 : ledger s1) by by eapply (safe_step_ledger (LoopWake false)).
  assert (Hi : exists s2, Invoke inet_pton4 inet_pton6 channel0 panId0 rotation0 delay0 env_send fuel s1 = Ok s2).
  { assert (E1 : mAsyncRequestQueue s1 = mAsyncRequestQueue s /\ mImpl s1 = mImpl s) by (unfold s1, loop_wake; by case_if).
    destruct E1 as [Eq Ei]. unfold Invoke. destruct (mInvoking s1); [|by eexists]. unfold PopAsyncRequest. cbn. rewrite Eq.
    pose proof (attended_one _ Ha) as H1. destruct (mAsyncRequestQueue s) as [|[a|] [|? ?]] eqn:E; try done; [by eexists|].
    destruct (Hok a eq_refl) as [c Ec]. cbn [run_request mImpl with_loop]. rewrite Ei, Ec. by eexists. }
  destruct Hi as [s2 E2]. exists s2. cbn [safe_run]. rewrite Hs1. cbn [mbind outcome_bind safe_step]. rewrite E2.
  cbn [mbind outcome_bind]. rewrite (once cfg now); [done|by eapply Invoke_linearized|by eapply loop_ledger; [|left]].
Qed.

(** C24: A user who only makes blocking calls is never forgotten (announcements to multicast addresses are left out:
    they can fulfil a promise twice, which ends the process).  Whatever the interleaving, when the user waits, the
    queue is empty or holds just the request of the call; if the commissioner executes that request without ending the
    process, one turn of the loop (it wakes and calls [Invoke]) runs to its end and leaves the queue empty, and the
    handler waits in the commissioner or was called, once.  Once it was called, the blocking call returns with what it
    was told. *)
Theorem blocking_calls_served cfg now l s h :
  Forall no_multicast l -> Forall blocking_only l -> run_s l (Safe_init (Commissioner_init cfg now)) = Ok s ->
  mRunning s = true -> mWaiting s = Some h ->
  (mAsyncRequestQueue s = [] \/ exists a, mAsyncRequestQueue s = [ReqApi a] /\ handler_of a = Some h) /\
  ((forall a, mAsyncRequestQueue s = [ReqApi a] -> exists c, step_c (EvtApi a) (mImpl s) = Ok c) ->
   exists s', run_s [LoopWake false; LoopInvoke] s = Ok s' /\
     mAsyncRequestQueue s' = [] /\ (armed h (mImpl s') + calls h (mImpl s') = 1)%nat /\
     (armed h (mImpl s') = 0%nat -> exists v e, promise_value (mImpl s') h = Some (v, e) /\
        get_future s' = with_user s' None (mPromises s') (mHandlers s') ((h, v, e) :: mReturned s'))).
Proof using All.
  intros Hm Hb E Hr Hw. pose proof E as Ea. apply (run_attended cfg now) in Ea as Ha; [|done|done|apply linearized_init|apply ledger_init|by apply attended_empty].
  apply (run_ledger cfg now) in E as [Hl Hg]; [|done|apply linearized_init|apply ledger_init]. split.
  { pose proof (attended_one _ Ha) as H1. destruct (mAsyncRequestQueue s) as [|[a|] [|? ?]]; try done; [by left|right].
    destruct H1 as (h' & Eh & E'). rewrite Hw in E'. injection E' as <-. by exists a. }
  intros Hok. destruct (turn_runs cfg now s Hl Hg Ha Hr Hok) as [s' E']. exists s'. split; [exact E'|].
  apply turn_empties in E' as Hq; [|done..].
  apply (run_ledger cfg now) in E' as [Hl' Hg']; [|by repeat constructor|done|done]. rewrite Hw in Hq. destruct Hq as [Hq Hw'].
  pose proof (conserved _ _ _ h Hl' Hg') as Ec. rewrite (ledger_once _ Hg'), Hq in Ec by (rewrite (ledger_promises _ Hg'); unfold waiting_for; rewrite Hw'; constructor).
  cbn in Ec. split; [done|]. split; [lia|]. intros E0. destruct (calls_promise (mImpl s') h) as [[v e] Ev]; [lia|].
  exists v, e. split; [done|]. unfold get_future. by rewrite Hw', Ev.
Qed.
End Safe.
