(* ===== verification/SafeTyped.v ===== *)
(** * What the user of the thread-safe commissioner gets

    A call that waits stores the response in a parameter of the caller, if its
    handler got one, and returns the error.  What a handler gets is described in
    [CommissionerTyped]. *)

From S2P Require Import Prelude Outcome Common Tlv NetworkData CoapMessage Dataset Commissioner CommissionerInvariant CommissionerHandlers CommissionerTyped Safe SafeFacts.

(** ** The parameters

    [wait] of the operations that return a response: the parameter as it is
    left, where [ResNone] is the null pointer. *)
Module Wait.
Definition Petition (aExistingCommissionerId : string_t) (existingCommissionerId : Result) : string_t :=
  match existingCommissionerId with ResCommissionerId id => id | _ => aExistingCommissionerId end.
Definition GetCommissionerDataset (aDataset : CommissionerDataset.CommissionerDataset) (dataset : Result) :=
  match dataset with ResCommissionerDataset d => d | _ => aDataset end.
Definition GetBbrDataset (aDataset : BbrDataset.BbrDataset) (dataset : Result) :=
  match dataset with ResBbr d => d | _ => aDataset end.
Definition GetActiveDataset (aDataset : ActiveDataset.ActiveOperationalDataset) (dataset : Result) :=
  match dataset with ResActive d => d | _ => aDataset end.
Definition GetRawActiveDataset (aRawDataset : ByteArray) (rawDataset : Result) : ByteArray :=
  match rawDataset with ResBytes b => b | _ => aRawDataset end.
Definition GetPendingDataset (aDataset : PendingDataset.PendingOperationalDataset) (dataset : Result) :=
  match dataset with ResPending d => d | _ => aDataset end.
Definition RegisterMulticastListener (aStatus : Z) (status : Result) : Z :=
  match status with ResStatus s => s | _ => aStatus end.
End Wait.

Definition parameter (t : HandlerType) : Type :=
  match t with
  | ErrorHandler => unit
  | PetitionHandler => string_t
  | HandlerCommissionerDataset => CommissionerDataset.CommissionerDataset
  | HandlerBbrDataset => BbrDataset.BbrDataset
  | HandlerActiveDataset => ActiveDataset.ActiveOperationalDataset
  | HandlerByteArray => ByteArray
  | HandlerPendingDataset => PendingDataset.PendingOperationalDataset
  | HandlerStatus => Z
  end.
Definition wait_of (t : HandlerType) : parameter t -> Result -> parameter t :=
  match t with
  | ErrorHandler => fun a _ => a
  | PetitionHandler => Wait.Petition
  | HandlerCommissionerDataset => Wait.GetCommissionerDataset
  | HandlerBbrDataset => Wait.GetBbrDataset
  | HandlerActiveDataset => Wait.GetActiveDataset
  | HandlerByteArray => Wait.GetRawActiveDataset
  | HandlerPendingDataset => Wait.GetPendingDataset
  | HandlerStatus => Wait.RegisterMulticastListener
  end.

Lemma parameter_changed t a v e : conforms t v e -> wait_of t a v <> a ->
  if bool_decide (t = PetitionHandler) then e = kRejected else e = kNone.
Proof.
  destruct (decide (t = PetitionHandler)) as [->|Ht].
  - rewrite bool_decide_eq_true_2 by done. by intros [->|[_ ->]].
  - rewrite (bool_decide_eq_false_2 (t = PetitionHandler)) by done. destruct t; cbn; try done;
      (case_bool_decide as E; [done|by intros ->]).
Qed.

Lemma parameter_set t a a' v : conforms t v kNone -> t <> PetitionHandler -> wait_of t a v = wait_of t a' v.
Proof. destruct t; cbn; rewrite ?bool_decide_eq_true_2 by done; intros Hv Ht; try done; [by destruct a, a'|..]; by destruct v. Qed.

Section Typed.
Context `{HSign : RequestSigner}.
Context (inet_pton4 inet_pton6 : string_t -> option ByteArray).
Context (channel0 : NetworkData.Channel) (panId0 rotation0 delay0 : Z).
Context (env_send : nat -> ErrorCode) (fuel : nat).
Context (ty : nat -> HandlerType).
Abbreviation step_s := (safe_step inet_pton4 inet_pton6 channel0 panId0 rotation0 delay0 env_send fuel).
Abbreviation run_s := (safe_run inet_pton4 inet_pton6 channel0 panId0 rotation0 delay0 env_send fuel).

Definition request_typed (r : AsyncRequest) : Prop := match r with ReqApi a => api_typed ty a | ReqBreak => True end.
Definition turn_typed (x : SafeStep) : Prop := match x with UserAsync a | UserBlocking a => api_typed ty a | _ => True end.
Definition returned_typed (r : nat * Result * ErrorCode) : Prop := conforms (ty r.1.1) r.1.2 r.2.

Definition safe_typed (s : Safe) : Prop :=
  all_typed ty (mImpl s) /\ Forall request_typed (mAsyncRequestQueue s) /\ Forall returned_typed (mReturned s).

Lemma typed_push r s : request_typed r -> safe_typed s -> safe_typed (PushAsyncRequest r s).
Proof. intros Hr (Hc & Hq & Ht). split_and!; [done| |done]. apply Forall_app_2; [done|by constructor]. Qed.

Lemma promise_told c h v e : promise_value c h = Some (v, e) -> OutHandler h v e ∈ outputs c.
Proof.
  unfold promise_value. induction (outputs c) as [|o l IH]; cbn; [done|]. intros H.
  destruct (foldr _ None l) as [[v' e']|] eqn:Ef; [right; by apply IH|].
  destruct o; try done. case_bool_decide; simplify_eq. constructor.
Qed.

Lemma typed_turn x s s' : turn_typed x -> safe_typed s -> step_s x s = Ok s' -> safe_typed s'.
Proof.
  intros Hx Hs E. pose proof Hs as (Hc & Hq & Ht). destruct x as [a|a| | |t| |e]; cbn [safe_step turn_typed] in *.
  - injection E as <-. destruct (call_async_cases a s) as [->|(s0 & -> & Ei & _ & Eq & Er)]; [done|].
    apply typed_push; [done|]. unfold safe_typed. by rewrite Ei, Eq, Er.
  - injection E as <-. destruct (call_blocking_cases a s) as [->|(h & _ & _ & _ & ->)]; [done|]. by apply typed_push.
  - injection E as <-. unfold get_future. destruct (mWaiting s) as [h|]; [|done].
    destruct (promise_value (mImpl s) h) as [[v e]|] eqn:Ep; [|done]. split_and!; [done|done|].
    constructor; [|done]. eapply typed_told; [exact Hc|]. by apply promise_told.
  - injection E as <-. unfold StopEventLoopThread. destruct (mWaiting s); [done|by apply typed_push].
  - injection E as <-. unfold loop_wake. by case_if.
  - apply bind_ok in E as (s1 & E & [-> _]%fulfilled_ok). unfold Invoke in E. destruct (mInvoking s); [|by injection E as <-].
    unfold PopAsyncRequest in E. cbn in E. destruct (mAsyncRequestQueue s) as [|[a|] q] eqn:Eq; [injection E as <-; split_and!; [done|cbn; by rewrite Eq|done]| |].
    + apply Forall_cons in Hq as [Ha Hq]. apply bind_ok in E as (c & Ec & [= <-]). split_and!; [|done..].
      by eapply (typed_step ty) in Ec.
    + injection E as <-. by apply Forall_cons in Hq as [_ Hq].
  - apply bind_ok in E as (s1 & E & [-> _]%fulfilled_ok). unfold loop_event in E. destruct (_ && negb (is_api e)) eqn:Ee; [|by injection E as <-].
    apply bind_ok in E as (c & Ec & [= <-]). split_and!; [|done..]. eapply typed_step; [|exact Hc|exact Ec].
    destruct e; try done. by rewrite andb_false_r in Ee.
Qed.

Lemma typed_turns l : forall s s', Forall turn_typed l -> safe_typed s -> run_s l s = Ok s' -> safe_typed s'.
Proof.
  induction l as [|x l IH]; intros s s' Hl Hs E; [by injection E as <-|]. apply Forall_cons in Hl as [Hx Hl].
  apply bind_ok in E as (s1 & E1 & E). eapply IH; [exact Hl| |exact E]. by eapply typed_turn.
Qed.

(** C25: The handlers and the parameters of the caller hold what is documented, whatever the network answers and
    however the threads interleave ([conforms]).  An [ErrorHandler] never gets a response.  A [Handler] of a response
    gets one of its type exactly when it gets no error.  The handler of a petition gets a response, the id of another
    commissioner, only together with [kRejected], and need not get one.  So a call that waits changes the caller's
    parameter only when it returns success, or for a petition only when it returns that it was rejected; and a call
    that is no petition and returns success leaves nothing of the parameter's former value. *)
Theorem blocking_calls_typed cfg now l s :
  Forall turn_typed l -> run_s l (Safe_init (Commissioner_init cfg now)) = Ok s ->
  (forall h v e, OutHandler h v e ∈ outputs (mImpl s) -> conforms (ty h) v e) /\
  (forall h v e (a : parameter (ty h)), (h, v, e) ∈ mReturned s -> wait_of (ty h) a v <> a ->
     if bool_decide (ty h = PetitionHandler) then e = kRejected else e = kNone) /\
  (forall h v (a a' : parameter (ty h)), (h, v, kNone) ∈ mReturned s -> ty h <> PetitionHandler ->
     wait_of (ty h) a v = wait_of (ty h) a' v).
Proof.
  intros Hl E. apply typed_turns in E as (Hc & _ & Ht); [|done|split_and!; [apply typed_init|constructor..]].
  rewrite Forall_forall in Ht. split; [intros h v e; by apply typed_told|]. split.
  - intros h v e a Hin. by apply parameter_changed, (Ht (h, v, e)).
  - intros h v a a' Hin. by apply parameter_set, (Ht (h, v, kNone)).
Qed.
End Typed.
