(* ===== verification/SafeScript.v ===== *)
(** * Runs of the thread-safe commissioner

    A petition that is waited for, which shows that the hypotheses of the theorems can hold, and the two runs that go
    wrong. *)

From S2P Require Import Prelude Outcome Common Tlv NetworkData CoapMessage Dataset DatasetCodec Commissioner.
From S2P Require Import CommissionerInvariant CommissionerHandlers CommissionerControl CommissionerScript CommissionerTyped Safe SafeFacts SafeTyped.
Import Endian CommonFacts Addr Tlv TlvFacts Message Dataset DatasetFacts.

Abbreviation turns l s := (safe_run sample_pton4 sample_pton6 channel 0 0 0 all_sent 10 l s).
Abbreviation wrapped := (Safe_init idle).
Definition state_of (m : outcome Safe) : Safe := match m with Ok s => s | _ => wrapped end.

(** The petition is posted; the loop executes it and hears the answer. *)
Definition petitioning : list SafeStep := [UserBlocking (ApiPetition 1 true)].
Definition petitioned : list SafeStep :=
  petitioning ++ [LoopWake false; LoopInvoke; LoopEvent EvtHandshakeOver; LoopEvent (EvtResponse BrClient 0 (Some accepted) kNone)].

Lemma safe_refines_commissioner_witness :
  exists evs executed, run sample_pton4 sample_pton6 channel 0 0 0 all_sent 10 evs idle = Ok (mImpl (state_of (turns petitioned wrapped))) /\
    mPushed (state_of (turns petitioned wrapped)) = executed ++ mAsyncRequestQueue (state_of (turns petitioned wrapped)) /\
    omap api_event evs = omap api_of executed.
Proof.
  apply (safe_refines_commissioner sample_pton4 sample_pton6 channel 0 0 0 all_sent 10 idle petitioned). vm_compute. reflexivity.
Defined.

Lemma blocking_calls_accounted_witness :
  (calls 1 (mImpl (state_of (turns petitioned wrapped))) + armed 1 (mImpl (state_of (turns petitioned wrapped))) = 1)%nat /\
  calls 1 (mImpl (state_of (turns petitioned wrapped))) = 1%nat.
Proof.
  split; [|vm_compute; reflexivity].
  assert (E : turns petitioned wrapped = Ok (state_of (turns petitioned wrapped))) by (vm_compute; reflexivity).
  destruct (blocking_calls_accounted sample_pton4 sample_pton6 channel 0 0 0 all_sent 10 cfg 0 petitioned _ 1
    ltac:(repeat constructor) E) as (H1 & _).
  rewrite Nat.add_0_r in H1. exact H1.
Defined.

Lemma safe_fails_with_commissioner_witness :
  (exists s, turns petitioned wrapped = Ok s) \/
  (exists evs c e, run sample_pton4 sample_pton6 channel 0 0 0 all_sent 10 evs idle = Ok c /\
     forall c', step sample_pton4 sample_pton6 channel 0 0 0 all_sent 10 e c <> Ok c').
Proof.
  apply (safe_fails_with_commissioner sample_pton4 sample_pton6 channel 0 0 0 all_sent 10 cfg 0 petitioned).
  repeat constructor.
Defined.

Lemma blocking_calls_served_witness :
  mAsyncRequestQueue (state_of (turns petitioning wrapped)) = [ReqApi (ApiPetition 1 true)] /\
  exists s', turns [LoopWake false; LoopInvoke] (state_of (turns petitioning wrapped)) = Ok s' /\
    mAsyncRequestQueue s' = [] /\ (armed 1 (mImpl s') + calls 1 (mImpl s') = 1)%nat.
Proof.
  assert (Hq : mAsyncRequestQueue (state_of (turns petitioning wrapped)) = [ReqApi (ApiPetition 1 true)]) by (vm_compute; reflexivity).
  split; [exact Hq|].
  destruct (proj2 (blocking_calls_served sample_pton4 sample_pton6 channel 0 0 0 all_sent 10 cfg 0 petitioning
    (state_of (turns petitioning wrapped)) 1
    ltac:(repeat constructor) ltac:(repeat constructor) ltac:(vm_compute; reflexivity) ltac:(vm_compute; reflexivity)
    ltac:(vm_compute; reflexivity))) as (s' & E & H1 & H2 & _).
  - intros a Ha. rewrite Hq in Ha. injection Ha as <-. eexists. vm_compute. reflexivity.
  - exists s'. exact (conj E (conj H1 H2)).
Defined.

(** A petition, and the dataset of the border agent: both calls return. *)
Definition reading : list SafeStep :=
  petitioned ++ [UserReturns; UserBlocking (ApiGetRawActiveDataset 2 0); LoopWake false; LoopInvoke;
                 LoopEvent (EvtResponse BrClient 0 (Some accepted) kNone); UserReturns].
Definition handler_types (h : nat) : HandlerType := match h with 1%nat => PetitionHandler | _ => HandlerByteArray end.

Lemma blocking_calls_typed_witness :
  mReturned (state_of (turns reading wrapped)) = [(2%nat, ResBytes (mPayload accepted), kNone); (1%nat, ResNone, kNone)] /\
  (forall a a', wait_of HandlerByteArray a (ResBytes (mPayload accepted)) = wait_of HandlerByteArray a' (ResBytes (mPayload accepted))) /\
  conforms PetitionHandler ResNone kNone.
Proof.
  assert (Hr : mReturned (state_of (turns reading wrapped)) = [(2%nat, ResBytes (mPayload accepted), kNone); (1%nat, ResNone, kNone)])
    by (vm_compute; reflexivity).
  assert (E : turns reading wrapped = Ok (state_of (turns reading wrapped))) by (vm_compute; reflexivity).
  destruct (blocking_calls_typed sample_pton4 sample_pton6 channel 0 0 0 all_sent 10 handler_types cfg 0 reading _
    ltac:(repeat constructor) E) as (H1 & _ & H3).
  split; [exact Hr|]. split.
  - intros a a'. refine (H3 2%nat _ a a' _ _); [rewrite Hr; constructor|done].
  - apply (H1 1%nat ResNone kNone). apply list_elem_of_In. vm_compute. tauto.
Defined.

Lemma turns_repeat l n s : turns l s = Ok s -> turns (concat (repeat l n)) s = Ok s.
Proof.
  intros E. induction n as [|n IH]; [done|]. cbn [repeat concat].
  assert (H : forall k s s', turns k s = Ok s' -> turns (k ++ concat (repeat l n)) s = turns (concat (repeat l n)) s').
  { intros k. induction k as [|x k IHk]; intros s0 s1 E1; cbn in *; [by injection E1 as ->|].
    apply bind_ok in E1 as (s2 & -> & E1). cbn. by apply IHk. }
  by rewrite (H _ _ _ E).
Qed.

(** Faults of the wrapper, each with a run that shows it.  (1) Two requests that are posted before the loop
    wakes activate the event once, and [Invoke] takes one request: a [Disconnect] followed by a petition that is
    waited for leaves the petition in the queue, where no turn of the loop finds it until the event's timeout of a day
    (here: the last two steps).  (2) Waiting for an announcement to a multicast address ends the process: without a
    session its handler is called twice, and so is [std::promise::set_value]. *)
Theorem safe_faults :
  let stuck := state_of (turns [UserAsync ApiDisconnect; UserBlocking (ApiPetition 1 true); LoopWake false; LoopInvoke] wrapped) in
  mWaiting stuck = Some 1%nat /\ mAsyncRequestQueue stuck = [ReqApi (ApiPetition 1 true)] /\
  (forall n, turns (concat (repeat [LoopWake false; LoopInvoke; UserReturns] n)) stuck = Ok stuck) /\
  mAsyncRequestQueue (state_of (turns [LoopWake true; LoopInvoke] stuck)) = [] /\
  turns (petitioned ++ [LoopEvent (EvtDtlsError kIOError); UserReturns; UserBlocking (ApiAnnounceBegin 2 channels 1 1 everyone);
                        LoopWake false; LoopInvoke]) wrapped = Die.
Proof.
  assert (E : forall s, turns [LoopWake false; LoopInvoke; UserReturns] s = Ok s ->
    forall n, turns (concat (repeat [LoopWake false; LoopInvoke; UserReturns] n)) s = Ok s)
    by (intros s E n; by apply turns_repeat).
  cbv zeta. split; [|split; [|split; [apply E|split]]]; vm_compute; reflexivity.
Qed.
