(* ===== verification/Proxy.v ===== *)
(** * The UDP proxy

    [ProxyEndpoint] and [ProxyClient] of [src/library/udp_proxy.{hpp,cpp}], and
    the notifications that reach the commissioner through them
    ([HandleDatasetChanged], [HandlePanIdConflict] and [HandleEnergyReport] of
    [src/library/commissioner_impl.cpp]).

    The client is a CoAP object ([Coap]) whose datagrams the endpoint wraps into
    UDP_TX.ntf requests of the border agent client; what a UDP_RX.ntf wraps is
    what it receives.  The endpoint has one peer, the one that was set last.  The
    handlers of responses are the commissioner's; what they tell the user is in
    [Commissioner], and what matters here is that they can end the process. *)

From stdpp Require Import gmap.
From S2P Require Import Prelude Outcome Common Tlv NetworkData CoapMessage Dataset Coap.
From S2P Require Commissioner CommissionerWalk.
Import Endian Addr Tlv Message Dataset.

Module ProxyUri.
Definition kUdpRx : string_t := str "/c/ur".
Definition kUdpTx : string_t := str "/c/ut".
Definition kMgmtDatasetChanged : string_t := str "/c/dc".
Definition kMgmtPanidConflict : string_t := str "/c/pc".
Definition kMgmtEdReport : string_t := str "/c/er".
End ProxyUri.

(** Calls of the user's [CommissionerHandler]. *)
Inductive Notification : Type :=
| OnDatasetChanged
| OnPanIdConflict (aPeerAddr : string_t) (aChannelMask : ChannelMask) (aPanId : Z)
| OnEnergyReport (aPeerAddr : string_t) (aChannelMask : ChannelMask) (aEnergyList : ByteArray).

(** The endpoint, the CoAP object and the prefix of the client; of the border agent client, whether it is connected,
    its local port, and the UDP_TX.ntf requests it was given (latest first); and the calls of the user (latest
    first).  The order of the last two against each other is not recorded. *)
Record Proxy : Type := mkProxy {
  mPeerAddr : Address;
  mPeerPort : Z;
  mCoap : Coap.Coap;
  mMeshLocalPrefix : ByteArray;
  mConnected : bool;
  mLocalPort : Z;
  mUdpTx : list Message;
  mNotified : list Notification }.

Definition with_peer (p : Proxy) (a : Address) (port : Z) : Proxy :=
  mkProxy a port (mCoap p) (mMeshLocalPrefix p) (mConnected p) (mLocalPort p) (mUdpTx p) (mNotified p).
Definition with_proxy_coap (p : Proxy) (c : Coap.Coap) : Proxy :=
  mkProxy (mPeerAddr p) (mPeerPort p) c (mMeshLocalPrefix p) (mConnected p) (mLocalPort p) (mUdpTx p) (mNotified p).
Definition with_udp_tx (p : Proxy) (l : list Message) : Proxy :=
  mkProxy (mPeerAddr p) (mPeerPort p) (mCoap p) (mMeshLocalPrefix p) (mConnected p) (mLocalPort p) l (mNotified p).
Definition notified (p : Proxy) (n : Notification) : Proxy :=
  mkProxy (mPeerAddr p) (mPeerPort p) (mCoap p) (mMeshLocalPrefix p) (mConnected p) (mLocalPort p) (mUdpTx p)
    (n :: mNotified p).
Definition with_connection (p : Proxy) (connected : bool) (port : Z) : Proxy :=
  mkProxy (mPeerAddr p) (mPeerPort p) (mCoap p) (mMeshLocalPrefix p) connected port (mUdpTx p) (mNotified p).
Definition ClearMeshLocalPrefix (p : Proxy) : Proxy :=
  mkProxy (mPeerAddr p) (mPeerPort p) (mCoap p) [] (mConnected p) (mLocalPort p) (mUdpTx p) (mNotified p).

(** The handlers are numbers: [kont h] is the continuation that the commissioner passed with the request of handler [h],
    and [commissioner h] the commissioner when its response comes. *)
Definition commissioner_handlers `{Commissioner.RequestSigner} (channel0 : Channel) (panId0 rotation0 delay0 : Z)
    (commissioner : nat -> Commissioner.Commissioner) (kont : nat -> Commissioner.OnResponse) :
    nat -> option Message -> ErrorCode -> outcome Commissioner.Result :=
  fun h => CommissionerWalk.told_result channel0 panId0 rotation0 delay0 (commissioner h) (kont h).

(** ** The endpoint *)

(** [ProxyEndpoint::Send]: the request for the border agent, or the error. *)
Definition encapsulate (p : Proxy) (aRequest : ByteArray) : outcome Message :=
  VerifyOrExit Addr.IsValid (mPeerAddr p) && IsIpv6 (mPeerAddr p) else kInvalidState;;
  VerifyOrExit mConnected p else kInvalidState;;
  let udpPayload := Encode 2 [] (mLocalPort p) in
  let udpPayload := Encode 2 udpPayload (mPeerPort p) in
  let udpPayload := udpPayload ++ aRequest in
  udpTx ← SetUriPath (Message_new CoapMessage.kNonConfirmable Code.kPost) ProxyUri.kUdpTx;
  udpTx ← AppendTlv udpTx (Tlv_bytes kIpv6Address (mPeerAddr p));
  AppendTlv udpTx (Tlv_bytes kUdpEncapsulation udpPayload).

(** Its result, and its effect on the border agent client. *)
Definition Endpoint_result (p : Proxy) (aRequest : ByteArray) : ErrorCode := code_of (encapsulate p aRequest).
Definition Endpoint_Send (p : Proxy) (aRequest : ByteArray) : outcome Proxy :=
  match encapsulate p aRequest with
  | Ok udpTx => Ok (with_udp_tx p (udpTx :: mUdpTx p))
  | Err _ => Ok p
  | Die => Die
  end.

Section Proxy.
(** [inet_ntop], the random values of the CoAP object, and a bound on its loops. *)
Context (inet_ntop4 inet_ntop6 : ByteArray -> option string_t).
Context (random_token : nat -> ByteArray) (random_u32 : nat -> Z) (loop_fuel : nat).
(** What the handlers of the requests make of the responses. *)
Context (on_response : nat -> option Message -> ErrorCode -> outcome Commissioner.Result).

(** ** Notifications *)

Definition peer_name (p : Proxy) : string_t := Addr.ToString inet_ntop4 inet_ntop6 (mPeerAddr p).
Definition mandatory (o : option Tlv.Tlv) : outcome Tlv.Tlv := match o with Some tlv => Ok tlv | None => Err kBadFormat end.

Definition pan_id_conflict (aPeerAddr : string_t) (aRequest : Message) : outcome Notification :=
  tlvSet ← ParseTlvs (mPayload aRequest) kMeshCoP;
  channelMaskTlv ← mandatory (tlvSet !! kChannelMask);
  panIdTlv ← mandatory (tlvSet !! kPanId);
  channelMask ← DecodeChannelMask (mValue channelMaskTlv);
  panId ← GetValueAsUint16 panIdTlv;
  Ok (OnPanIdConflict aPeerAddr channelMask panId).

Definition energy_report (aPeerAddr : string_t) (aRequest : Message) : outcome Notification :=
  tlvSet ← ParseTlvs (mPayload aRequest) kMeshCoP;
  channelMask ← match tlvSet !! kChannelMask with Some tlv => DecodeChannelMask (mValue tlv) | None => Ok [] end;
  let energyList := match tlvSet !! kEnergyList with Some tlv => mValue tlv | None => [] end in
  Ok (OnEnergyReport aPeerAddr channelMask energyList).

(** The resources of the client, by the numbers of their handlers. *)
Definition hDatasetChanged : nat := 0.
Definition hPanIdConflict : nat := 1.
Definition hEnergyReport : nat := 2.

(** What a handler does besides [SendEmptyChanged]; errors are logged. *)
Definition notify (h : nat) (aRequest : Message) (p : Proxy) : outcome Proxy :=
  let tell n := match n with Ok n => Ok (notified p n) | Err _ => Ok p | Die => Die end in
  match h with
  | O => Ok (notified (ClearMeshLocalPrefix p) OnDatasetChanged)
  | 1%nat => tell (pan_id_conflict (peer_name p) aRequest)
  | 2%nat => tell (energy_report (peer_name p) aRequest)
  | _ => Ok p
  end.

(** ** The client *)

(** What a CoAP operation did to its endpoint and which resources it called, oldest first. *)
Fixpoint replay (l : list CoapEvent) (p : Proxy) : outcome Proxy :=
  match l with
  | [] => Ok p
  | EvSend _ data _ :: l => p ← Endpoint_Send p data; replay l p
  | EvRequest h request :: l => p ← notify h request p; replay l p
  | _ :: l => replay l p
  end.

(** A response handler of a request: it ends the process, or tells the user and leaves the client alone. *)
Definition response_handler (h : nat) (r : option Message) (e : ErrorCode) (c : Coap.Coap) : outcome Coap.Coap :=
  _ ← ignore (on_response h r e); Ok c.

(** An operation of the CoAP object. *)
Definition coap_do (op : (nat -> ByteArray -> ErrorCode) -> Coap.Coap -> outcome Coap.Coap) (p : Proxy) : outcome Proxy :=
  c ← op (fun _ => Endpoint_result p) (mCoap p);
  replay (rev (take (length (trace c) - length (trace (mCoap p))) (trace c))) (with_proxy_coap p c).

(** [SendRequest(const coap::Request &, coap::ResponseHandler, const Address &, uint16_t)] *)
Definition SendRequest (aRequest : Message) (aHandler : nat) (aPeerAddr : Address) (aPeerPort : Z) (p : Proxy) : outcome Proxy :=
  VerifyOrDie Addr.IsValid aPeerAddr && IsIpv6 aPeerAddr;;
  coap_do (fun send c => Coap.SendRequest response_handler send random_token random_u32 c aRequest (Some aHandler))
    (with_peer p aPeerAddr aPeerPort).

(** [SendEmptyChanged] of a handler: the peer of the request's endpoint is the peer that the endpoint has. *)
Definition SendEmptyChanged (send : nat -> ByteArray -> ErrorCode) (h : nat) (aRequest : Message) (c : Coap.Coap) :
    outcome Coap.Coap :=
  '(c, _) ← Coap.SendEmptyChanged send c aRequest; Ok c.

(** What a UDP_RX.ntf wraps: where it comes from, and the datagram. *)
Definition parse_udp_rx (aUdpRx : Message) : outcome (Address * Z * ByteArray) :=
  srcAddr ← mandatory (GetTlv kIpv6Address (mPayload aUdpRx) kMeshCoP);
  udpEncap ← mandatory (GetTlv kUdpEncapsulation (mPayload aUdpRx) kMeshCoP);
  peerAddr ← SetRaw (mValue srcAddr);
  peerPort ← Decode 2 (mValue udpEncap);
  VerifyOrDie (4 <=? zlen (mValue udpEncap));;
  payload ← rdt (mValue udpEncap) 4;
  Ok (peerAddr, peerPort, payload).

(** Errors are logged. *)
Definition HandleUdpRx (aUdpRx : Message) (p : Proxy) : outcome Proxy :=
  match parse_udp_rx aUdpRx with
  | Ok (peerAddr, peerPort, datagram) =>
      coap_do (fun send c => Coap.Receive response_handler (SendEmptyChanged send) send c 0 datagram)
        (with_peer p peerAddr peerPort)
  | Err _ => Ok p
  | Die => Die
  end.

Definition CancelRequests (p : Proxy) : outcome Proxy :=
  coap_do (fun _ c => Coap.CancelRequests response_handler loop_fuel c) p.

(** [ProxyClient], and the resources that the commissioner adds. *)
Definition ProxyClient_init (now : Z) : outcome Proxy :=
  c ← Coap.AddResource (Coap.Coap_init 0 now) ProxyUri.kMgmtDatasetChanged (Some hDatasetChanged);
  c ← Coap.AddResource c ProxyUri.kMgmtPanidConflict (Some hPanIdConflict);
  c ← Coap.AddResource c ProxyUri.kMgmtEdReport (Some hEnergyReport);
  Ok (mkProxy [] 0 c [] false 0 [] []).

(** *** Events *)

Inductive ProxyEvent : Type :=
| PEvtSend (request : Message) (handler : nat) (addr : Address) (port : Z)
| PEvtUdpRx (request : Message)
| PEvtCancel
| PEvtConnection (connected : bool) (port : Z)
| PEvtTime (now : Z)
| PEvtTimer.

Definition proxy_step (ev : ProxyEvent) (p : Proxy) : outcome Proxy :=
  match ev with
  | PEvtSend request h addr port => SendRequest request h addr port p
  | PEvtUdpRx request => HandleUdpRx request p
  | PEvtCancel => CancelRequests p
  | PEvtConnection connected port => Ok (with_connection p connected port)
  | PEvtTime now => Ok (with_proxy_coap p (with_clock (mCoap p) (Z.max now (clock (mCoap p)))))
  | PEvtTimer =>
      match mRetransmissionTimer (mCoap p) with
      | Some t => if t <=? clock (mCoap p)
                  then coap_do (fun send c => Coap.HandleTimer response_handler send loop_fuel c) p else Ok p
      | None => Ok p
      end
  end.

Fixpoint proxy_run (l : list ProxyEvent) (p : Proxy) : outcome Proxy :=
  match l with [] => Ok p | ev :: l => p ← proxy_step ev p; proxy_run l p end.
End Proxy.
