(* ===== verification/ProxyFacts.v ===== *)
(** * Properties of the UDP proxy

    The tunnel, the safety of what comes out of it, and the notifications. *)

From stdpp Require Import gmap.
From S2P Require Import Prelude Outcome Common Tlv NetworkData CoapMessage Dataset DatasetCodec Coap CoapInvariant CoapScript ResponseFacts Proxy.
From S2P Require Commissioner CommissionerInvariant CommissionerWalk.
Import Endian CommonFacts Addr Tlv TlvFacts Dataset DatasetFacts Message MessageFacts.

(** ** The CoAP object with handlers that do not call back

    A handler of a request ends the process or leaves the object alone. *)

(** Messages without options can always be serialized. *)
Definition plain (m : Message) : Prop := mOptions m = [] /\ header_ok (mHeader m).

Lemma Serialize_plain m : plain m -> exists data, Serialize m [] = Ok data.
Proof.
  intros [Ho Hh]. unfold Serialize. rewrite SerializeHeader_bytes by done. cbn [mbind outcome_bind]. rewrite Ho.
  cbn [SerializeOptions mbind outcome_bind]. by eexists.
Qed.

Lemma plain_new t code : is_byte code -> plain (Message_new t code).
Proof. intros Hc. split; [done|]. unfold header_ok, fits, is_byte in *. cbn. destruct t; cbn; split_and!; done || lia || constructor. Qed.
Lemma plain_id m id : plain m -> fits 16 id -> plain (SetMessageId m id).
Proof. intros [Ho (?&?&?&?&?&?&?)] Hi. by split_and!. Qed.
Lemma plain_token m t : plain m -> bytes t -> plain (SetTokenBytes m t).
Proof.
  intros [Ho (?&?&?&?&?&?&?)] Ht. pose proof (zlen_nonneg t). split; [done|].
  unfold header_ok. cbn. split_and!; try done; try lia; [by apply bytes_zsub|]. rewrite zlen_zsub; lia.
Qed.
Lemma plain_endpoint m e : plain m -> plain (SetEndpoint m e).
Proof. by intros [? ?]. Qed.
#[local] Hint Resolve plain_new plain_id plain_token plain_endpoint : core.

(** The requests that resources are called with. *)
Definition tame (e : CoapEvent) : Prop := match e with EvRequest _ m => bytes (mPayload m) | _ => True end.

(** What the operations leave alone, or only add to. *)
Record frame (c c' : Coap.Coap) : Prop := {
  frame_resources : mResources c' = mResources c;
  frame_default : mDefaultHandler c' = mDefaultHandler c;
  frame_responses : Forall (fun kv => plain kv.2) (mResponses c) -> Forall (fun kv => plain kv.2) (mResponses c');
  frame_trace : exists l, trace c' = l ++ trace c /\ Forall tame l }.
#[local] Instance frame_preorder : PreOrder frame.
Proof.
  split; [intros c; split; [done..|by exists []]|]. intros c1 c2 c3 [?? ? (l1 & E1 & H1)] [?? ? (l2 & E2 & H2)].
  split; [congruence..|auto|]. exists (l2 ++ l1). rewrite E2, E1, app_assoc. split; [done|by apply Forall_app].
Qed.

Lemma same_frame c c' : mResources c' = mResources c -> mDefaultHandler c' = mDefaultHandler c ->
  mResponses c' = mResponses c -> trace c' = trace c -> frame c c'.
Proof. intros H1 H2 H3 H4. split; [done..|by rewrite H3|by exists []]. Qed.
Lemma emit_frame c e : tame e -> frame c (emit c e).
Proof. intros He. split; [done..|]. exists [e]. split; [done|by constructor]. Qed.
#[local] Hint Extern 1 (frame _ (emit ?c _)) => transitivity c; [by apply same_frame|by apply emit_frame] : core.
#[local] Hint Extern 2 (frame _ _) => by apply same_frame : core.

Lemma UpdateTimer_frame c c' : RequestsCache.UpdateTimer c = Ok c' -> frame c c'.
Proof. destruct (UpdateTimer_spec c) as (t & -> & _). intros [= <-]. auto. Qed.

Section Quiet.
Context (on_response : nat -> option Message -> ErrorCode -> outcome Commissioner.Result).
Context (send : nat -> ByteArray -> ErrorCode).

Lemma Send_frame c m c' m' e : Coap.Send send c m = Ok (c', m', e) -> frame c c'.
Proof.
  unfold Coap.Send. destruct (Serialize m []); intros [= <- <- <-]; [|done].
  etransitivity; [|by apply emit_frame]. auto.
Qed.

Lemma Send_plain c m : plain m -> exists c' m' e, Coap.Send send c m = Ok (c', m', e).
Proof. intros Hm. unfold Coap.Send. destruct (Serialize_plain m Hm) as [data ->]. by eexists _, _, _. Qed.

Lemma Put_frame c m : plain m -> frame c (ResponsesCache.Put c m).
Proof.
  intros Hm. split; [done..| |by exists []]. intros Hf. cbn. generalize (clock c + 1000 * kExchangeLifetime). intros t.
  induction Hf as [|x l Hx Hf IH]; cbn; [by apply Forall_singleton|]. by destruct (t <? x.1); repeat apply Forall_cons_2.
Qed.

Lemma SendResponse_plain c rq rs : plain rs -> header_ok (mHeader rq) ->
  exists c' e, Coap.SendResponse send c rq rs = Ok (c', e) /\ frame c c'.
Proof.
  intros Hr Hq. unfold Coap.SendResponse.
  set (r := SetEndpoint _ _). assert (Hp : plain r).
  { unfold r. destruct Hq as (_&_&_&_&Hi&Ht&_). apply plain_endpoint, plain_token; [|by apply bytes_zsub].
    case_if; [by apply plain_id|done]. }
  destruct (Send_plain (ResponsesCache.Put c r) r Hp) as (c' & m' & e & E). rewrite E. cbn [mbind outcome_bind].
  exists c', e. split; [done|]. transitivity (ResponsesCache.Put c r); [by apply Put_frame|by eapply Send_frame].
Qed.

Lemma SendHeaderResponse_plain c code rq : is_byte code -> header_ok (mHeader rq) ->
  exists c' e, Coap.SendHeaderResponse send c code rq = Ok (c', e) /\ frame c c'.
Proof.
  intros Hc Hq. unfold Coap.SendHeaderResponse. destruct (GetType rq); [| |by eexists _, _..].
  - apply SendResponse_plain; [|done]. destruct Hq as (_&_&_&_&Hi&_). auto.
  - unfold AllocMessageId. set (c1 := with_ids _ _ _ _). destruct (SendResponse_plain c1 rq
      (SetMessageId (Message_new kNonConfirmable code) (u16 (Coap.mMessageId c + 1)))) as (c' & e & E & Hf); [|done|].
    + apply plain_id; [auto|]. apply u16_fits.
    + exists c', e. split; [exact E|]. transitivity c1; auto.
Qed.

Lemma SendEmptyChanged_plain c rq : header_ok (mHeader rq) ->
  exists c' e, Coap.SendEmptyChanged send c rq = Ok (c', e) /\ frame c c'.
Proof.
  intros Hq. unfold Coap.SendEmptyChanged. destruct (negb (IsConfirmable rq)); [by eexists _, _|]. by apply SendHeaderResponse_plain.
Qed.

Lemma SendEmptyMessage_plain c t rq : header_ok (mHeader rq) ->
  exists c' e, Coap.SendEmptyMessage send c t rq = Ok (c', e) /\ frame c c'.
Proof.
  intros Hq. unfold Coap.SendEmptyMessage. destruct (negb (IsConfirmable rq)); [by eexists _, _|]. destruct Hq as (_&_&_&_&Hi&_).
  destruct (Send_plain c (SetEndpoint (SetMessageId (Message_new t Code.kEmpty) (GetMessageId rq)) (mEndpoint rq))) as (c' & m' & e & E).
  - apply plain_endpoint, plain_id; [|done]. by apply plain_new.
  - rewrite E. cbn. exists c', e. split; [done|by eapply Send_frame].
Qed.

(** *** Finalizing *)

Abbreviation quietly := (response_handler on_response).

Lemma call_frame c id hd r e c' : call_handler quietly c id hd r e = Ok c' -> frame c c'.
Proof using. unfold call_handler, response_handler. intros E. apply bind_ok in E as (_ & _ & [= <-]). auto. Qed.

Lemma call_survives c id hd r e : on_response hd r e <> Die ->
  call_handler quietly c id hd r e = Ok (emit c (EvResponse id hd r e)).
Proof using. intros H. unfold call_handler, response_handler. by destruct (on_response hd r e). Qed.

Lemma Eliminate_frame c id : exists c', RequestsCache.Eliminate c id = Ok c' /\ frame c c'.
Proof.
  unfold RequestsCache.Eliminate. match goal with |- context [RequestsCache.UpdateTimer ?x] =>
    destruct (UpdateTimer_spec x) as (t & -> & _) end. eexists. split; [done|auto].
Qed.

Lemma find_holder_some c h : h ∈ mRequests c -> RequestsCache.find_holder c (mRequestId h) <> None.
Proof.
  intros Hin E. eapply find_none in E; [|by apply list_elem_of_In]. by rewrite Nat.eqb_refl in E.
Qed.

(** The process survives the result of a request. *)
Definition survives (c : Coap.Coap) (id : nat) (r : option Message) (e : ErrorCode) : Prop :=
  forall h hd, RequestsCache.find_holder c id = Some h -> mHandler h = Some hd -> on_response hd r e <> Die.

Lemma FinalizeRef_quietly c h r e : h ∈ mRequests c -> survives c (mRequestId h) r e ->
  exists c', FinalizeRef quietly c (mRequestId h) r e = Ok c' /\ frame c c'.
Proof using.
  intros Hin Hs. unfold FinalizeRef. destruct (RequestsCache.find_holder c (mRequestId h)) as [h'|] eqn:Ef.
  2: { by apply find_holder_some in Ef. }
  specialize (Hs h'). rewrite Ef in Hs.
  apply find_holder_in in Ef as [Hin' Hid]. rewrite <- Hid in *. clear h Hin Hid.
  destruct (mHandler h') as [hd|]; [|apply Eliminate_frame]. rewrite call_survives by by apply Hs. cbn [mbind outcome_bind].
  set (c1 := emit _ _). assert (Hf : frame c c1) by (unfold c1; auto).
  assert (Hin1 : RequestsCache.clear_handler h' ∈ mRequests c1).
  { cbn. apply list_elem_of_fmap. exists h'. by rewrite Nat.eqb_refl. }
  destruct (Eliminate_frame c1 (mRequestId h')) as (c' & E & Hf').
  case_if; [exists c'; split; [done|by transitivity c1]|].
  apply find_holder_some in Hin1. change (mRequestId (RequestsCache.clear_handler h')) with (mRequestId h') in Hin1.
  destruct (RequestsCache.find_holder c1 (mRequestId h')); [|done]. exists c'. split; [done|by transitivity c1].
Qed.

Lemma FinalizeRef_dies c id h hd r e : RequestsCache.find_holder c id = Some h -> mHandler h = Some hd ->
  on_response hd r e = Die -> FinalizeRef quietly c id r e = Die.
Proof using.
  intros Hf Hh Hd. unfold FinalizeRef. rewrite Hf, Hh. unfold call_handler, response_handler. by rewrite Hd.
Qed.

Lemma FinalizeRef_frame c id r e c' : FinalizeRef quietly c id r e = Ok c' -> frame c c'.
Proof using.
  intros E. destruct (RequestsCache.find_holder c id) as [h|] eqn:Ef; [|unfold FinalizeRef in E; by rewrite Ef in E].
  destruct (find_holder_in _ _ _ Ef) as [Hin Hid]. rewrite <- Hid in E, Ef.
  destruct (FinalizeRef_quietly c h r e Hin) as (c1 & E1 & Hf).
  { intros h' hd Hf Hh Hd. by rewrite (FinalizeRef_dies _ _ _ _ _ _ Hf Hh Hd) in E. }
  rewrite E in E1. by injection E1 as <-.
Qed.

Lemma FinalizeCopy_frame c h r e c' : FinalizeCopy quietly c h r e = Ok c' -> frame c c'.
Proof using.
  unfold FinalizeCopy. intros E. apply bind_ok in E as (c1 & E1 & E).
  destruct (Eliminate_frame c1 (mRequestId h)) as (c2 & E2 & Hf). rewrite E in E2. injection E2 as <-.
  transitivity c1; [|done]. destruct (mHandler h); [by apply call_frame in E1|by injection E1 as <-].
Qed.

(** *** Receiving: what arrives can stop the process in one way only *)

Definition calm (c : Coap.Coap) : Prop :=
  mDefaultHandler c = None /\ Forall (fun kv => plain kv.2) (mResponses c).

Lemma frame_calm c c' : frame c c' -> calm c -> calm c'.
Proof. intros [] []. split; [congruence|auto]. Qed.

Context (run_resource : nat -> Message -> Coap.Coap -> outcome Coap.Coap).
Hypothesis Hresource : forall h m c, header_ok (mHeader m) -> exists c', run_resource h m c = Ok c' /\ frame c c'.

Lemma HandleRequest_total c m : calm c -> header_ok (mHeader m) -> bytes (mPayload m) ->
  exists c', HandleRequest run_resource send c m = Ok c' /\ frame c c'.
Proof using Hresource.
  intros [Hd Hr] Hm Hb. unfold HandleRequest, GetUriPath, GetOptionValue.
  destruct (GetOption m _) as [uri|]; [|by exists c].
  destruct (ResponsesCache.Match c m) as [r|] eqn:Em.
  - unfold ResponsesCache.Match in Em. destruct (List.find _ (mResponses c)) as [kv|] eqn:Ef; [|done]. injection Em as <-.
    apply find_some in Ef as [Hin _]. apply list_elem_of_In in Hin. rewrite Forall_forall in Hr.
    destruct (Send_plain c kv.2 (Hr kv Hin)) as (c' & m' & e & E). rewrite E. exists c'. split; [done|by eapply Send_frame].
  - destruct (mResources c !! uri) as [[h|]|].
    + unfold call_resource. destruct (Hresource h m (emit c (EvRequest h m)) Hm) as (c' & -> & Hf). exists c'. split; [done|].
      etransitivity; [|exact Hf]. auto.
    + by exists c.
    + rewrite Hd. destruct (SendHeaderResponse_plain c Code.kNotFound m) as (c' & e & E & Hf); [done..|].
      unfold SendNotFound. rewrite E. by exists c'.
Qed.

(** What the handler is given. *)
Lemma named_response h m : exists m', (if IsResponse m
    then SetRequestUri m (match GetUriPath (mRequest h) with Ok uri => uri | _ => unknown_uri end) else Ok m) = Ok m' /\
  mHeader m' = mHeader m /\ mPayload m' = mPayload m.
Proof using. destruct (IsResponse m) eqn:Er; [|by exists m]. unfold SetRequestUri. rewrite Er. by eexists. Qed.

(** When it does not stop the process, it stays in the frame. *)
Lemma HandleResponse_frame c m c' : header_ok (mHeader m) -> HandleResponse quietly send c m = Ok c' -> frame c c'.
Proof using.
  intros Hm. unfold HandleResponse. destruct (RequestsCache.Match c m) as [h|] eqn:Em.
  2: { destruct (_ || _); [|by intros [= <-]]. destruct (SendEmptyMessage_plain c kReset m Hm) as (c1 & e & E & Hf).
       unfold SendReset. rewrite E. by intros [= <-]. }
  destruct (named_response h m) as (m' & -> & Hh & _). cbn [mbind outcome_bind]. destruct (GetType m').
  - destruct (SendEmptyMessage_plain c kAcknowledgment m') as (c1 & e & E & Hf); [by rewrite Hh|].
    unfold SendAck. rewrite E. intros E'. apply FinalizeRef_frame in E'. by transitivity c1.
  - apply FinalizeRef_frame.
  - destruct (IsEmpty m'); [|destruct (_ && _); [apply FinalizeRef_frame|by intros [= <-]]]. cbv zeta.
    set (c1 := if IsConfirmable (mRequest h) then _ else c). assert (Hf : frame c c1) by (unfold c1; destruct (IsConfirmable _); auto).
    destruct (mHandler h); [by intros [= <-]|]. destruct (Eliminate_frame c1 (mRequestId h)) as (c2 & -> & Hf').
    intros [= <-]. by transitivity c1.
  - destruct (IsEmpty m'); [apply FinalizeRef_frame|by intros [= <-]].
Qed.

Lemma Receive_frame c ep buf c' : calm c -> bytes buf -> Coap.Receive quietly run_resource send c ep buf = Ok c' -> frame c c'.
Proof using Hresource.
  intros Hc Hb. unfold Coap.Receive. pose proof (Deserialize_header buf Hb) as Hm.
  destruct (Deserialize buf) as [m|?|]; [|by intros [= <-]|done]. destruct Hm as [Hm Hp].
  case_if; [|by apply HandleResponse_frame]. destruct (HandleRequest_total c (SetEndpoint m (Some ep))) as (c1 & E1 & Hf); [done..|].
  rewrite E1. by intros [= <-].
Qed.

(** The handlers survive errors, and die of empty messages only. *)
Hypothesis Herror : forall hd e, e <> kNone -> on_response hd None e <> Die.
Hypothesis Hmessage : forall hd m, bytes (mPayload m) -> IsRequest m = false -> on_response hd (Some m) kNone = Die <-> IsEmpty m = true.

(** An empty message that is neither an acknowledgment nor a reset, for a request that has a handler. *)
Definition lethal (c : Coap.Coap) (m : Message) : Prop :=
  IsEmpty m = true /\ (IsConfirmable m || IsNonConfirmable m) = true /\
  exists h h' hd, RequestsCache.Match c m = Some h /\ RequestsCache.find_holder c (mRequestId h) = Some h' /\ mHandler h' = Some hd.

Lemma survives_message c c1 h m m' : RequestsCache.Match c m = Some h -> mRequests c1 = mRequests c -> bytes (mPayload m) ->
  IsRequest m = false -> mHeader m' = mHeader m -> mPayload m' = mPayload m ->
  (IsEmpty m = true -> (IsConfirmable m || IsNonConfirmable m) = true) -> ~ lethal c m ->
  survives c1 (mRequestId h) (Some m') kNone.
Proof using Hmessage.
  intros Hm Hc Hb Hq Hh Hp Ht Hl h' hd Hf Hhd Hd. apply Hmessage in Hd; [|by rewrite Hp|].
  2: { revert Hq. unfold IsRequest, GetCode. by rewrite Hh. }
  assert (He : IsEmpty m = true) by (revert Hd; unfold IsEmpty, GetCode; by rewrite Hh).
  apply Hl. split; [done|]. split; [by apply Ht|]. exists h, h', hd. split; [done|]. split; [|done].
  revert Hf. unfold RequestsCache.find_holder. by rewrite Hc.
Qed.

Lemma HandleResponse_total c m : header_ok (mHeader m) -> bytes (mPayload m) -> IsRequest m = false -> ~ lethal c m ->
  exists c', HandleResponse quietly send c m = Ok c' /\ frame c c'.
Proof using Herror Hmessage.
  intros Hm Hb Hq Hl. unfold HandleResponse. destruct (RequestsCache.Match c m) as [h|] eqn:Em.
  2: { destruct (IsConfirmable m || IsNonConfirmable m); [|by exists c]. destruct (SendEmptyMessage_plain c kReset m Hm) as (c' & e & E & Hf).
       unfold SendReset. rewrite E. by exists c'. }
  destruct (named_response h m) as (m' & -> & Hh & Hp). cbn [mbind outcome_bind].
  pose proof (fun c1 Hc Ht => survives_message c c1 h m m' Em Hc Hb Hq Hh Hp Ht Hl) as Hs. apply Match_in in Em.
  assert (Ht : GetType m' = GetType m) by (unfold GetType; by rewrite Hh). rewrite Ht. unfold IsConfirmable, IsNonConfirmable in Hs.
  destruct (GetType m) eqn:Et.
  - destruct (SendEmptyMessage_plain c kAcknowledgment m') as (c1 & e & E & Hf); [by rewrite Hh|].
    unfold SendAck. rewrite E. cbn [mbind outcome_bind].
    assert (Hqc : quiet c c1) by (by eapply SendEmptyMessage_quiet).
    destruct (FinalizeRef_quietly c1 h (Some m') kNone) as (c' & E' & Hf'); [by rewrite (proj1 Hqc)|by apply Hs; [apply Hqc|]|].
    exists c'. split; [done|by transitivity c1].
  - by apply FinalizeRef_quietly; [|apply Hs].
  - destruct (IsEmpty m') eqn:Ee.
    2: { destruct (_ && _); [|by exists c]. apply FinalizeRef_quietly; [done|]. apply Hs; [done|].
         intros He. revert Ee. unfold IsEmpty, GetCode in *. by rewrite Hh, He. }
    cbv zeta.
    set (c1 := if IsConfirmable (mRequest h) then _ else c). assert (Hf : frame c c1) by (unfold c1; destruct (IsConfirmable _); auto).
    destruct (mHandler h); [by exists c1|]. destruct (Eliminate_frame c1 (mRequestId h)) as (c' & E & Hf').
    exists c'. split; [done|by transitivity c1].
  - destruct (IsEmpty m'); [|by exists c]. apply FinalizeRef_quietly; [done|]. intros ????. by apply Herror.
Qed.

Lemma HandleResponse_lethal c m : header_ok (mHeader m) -> bytes (mPayload m) -> IsRequest m = false -> lethal c m ->
  HandleResponse quietly send c m = Die.
Proof using Hmessage.
  intros Hm Hb Hq (He & Ht & h & h' & hd & Em & Hf & Hhd). unfold HandleResponse. rewrite Em.
  destruct (named_response h m) as (m' & -> & Hh & Hp). cbn [mbind outcome_bind].
  assert (Hd : on_response hd (Some m') kNone = Die).
  { apply Hmessage; [by rewrite Hp| |]; revert Hq He; unfold IsRequest, IsEmpty, GetCode; by rewrite Hh. }
  assert (Et : GetType m' = GetType m) by (unfold GetType; by rewrite Hh). rewrite Et.
  unfold IsConfirmable, IsNonConfirmable in Ht. destruct (GetType m); try done.
  - destruct (SendEmptyMessage_plain c kAcknowledgment m') as (c1 & e & E & _); [by rewrite Hh|].
    unfold SendAck. rewrite E. cbn [mbind outcome_bind].
    assert (Hqc : quiet c c1) by (by eapply SendEmptyMessage_quiet). eapply FinalizeRef_dies; [|done..].
    revert Hf. unfold RequestsCache.find_holder. by rewrite (proj1 Hqc).
  - by eapply FinalizeRef_dies.
Qed.

(** What arrives, and stops the process. *)
Definition lethal_datagram (c : Coap.Coap) (ep : nat) (buf : ByteArray) : Prop :=
  exists m, Deserialize buf = Ok m /\ lethal c (SetEndpoint m (Some ep)).

Lemma Receive_total c ep buf : calm c -> bytes buf ->
  (Coap.Receive quietly run_resource send c ep buf = Die /\ lethal_datagram c ep buf) \/
  (~ lethal_datagram c ep buf /\ exists c', Coap.Receive quietly run_resource send c ep buf = Ok c' /\ frame c c').
Proof using Herror Hmessage Hresource.
  intros Hc Hb. unfold Coap.Receive, lethal_datagram. pose proof (Deserialize_header buf Hb) as Hm.
  destruct (Deserialize buf) as [m|?|]; [|right; split; [by intros (? & ? & _)|by exists c]|done].
  destruct Hm as [Hm Hp]. destruct (IsRequest (SetEndpoint m (Some ep))) eqn:Eq.
  { right. split; [|by apply HandleRequest_total]. intros (m' & [= <-] & He & _). unfold IsEmpty in He. apply Z.eqb_eq in He.
    unfold IsRequest in Eq. by rewrite He in Eq. }
  assert (Hd : {lethal c (SetEndpoint m (Some ep))} + {~ lethal c (SetEndpoint m (Some ep))}).
  { unfold lethal. destruct (IsEmpty _); [|right; by intros (? & _)]. destruct (_ || _); [|right; by intros (_ & ? & _)].
    destruct (RequestsCache.Match c _) as [h|]; [|right; by intros (_ & _ & ? & ? & ? & ? & _)].
    destruct (RequestsCache.find_holder c (mRequestId h)) as [h'|] eqn:Ef.
    2: { right. intros (_ & _ & h0 & ? & ? & [= <-] & E & _). by rewrite Ef in E. }
    destruct (mHandler h') as [hd|] eqn:Eh; [left; split_and!; [done..|by exists h, h', hd]|right].
    intros (_ & _ & h0 & h1 & ? & [= <-] & E & E'). rewrite Ef in E. injection E as <-. by rewrite Eh in E'. }
  destruct Hd as [Hd|Hd]; [left|right].
  - split; [by apply HandleResponse_lethal|by exists m].
  - split; [by intros (m' & [= <-] & ?)|by apply HandleResponse_total].
Qed.
End Quiet.

(** *** Sending, cancelling and retransmitting *)

Section Frames.
Context (on_response : nat -> option Message -> ErrorCode -> outcome Commissioner.Result).
Abbreviation quietly := (response_handler on_response).
Context (send : nat -> ByteArray -> ErrorCode) (random_token : nat -> ByteArray) (random_u32 : nat -> Z).

Lemma SendRequest_frame c m h c' : Coap.SendRequest quietly send random_token random_u32 c m h = Ok c' -> frame c c'.
Proof.
  unfold Coap.SendRequest. intros E. apply bind_ok in E as ([c1 e] & E1 & E).
  set (c0 := if match h with Some _ => _ | None => false end then _ else _) in E1.
  assert (H0 : frame c c0) by (unfold c0; destruct (match h with Some _ => _ | None => false end); auto). clearbody c0.
  assert (H1 : frame c0 c1).
  { unfold SendRequest_body in E1. destruct (negb _); [by injection E1 as <- <-|]. destruct (_ =? 0); [|done].
    destruct (AllocMessageId c0) as [mid c2] eqn:Ea. unfold AllocMessageId in Ea. cbv zeta in Ea. injection Ea as <- <-.
    apply bind_ok in E1 as (rq & _ & E1). apply bind_ok in E1 as ([[c3 rq'] e3] & E3 & E1). apply Send_frame in E3.
    etransitivity; [|etransitivity; [exact E3|]]; [auto|].
    destruct (bool_decide (e3 = kNone)); [|by injection E1 as <- <-]. destruct (IsConfirmable rq'); [|by injection E1 as <- <-].
    apply bind_ok in E1 as (c4 & E4 & E1). injection E1 as <- <-. unfold RequestsCache.Put in E4. apply UpdateTimer_frame in E4.
    etransitivity; [|exact E4]. auto. }
  transitivity c1; [by transitivity c0|]. destruct h; [|by injection E as <-].
  case_bool_decide; [by injection E as <-|]. by apply call_frame in E.
Qed.

Lemma CancelRequests_frame fuel : forall c c', CancelRequests_loop quietly fuel c = Ok c' -> frame c c'.
Proof.
  induction fuel as [|fuel IH]; intros c c' E; cbn [CancelRequests_loop] in E;
    (destruct (RequestsCache.IsEmpty c); [by injection E as <-|]); [done|].
  apply bind_ok in E as (h & _ & E). apply bind_ok in E as (c1 & E1 & E). apply FinalizeRef_frame in E1. apply IH in E.
  by transitivity c1.
Qed.

Lemma Retransmit_one_frame c now h c' : Retransmit_one quietly send c now h = Ok c' -> frame c c'.
Proof.
  unfold Retransmit_one. destruct (_ && _); [|by apply FinalizeCopy_frame]. intros E. apply bind_ok in E as (c1 & E1 & E).
  unfold RequestsCache.Put in E1. apply UpdateTimer_frame in E1.
  assert (H1 : frame c c1) by (etransitivity; [|exact E1]; auto). transitivity c1; [exact H1|].
  destruct (negb _); [|by injection E as <-]. apply bind_ok in E as ([[c2 m] e] & E2 & E). apply Send_frame in E2.
  transitivity c2; [done|]. case_bool_decide; [by injection E as <-|].
  apply FinalizeCopy_frame in E. etransitivity; [|exact E]. by apply emit_frame.
Qed.

Lemma Retransmit_loop_frame fuel now : forall c c', Retransmit_loop quietly send fuel c now = Ok c' -> frame c c'.
Proof.
  induction fuel as [|fuel IH]; intros c c' E; cbn [Retransmit_loop] in E;
    (destruct (RequestsCache.IsEmpty c); [by injection E as <-|]); apply bind_ok in E as (t & _ & E);
    (destruct (negb _); [by injection E as <-|]); [done|].
  apply bind_ok in E as ([h c1] & E1 & E). apply bind_ok in E as (c2 & E2 & E).
  unfold RequestsCache.EliminateFront in E1. destruct (mRequests c) as [|h' l]; [done|].
  apply bind_ok in E1 as (c3 & E3 & E1). injection E1 as <- <-. apply UpdateTimer_frame in E3.
  apply Retransmit_one_frame in E2. apply IH in E.
  etransitivity; [|etransitivity; [exact E3|etransitivity; [exact E2|exact E]]]. auto.
Qed.

Lemma HandleTimer_frame fuel c c' : Coap.HandleTimer quietly send fuel c = Ok c' -> frame c c'.
Proof.
  unfold Coap.HandleTimer, Retransmit. destruct (mRetransmissionTimer c); [|by intros [= <-]].
  intros E. apply bind_ok in E as (c1 & E1 & E). apply Retransmit_loop_frame in E1. apply UpdateTimer_frame in E.
  etransitivity; [|etransitivity; [exact E1|exact E]]. auto.
Qed.
End Frames.

(** ** The tunnel *)

(** The TLVs of UDP_TX.ntf and UDP_RX.ntf. *)
Definition udp_tlvs (addr : Address) (from to : Z) (datagram : ByteArray) : list Tlv.Tlv :=
  [Tlv_bytes kIpv6Address addr; Tlv_bytes kUdpEncapsulation (Encode_loop 2 from ++ Encode_loop 2 to ++ datagram)].

(** The address and the datagram of a message that fits into a TLV. *)
Definition udp_ok (addr : Address) (datagram : ByteArray) : Prop :=
  bytes addr /\ zlen addr = 16 /\ bytes datagram /\ zlen datagram < 65532.

Lemma zlen_Encode_loop2 v : zlen (Encode_loop 2 v) = 2.
Proof. done. Qed.

Lemma udp_tlvs_ok addr from to datagram : udp_ok addr datagram -> Forall (TlvFacts.wire_ok kMeshCoP) (udp_tlvs addr from to datagram).
Proof.
  intros (Ha & Hal & Hd & Hdl). pose proof (zlen_nonneg datagram). repeat apply Forall_cons_2; [..|done].
  - apply wire_value; [by apply (IsValid_exact _ _ 16)|done..].
  - apply wire_value; [|by repeat (apply Forall_app; split; [apply bytes_Encode_loop|])|done..].
    apply (IsValid_exact _ _ (4 + zlen datagram)); [|rewrite !zlen_app, !zlen_Encode_loop2; lia|unfold fits; lia].
    cbn. apply Z.leb_le. lia.
Qed.

Lemma encapsulate_spec p datagram : udp_ok (mPeerAddr p) datagram -> mConnected p = true ->
  exists m, encapsulate p datagram = Ok m /\ IsNonConfirmable m = true /\
    mPayload m = concat (map encoding (udp_tlvs (mPeerAddr p) (mLocalPort p) (mPeerPort p) datagram)).
Proof.
  intros Hok Hc. pose proof (udp_tlvs_ok _ (mLocalPort p) (mPeerPort p) _ Hok) as Hw. destruct Hok as (_ & Hl & _).
  unfold encapsulate, Addr.IsValid, IsIpv6. rewrite Hl, Hc. change (negb (16 =? 0) && (16 =? kIpv6Size)) with true. cbv iota zeta.
  destruct (SetUriPath (Message_new kNonConfirmable Code.kPost) ProxyUri.kUdpTx) as [m0|?|] eqn:Em; [|by vm_compute in Em..].
  assert (Hm0 : mPayload m0 = [] /\ IsNonConfirmable m0 = true) by (vm_compute in Em; injection Em as <-; done).
  cbn [mbind outcome_bind]. apply Forall_cons in Hw as [[] Hw]. apply Forall_cons in Hw as [[] _].
  rewrite AppendTlv_valid by done. cbn [mbind outcome_bind].
  unfold Encode. cbn [app]. rewrite <- app_assoc, AppendTlv_valid by done.
  eexists. split; [done|]. split; [apply Hm0|]. cbn [Append mPayload]. rewrite (proj1 Hm0). cbn [udp_tlvs map concat app].
  by rewrite app_nil_r.
Qed.

Lemma parse_udp_tlvs m addr from to datagram : udp_ok addr datagram -> fits 16 from ->
  mPayload m = concat (map encoding (udp_tlvs addr from to datagram)) ->
  parse_udp_rx m = Ok (addr, from, datagram).
Proof.
  intros Hok Hf Hm. pose proof (udp_tlvs_ok addr from to datagram Hok) as Hw. destruct Hok as (_ & Hl & _ & Hd).
  pose proof (zlen_nonneg datagram).
  pose proof (ParseTlvs_encodings _ Hw) as Hp. rewrite <- Hm in Hp. unfold parse_udp_rx, GetTlv. unfold ParseTlvs in Hp.
  destruct (GetTlvSet ∅ (mPayload m) kMeshCoP) as [s [[]|?|]]; [|done..].
  assert (s = last_wins (udp_tlvs addr from to datagram) ∅) as -> by (cbn [mbind outcome_bind] in Hp; congruence). clear Hp.
  change (last_wins (udp_tlvs addr from to datagram) ∅ !! kIpv6Address) with (Some (Tlv_bytes kIpv6Address addr)).
  change (last_wins (udp_tlvs addr from to datagram) ∅ !! kUdpEncapsulation) with
    (Some (Tlv_bytes kUdpEncapsulation (Encode_loop 2 from ++ Encode_loop 2 to ++ datagram))).
  cbn [mandatory mbind outcome_bind]. change (mValue (Tlv_bytes kIpv6Address addr)) with addr.
  set (l := Encode_loop 2 from ++ Encode_loop 2 to ++ datagram). change (mValue (Tlv_bytes kUdpEncapsulation l)) with l. unfold l.
  unfold SetRaw. rewrite Hl. change (negb (16 =? kIpv4Size) && negb (16 =? kIpv6Size)) with false.
  cbn [mbind outcome_bind]. rewrite Decode_take, Decode_Encode_loop by done. cbn [mbind outcome_bind].
  rewrite !zlen_app, !zlen_Encode_loop2, (proj2 (Z.leb_le _ _)) by lia.
  rewrite rdt_ok by (rewrite !zlen_app, !zlen_Encode_loop2; lia). done.
Qed.

(** The tunnel is faithful.  A connected endpoint with an IPv6 peer wraps each datagram of less than 65532 bytes
    into a non-confirmable request; reading it gives back the address of the peer, the port it came from and the
    datagram.  Without an IPv6 peer or a connection nothing is sent.  And a UDP_RX.ntf with the address and the port of
    a sender is received as the datagram that it wraps, from this sender. *)
Theorem udp_tunnel p datagram :
  (udp_ok (mPeerAddr p) datagram -> mConnected p = true ->
     exists m, Endpoint_Send p datagram = Ok (with_udp_tx p (m :: mUdpTx p)) /\ Endpoint_result p datagram = kNone /\
       IsNonConfirmable m = true /\ (fits 16 (mLocalPort p) -> parse_udp_rx m = Ok (mPeerAddr p, mLocalPort p, datagram)) /\
       exists tlvs, ParseTlvs (mPayload m) kMeshCoP = Ok tlvs /\
         mValue <$> tlvs !! kUdpEncapsulation
         = Some (Encode_loop 2 (mLocalPort p) ++ Encode_loop 2 (mPeerPort p) ++ datagram)) /\
  (zlen (mPeerAddr p) <> 16 \/ mConnected p = false ->
     Endpoint_Send p datagram = Ok p /\ Endpoint_result p datagram = kInvalidState) /\
  (forall ntop4 ntop6 on_response m addr from to, udp_ok addr datagram -> fits 16 from ->
     mPayload m = concat (map encoding (udp_tlvs addr from to datagram)) ->
     HandleUdpRx ntop4 ntop6 on_response m p
     = coap_do ntop4 ntop6 (fun send c => Coap.Receive (response_handler on_response) (SendEmptyChanged send) send c 0 datagram)
         (with_peer p addr from)).
Proof.
  split; [|split].
  - intros Hok Hc. destruct (encapsulate_spec p datagram Hok Hc) as (m & E & Hn & Hm). exists m.
    unfold Endpoint_Send, Endpoint_result. rewrite E. split_and!; [done..|intros Hf; by apply (parse_udp_tlvs _ _ _ (mPeerPort p))|].
    rewrite Hm, ParseTlvs_encodings by by apply udp_tlvs_ok. by eexists.
  - intros H. unfold Endpoint_Send, Endpoint_result, encapsulate, Addr.IsValid, IsIpv6.
    assert (E : (negb (zlen (mPeerAddr p) =? 0) && (zlen (mPeerAddr p) =? kIpv6Size)) && mConnected p = false).
    { destruct H as [H| ->]; [|by rewrite andb_false_r]. unfold kIpv6Size.
      by rewrite (proj2 (Z.eqb_neq (zlen (mPeerAddr p)) 16) H), andb_false_r. }
    destruct (_ && (zlen (mPeerAddr p) =? kIpv6Size)); [cbn [andb] in E; by rewrite E|done].
  - intros ntop4 ntop6 on_response m addr from to Hok Hf Hm. unfold HandleUdpRx. by rewrite (parse_udp_tlvs m addr from to datagram).
Qed.

(** ** What comes out of the tunnel *)

Section Proxy.
Context (inet_ntop4 inet_ntop6 : ByteArray -> option string_t).
Context (random_token : nat -> ByteArray) (random_u32 : nat -> Z) (loop_fuel : nat).
Context (on_response : nat -> option Message -> ErrorCode -> outcome Commissioner.Result).
Abbreviation step_p := (proxy_step inet_ntop4 inet_ntop6 random_token random_u32 loop_fuel on_response).
Abbreviation run_p := (proxy_run inet_ntop4 inet_ntop6 random_token random_u32 loop_fuel on_response).
Abbreviation handle_rx := (HandleUdpRx inet_ntop4 inet_ntop6 on_response).
Abbreviation replay_p := (replay inet_ntop4 inet_ntop6).

Lemma AppendTlv_no_die m t : AppendTlv m t <> Die.
Proof. destruct (Tlv.IsValid t) eqn:E; [by rewrite AppendTlv_valid|by rewrite AppendTlv_invalid]. Qed.

Lemma Endpoint_Send_total p datagram : exists p', Endpoint_Send p datagram = Ok p' /\ mCoap p' = mCoap p.
Proof.
  unfold Endpoint_Send. destruct (encapsulate p datagram) as [m|e|] eqn:E; [by eexists|by exists p|]. exfalso.
  unfold encapsulate in E. destruct (_ && _); [|done]. destruct (mConnected p); [|done].
  destruct (SetUriPath (Message_new kNonConfirmable Code.kPost) ProxyUri.kUdpTx) as [m0|?|] eqn:Em; [|by vm_compute in Em..].
  cbn [mbind outcome_bind] in E.
  destruct (AppendTlv m0 (Tlv_bytes kIpv6Address (mPeerAddr p))) as [m1|?|] eqn:E1; [|done|by apply AppendTlv_no_die in E1].
  by apply AppendTlv_no_die in E.
Qed.

Lemma mandatory_ok o (f : Tlv.Tlv -> outcome Notification) :
  (forall t, o = Some t -> f t <> Die) -> (x ← mandatory o; f x) <> Die.
Proof. intros H. destruct o as [t|]; [|done]. by apply H. Qed.

Lemma parsed_mask s t : set_ok kMeshCoP s -> s !! kChannelMask = Some t -> bytes (mValue t).
Proof. intros Hs Ht. by destruct (Hs _ _ Ht) as (_ & _ & _ & [_ ?]). Qed.

Lemma notifications_total a m : bytes (mPayload m) -> pan_id_conflict a m <> Die /\ energy_report a m <> Die.
Proof.
  intros Hb. unfold pan_id_conflict, energy_report. pose proof (ParseTlvs_total _ Hb) as Hs.
  destruct (ParseTlvs (mPayload m) kMeshCoP) as [s|?|]; [|done..]. cbn [mbind outcome_bind]. split.
  - apply mandatory_ok. intros mask Hm. apply mandatory_ok. intros pan Hp.
    pose proof (DecodeChannelMask_total (mValue mask)) as Hd. apply parsed_mask in Hm; [|done].
    destruct (DecodeChannelMask (mValue mask)); [|done|by destruct Hd]. cbn [mbind outcome_bind].
    destruct (set_ok_entry s kPanId pan (fun l => l = 2) Hs Hp) as [_ Hl]; [intros v; exact (IsValid_iff kPanId v (fun l => l = 2) ltac:(len_rule) ltac:(len_rule))|].
    cbv beta in Hl. unfold GetValueAsUint16, Decode. rewrite (proj2 (Z.leb_le _ _)) by lia.
    by rewrite (proj2 (Z.leb_le _ _)) by lia.
  - destruct (s !! kChannelMask) as [t|] eqn:Ht; [|done]. cbn [mbind outcome_bind].
    pose proof (DecodeChannelMask_total (mValue t)) as Hd. apply parsed_mask in Ht; [|done].
    destruct (DecodeChannelMask (mValue t)); [done|done|by destruct Hd].
Qed.

(** *** Replaying *)

Lemma notify_total h m p : bytes (mPayload m) -> exists p', notify inet_ntop4 inet_ntop6 h m p = Ok p' /\ mCoap p' = mCoap p.
Proof.
  intros Hb. destruct (notifications_total (peer_name inet_ntop4 inet_ntop6 p) m Hb) as [H1 H2]. unfold notify.
  destruct h as [|[|[|h]]]; [by eexists| | |by exists p].
  - destruct (pan_id_conflict _ _); [by eexists|by exists p|done].
  - destruct (energy_report _ _); [by eexists|by exists p|done].
Qed.

Lemma replay_total l : forall p, Forall tame l -> exists p', replay_p l p = Ok p' /\ mCoap p' = mCoap p.
Proof.
  induction l as [|e l IH]; intros p Hl; [by exists p|]. apply Forall_cons in Hl as [He Hl]. cbn [replay].
  destruct e as [ep data t|id h r err|h m|id|id err]; [| | |by apply IH|by apply IH].
  - destruct (Endpoint_Send_total p data) as (p1 & -> & E1). destruct (IH p1 Hl) as (p' & E & E'). exists p'. by rewrite <- E1.
  - by apply IH.
  - destruct (notify_total h m p He) as (p1 & -> & E1). destruct (IH p1 Hl) as (p' & E & E'). exists p'. by rewrite <- E1.
Qed.

Lemma new_events (l tr : list CoapEvent) : rev (take (length (l ++ tr) - length tr) (l ++ tr)) = rev l.
Proof. rewrite length_app. replace (length l + length tr - length tr)%nat with (length l) by lia. by rewrite take_app_length. Qed.

(** An operation of the CoAP object that succeeds and stays in its frame. *)
Lemma coap_do_total op p c : op (fun _ => Endpoint_result p) (mCoap p) = Ok c -> frame (mCoap p) c ->
  exists p', coap_do inet_ntop4 inet_ntop6 op p = Ok p' /\ mCoap p' = c.
Proof.
  intros E [_ _ _ (l & El & Hl)]. unfold coap_do. rewrite E. cbn [mbind outcome_bind]. rewrite El, new_events.
  destruct (replay_total (rev l) (with_proxy_coap p c)) as (p' & E' & H'); [by apply Forall_rev|]. by exists p'.
Qed.

Lemma coap_do_frame op p p' :
  (forall send c', op send (mCoap p) = Ok c' -> frame (mCoap p) c') ->
  coap_do inet_ntop4 inet_ntop6 op p = Ok p' -> frame (mCoap p) (mCoap p').
Proof.
  intros Hop E. unfold coap_do in E. apply bind_ok in E as (c & E1 & E). apply Hop in E1 as Hf.
  destruct Hf as [_ _ _ (l & El & Hl)]. rewrite El, new_events in E.
  destruct (replay_total (rev l) (with_proxy_coap p c)) as (p1 & E' & H'); [by apply Forall_rev|].
  rewrite E' in E. injection E as <-. rewrite H'. by apply Hop in E1.
Qed.

(** *** Reachable states *)

Definition resources : gmap string_t (option nat) :=
  <[ProxyUri.kMgmtEdReport := Some hEnergyReport]> (<[ProxyUri.kMgmtPanidConflict := Some hPanIdConflict]>
    (<[ProxyUri.kMgmtDatasetChanged := Some hDatasetChanged]> ∅)).

Definition proxy_ok (p : Proxy) : Prop := calm (mCoap p) /\ mResources (mCoap p) = resources.

Lemma frame_ok p p' : frame (mCoap p) (mCoap p') -> proxy_ok p -> proxy_ok p'.
Proof. intros Hf [Hc Hr]. split; [by eapply frame_calm|]. by rewrite (frame_resources _ _ Hf). Qed.

Definition payload_bytes_ok (ev : ProxyEvent) : Prop := match ev with PEvtUdpRx m => bytes (mPayload m) | _ => True end.

(** What a UDP_RX.ntf wraps can be read, or it is malformed. *)
Lemma parse_udp_rx_total m : bytes (mPayload m) ->
  match parse_udp_rx m with
  | Ok (addr, port, datagram) => zlen addr = 16 /\ bytes datagram
  | Err _ => True
  | Die => False
  end.
Proof.
  intros Hb. unfold parse_udp_rx, GetTlv. pose proof (ParseTlvs_total _ Hb) as Hs. unfold ParseTlvs in Hs.
  destruct (GetTlvSet ∅ (mPayload m) kMeshCoP) as [s [[]|?|]]; [|done..]. cbn [mbind outcome_bind] in Hs.
  destruct (s !! kIpv6Address) as [ta|] eqn:Ha; [|done]. destruct (s !! kUdpEncapsulation) as [tu|] eqn:Hu; [|done].
  cbn [mandatory mbind outcome_bind].
  destruct (set_ok_entry s kIpv6Address ta (fun l => l = 16) Hs Ha) as [_ Hl]; [intros v; exact (IsValid_iff kIpv6Address v (fun l => l = 16) ltac:(len_rule) ltac:(len_rule))|].
  destruct (set_ok_entry s kUdpEncapsulation tu (fun l => 4 <= l < 65536) Hs Hu) as [Hbu Hlu].
  { intros v. apply (IsValid_iff kUdpEncapsulation v (fun l => 4 <= l < 65536)); [|lia]. intros n Hn Hf. unfold fits in Hf.
    change (switch mesh_cop_rules (fun _ => false) kUdpEncapsulation n) with (4 <=? n). rewrite Z.leb_le. lia. }
  cbv beta in *. unfold SetRaw. rewrite Hl. cbn [mbind outcome_bind].
  change (negb (16 =? kIpv4Size) && negb (16 =? kIpv6Size)) with false. cbn [mbind outcome_bind]. unfold Decode.
  rewrite (proj2 (Z.leb_le _ _)) by lia. cbn [mbind outcome_bind]. rewrite (proj2 (Z.leb_le _ _)) by lia.
  rewrite rdt_ok by lia. split; [done|by apply Forall_drop].
Qed.

(** A request is answered. *)
Lemma SendEmptyChanged_runs send h m c : header_ok (mHeader m) -> exists c', SendEmptyChanged send h m c = Ok c' /\ frame c c'.
Proof using.
  intros Hm. unfold SendEmptyChanged. destruct (SendEmptyChanged_plain send c m Hm) as (c' & e & E & Hf). rewrite E. by exists c'.
Qed.

Lemma proxy_step_ok ev p p' : payload_bytes_ok ev -> proxy_ok p -> step_p ev p = Ok p' -> proxy_ok p'.
Proof.
  intros Hev Hp E. apply (frame_ok p p'); [|done]. destruct ev as [rq h a port|m| |conn port|now|]; cbn [proxy_step] in E.
  - unfold SendRequest in E. destruct (_ && _); [|done].
    eapply (coap_do_frame _ (with_peer p a port)) in E; [done|]. intros send c'. apply SendRequest_frame.
  - unfold HandleUdpRx in E. pose proof (parse_udp_rx_total m Hev) as Hr.
    destruct (parse_udp_rx m) as [[[addr port] datagram]|?|]; [|by injection E as <-|done].
    eapply (coap_do_frame _ (with_peer p addr port)) in E; [done|]. intros send c' E'.
    eapply Receive_frame; [|apply Hp|apply Hr|exact E']. by apply SendEmptyChanged_runs.
  - unfold CancelRequests in E. eapply coap_do_frame in E; [done|]. intros send c'. apply CancelRequests_frame.
  - by injection E as <-.
  - injection E as <-. by apply same_frame.
  - destruct (mRetransmissionTimer (mCoap p)) as [t|]; [|by injection E as <-].
    destruct (t <=? _); [|by injection E as <-]. eapply coap_do_frame in E; [done|]. intros send c'. apply HandleTimer_frame.
Qed.

Lemma proxy_run_ok evs : forall p p', Forall payload_bytes_ok evs -> proxy_ok p -> run_p evs p = Ok p' -> proxy_ok p'.
Proof.
  induction evs as [|ev evs IH]; intros p p' Hev Hp E; [by injection E as <-|]. apply Forall_cons in Hev as [He Hev].
  apply bind_ok in E as (p1 & E1 & E). apply proxy_step_ok in E1; [|done..]. by eapply IH.
Qed.

Lemma proxy_init_ok now p : ProxyClient_init now = Ok p -> proxy_ok p.
Proof.
  unfold ProxyClient_init, Coap.AddResource. cbn -[resources]. intros E.
  split; [|]; vm_compute in E; injection E as <-; [by split|]. by vm_compute.
Qed.

(** What a UDP_RX.ntf wraps stops the process. *)
Definition lethal_rx (p : Proxy) (m : Message) : Prop :=
  exists addr port datagram, parse_udp_rx m = Ok (addr, port, datagram) /\ lethal_datagram (mCoap p) 0 datagram.

Lemma HandleUdpRx_total m p : proxy_ok p -> bytes (mPayload m) ->
  (forall hd e, e <> kNone -> on_response hd None e <> Die) ->
  (forall hd m, bytes (mPayload m) -> IsRequest m = false -> on_response hd (Some m) kNone = Die <-> IsEmpty m = true) ->
  (handle_rx m p = Die /\ lethal_rx p m) \/
  (~ lethal_rx p m /\ exists p', handle_rx m p = Ok p' /\ frame (mCoap p) (mCoap p')).
Proof using random_u32 random_token loop_fuel.
  intros Hp Hb Herror Hmessage. unfold HandleUdpRx, lethal_rx. pose proof (parse_udp_rx_total m Hb) as Hr.
  destruct (parse_udp_rx m) as [[[addr port] datagram]|?|]; [|right; split; [by intros (? & ? & ? & ? & _)|by exists p]|done].
  destruct Hr as [_ Hd]. set (p0 := with_peer p addr port).
  destruct (Receive_total on_response (fun _ => Endpoint_result p0) _ (SendEmptyChanged_runs (fun _ => Endpoint_result p0))
    Herror Hmessage (mCoap p) 0%nat datagram (proj1 Hp) Hd) as [[E Hl]|(Hl & c & E & Hf)]; [left|right].
  - split; [|by exists addr, port, datagram]. unfold coap_do. change (mCoap p0) with (mCoap p). by rewrite E.
  - split; [intros (? & ? & ? & [= <- <- <-] & ?); done|].
    destruct (coap_do_total (fun send c => Coap.Receive (response_handler on_response) (SendEmptyChanged send) send c 0 datagram) p0 c E Hf)
      as (p' & E' & Hc). exists p'. split; [done|by rewrite Hc].
Qed.

(** *** Notifications *)

(** The answer of [SendEmptyChanged]. *)
Definition changed_ack (request : Message) : Message :=
  SetTokenBytes (SetMessageId (Message_new kAcknowledgment Code.kChanged) (GetMessageId request)) (GetToken request).

Lemma changed_ack_ok request : header_ok (mHeader request) -> message_ok (changed_ack request).
Proof.
  intros Hm. assert (Hp : plain (changed_ack request)).
  { destruct Hm as (_&_&_&_&Hi&Ht&_). apply plain_token; [|by apply bytes_zsub]. apply plain_id; [|done]. by apply plain_new. }
  destruct Hp as [Ho Hh]. split; [done|]. rewrite Ho. split_and!; [constructor|constructor|done..].
Qed.

Lemma SendEmptyChanged_ack send c request : IsConfirmable request = true -> header_ok (mHeader request) ->
  exists c' e, Coap.SendEmptyChanged send c request = Ok (c', e) /\
    exists ep, trace c' = EvSend ep (message_bytes (changed_ack request)) kSubTypeNone :: trace c.
Proof.
  intros Hc Hm. unfold Coap.SendEmptyChanged, SendHeaderResponse. rewrite Hc. unfold IsConfirmable in Hc.
  apply bool_decide_eq_true in Hc. rewrite Hc. cbn [negb]. unfold SendResponse.
  set (r0 := if _ =? 0 then _ else _). assert (Er : SetTokenBytes r0 (GetToken request) = changed_ack request) by (unfold r0; by case_if).
  rewrite Er. unfold Coap.Send.
  pose proof (Serialize_message _ (changed_ack_ok request Hm)) as Hs. change (wire_fits 0 _) with true in Hs. cbv iota in Hs.
  change (Serialize (SetEndpoint (changed_ack request) (mEndpoint request)) []) with (Serialize (changed_ack request) []).
  rewrite Hs. cbn [mbind outcome_bind]. eexists _, _. split; [done|]. by eexists.
Qed.

(** A connected client answers the request of a sender, and tells the user. *)
Lemma HandleUdpRx_request p m addr port datagram request uri h :
  proxy_ok p -> mConnected p = true -> udp_ok addr (message_bytes (changed_ack request)) ->
  parse_udp_rx m = Ok (addr, port, datagram) -> Deserialize datagram = Ok request -> bytes datagram ->
  IsRequest request = true -> IsConfirmable request = true -> GetUriPath request = Ok uri -> resources !! uri = Some (Some h) ->
  ResponsesCache.Match (mCoap p) (SetEndpoint request (Some 0%nat)) = None ->
  exists p' udpTx p1, handle_rx m p = Ok p' /\
    encapsulate (with_peer p addr port) (message_bytes (changed_ack request)) = Ok udpTx /\
    mUdpTx p' = udpTx :: mUdpTx p /\
    notify inet_ntop4 inet_ntop6 h request (with_peer p addr port) = Ok p1 /\
    mNotified p' = mNotified p1 /\ mMeshLocalPrefix p' = mMeshLocalPrefix p1.
Proof.
  intros [Hc Hres] Hcon Hok Hm Hd Hb Hrq Hcf Huri Hh Hmiss. unfold HandleUdpRx. rewrite Hm.
  pose proof (Deserialize_header datagram Hb) as Hhd. rewrite Hd in Hhd. destruct Hhd as [Hhd Hbp].
  set (p0 := with_peer p addr port). set (send := fun _ : nat => Endpoint_result p0).
  set (rq := SetEndpoint request (Some 0%nat)) in *.
  destruct (SendEmptyChanged_ack send (emit (mCoap p) (EvRequest h rq)) rq) as (c' & e & Ec & ep & Et); [done..|].
  change (changed_ack rq) with (changed_ack request) in Et.
  assert (Er : Coap.Receive (response_handler on_response) (SendEmptyChanged send) send (mCoap p0) 0 datagram = Ok c').
  { unfold Coap.Receive. rewrite Hd. fold rq. change (IsRequest rq) with (IsRequest request). rewrite Hrq.
    unfold HandleRequest. change (GetUriPath rq) with (GetUriPath request). rewrite Huri.
    change (mCoap p0) with (mCoap p). rewrite Hmiss, Hres, Hh. unfold call_resource, SendEmptyChanged. by rewrite Ec. }
  unfold coap_do. fold send. rewrite Er. cbn [mbind outcome_bind]. rewrite Et.
  change (EvSend ep (message_bytes (changed_ack request)) kSubTypeNone :: trace (emit (mCoap p) (EvRequest h rq)))
    with ([EvSend ep (message_bytes (changed_ack request)) kSubTypeNone; EvRequest h rq] ++ trace (mCoap p0)).
  rewrite new_events. cbn [rev app replay].
  destruct (notify_total h request (with_proxy_coap p0 c') Hbp) as (p2 & E2 & _).
  destruct (notify_total h request p0 Hbp) as (p1 & E1 & _).
  change (notify inet_ntop4 inet_ntop6 h rq) with (notify inet_ntop4 inet_ntop6 h request).
  destruct (encapsulate_spec p0 (message_bytes (changed_ack request)) Hok Hcon) as (tx & Etx & _ & _).
  assert (H2 : encapsulate p2 (message_bytes (changed_ack request)) = Ok tx /\ mUdpTx p2 = mUdpTx p /\
    mNotified p2 = mNotified p1 /\ mMeshLocalPrefix p2 = mMeshLocalPrefix p1).
  { unfold notify in E1, E2. destruct h as [|[|[|h]]].
    - injection E1 as <-. injection E2 as <-. done.
    - destruct (pan_id_conflict (peer_name inet_ntop4 inet_ntop6 p0) request) eqn:En;
        change (peer_name inet_ntop4 inet_ntop6 (with_proxy_coap p0 c')) with (peer_name inet_ntop4 inet_ntop6 p0) in E2;
        rewrite En in E2; simplify_eq; done.
    - destruct (energy_report (peer_name inet_ntop4 inet_ntop6 p0) request) eqn:En;
        change (peer_name inet_ntop4 inet_ntop6 (with_proxy_coap p0 c')) with (peer_name inet_ntop4 inet_ntop6 p0) in E2;
        rewrite En in E2; simplify_eq; done.
    - injection E1 as <-. injection E2 as <-. done. }
  destruct H2 as (H2 & Hu & Hn & Hp). rewrite E2. cbn [mbind outcome_bind]. unfold Endpoint_Send. rewrite H2. cbn [mbind outcome_bind].
  eexists _, tx, p1. split; [done|]. cbn [with_udp_tx mUdpTx mNotified mMeshLocalPrefix]. by rewrite Hu.
Qed.

(** What the senders of the notifications encode. *)
Definition mask_ok (mask : ChannelMask) : Prop := Forall entry_ok mask /\ zlen (mask_bytes mask) < kEscapeLength.

Lemma notification_contents addr mask panId energy m :
  mask_ok mask -> fits 16 panId -> bytes energy -> zlen energy < kEscapeLength ->
  (mPayload m = concat (map encoding [Tlv_bytes kChannelMask (mask_bytes mask); Tlv_u16 kPanId panId]) ->
     pan_id_conflict addr m = Ok (OnPanIdConflict addr mask panId)) /\
  (mPayload m = concat (map encoding [Tlv_bytes kChannelMask (mask_bytes mask); Tlv_bytes kEnergyList energy]) ->
     energy_report addr m = Ok (OnEnergyReport addr mask energy)).
Proof.
  intros [Hm Hml] Hp He Hel. pose proof (zlen_nonneg (mask_bytes mask)). pose proof (zlen_nonneg energy).
  unfold kEscapeLength in *.
  assert (Hw : TlvFacts.wire_ok kMeshCoP (Tlv_bytes kChannelMask (mask_bytes mask))).
  { apply wire_value; [|by apply ActiveCodec.bytes_mask_bytes|done..].
    apply (IsValid_exact _ _ (zlen (mask_bytes mask))); [|done|unfold fits; lia]. by apply Z.ltb_lt. }
  assert (Hwp : TlvFacts.wire_ok kMeshCoP (Tlv_u16 kPanId panId))
    by by apply (wire_value kPanId (Encode_loop 2 panId)); [apply IsValid_u16|apply bytes_Encode_loop|..].
  assert (Hwe : TlvFacts.wire_ok kMeshCoP (Tlv_bytes kEnergyList energy))
    by (apply wire_value; [apply (IsValid_exact _ _ (zlen energy)); [by apply Z.ltb_lt|done|unfold fits; lia]|done..]).
  split; intros E; unfold pan_id_conflict, energy_report; rewrite E, ParseTlvs_encodings
    by (repeat apply Forall_cons_2; done); cbn [mbind outcome_bind].
  all: set (ts := _ :: _);
    assert (E1 : last_wins ts ∅ !! kChannelMask = Some (Tlv_bytes kChannelMask (mask_bytes mask))) by reflexivity;
    rewrite E1; cbn [mandatory mbind outcome_bind].
  - assert (E2 : last_wins ts ∅ !! kPanId = Some (Tlv_u16 kPanId panId)) by reflexivity.
    rewrite E2. cbn [mandatory mbind outcome_bind]. replace (mValue _) with (mask_bytes mask) by done.
    rewrite DecodeChannelMask_bytes by done. cbn [mbind outcome_bind]. by rewrite CommissionerCodec.GetValueAsUint16_u16.
  - assert (E2 : last_wins ts ∅ !! kEnergyList = Some (Tlv_bytes kEnergyList energy)) by reflexivity.
    rewrite E2. replace (mValue (Tlv_bytes kChannelMask (mask_bytes mask))) with (mask_bytes mask) by done.
    by rewrite DecodeChannelMask_bytes.
Qed.

Lemma GetToken_ok r : header_ok (mHeader r) -> GetToken r = mToken (mHeader r).
Proof. intros (_ & _ & Hl & _ & _ & _ & Ht). unfold GetToken. rewrite Z.min_r by lia. by rewrite <- Ht, zsub_all. Qed.

Lemma changed_ack_fields request : header_ok (mHeader request) ->
  IsAck (changed_ack request) = true /\ GetCode (changed_ack request) = Code.kChanged /\
  GetMessageId (changed_ack request) = GetMessageId request /\ GetToken (changed_ack request) = GetToken request.
Proof.
  intros Hm. split_and!; [done..|]. pose proof (changed_ack_ok request Hm) as (Ha & _). rewrite (GetToken_ok _ Ha).
  assert (El : GetToken request = mToken (mHeader request)) by by apply GetToken_ok.
  destruct Hm as (_ & _ & Hl & _ & _ & _ & Ht). unfold changed_ack, SetTokenBytes. cbn [mToken mHeader upd_header].
  rewrite El, Z.min_r by lia. by rewrite zsub_all.
Qed.

Lemma changed_ack_small request addr : header_ok (mHeader request) -> bytes addr -> zlen addr = 16 ->
  udp_ok addr (message_bytes (changed_ack request)).
Proof.
  intros Hm Ha Hl. pose proof (changed_ack_ok request Hm) as (Hh & _). split_and!; [done..| |].
  - unfold message_bytes. cbn [changed_ack SetTokenBytes mOptions mPayload upd_header]. unfold header_bytes.
    destruct Hh as (_ & _ & _ & Hc & Hi & Ht & _). destruct (id_bytes _ Hi) as (? & ? & _).
    repeat apply Forall_app_2; try done. by repeat (apply Forall_cons_2; [try done; apply u8_byte|]).
  - unfold message_bytes. rewrite !zlen_app, zlen_header_bytes. destruct Hh as (_ & _ & Hl8 & _ & _ & _ & Ht). rewrite Ht.
    change (zlen (wire_bytes 0 (flatten (mOptions (changed_ack request))))) with 0.
    change (zlen (payload_bytes (changed_ack request))) with 0. lia.
Qed.

(** C13: Notifications reach the user, and are answered.  When a connected client in a reachable state receives a
    confirmable request from an IPv6 address that it did not answer before, for one of its three resources, it sends
    exactly one datagram: an empty 2.04 acknowledgment with the id and the token of the request, to the sender.  A
    MGMT_DATASET_CHANGED.ntf makes it forget the mesh-local prefix; a MGMT_PANID_CONFLICT.ans and a MGMT_ED_REPORT.ans
    tell the user the address of the sender and the channel mask, the PAN ID and the energies that it encoded. *)
Theorem notifications_delivered evs now p0 p m addr port datagram request uri h :
  ProxyClient_init now = Ok p0 -> Forall payload_bytes_ok evs -> run_p evs p0 = Ok p -> mConnected p = true ->
  parse_udp_rx m = Ok (addr, port, datagram) -> bytes addr -> zlen addr = 16 -> bytes datagram ->
  Deserialize datagram = Ok request -> IsRequest request = true -> IsConfirmable request = true ->
  GetUriPath request = Ok uri -> resources !! uri = Some (Some h) ->
  ResponsesCache.Match (mCoap p) (SetEndpoint request (Some 0%nat)) = None ->
  exists p' udpTx ack, handle_rx m p = Ok p' /\ mUdpTx p' = udpTx :: mUdpTx p /\
    encapsulate (with_peer p addr port) (message_bytes ack) = Ok udpTx /\ Deserialize (message_bytes ack) = Ok ack /\
    (IsAck ack = true /\ GetCode ack = Code.kChanged /\ GetMessageId ack = GetMessageId request /\ GetToken ack = GetToken request) /\
    (h = hDatasetChanged -> mNotified p' = OnDatasetChanged :: mNotified p /\ mMeshLocalPrefix p' = []) /\
    (forall mask panId energy, mask_ok mask -> fits 16 panId -> bytes energy -> zlen energy < kEscapeLength ->
      (h = hPanIdConflict ->
         mPayload request = concat (map encoding [Tlv_bytes kChannelMask (mask_bytes mask); Tlv_u16 kPanId panId]) ->
         mNotified p' = OnPanIdConflict (Addr.ToString inet_ntop4 inet_ntop6 addr) mask panId :: mNotified p) /\
      (h = hEnergyReport ->
         mPayload request = concat (map encoding [Tlv_bytes kChannelMask (mask_bytes mask); Tlv_bytes kEnergyList energy]) ->
         mNotified p' = OnEnergyReport (Addr.ToString inet_ntop4 inet_ntop6 addr) mask energy :: mNotified p)).
Proof.
  intros E0 Hev E Hcon Hm Ha Hal Hb Hd Hrq Hcf Huri Hh Hmiss.
  assert (Hp : proxy_ok p) by (eapply proxy_run_ok; [exact Hev|by eapply proxy_init_ok|exact E]).
  pose proof (Deserialize_header datagram Hb) as Hhd. rewrite Hd in Hhd. destruct Hhd as [Hhd _].
  destruct (HandleUdpRx_request p m addr port datagram request uri h Hp Hcon (changed_ack_small request addr Hhd Ha Hal)
    Hm Hd Hb Hrq Hcf Huri Hh Hmiss) as (p' & tx & p1 & E' & Etx & Htx & En & Hn & Hpre).
  exists p', tx, (changed_ack request). split; [done|]. split; [done|]. split; [done|].
  split; [by apply Deserialize_message, changed_ack_ok|]. split; [by apply changed_ack_fields|]. rewrite Hn, Hpre. split.
  - intros ->. by injection En as <-.
  - intros mask panId energy Hmask Hpan He Hel.
    destruct (notification_contents (Addr.ToString inet_ntop4 inet_ntop6 addr) mask panId energy request Hmask Hpan He Hel) as [Hc1 Hc2].
    split; intros -> Hpl; unfold notify, hPanIdConflict, hEnergyReport, peer_name in En; cbn [mPeerAddr with_peer] in En.
    + rewrite (Hc1 Hpl) in En. by injection En as <-.
    + rewrite (Hc2 Hpl) in En. by injection En as <-.
Qed.
End Proxy.

(** ** What stops the process

    The handlers of the requests are the commissioner's. *)
Section Lethal.
Context (inet_ntop4 inet_ntop6 : ByteArray -> option string_t).
Context (random_token : nat -> ByteArray) (random_u32 : nat -> Z) (loop_fuel : nat).
Context `{HSign : Commissioner.RequestSigner} (channel0 : Channel) (panId0 rotation0 delay0 : Z).
Context (commissioner : nat -> Commissioner.Commissioner) (kont : nat -> Commissioner.OnResponse).
Abbreviation handlers := (commissioner_handlers channel0 panId0 rotation0 delay0 commissioner kont).

(** C12: Which UDP_RX.ntf stops the process.  The handlers are those that the commissioner passes with its requests to
    devices.  In every reachable state of the client, and for any payload, handling a UDP_RX.ntf ends the process
    exactly if it wraps an empty confirmable or non-confirmable message that carries the token of a pending request:
    the handler then asks for the URI of a message that is no response.  Everything else is handled without running
    into an assertion or out of a buffer, and the resources stay; a malformed UDP_RX.ntf leaves the client as it is. *)
Theorem udp_rx_safe evs now p0 p m :
  (forall h, CommissionerInvariant.user_kind (kont h)) ->
  ProxyClient_init now = Ok p0 -> Forall payload_bytes_ok evs ->
  proxy_run inet_ntop4 inet_ntop6 random_token random_u32 loop_fuel handlers evs p0 = Ok p -> bytes (mPayload m) ->
  (HandleUdpRx inet_ntop4 inet_ntop6 handlers m p = Die <-> lethal_rx p m) /\
  (~ lethal_rx p m -> exists p', HandleUdpRx inet_ntop4 inet_ntop6 handlers m p = Ok p' /\ mResources (mCoap p') = resources) /\
  ((forall d, parse_udp_rx m <> Ok d) -> HandleUdpRx inet_ntop4 inet_ntop6 handlers m p = Ok p).
Proof.
  intros Hk E0 Hev E Hb. apply proxy_init_ok in E0. assert (Hp : proxy_ok p) by by eapply proxy_run_ok.
  destruct (HandleUdpRx_total inet_ntop4 inet_ntop6 random_token random_u32 loop_fuel handlers m p Hp Hb) as [[Ed Hl]|(Hl & p' & E' & Hf)].
  - intros hd e He. unfold commissioner_handlers. by rewrite told_result_error.
  - intros hd r Hr Hq. unfold commissioner_handlers. rewrite told_result_dies by (try done; eauto).
    split; [by intros (_ & ? & [= <-] & ?)|by eauto].
  - split; [done|]. split; [done|]. intros Hn. by destruct Hl as (? & ? & ? & Hd & _); apply Hn in Hd.
  - split; [by rewrite E'|]. split; [intros _; exists p'; split; [done|by destruct (frame_ok _ _ Hf Hp)]|].
    intros Hn. unfold HandleUdpRx. pose proof (parse_udp_rx_total m Hb).
    destruct (parse_udp_rx m) as [d|?|]; [by destruct (Hn d)|done|done].
Qed.
End Lethal.

