(* ===== verification/ProxyScript.v ===== *)
(** * Runs of the UDP proxy

    Witnesses of the properties of ProxyFacts, and behaviours that the code
    does not mean. *)

From stdpp Require Import gmap.
From S2P Require Import Prelude Outcome Common NetworkData Dataset DatasetCodec Coap Proxy ProxyFacts.
From S2P Require Tlv CoapMessage Commissioner.
Import Endian Addr Tlv.Tlv Tlv.TlvFacts Dataset DatasetFacts CoapMessage.Message CoapMessage.MessageFacts CoapMessage.

Definition no_name (b : ByteArray) : option string_t := None.
Definition device (n : Z) : Address := repeat n 16.

(** Every request is one whose handler gets the code of the response, as those of the announcements and the scans. *)
#[local] Instance unsigned : Commissioner.RequestSigner :=
  {| Commissioner.sign_request m _ := Ok m; Commissioner.sign_ntop4 := no_name; Commissioner.sign_ntop6 := no_name |}.
Definition the_commissioner : Commissioner.Commissioner :=
  Commissioner.Commissioner_init (Commissioner.mkConfig false 30 [] [] (repeat 1 16) [] [] []) 0.
Abbreviation handlers :=
  (commissioner_handlers (mkChannel 0 0) 0 0 0 (fun _ => the_commissioner) Commissioner.RspCode).

Abbreviation tunnel evs p :=
  (proxy_run no_name no_name (fun _ => repeat 7 8) (fun _ => 500) 20 handlers evs p).
Definition fresh_client : Proxy :=
  match ProxyClient_init 0 with Ok p => p | _ => mkProxy [] 0 (Coap_init 0 0) [] false 0 [] [] end.
Definition tunnel_end (evs : list ProxyEvent) : Proxy := match tunnel evs fresh_client with Ok p => p | _ => fresh_client end.

(** Requests, and their datagrams. *)
Definition a_request (uri : string_t) (payload : ByteArray) : Message :=
  match SetUriPath (Message_new kConfirmable Code.kPost) uri with Ok m => Append m payload | _ => Message_init end.
Definition datagram_of (m : Message) : ByteArray := match Serialize m [] with Ok b => b | _ => [] end.
Definition udp_rx (addr : Address) (from : Z) (datagram : ByteArray) : Message :=
  Append (Message_new kNonConfirmable Code.kPost) (concat (map encoding (udp_tlvs addr from 49191 datagram))).

Definition sample_mask : ChannelMask := [mkEntry 0 [0; 31; 255; 224]].
Definition conflict : ByteArray :=
  datagram_of (SetMessageId (a_request ProxyUri.kMgmtPanidConflict
    (concat (map encoding [Tlv_bytes kChannelMask (mask_bytes sample_mask); Tlv_u16 kPanId 4660]))) 77).
Definition online : list ProxyEvent := [PEvtConnection true 49191; PEvtUdpRx (udp_rx (device 9) 61631 [255; 255])].
Definition client : Proxy := tunnel_end online.

(** ** The theorems apply *)

Ltac by_computation := apply (bool_decide_unpack _); vm_compute; exact I.

Lemma udp_tunnel_witness :
  mConnected client = true /\ udp_ok (mPeerAddr client) conflict /\
  exists m, Endpoint_Send client conflict = Ok (with_udp_tx client (m :: mUdpTx client)) /\
    parse_udp_rx m = Ok (device 9, 49191, conflict).
Proof.
  assert (Hc : mConnected client = true) by (vm_compute; reflexivity).
  assert (Hok : udp_ok (mPeerAddr client) conflict) by (split_and!; by_computation).
  split; [exact Hc|]. split; [exact Hok|].
  destruct (proj1 (udp_tunnel client conflict) Hok Hc) as (m & E & _ & _ & Hp & _). exists m. split; [exact E|].
  apply Hp. by_computation.
Defined.

Lemma online_runs : tunnel online fresh_client = Ok client.
Proof. vm_compute. reflexivity. Qed.
Lemma online_bytes : Forall payload_bytes_ok online.
Proof. repeat constructor; by_computation. Qed.

(** A request to a device, and a datagram of another one: an empty message with the token of the request. *)
Definition scanning : list ProxyEvent := online ++ [PEvtSend (a_request (str "/c/es") []) 0 (device 1) 61631].
Definition scanner : Proxy := tunnel_end scanning.
Definition empty_message : Message := SetTokenBytes (Message_new kNonConfirmable Code.kEmpty) (repeat 7 8).

Lemma udp_rx_safe_witness :
  ProxyClient_init 0 = Ok fresh_client /\ tunnel scanning fresh_client = Ok scanner /\
  (exists p', HandleUdpRx no_name no_name handlers (udp_rx (device 1) 5 [64; 1; 0; 1; 238; 1; 2]) scanner = Ok p' /\
    mResources (mCoap p') = resources) /\
  lethal_rx scanner (udp_rx (device 2) 5 (datagram_of empty_message)).
Proof.
  assert (E0 : ProxyClient_init 0 = Ok fresh_client) by (vm_compute; reflexivity).
  assert (E : tunnel scanning fresh_client = Ok scanner) by (vm_compute; reflexivity).
  assert (Hb : Forall payload_bytes_ok scanning) by (repeat constructor; by_computation).
  pose proof (fun m => udp_rx_safe no_name no_name (fun _ => repeat 7 8) (fun _ => 500) 20 (mkChannel 0 0) 0 0 0
    (fun _ => the_commissioner) Commissioner.RspCode scanning 0 fresh_client scanner m (fun _ => I) E0 Hb E) as H.
  split; [exact E0|]. split; [exact E|]. split.
  - apply H; [by_computation|]. intros (addr & port & d & Ed & m & Em & _). vm_compute in Ed. injection Ed as <- <- <-.
    vm_compute in Em. discriminate Em.
  - apply H; [by_computation|]. vm_compute. reflexivity.
Defined.

Lemma notifications_delivered_witness :
  exists p' request, Deserialize conflict = Ok request /\
    HandleUdpRx no_name no_name handlers (udp_rx (device 9) 61631 conflict) client = Ok p' /\
    mNotified p' = OnPanIdConflict (Addr.ToString no_name no_name (device 9)) sample_mask 4660 :: mNotified client.
Proof.
  assert (E0 : ProxyClient_init 0 = Ok fresh_client) by (vm_compute; reflexivity).
  assert (Hd : exists request, Deserialize conflict = Ok request /\ IsRequest request = true /\ IsConfirmable request = true /\
    GetUriPath request = Ok ProxyUri.kMgmtPanidConflict /\
    mPayload request = concat (map encoding [Tlv_bytes kChannelMask (mask_bytes sample_mask); Tlv_u16 kPanId 4660]) /\
    ResponsesCache.Match (mCoap client) (SetEndpoint request (Some 0%nat)) = None).
  { eexists. split; [vm_compute; reflexivity|]. repeat split; vm_compute; reflexivity. }
  destruct Hd as (request & Hd & Hr & Hc & Hu & Hp & Hm).
  destruct (notifications_delivered no_name no_name (fun _ => repeat 7 8) (fun _ => 500) 20 handlers online 0 fresh_client client
    (udp_rx (device 9) 61631 conflict) (device 9) 61631 conflict request ProxyUri.kMgmtPanidConflict hPanIdConflict
    E0 online_bytes online_runs) as (p' & tx & ack & E & _ & _ & _ & _ & _ & Hn).
  - vm_compute. reflexivity.
  - vm_compute. reflexivity.
  - by_computation.
  - vm_compute. reflexivity.
  - by_computation.
  - exact Hd.
  - exact Hr.
  - exact Hc.
  - exact Hu.
  - vm_compute. reflexivity.
  - exact Hm.
  - exists p', request. split; [exact Hd|]. split; [exact E|].
    apply (proj1 (Hn sample_mask 4660 [] ltac:(split; by_computation) ltac:(by_computation) (List.Forall_nil _) ltac:(reflexivity)));
      [reflexivity|exact Hp].
Defined.

(** ** Runs that go wrong *)

(** Requests to two devices, and the retransmission of both. *)
Definition two_requests : list ProxyEvent :=
  [PEvtConnection true 49191;
   PEvtSend (a_request (str "/c/pq") []) 0 (device 1) 61631;
   PEvtSend (a_request (str "/c/es") []) 1 (device 2) 61631;
   PEvtTime 3000; PEvtTimer].
(** The peers of the UDP_TX.ntf messages, and the paths of the requests that they wrap, oldest first. *)
Definition sent_to (p : Proxy) : list (outcome (Address * outcome string_t)) :=
  map (fun m => '(addr, _, datagram) ← parse_udp_rx m; Ok (addr, request ← Deserialize datagram; GetUriPath request)) (rev (mUdpTx p)).

(** All requests of the client share its one endpoint, whose peer is the one that was set last: a request that the
    first device did not answer is retransmitted to the second device. *)
Theorem proxy_faults :
  sent_to (tunnel_end two_requests)
  = [Ok (device 1, Ok (str "/c/pq")); Ok (device 2, Ok (str "/c/es"));
     Ok (device 2, Ok (str "/c/pq")); Ok (device 2, Ok (str "/c/es"))].
Proof. vm_compute. reflexivity. Qed.

(** An empty message with the token of a pending request, from any device, ends the process: [CheckCoapResponseCode]
    asks for its request URI, and [GetRequestUri] asserts that it is a response. *)
Theorem empty_message_ends_process :
  HandleUdpRx no_name no_name handlers (udp_rx (device 2) 5 (datagram_of empty_message)) scanner = Die.
Proof. vm_compute. reflexivity. Qed.
