(* ===== verification/Dtls.v ===== *)
(** * DTLS sessions

    [DtlsSession] of [src/library/dtls.{hpp,cpp}], with its timer, its queue of
    messages that could not be written yet, and the errors of mbedtls
    ([src/library/mbedtls_error.cpp]).

    mbedtls is not part of the repository.  What a call of it does to the
    session is an arbitrary finite program of calls back ([Io]): it sends and
    receives through the socket, sets and reads the timer, and exports keys.
    The class [Ssl] gives these programs, the class [Socket] the two functions
    of the socket, [MbedtlsErrors] the error codes. *)

From S2P Require Import Prelude Outcome Common Tlv CoapMessage Commissioner.
Import Addr Tlv Message.

(** ** Errors of mbedtls *)

Class MbedtlsErrors : Type := {
  ERR_SSL_WANT_READ : Z;
  ERR_SSL_WANT_WRITE : Z;
  ERR_SSL_ASYNC_IN_PROGRESS : Z;
  ERR_SSL_CRYPTO_IN_PROGRESS : Z;
  ERR_SSL_TIMEOUT : Z;
  ERR_SSL_HELLO_VERIFY_REQUIRED : Z;
  ERR_SSL_CLIENT_RECONNECT : Z;
  ERR_NET_SEND_FAILED : Z }.

Definition ErrorFromMbedtlsError `{MbedtlsErrors} (aMbedtlsError : Z) : outcome ErrorCode :=
  let kMbedtlsErrorLowLevelNetBegin := -82 in
  let kMbedtlsErrorLowLevelNetEnd := -66 in
  VerifyOrDie aMbedtlsError <=? 0;;
  let highLevelModuleId := Z.shiftr (Z.land (u16 (- aMbedtlsError)) 28672) 12 in
  Ok (if aMbedtlsError =? 0 then kNone
      else if (aMbedtlsError =? ERR_SSL_WANT_READ) || (aMbedtlsError =? ERR_SSL_WANT_WRITE) ||
              (aMbedtlsError =? ERR_SSL_ASYNC_IN_PROGRESS) || (aMbedtlsError =? ERR_SSL_CRYPTO_IN_PROGRESS)
      then kIOBusy
      else if (kMbedtlsErrorLowLevelNetBegin <=? aMbedtlsError) && (aMbedtlsError <=? kMbedtlsErrorLowLevelNetEnd)
      then kIOError
      else if (highLevelModuleId =? 6) || (highLevelModuleId =? 7) then kSecurity
      else kUnknown).

(** Decide if we should stop processing this session by given error. *)
Definition ShouldStop (aError : ErrorCode) : bool :=
  match aError with kNone | kBusy | kIOBusy => false | _ => true end.

(** ** The interfaces *)

(** A call of mbedtls, as the calls back it makes. *)
Inductive Io (R : Type) : Type :=
| IoRet (r : R)
| IoSend (aBuf : ByteArray) (k : Z -> Io R)
| IoReceive (aMaxLen : Z) (k : Z + ByteArray -> Io R)
| IoSetDelay (aIntermediate aFinish : Z) (k : Io R)
| IoGetDelay (k : Z -> Io R)
| IoExportKeys (aKeyBlock : ByteArray) (aMacLength aKeyLength aIvLength : Z) (k : Io R).
Arguments IoRet {R} r.
Arguments IoSend {R} aBuf k.
Arguments IoReceive {R} aMaxLen k.
Arguments IoSetDelay {R} aIntermediate aFinish k.
Arguments IoGetDelay {R} k.
Arguments IoExportKeys {R} aKeyBlock aMacLength aKeyLength aIvLength k.

(** The calls of [DtlsSession::Init] and [SetClientTransportId], in their order. *)
Inductive SslCall : Type :=
| ConfigDefaults (aIsServer : bool)
| ConfAuthmodeRequired
| ConfDebug
| ConfHandshakeTimeout (min max : Z)
| ParseCaChain (b : ByteArray)
| ParseOwnCert (b : ByteArray)
| ParseOwnKey (b : ByteArray)
| ConfCaChain
| ConfOwnCert
| ConfCiphersuites (psk x509 : bool)
| ConfExportKeys
| CtrDrbgSeed
| ConfRng
| CookieSetup
| ConfDtlsCookies
| SetBio
| SetTimerCb
| ConfMaxFragLen
| SetMtu
| Setup
| SetEcjpakePassword (b : ByteArray)
| SetTransportId (b : ByteArray).

Class Ssl (T : Type) : Type := {
  ssl_call : SslCall -> T -> T * Z;
  ssl_handshake : T -> Io (T * Z);
  ssl_handshake_over : T -> bool;                       (* state == MBEDTLS_SSL_HANDSHAKE_OVER *)
  ssl_read : T -> Io (T * (Z + ByteArray));             (* the data, or the result when it is not positive *)
  ssl_write : T -> ByteArray -> Io (T * Z);
  ssl_close_notify : T -> Io T;
  ssl_session_reset : T -> Io T }.

Class Socket (K : Type) : Type := {
  (* with the sub-type of the message that is being written and the KEK of the session *)
  sock_send : MessageSubType -> ByteArray -> ByteArray -> K -> outcome (K * Z);
  sock_receive : Z -> K -> outcome (K * (Z + ByteArray));
  sock_peer : K -> outcome Address;
  (* data of the peer arrives *)
  sock_arrive : ByteArray -> K -> K }.

(** ** State *)

Definition kDtlsHandshakeTimeoutMin : Z := 8.
Definition kDtlsHandshakeTimeoutMax : Z := 60.

Record DtlsConfig : Type := mkDtlsConfig {
  mEnableDebugLogging : bool;
  mPSK : ByteArray;
  mOwnKey : ByteArray;
  mOwnCert : ByteArray;
  mCaChain : ByteArray }.

Record DtlsTimer : Type := mkTimer {
  mFireTime : option Z;                 (* when it is running *)
  mIntermediate : Z;
  mCancelled : bool }.

Definition Message_t : Type := ByteArray * MessageSubType.

(** What the clients of a session see of it. *)
Inductive Label : Type :=
| LConnect (h : nat)                    (* a client calls [Connect] with a handler *)
| LConnected (h : nat) (e : ErrorCode)  (* the handler is called *)
| LAccepted (m : Message_t)             (* [Send] accepts a message *)
| LWriting (m : Message_t)              (* a message is passed to mbedtls *)
| LWritten (m : Message_t)              (* all of it was written *)
| LReceived (b : ByteArray).            (* the receiver is called *)

Record DtlsSession {K T : Type} : Type := mkSession {
  mSocket : K;
  mSocketSubType : MessageSubType;
  mHandshakeTimer : DtlsTimer;
  mSessionState : DtlsState;
  mIsServer : bool;
  mIsClientIdSet : bool;
  mKek : ByteArray;
  mOnSessionConnected : option nat;
  mSendQueue : list Message_t;
  mSsl : T;
  mSessionPSK : ByteArray;
  mNow : Z;
  mTrace : list Label }.                (* latest first *)
Arguments DtlsSession : clear implicits.
Arguments mkSession {K T}.

Section Session.
Context {K T : Type} `{HM : MbedtlsErrors} `{HS : Ssl T} `{HK : Socket K}.
Context (sha256 : ByteArray -> ByteArray).
Abbreviation DtlsSession := (DtlsSession K T).

Definition with_socket (d : DtlsSession) (s : K) (t : MessageSubType) : DtlsSession :=
  mkSession s t (mHandshakeTimer d) (mSessionState d) (mIsServer d) (mIsClientIdSet d) (mKek d) (mOnSessionConnected d)
    (mSendQueue d) (mSsl d) (mSessionPSK d) (mNow d) (mTrace d).
Definition with_time (d : DtlsSession) (t : DtlsTimer) (now : Z) : DtlsSession :=
  mkSession (mSocket d) (mSocketSubType d) t (mSessionState d) (mIsServer d) (mIsClientIdSet d) (mKek d)
    (mOnSessionConnected d) (mSendQueue d) (mSsl d) (mSessionPSK d) now (mTrace d).
Definition with_session_state (d : DtlsSession) (s : DtlsState) (h : option nat) : DtlsSession :=
  mkSession (mSocket d) (mSocketSubType d) (mHandshakeTimer d) s (mIsServer d) (mIsClientIdSet d) (mKek d) h
    (mSendQueue d) (mSsl d) (mSessionPSK d) (mNow d) (mTrace d).
Definition with_ssl (d : DtlsSession) (t : T) (client : bool) : DtlsSession :=
  mkSession (mSocket d) (mSocketSubType d) (mHandshakeTimer d) (mSessionState d) (mIsServer d) client (mKek d)
    (mOnSessionConnected d) (mSendQueue d) t (mSessionPSK d) (mNow d) (mTrace d).
Definition with_keys (d : DtlsSession) (kek psk : ByteArray) : DtlsSession :=
  mkSession (mSocket d) (mSocketSubType d) (mHandshakeTimer d) (mSessionState d) (mIsServer d) (mIsClientIdSet d) kek
    (mOnSessionConnected d) (mSendQueue d) (mSsl d) psk (mNow d) (mTrace d).
Definition with_queue (d : DtlsSession) (q : list Message_t) : DtlsSession :=
  mkSession (mSocket d) (mSocketSubType d) (mHandshakeTimer d) (mSessionState d) (mIsServer d) (mIsClientIdSet d) (mKek d)
    (mOnSessionConnected d) q (mSsl d) (mSessionPSK d) (mNow d) (mTrace d).
Definition label (d : DtlsSession) (l : Label) : DtlsSession :=
  mkSession (mSocket d) (mSocketSubType d) (mHandshakeTimer d) (mSessionState d) (mIsServer d) (mIsClientIdSet d) (mKek d)
    (mOnSessionConnected d) (mSendQueue d) (mSsl d) (mSessionPSK d) (mNow d) (l :: mTrace d).

Definition DtlsSession_init (aIsServer : bool) (aSocket : K) (ssl : T) (now : Z) : DtlsSession :=
  mkSession aSocket kSubTypeNone (mkTimer None 0 false) kOpen aIsServer false [] None [] ssl [] now [].

(** *** The calls back *)

Definition GetDelay (timer : DtlsTimer) (now : Z) : Z :=
  if mCancelled timer then -1
  else match mFireTime timer with
       | None => 2
       | Some _ => if mIntermediate timer <=? now then 1 else 0
       end.

Definition SetDelay (timer : DtlsTimer) (now aIntermediate aFinish : Z) : DtlsTimer :=
  if aFinish =? 0 then mkTimer None (mIntermediate timer) true
  else mkTimer (Some (now + aFinish)) (now + aIntermediate) false.

Definition HandleMbedtlsExportKeys (d : DtlsSession) (aKeyBlock : ByteArray) (aMacLength aKeyLength aIvLength : Z) : DtlsSession :=
  let hash := sha256 (zsub aKeyBlock 0 (2 * u16 (aMacLength + aKeyLength + aIvLength))) in
  with_keys d (zsub hash 0 kJoinerRouterKekLength) (mSessionPSK d).

(** Running a call of mbedtls on a session. *)
Fixpoint run_io {R} (p : Io R) (d : DtlsSession) : outcome (DtlsSession * R) :=
  match p with
  | IoRet r => Ok (d, r)
  | IoSend aBuf k =>
      '(s, n) ← sock_send (mSocketSubType d) (mKek d) aBuf (mSocket d);
      run_io (k n) (with_socket d s (mSocketSubType d))
  | IoReceive aMaxLen k =>
      '(s, r) ← sock_receive aMaxLen (mSocket d);
      run_io (k r) (with_socket d s (mSocketSubType d))
  | IoSetDelay aIntermediate aFinish k =>
      run_io k (with_time d (SetDelay (mHandshakeTimer d) (mNow d) aIntermediate aFinish) (mNow d))
  | IoGetDelay k => run_io (k (GetDelay (mHandshakeTimer d) (mNow d))) d
  | IoExportKeys aKeyBlock aMacLength aKeyLength aIvLength k =>
      run_io k (HandleMbedtlsExportKeys d aKeyBlock aMacLength aKeyLength aIvLength)
  end.

Definition ssl_do (c : SslCall) (d : DtlsSession) : DtlsSession * Z :=
  let '(t, fail) := ssl_call c (mSsl d) in (with_ssl d t (mIsClientIdSet d), fail).
Definition is_nil {A} (l : list A) : bool := match l with [] => true | _ => false end.

(** *** Configuration *)

(** [if (int fail = ...) ExitNow(error = e)] *)
Definition try_call (c : SslCall) (e : Z -> outcome ErrorCode) (k : DtlsSession -> outcome (DtlsSession * ErrorCode))
    (d : DtlsSession) : outcome (DtlsSession * ErrorCode) :=
  let '(d, fail) := ssl_do c d in
  if fail =? 0 then k d else (e ← e fail; Ok (d, e)).
Definition do_call (c : SslCall) (k : DtlsSession -> outcome (DtlsSession * ErrorCode)) (d : DtlsSession) :
    outcome (DtlsSession * ErrorCode) := k (ssl_do c d).1.
(** [ERROR_INVALID_ARGS("...", ErrorFromMbedtlsError(fail).GetMessage())] *)
Definition invalid_args (fail : Z) : outcome ErrorCode := _ ← ErrorFromMbedtlsError fail; Ok kInvalidArgs.
Definition security (fail : Z) : outcome ErrorCode := _ ← ErrorFromMbedtlsError fail; Ok kSecurity.

Definition Init (aConfig : DtlsConfig) (d : DtlsSession) : outcome (DtlsSession * ErrorCode) :=
  let psk := negb (is_nil (mPSK aConfig)) in
  let x509 := negb (is_nil (mCaChain aConfig)) || negb (is_nil (mOwnCert aConfig)) || negb (is_nil (mOwnKey aConfig)) in
  let cookie k := if mIsServer d then try_call CookieSetup ErrorFromMbedtlsError (do_call ConfDtlsCookies k) else k in
  let certificates k :=
    if x509 then
      try_call (ParseCaChain (mCaChain aConfig)) invalid_args
      (try_call (ParseOwnCert (mOwnCert aConfig)) invalid_args
      (try_call (ParseOwnKey (mOwnKey aConfig)) invalid_args
      (do_call ConfCaChain
      (try_call ConfOwnCert ErrorFromMbedtlsError k))))
    else k in
  try_call (ConfigDefaults (mIsServer d)) ErrorFromMbedtlsError
  (do_call ConfAuthmodeRequired
  ((if mEnableDebugLogging aConfig then do_call ConfDebug else fun k => k)
  (do_call (ConfHandshakeTimeout (kDtlsHandshakeTimeoutMin * 1000) (kDtlsHandshakeTimeoutMax * 1000))
  ((fun k d => k (if psk then with_keys d (mKek d) (mPSK aConfig) else d))
  (certificates
  (do_call (ConfCiphersuites psk x509)
  (do_call ConfExportKeys
  (try_call CtrDrbgSeed ErrorFromMbedtlsError
  (do_call ConfRng
  (cookie
  (do_call SetBio
  (do_call SetTimerCb
  (try_call ConfMaxFragLen ErrorFromMbedtlsError
  (do_call SetMtu
  (try_call Setup ErrorFromMbedtlsError
  ((if psk then try_call (SetEcjpakePassword (mPSK aConfig)) security else fun k => k)
  (fun d => Ok (d, kNone)))))))))))))))))) d.

(** *** Sending *)

Definition Write (aBuf : ByteArray) (aSubType : MessageSubType) (d : DtlsSession) : outcome (DtlsSession * ErrorCode) :=
  if bool_decide (mSessionState d = kConnected) then
    let d := with_socket (label d (LWriting (aBuf, aSubType))) (mSocket d) aSubType in
    '(d, (t, rval)) ← run_io (ssl_write (mSsl d) aBuf) d;
    let d := with_ssl d t (mIsClientIdSet d) in
    let d := with_socket d (mSocket d) kSubTypeNone in
    if 0 <=? rval then
      if rval =? zlen aBuf then Ok (label d (LWritten (aBuf, aSubType)), kNone) else Ok (d, kIOBusy)
    else error ← ErrorFromMbedtlsError rval; Ok (d, error)
  else Ok (d, kInvalidState).

(** The loop of [TryWrite] over the messages of the queue. *)
Fixpoint TryWrite_loop (queue : list Message_t) (d : DtlsSession) : outcome (DtlsSession * ErrorCode) :=
  match queue with
  | [] => Ok (d, kNone)
  | (aBuf, aSubType) :: queue =>
      '(d, error) ← Write aBuf aSubType d;
      if bool_decide (error = kNone) then TryWrite_loop queue (with_queue d queue) else Ok (d, error)
  end.
Definition TryWrite (d : DtlsSession) : outcome (DtlsSession * ErrorCode) := TryWrite_loop (mSendQueue d) d.

Definition Send (aBuf : ByteArray) (aSubType : MessageSubType) (d : DtlsSession) : outcome (DtlsSession * ErrorCode) :=
  let accept d := label d (LAccepted (aBuf, aSubType)) in
  if bool_decide (mSessionState d = kConnected) then
    if is_nil (mSendQueue d) then
      '(d, error) ← Write aBuf aSubType d;
      if bool_decide (error = kNone) then Ok (accept d, kNone)
      else if ShouldStop error then Ok (d, error)
      else Ok (accept (with_queue d (mSendQueue d ++ [(aBuf, aSubType)])), kNone)
    else Ok (accept (with_queue d (mSendQueue d ++ [(aBuf, aSubType)])), kNone)
  else Ok (d, kInvalidState).

(** *** Connecting *)

Definition Reset (d : DtlsSession) : outcome DtlsSession :=
  match mSessionState d with
  | kOpen => Ok d
  | _ =>
      '(d, t) ← run_io (ssl_session_reset (mSsl d)) d;
      let d := with_ssl d t false in
      (* a failure is logged *)
      let d := if is_nil (mSessionPSK d) then d else (ssl_do (SetEcjpakePassword (mSessionPSK d)) d).1 in
      Ok (with_session_state d kOpen (mOnSessionConnected d))
  end.

Definition Connect (aOnConnected : option nat) (d : DtlsSession) : outcome DtlsSession :=
  VerifyOrDie bool_decide (mSessionState d = kOpen);;
  Ok (with_session_state d kConnecting aOnConnected).

Definition Reconnect (d : DtlsSession) : outcome DtlsSession :=
  VerifyOrDie mIsServer d;;
  d ← Reset d;
  Connect (mOnSessionConnected d) d.

Section Handlers.
(** What the handlers of [Connect] and the receiver do. *)
Context (on_connected : nat -> ErrorCode -> DtlsSession -> outcome DtlsSession).
Context (on_receive : ByteArray -> DtlsSession -> outcome DtlsSession).

(** [if (mOnConnected != nullptr) { mOnConnected( *this, aError); mOnConnected = nullptr; }] *)
Definition tell_connected (aError : ErrorCode) (d : DtlsSession) : outcome DtlsSession :=
  match mOnSessionConnected d with
  | None => Ok d
  | Some h => d ← on_connected h aError (label d (LConnected h aError)); Ok (with_session_state d (mSessionState d) None)
  end.

Definition Disconnect (aError : ErrorCode) (d : DtlsSession) : outcome DtlsSession :=
  match mSessionState d with
  | kConnecting | kConnected =>
      d ← (if bool_decide (mSessionState d = kConnected) && bool_decide (aError = kCancelled)
           then '(d, t) ← run_io (ssl_close_notify (mSsl d)) d; Ok (with_ssl d t (mIsClientIdSet d))
           else Ok d);
      d ← tell_connected aError (with_session_state d kDisconnected (mOnSessionConnected d));
      Reset d
  | _ => Ok d
  end.

Definition Handshake (d : DtlsSession) : outcome (DtlsSession * ErrorCode) :=
  if bool_decide (mSessionState d = kConnecting) then
    '(d, (t, rval)) ← run_io (ssl_handshake (mSsl d)) d;
    let d := with_ssl d t (mIsClientIdSet d) in
    d ← (if bool_decide (mSessionState d = kConnecting) && ssl_handshake_over t
         then tell_connected kNone (with_session_state d kConnected (mOnSessionConnected d))
         else Ok d);
    if rval =? ERR_SSL_HELLO_VERIFY_REQUIRED then d ← Reconnect d; Ok (d, kNone)
    else error ← ErrorFromMbedtlsError rval; Ok (d, error)
  else Ok (d, kNone).

Definition Read (d : DtlsSession) : outcome (DtlsSession * ErrorCode) :=
  if bool_decide (mSessionState d = kConnected) then
    '(d, (t, rval)) ← run_io (ssl_read (mSsl d)) d;
    let d := with_ssl d t (mIsClientIdSet d) in
    match rval with
    | inr data => d ← on_receive data (label d (LReceived data)); Ok (d, kNone)
    | inl rval =>
        if rval =? 0 then Ok (d, kIOError)
        else if rval =? ERR_SSL_CLIENT_RECONNECT then Ok (with_session_state d kConnecting (mOnSessionConnected d), kNone)
        else error ← ErrorFromMbedtlsError rval; Ok (d, error)
    end
  else Ok (d, kInvalidState).

(** [while (error == ErrorCode::kNone) error = Read();] *)
Fixpoint Read_loop (fuel : nat) (error : ErrorCode) (d : DtlsSession) : outcome (DtlsSession * ErrorCode) :=
  if bool_decide (error = kNone) then
    match fuel with
    | O => Die
    | S fuel => '(d, error) ← Read d; Read_loop fuel error d
    end
  else Ok (d, error).

Definition SetClientTransportId (d : DtlsSession) : outcome (DtlsSession * ErrorCode) :=
  peerAddr ← sock_peer (mSocket d);
  if Addr.IsValid peerAddr then
    let '(d, fail) := ssl_do (SetTransportId peerAddr) d in
    error ← ErrorFromMbedtlsError fail;
    if bool_decide (error = kNone) then Ok (with_ssl d (mSsl d) true, kNone) else Ok (d, error)
  else Ok (d, kInvalidState).

(** The cases of [HandleEvent] for a connected session, with the error so far. *)
Definition handle_connected (fuel : nat) (read write : bool) (error : ErrorCode) (d : DtlsSession) :
    outcome (DtlsSession * ErrorCode) :=
  '(d, error) ← (if read then Read_loop fuel error d else Ok (d, error));
  if write && negb (ShouldStop error) then TryWrite d else Ok (d, error).

Definition HandleEvent (fuel : nat) (read write : bool) (d : DtlsSession) : outcome DtlsSession :=
  '(d, error) ← (if mIsServer d && negb (mIsClientIdSet d) then SetClientTransportId d else Ok (d, kNone));
  '(d, error) ← (if bool_decide (error = kNone) then
                   match mSessionState d with
                   | kConnecting =>
                       '(d, error) ← Handshake d;
                       if ShouldStop error || negb (bool_decide (mSessionState d = kConnected)) then Ok (d, error)
                       else handle_connected fuel read write error d
                   | kConnected => handle_connected fuel read write kNone d
                   | _ => Ok (d, kNone)
                   end
                 else Ok (d, error));
  if ShouldStop error then Disconnect error d else Ok d.

(** [Timer::HandleEvent] and [HandshakeTimerCallback] *)
Definition HandshakeTimerCallback (d : DtlsSession) : outcome DtlsSession :=
  let timer := mHandshakeTimer d in
  let d := with_time d (mkTimer None (mIntermediate timer) (mCancelled timer)) (mNow d) in
  match mSessionState d with
  | kConnecting =>
      '(d, error) ← Handshake d;
      if ShouldStop error then Disconnect error d else Ok d
  | _ => Die
  end.
End Handlers.
End Session.
