(* ===== verification/DtlsFacts.v ===== *)
(** * Properties of DTLS sessions

    Runs of a session with clients that call it from their handlers, the send
    queue as a FIFO channel, and the calls of the connect handlers. *)

From S2P Require Import Prelude Outcome Common Tlv CoapMessage Commissioner Dtls.
Import Addr Tlv Message.

(** ** Runs *)

(** The calls of the clients of a session, and the events of the loop. *)
Inductive Call : Type :=
| CallSend (aBuf : ByteArray) (aSubType : MessageSubType)
| CallConnect (h : nat)
| CallDisconnect (e : ErrorCode).

Inductive SessionEvent : Type :=
| EvtReady (read write : bool)          (* [Socket::HandleEvent] *)
| EvtTimer
| EvtTime (now : Z)
| EvtArrive (b : ByteArray)
| EvtCall (c : Call).

Section Run.
Context {K T : Type} `{HM : MbedtlsErrors} `{HS : Ssl T} `{HK : Socket K}.
Context (sha256 : ByteArray -> ByteArray).
(** What the handlers call. *)
Context (script_connected : nat -> ErrorCode -> list Call).
Context (script_receive : ByteArray -> list Call).
(** A bound on the records read in one event. *)
Context (reads : nat).
Abbreviation D := (DtlsSession K T).

(** Calls one after the other. *)
Definition each (f : Call -> D -> outcome D) : list Call -> D -> outcome D :=
  fix run l d := match l with [] => Ok d | c :: l => d ← f c d; run l d end.

(** A call, whose handlers may call again, [n] times nested at most. *)
Fixpoint api (n : nat) (c : Call) (d : D) : outcome D :=
  match n with
  | O => Die
  | S n =>
      match c with
      | CallSend aBuf aSubType => '(d, _) ← Send sha256 aBuf aSubType d; Ok d
      | CallConnect h => Connect (Some h) (label d (LConnect h))
      | CallDisconnect e => Disconnect sha256 (fun h e => each (api n) (script_connected h e)) e d
      end
  end.
Definition apis (n : nat) : list Call -> D -> outcome D := each (api n).
Definition on_connected (n : nat) (h : nat) (e : ErrorCode) : D -> outcome D := apis n (script_connected h e).
Definition on_receive (n : nat) (b : ByteArray) : D -> outcome D := apis n (script_receive b).

Definition session_step (n : nat) (ev : SessionEvent) (d : D) : outcome D :=
  match ev with
  | EvtReady read write => HandleEvent sha256 (on_connected n) (on_receive n) reads read write d
  | EvtTimer =>
      match mFireTime (mHandshakeTimer d) with
      | Some t => if t <=? mNow d then HandshakeTimerCallback sha256 (on_connected n) d else Ok d
      | None => Ok d
      end
  | EvtTime now => Ok (with_time d (mHandshakeTimer d) (Z.max now (mNow d)))
  | EvtArrive b => Ok (with_socket d (sock_arrive b (mSocket d)) (mSocketSubType d))
  | EvtCall c => api (S n) c d
  end.
Fixpoint session_run (n : nat) (l : list SessionEvent) (d : D) : outcome D :=
  match l with [] => Ok d | ev :: l => d ← session_step n ev d; session_run n l d end.

(** *** What a call of mbedtls leaves alone *)

Record io_same (d d' : D) : Prop := {
  same_state : mSessionState d' = mSessionState d;
  same_server : mIsServer d' = mIsServer d;
  same_client : mIsClientIdSet d' = mIsClientIdSet d;
  same_handler : mOnSessionConnected d' = mOnSessionConnected d;
  same_queue : mSendQueue d' = mSendQueue d;
  same_subtype : mSocketSubType d' = mSocketSubType d;
  same_trace : mTrace d' = mTrace d }.

#[local] Instance io_same_preorder : PreOrder io_same.
Proof.
  split; [by intros d|]. intros d1 d2 d3 [] []. split; congruence.
Qed.

Lemma run_io_same {R} (p : Io R) : forall d d' r, run_io sha256 p d = Ok (d', r) -> io_same d d'.
Proof.
  induction p as [r|b k IH|m k IH|i f k IH|k IH|b m y v k IH]; intros d d' r' E; cbn [run_io] in E.
  - by injection E as <- <-.
  - apply bind_ok in E as ([s n] & _ & E). by apply IH in E as [].
  - apply bind_ok in E as ([s n] & _ & E). by apply IH in E as [].
  - by apply IH in E as [].
  - by apply IH in E.
  - by apply IH in E as [].
Qed.

(** *** Relations that a session respects *)

Definition control (l : Label) : Prop := match l with LConnect _ | LConnected _ _ | LReceived _ => True | _ => False end.

(** Steps that touch neither the socket nor the messages. *)
Record administrative (d d' : D) : Prop := {
  admin_socket : mSocket d' = mSocket d;
  admin_subtype : mSocketSubType d' = mSocketSubType d;
  admin_queue : mSendQueue d' = mSendQueue d;
  admin_trace : exists l, Forall control l /\ mTrace d' = l ++ mTrace d }.

(** A preorder that calls of mbedtls, administrative steps and the flushing of the queue respect is respected by
    every operation, as long as the handlers respect it. *)
Section Stable.
Context (R : D -> D -> Prop) `{!PreOrder R}.
Context (R_io : forall A (p : Io A) d d' r, run_io sha256 p d = Ok (d', r) -> R d d').
Context (R_admin : forall d d', administrative d d' -> R d d').
Context (R_try : forall q d d' e, mSendQueue d = q -> TryWrite_loop sha256 q d = Ok (d', e) -> R d d').

Ltac admin :=
  apply R_admin; split; [done..|first [by exists []|eexists [_]; split; [|reflexivity]; by repeat constructor]].

Lemma Reset_stable d d' : Reset sha256 d = Ok d' -> R d d'.
Proof using PreOrder0 R_io R_admin.
  unfold Reset. destruct (mSessionState d); intros E; [by injection E as <-|..].
  all: apply bind_ok in E as ([d1 t] & E1 & E); apply R_io in E1; injection E as <-; etransitivity; [exact E1|].
  all: apply R_admin; unfold ssl_do; destruct (is_nil _); [|destruct (ssl_call _ _)]; split; try done; by exists [].
Qed.

Lemma Connect_stable h d d' : Connect h d = Ok d' -> R d d'.
Proof using PreOrder0 R_io R_admin. unfold Connect. case_bool_decide; [intros [= <-]; admin|done]. Qed.

Lemma Reconnect_stable d d' : Reconnect sha256 d = Ok d' -> R d d'.
Proof using PreOrder0 R_io R_admin.
  unfold Reconnect. destruct (mIsServer d); [|done]. intros E. apply bind_ok in E as (d1 & E1 & E).
  apply Reset_stable in E1. apply Connect_stable in E. by transitivity d1.
Qed.

Lemma SetClientTransportId_stable d d' e : SetClientTransportId d = Ok (d', e) -> R d d'.
Proof using PreOrder0 R_io R_admin.
  unfold SetClientTransportId, ssl_do. intros E. apply bind_ok in E as (p & _ & E).
  destruct (Addr.IsValid p); [|by injection E as <- <-]. destruct (ssl_call _ _) as [t f].
  apply bind_ok in E as (e1 & _ & E). case_bool_decide; injection E as <- <-; admin.
Qed.

Section StableHandlers.
Context (connected : nat -> ErrorCode -> D -> outcome D) (receive : ByteArray -> D -> outcome D).
Context (Hconnected : forall h e d d', connected h e d = Ok d' -> R d d').
Context (Hreceive : forall b d d', receive b d = Ok d' -> R d d').

Lemma tell_connected_stable e d d' : tell_connected connected e d = Ok d' -> R d d'.
Proof using PreOrder0 R_io R_admin Hconnected.
  unfold tell_connected. destruct (mOnSessionConnected d) as [h|]; intros E; [|by injection E as <-].
  apply bind_ok in E as (d1 & E1 & E). apply Hconnected in E1. injection E as <-.
  transitivity (label d (LConnected h e)); [admin|]. etransitivity; [exact E1|]. admin.
Qed.

Lemma Disconnect_stable e d d' : Disconnect sha256 connected e d = Ok d' -> R d d'.
Proof using PreOrder0 R_io R_admin Hconnected.
  unfold Disconnect. intros E.
  assert (Hd : (d1 ← (if bool_decide (mSessionState d = kConnected) && bool_decide (e = kCancelled)
           then '(d, t) ← run_io sha256 (ssl_close_notify (mSsl d)) d; Ok (with_ssl d t (mIsClientIdSet d)) else Ok d);
           d2 ← tell_connected connected e (with_session_state d1 kDisconnected (mOnSessionConnected d1));
           Reset sha256 d2) = Ok d' -> R d d'); [|destruct (mSessionState d); try (by injection E as <-); by apply Hd].
  clear E. intros E. apply bind_ok in E as (d1 & E1 & E). apply bind_ok in E as (d2 & E2 & E).
  apply Reset_stable in E. apply tell_connected_stable in E2. transitivity d1; [|transitivity d2; [|done]].
  - destruct (_ && _); [|by injection E1 as <-]. apply bind_ok in E1 as ([d3 t] & E1 & E3). injection E3 as <-.
    apply R_io in E1. etransitivity; [exact E1|]. admin.
  - etransitivity; [|exact E2]. admin.
Qed.

Lemma Handshake_stable d d' e : Handshake sha256 connected d = Ok (d', e) -> R d d'.
Proof using PreOrder0 R_io R_admin Hconnected.
  unfold Handshake. case_bool_decide; [|by intros [= <- <-]]. intros E.
  apply bind_ok in E as ([d1 [t rval]] & E1 & E). apply R_io in E1. apply bind_ok in E as (d2 & E2 & E).
  transitivity d2.
  - transitivity (with_ssl d1 t (mIsClientIdSet d1)); [etransitivity; [exact E1|admin]|].
    destruct (_ && _); [|by injection E2 as <-]. apply tell_connected_stable in E2.
    etransitivity; [|exact E2]. admin.
  - case_match; apply bind_ok in E as (? & E3 & E); injection E as <- <-; [by eapply Reconnect_stable|done].
Qed.

Lemma Read_stable d d' e : Read sha256 receive d = Ok (d', e) -> R d d'.
Proof using PreOrder0 R_io R_admin Hreceive.
  unfold Read. case_bool_decide; [|by intros [= <- <-]]. intros E.
  apply bind_ok in E as ([d1 [t rval]] & E1 & E). apply R_io in E1.
  transitivity (with_ssl d1 t (mIsClientIdSet d1)); [etransitivity; [exact E1|admin]|].
  destruct rval as [rval|data].
  - repeat case_match; try (injection E as <- <-; admin).
    apply bind_ok in E as (? & _ & E). injection E as <- <-. done.
  - apply bind_ok in E as (d2 & E2 & E). injection E as <- <-. apply Hreceive in E2.
    etransitivity; [|exact E2]. admin.
Qed.

Lemma Read_loop_stable n : forall e d d' e', Read_loop sha256 receive n e d = Ok (d', e') -> R d d'.
Proof using PreOrder0 R_io R_admin Hreceive.
  induction n as [|n IH]; intros e d d' e' E; cbn [Read_loop] in E; case_bool_decide; try (by injection E as <- <-); [done|].
  apply bind_ok in E as ([d1 e1] & E1 & E). apply Read_stable in E1. apply IH in E. by transitivity d1.
Qed.

Lemma handle_connected_stable n r w e d d' e' : handle_connected sha256 receive n r w e d = Ok (d', e') -> R d d'.
Proof using PreOrder0 R_io R_admin Hreceive R_try.
  unfold handle_connected. intros E. apply bind_ok in E as ([d1 e1] & E1 & E). transitivity d1.
  - destruct r; [by apply Read_loop_stable in E1|by injection E1 as <- <-].
  - destruct (_ && _); [by eapply R_try|by injection E as <- <-].
Qed.

Lemma HandleEvent_stable n r w d d' : HandleEvent sha256 connected receive n r w d = Ok d' -> R d d'.
Proof using PreOrder0 R_io R_admin Hconnected Hreceive R_try.
  unfold HandleEvent. intros E. apply bind_ok in E as ([d1 e1] & E1 & E). apply bind_ok in E as ([d2 e2] & E2 & E).
  transitivity d1; [destruct (_ && _); [by eapply SetClientTransportId_stable|by injection E1 as <- <-]|].
  transitivity d2; [|destruct (ShouldStop e2); [by eapply Disconnect_stable|by injection E as <-]].
  case_bool_decide; [|by injection E2 as <- <-].
  destruct (mSessionState d1); [by injection E2 as <- <-| |by eapply handle_connected_stable|by injection E2 as <- <-].
  apply bind_ok in E2 as ([d3 e3] & E3 & E2). apply Handshake_stable in E3. transitivity d3; [done|].
  destruct (_ || _); [by injection E2 as <- <-|by eapply handle_connected_stable].
Qed.

Lemma HandshakeTimerCallback_stable d d' : HandshakeTimerCallback sha256 connected d = Ok d' -> R d d'.
Proof using PreOrder0 R_io R_admin Hconnected.
  unfold HandshakeTimerCallback. cbn [mSessionState with_time]. destruct (mSessionState d); try done. intros E.
  apply bind_ok in E as ([d1 e1] & E1 & E). apply Handshake_stable in E1.
  etransitivity; [|transitivity d1; [exact E1|]]; [admin|].
  destruct (ShouldStop e1); [by eapply Disconnect_stable|by injection E as <-].
Qed.
End StableHandlers.
End Stable.

(** *** The send queue is a FIFO channel *)

(** The specification: the messages in the channel, and those it delivered. *)
Definition Chan : Type := list Message_t * list Message_t.
(** [channel acc c c']: from [c] to [c'], accepting [acc]. *)
Inductive channel : list Message_t -> Chan -> Chan -> Prop :=
| ch_stay c : channel [] c c
| ch_accept q o m acc c : channel acc (q ++ [m], o) c -> channel (m :: acc) (q, o) c
| ch_deliver q o m acc c : channel acc (q, o ++ [m]) c -> channel acc (m :: q, o) c.

Lemma channel_trans a b c1 c2 c3 : channel a c1 c2 -> channel b c2 c3 -> channel (a ++ b) c1 c3.
Proof. induction 1; intros; cbn; [done|constructor; auto..]. Qed.

Lemma channel_order acc q o q' o' : channel acc (q, o) (q', o') -> o ++ q ++ acc = o' ++ q'.
Proof.
  intros Hc. remember (q, o) as c eqn:E1. remember (q', o') as c' eqn:E2. revert q o E1.
  induction Hc as [|q1 o1 m acc c Hc IH|q1 o1 m acc c Hc IH]; intros q o E1.
  - subst. injection E1 as -> ->. by rewrite app_nil_r.
  - injection E1 as -> ->. rewrite <- (IH E2 (q ++ [m]) o eq_refl). by rewrite <- app_assoc.
  - injection E1 as <- <-. rewrite <- (IH E2 q1 (o1 ++ [m]) eq_refl). by rewrite <- app_assoc.
Qed.

(** The messages that were accepted and those that were written, oldest first. *)
Fixpoint accepted (tr : list Label) : list Message_t :=
  match tr with [] => [] | LAccepted m :: tr => accepted tr ++ [m] | _ :: tr => accepted tr end.
Fixpoint written (tr : list Label) : list Message_t :=
  match tr with [] => [] | LWritten m :: tr => written tr ++ [m] | _ :: tr => written tr end.
Definition chan_of (d : D) : Chan := (mSendQueue d, written (mTrace d)).

Definition fifo (d d' : D) : Prop :=
  exists acc, accepted (mTrace d') = accepted (mTrace d) ++ acc /\ channel acc (chan_of d) (chan_of d').

#[local] Instance fifo_preorder : PreOrder fifo.
Proof.
  split.
  - intros d. exists []. rewrite app_nil_r. split; [done|constructor].
  - intros d1 d2 d3 (a & Ha & Ca) (b & Hb & Cb). exists (a ++ b). rewrite Hb, Ha, app_assoc.
    split; [done|]. by eapply channel_trans.
Qed.

(** Steps that neither accept nor write. *)
Definition silent (d d' : D) : Prop :=
  mSendQueue d' = mSendQueue d /\ accepted (mTrace d') = accepted (mTrace d) /\ written (mTrace d') = written (mTrace d).

Lemma silent_fifo d d' : silent d d' -> fifo d d'.
Proof. intros (Hq & Ha & Hw). exists []. unfold chan_of. rewrite Hq, Ha, Hw, app_nil_r. split; [done|constructor]. Qed.

Lemma run_io_fifo {R} (p : Io R) d d' r : run_io sha256 p d = Ok (d', r) -> fifo d d'.
Proof. intros E. apply run_io_same in E as []. apply silent_fifo. unfold silent. by rewrite same_queue0, same_trace0. Qed.

(** A write delivers the message exactly when it reports success. *)
Lemma Write_spec b t d d' e : Write sha256 b t d = Ok (d', e) ->
  mSendQueue d' = mSendQueue d /\ accepted (mTrace d') = accepted (mTrace d) /\
  written (mTrace d') = written (mTrace d) ++ (if bool_decide (e = kNone) then [(b, t)] else []).
Proof.
  unfold Write. case_bool_decide as Hs; [|intros [= <- <-]; by rewrite app_nil_r].
  intros E. apply bind_ok in E as ([d1 [t1 rval]] & E1 & E). apply run_io_same in E1 as [].
  cbn in same_queue0, same_trace0. destruct (0 <=? rval) eqn:Hr.
  - destruct (rval =? zlen b); injection E as <- <-; cbn; rewrite same_queue0, same_trace0; cbn; by rewrite ?app_nil_r.
  - apply bind_ok in E as (e' & E2 & E). injection E as <- <-. cbn. rewrite same_queue0, same_trace0. cbn.
    assert (e' <> kNone).
    { intros ->. unfold ErrorFromMbedtlsError in E2. destruct (rval <=? 0); [|done]. injection E2 as E2.
      repeat (case_if; try discriminate). bool_to_prop. lia. }
    by rewrite bool_decide_eq_false_2, app_nil_r.
Qed.

Lemma TryWrite_fifo q : forall d d' e, mSendQueue d = q -> TryWrite_loop sha256 q d = Ok (d', e) -> fifo d d'.
Proof.
  induction q as [|[b t] q IH]; intros d d' e Hq E; cbn [TryWrite_loop] in E; [by injection E as <- <-|].
  apply bind_ok in E as ([d1 e1] & E1 & E). apply Write_spec in E1 as (H1 & H2 & H3).
  case_bool_decide as He.
  - transitivity (with_queue d1 q).
    + exists []. rewrite app_nil_r. split; [done|]. unfold chan_of. rewrite Hq. cbn. rewrite H3. constructor. constructor.
    + by eapply IH; [|exact E].
  - injection E as <- <-. rewrite app_nil_r in H3. by apply silent_fifo.
Qed.

Lemma Send_fifo b t d d' e : Send sha256 b t d = Ok (d', e) -> fifo d d'.
Proof.
  unfold Send. case_bool_decide as Hs; [|by intros [= <- <-]].
  assert (Hq : fifo d (label (with_queue d (mSendQueue d ++ [(b, t)])) (LAccepted (b, t)))).
  { exists [(b, t)]. split; [done|]. constructor. constructor. }
  destruct (mSendQueue d) as [|m q] eqn:Eq; cbn [is_nil]; intros E; [|by injection E as <- <-].
  apply bind_ok in E as ([d1 e1] & E1 & E). apply Write_spec in E1 as (H1 & H2 & H3).
  case_bool_decide as He.
  - injection E as <- <-. exists [(b, t)]. cbn. rewrite H2. split; [done|].
    unfold chan_of. cbn. rewrite H1, H3, Eq. apply ch_accept, ch_deliver, ch_stay.
  - rewrite app_nil_r in H3. destruct (ShouldStop e1); injection E as <- <-.
    + by apply silent_fifo.
    + exists [(b, t)]. cbn. rewrite H2. split; [done|]. unfold chan_of. cbn. rewrite H1, H3, Eq. apply ch_accept, ch_stay.
Qed.

Lemma admin_fifo d d' : administrative d d' -> fifo d d'.
Proof.
  intros [_ _ Hq (l & Hl & Ht)]. apply silent_fifo. unfold silent. rewrite Hq, Ht. split; [done|].
  clear Ht. induction Hl as [|x l Hx _ IH]; [done|]. by destruct x.
Qed.

Lemma apis_fifo n : (forall c d d', api n c d = Ok d' -> fifo d d') ->
  forall l d d', apis n l d = Ok d' -> fifo d d'.
Proof.
  intros Hn l. induction l as [|c l IH]; intros d d' E; [by injection E as <-|].
  apply bind_ok in E as (d1 & E1 & E). apply Hn in E1. apply IH in E. by transitivity d1.
Qed.

Lemma api_fifo n : forall c d d', api n c d = Ok d' -> fifo d d'.
Proof.
  induction n as [|n IH]; intros c d d' E; [done|]. destruct c as [b t|h|e]; cbn [api] in E.
  - apply bind_ok in E as ([d1 e] & E1 & E). injection E as <-. by eapply Send_fifo.
  - unfold Connect in E. case_bool_decide; [|done]. injection E as <-. by apply silent_fifo.
  - eapply (Disconnect_stable fifo (@run_io_fifo) admin_fifo (on_connected n)); [|exact E]. intros h' e' d1 d2 E1. by eapply apis_fifo.
Qed.

Lemma session_step_fifo n ev d d' : session_step n ev d = Ok d' -> fifo d d'.
Proof.
  assert (Hc : forall h e d d', on_connected n h e d = Ok d' -> fifo d d') by (intros *; apply apis_fifo, api_fifo).
  assert (Hr : forall b d d', on_receive n b d = Ok d' -> fifo d d') by (intros *; apply apis_fifo, api_fifo).
  destruct ev as [r w| |now|b|c]; intros E.
  - by eapply (HandleEvent_stable fifo (@run_io_fifo) admin_fifo TryWrite_fifo).
  - cbn [session_step] in E. destruct (mFireTime _) as [t|]; [|by injection E as <-].
    destruct (t <=? mNow d); [by eapply (HandshakeTimerCallback_stable fifo (@run_io_fifo) admin_fifo)|by injection E as <-].
  - injection E as <-. by apply silent_fifo.
  - injection E as <-. by apply silent_fifo.
  - by eapply api_fifo.
Qed.

(** C9: The send queue refines a FIFO channel.  Whatever mbedtls, the socket and the handlers do, every step of a
    session is a sequence of steps of a channel that takes messages at one end and delivers them at the other; so
    from a new session on, the messages that [Send] accepted are, in this order and each exactly once, the ones
    that were written and then the ones that are queued, across all the connections that the session makes. *)
Theorem dtls_send_queue_refines_channel :
  (forall n ev d d', session_step n ev d = Ok d' ->
     exists acc, accepted (mTrace d') = accepted (mTrace d) ++ acc /\ channel acc (chan_of d) (chan_of d')) /\
  (forall n evs server k t now d, session_run n evs (DtlsSession_init server k t now) = Ok d ->
     channel (accepted (mTrace d)) ([], []) (chan_of d) /\
     accepted (mTrace d) = written (mTrace d) ++ mSendQueue d).
Proof.
  split; [exact session_step_fifo|]. intros n evs server k t now d E.
  assert (Hf : fifo (DtlsSession_init server k t now) d).
  { revert E. generalize (DtlsSession_init server k t now). induction evs as [|ev evs IH]; intros d0 E; [by injection E as <-|].
    apply bind_ok in E as (d1 & E1 & E). apply session_step_fifo in E1. apply IH in E. by transitivity d1. }
  destruct Hf as (acc & Ha & Hc). cbn in Ha. rewrite Ha. split; [exact Hc|]. by apply channel_order in Hc.
Qed.

(** *** The connect handlers *)

(** How often a handler was passed to [Connect], and how often it was called. *)
Fixpoint connects (h : nat) (tr : list Label) : nat :=
  match tr with
  | [] => 0 | LConnect h' :: tr => (if decide (h' = h) then 1 else 0) + connects h tr | _ :: tr => connects h tr
  end.
Fixpoint told_connected (h : nat) (tr : list Label) : nat :=
  match tr with
  | [] => 0 | LConnected h' _ :: tr => (if decide (h' = h) then 1 else 0) + told_connected h tr | _ :: tr => told_connected h tr
  end.
Definition waits (h : nat) (o : option nat) : nat := if decide (o = Some h) then 1 else 0.

Definition balanced (d : D) : Prop := forall h,
  (told_connected h (mTrace d) + waits h (mOnSessionConnected d) = connects h (mTrace d))%nat.
Definition settled (d : D) : Prop :=
  balanced d /\ (mSessionState d = kOpen -> mOnSessionConnected d = None) /\ mSessionState d <> kDisconnected.

(** Steps that do not concern the state and the handler. *)
Record apart (d d' : D) : Prop := {
  apart_state : mSessionState d' = mSessionState d;
  apart_handler : mOnSessionConnected d' = mOnSessionConnected d;
  apart_told h : told_connected h (mTrace d') = told_connected h (mTrace d);
  apart_connects h : connects h (mTrace d') = connects h (mTrace d) }.

#[local] Instance apart_preorder : PreOrder apart.
Proof. split; [by intros d|]. intros d1 d2 d3 [] []. split; congruence. Qed.

Lemma io_apart {R} (p : Io R) d d' r : run_io sha256 p d = Ok (d', r) -> apart d d'.
Proof. intros E. apply run_io_same in E as []. split; by rewrite ?same_trace0. Qed.

Lemma apart_balanced d d' : apart d d' -> balanced d -> balanced d'.
Proof. intros [] Hb h. rewrite apart_told0, apart_handler0, apart_connects0. apply Hb. Qed.

Lemma apart_settled d d' : apart d d' -> settled d -> settled d'.
Proof.
  intros Ha (Hb & Ho & Hd). split; [by eapply apart_balanced|]. destruct Ha. by rewrite apart_state0, apart_handler0.
Qed.

Lemma Write_apart b t d d' e : Write sha256 b t d = Ok (d', e) -> apart d d'.
Proof.
  unfold Write. case_bool_decide; [|by intros [= <- <-]]. intros E.
  apply bind_ok in E as ([d1 [t1 rval]] & E1 & E). apply io_apart in E1 as [].
  repeat case_match; try (apply bind_ok in E as (? & _ & E)); by injection E as <- <-.
Qed.

Lemma TryWrite_apart q : forall d d' e, TryWrite_loop sha256 q d = Ok (d', e) -> apart d d'.
Proof.
  induction q as [|[b t] q IH]; intros d d' e E; cbn [TryWrite_loop] in E; [by injection E as <- <-|].
  apply bind_ok in E as ([d1 e1] & E1 & E). apply Write_apart in E1. transitivity d1; [done|].
  case_bool_decide; [|by injection E as <- <-]. apply IH in E. etransitivity; [|exact E]. done.
Qed.

Lemma Send_apart b t d d' e : Send sha256 b t d = Ok (d', e) -> apart d d'.
Proof.
  unfold Send. case_bool_decide; [|by intros [= <- <-]]. destruct (is_nil _); [|by intros [= <- <-]]. intros E.
  apply bind_ok in E as ([d1 e1] & E1 & E). apply Write_apart in E1. transitivity d1; [done|].
  repeat case_match; by injection E as <- <-.
Qed.

Lemma Reset_spec d d' : Reset sha256 d = Ok d' ->
  mSessionState d' = kOpen /\ mOnSessionConnected d' = mOnSessionConnected d /\ mTrace d' = mTrace d.
Proof.
  unfold Reset. destruct (mSessionState d) eqn:Hs; intros E; [by injection E as <-|..].
  all: apply bind_ok in E as ([d1 t] & E1 & E); apply run_io_same in E1 as []; injection E as <-; cbn.
  all: unfold ssl_do; destruct (is_nil _); [done|]; by destruct (ssl_call _ _).
Qed.

(** The connect handlers only send. *)
Definition is_send (c : Call) : Prop := match c with CallSend _ _ => True | _ => False end.

Section Settled.
Context (connected : nat -> ErrorCode -> D -> outcome D) (receive : ByteArray -> D -> outcome D).
Context (Hconnected : forall h e d d', connected h e d = Ok d' -> apart d d').
Context (Hreceive : forall b d d', receive b d = Ok d' -> settled d -> settled d').

Lemma tell_connected_spec e d d' : tell_connected connected e d = Ok d' -> balanced d ->
  balanced d' /\ mSessionState d' = mSessionState d /\ mOnSessionConnected d' = None /\
  forall h, mOnSessionConnected d = Some h -> (0 < told_connected h (mTrace d'))%nat.
Proof using Hconnected.
  unfold tell_connected. destruct (mOnSessionConnected d) as [h|] eqn:Hh; intros E Hb; [|by injection E as <-].
  apply bind_ok in E as (d1 & E1 & E). apply Hconnected in E1 as []. injection E as <-. cbn in *.
  split_and!; [|done..|].
  - intros h'. specialize (Hb h'). cbn. rewrite apart_told0, apart_connects0. cbn. unfold waits in *. rewrite Hh in Hb.
    rewrite (decide_False (P := None = Some h')) by done.
    destruct (decide (h = h')) as [->|]; [rewrite decide_True in Hb by done|rewrite decide_False in Hb by congruence]; lia.
  - intros h' [= <-]. rewrite apart_told0. cbn. rewrite decide_True by done. lia.
Qed.

Lemma Disconnect_settled e d d' : Disconnect sha256 connected e d = Ok d' -> settled d ->
  settled d' /\ (mSessionState d' = kOpen \/ d' = d) /\
  forall h, mOnSessionConnected d = Some h -> mSessionState d' = kOpen /\ (0 < told_connected h (mTrace d'))%nat.
Proof using Hconnected.
  intros E (Hb & Ho & Hd).
  assert (Hdone : forall d1 d2, apart d d1 ->
    tell_connected connected e (with_session_state d1 kDisconnected (mOnSessionConnected d1)) = Ok d2 ->
    Reset sha256 d2 = Ok d' -> settled d' /\ (mSessionState d' = kOpen \/ d' = d) /\
    forall h, mOnSessionConnected d = Some h -> mSessionState d' = kOpen /\ (0 < told_connected h (mTrace d'))%nat).
  { intros d1 d2 Ha E2 E3. pose proof (apart_balanced _ _ Ha Hb) as Hb1.
    apply tell_connected_spec in E2 as (Hb2 & _ & Hn2 & Ht2); [|exact Hb1].
    apply Reset_spec in E3 as (Hs & Hn3 & Ht3). unfold settled, balanced. rewrite Hs, Hn3, Hn2, Ht3.
    split_and!; [|done|done|by left|].
    - intros h. specialize (Hb2 h). by rewrite Hn2 in Hb2.
    - intros h Hh. split; [done|]. apply Ht2. cbn. by rewrite (apart_handler _ _ Ha). }
  unfold Disconnect in E. destruct (mSessionState d) eqn:Hs; [| | |done].
  2,3: apply bind_ok in E as (d1 & E1 & E); apply bind_ok in E as (d2 & E2 & E); eapply Hdone; [|exact E2|exact E];
    destruct (_ && _); [apply bind_ok in E1 as ([d3 t] & E1 & E3); injection E3 as <-; by apply io_apart in E1 as []|];
    by injection E1 as <-.
  injection E as <-. split; [unfold settled; by rewrite Hs|]. split; [by right|]. intros h Hh. by rewrite Ho in Hh.
Qed.

Lemma Reconnect_settled d d' : Reconnect sha256 d = Ok d' -> balanced d -> settled d'.
Proof using.
  unfold Reconnect. destruct (mIsServer d); [|done]. intros E Hb. apply bind_ok in E as (d1 & E1 & E).
  apply Reset_spec in E1 as (_ & Hn & Ht). unfold Connect in E. case_bool_decide; [|done]. injection E as <-.
  split; [|done]. intros h. specialize (Hb h). cbn. by rewrite Ht, Hn.
Qed.

Lemma settled_connected d : balanced d -> mSessionState d = kConnected -> settled d.
Proof using. unfold settled. intros Hb ->. done. Qed.

Lemma Handshake_settled d d' e : Handshake sha256 connected d = Ok (d', e) -> settled d -> settled d'.
Proof using Hconnected.
  unfold Handshake. case_bool_decide as Hs; [|by intros [= <- <-]]. intros E Hd.
  apply bind_ok in E as ([d1 [t rval]] & E1 & E). apply io_apart in E1. apply bind_ok in E as (d2 & E2 & E).
  assert (Hd1 : settled (with_ssl d1 t (mIsClientIdSet d1))) by (eapply apart_settled; [|exact Hd]; by destruct E1).
  assert (Hd2 : settled d2).
  { destruct (_ && _); [|by injection E2 as <-]. apply tell_connected_spec in E2 as (Hb & Hst & Hn & _); [|apply Hd1].
    by apply settled_connected. }
  case_match; apply bind_ok in E as (? & E3 & E); injection E as <- <-; [|done].
  eapply Reconnect_settled; [exact E3|apply Hd2].
Qed.

Lemma Read_settled d d' e : Read sha256 receive d = Ok (d', e) -> settled d -> settled d'.
Proof using Hreceive.
  unfold Read. case_bool_decide as Hs; [|by intros [= <- <-]]. intros E Hd.
  apply bind_ok in E as ([d1 [t rval]] & E1 & E). apply io_apart in E1.
  assert (Hd1 : settled (with_ssl d1 t (mIsClientIdSet d1))) by (eapply apart_settled; [|exact Hd]; by destruct E1).
  destruct rval as [rval|data].
  - destruct (rval =? 0); [by injection E as <- <-|]. destruct (rval =? _).
    + injection E as <- <-. split; [apply Hd1|done].
    + apply bind_ok in E as (? & _ & E). by injection E as <- <-.
  - apply bind_ok in E as (d2 & E2 & E). injection E as <- <-. by apply Hreceive in E2.
Qed.

Lemma Read_loop_settled n : forall e d d' e', Read_loop sha256 receive n e d = Ok (d', e') -> settled d -> settled d'.
Proof using Hreceive.
  induction n as [|n IH]; intros e d d' e' E Hd; cbn [Read_loop] in E; case_bool_decide; try (by injection E as <- <-); [done|].
  apply bind_ok in E as ([d1 e1] & E1 & E). apply Read_settled in E1; [|done]. by apply IH in E.
Qed.

Lemma handle_connected_settled n r w e d d' e' :
  handle_connected sha256 receive n r w e d = Ok (d', e') -> settled d -> settled d'.
Proof using Hreceive.
  unfold handle_connected. intros E Hd. apply bind_ok in E as ([d1 e1] & E1 & E).
  assert (settled d1) by (destruct r; [by apply Read_loop_settled in E1|by injection E1 as <- <-]).
  destruct (_ && _); [|by injection E as <- <-]. apply TryWrite_apart in E. by eapply apart_settled.
Qed.

Lemma SetClientTransportId_apart d d' e : SetClientTransportId d = Ok (d', e) -> apart d d'.
Proof using.
  unfold SetClientTransportId, ssl_do. intros E. apply bind_ok in E as (p & _ & E).
  destruct (Addr.IsValid p); [|by injection E as <- <-]. destruct (ssl_call _ _) as [t f].
  apply bind_ok in E as (e1 & _ & E). case_bool_decide; by injection E as <- <-.
Qed.

Lemma stop_settled e d d' : (if ShouldStop e then Disconnect sha256 connected e d else Ok d) = Ok d' -> settled d -> settled d'.
Proof using Hconnected.
  destruct (ShouldStop e); [|by intros [= <-]]. intros E Hd. by apply Disconnect_settled in E as [? _].
Qed.

Lemma HandleEvent_settled n r w d d' : HandleEvent sha256 connected receive n r w d = Ok d' -> settled d -> settled d'.
Proof using Hconnected Hreceive.
  unfold HandleEvent. intros E Hd. apply bind_ok in E as ([d1 e1] & E1 & E). apply bind_ok in E as ([d2 e2] & E2 & E).
  assert (Hd1 : settled d1).
  { destruct (_ && _); [|by injection E1 as <- <-]. apply SetClientTransportId_apart in E1. by eapply apart_settled. }
  apply stop_settled in E; [done|].
  case_bool_decide; [|by injection E2 as <- <-].
  destruct (mSessionState d1); [by injection E2 as <- <-| |by eapply handle_connected_settled|by injection E2 as <- <-].
  apply bind_ok in E2 as ([d3 e3] & E3 & E2). apply Handshake_settled in E3; [|done].
  destruct (_ || _); [by injection E2 as <- <-|by eapply handle_connected_settled].
Qed.

Lemma HandshakeTimerCallback_settled d d' : HandshakeTimerCallback sha256 connected d = Ok d' -> settled d -> settled d'.
Proof using Hconnected.
  unfold HandshakeTimerCallback. set (d0 := with_time _ _ _). intros E Hd.
  assert (Hd0 : settled d0) by (eapply apart_settled; [|exact Hd]; done).
  destruct (mSessionState d0); try done. apply bind_ok in E as ([d1 e1] & E1 & E).
  apply Handshake_settled in E1; [|done]. by apply stop_settled in E.
Qed.
End Settled.

Context (Hscript : forall h e, Forall is_send (script_connected h e)).

Lemma on_connected_apart n h e d d' : on_connected n h e d = Ok d' -> apart d d'.
Proof using Hscript.
  unfold on_connected, apis. generalize (Hscript h e). generalize (script_connected h e). intros l. revert d.
  induction l as [|c l IH]; intros d Hl E; [by injection E as <-|]. inversion Hl as [|? ? Hc Hl']; subst.
  apply bind_ok in E as (d1 & E1 & E). transitivity d1; [|by apply IH].
  destruct n; [done|]. destruct c; try done. cbn [api] in E1. apply bind_ok in E1 as ([d2 e2] & E2 & E1).
  injection E1 as <-. by eapply Send_apart.
Qed.

Lemma apis_settled n : (forall c d d', api n c d = Ok d' -> settled d -> settled d') ->
  forall l d d', apis n l d = Ok d' -> settled d -> settled d'.
Proof using.
  intros Hn l. induction l as [|c l IH]; intros d d' E Hd; [by injection E as <-|].
  apply bind_ok in E as (d1 & E1 & E). apply Hn in E1; [|done]. by apply IH in E.
Qed.

Lemma api_settled n : forall c d d', api n c d = Ok d' -> settled d -> settled d'.
Proof using Hscript.
  induction n as [|n IH]; intros c d d' E Hd; [done|]. destruct c as [b t|h|e]; cbn [api] in E.
  - apply bind_ok in E as ([d1 e] & E1 & E). injection E as <-. eapply apart_settled; [by eapply Send_apart|done].
  - unfold Connect in E. case_bool_decide as Ho; [|done]. injection E as <-. destruct Hd as (Hb & Hn & _). split; [|done].
    intros h'. specialize (Hb h'). cbn. rewrite (Hn Ho) in Hb. unfold waits in *. rewrite decide_False in Hb by done.
    destruct (decide (h = h')) as [->|]; [rewrite decide_True by done|rewrite decide_False by congruence]; lia.
  - by apply (Disconnect_settled (on_connected n) (on_connected_apart n)) in E as [? _].
Qed.

Lemma session_step_settled n ev d d' : session_step n ev d = Ok d' -> settled d -> settled d'.
Proof using Hscript.
  destruct ev as [r w| |now|b|c]; intros E Hd.
  - eapply HandleEvent_settled; [apply on_connected_apart| |exact E|exact Hd].
    intros b d1 d2. apply apis_settled, api_settled.
  - cbn [session_step] in E. destruct (mFireTime _) as [t|]; [|by injection E as <-].
    destruct (t <=? mNow d); [|by injection E as <-].
    by eapply HandshakeTimerCallback_settled; [apply on_connected_apart|exact E|].
  - injection E as <-. by eapply apart_settled.
  - injection E as <-. by eapply apart_settled.
  - by eapply api_settled.
Qed.

(** C10: The connect handler of a session is called exactly once.  If the connect handlers do not connect or
    disconnect themselves, then in every reachable state each handler was called as often as it was passed to
    [Connect], or once less while the session still waits for it; an open session waits for none, and a session is
    never left half disconnected.  Disconnecting a session that waits for its handler opens it and calls it. *)
Theorem dtls_connect_handler_once n evs server k t now d :
  session_run n evs (DtlsSession_init server k t now) = Ok d ->
  (forall h, (told_connected h (mTrace d) + waits h (mOnSessionConnected d) = connects h (mTrace d))%nat) /\
  (mSessionState d = kOpen -> mOnSessionConnected d = None) /\ mSessionState d <> kDisconnected /\
  (forall e d' h, session_step n (EvtCall (CallDisconnect e)) d = Ok d' -> mOnSessionConnected d = Some h ->
     mSessionState d' = kOpen /\ (0 < told_connected h (mTrace d'))%nat).
Proof using Hscript.
  intros E. assert (Hd : settled d).
  { assert (H0 : settled (DtlsSession_init server k t now)) by by split; [intros h; cbn|].
    revert H0 E. generalize (DtlsSession_init server k t now). induction evs as [|ev evs IH]; intros d0 H0 E; [by injection E as <-|].
    apply bind_ok in E as (d1 & E1 & E). apply session_step_settled in E1; [|done]. by eapply IH. }
  split; [apply Hd|]. split; [apply Hd|]. split; [apply Hd|]. intros e d' h E' Hh.
  apply (Disconnect_settled (on_connected n) (on_connected_apart n)) in E' as (_ & _ & Ht); [|done]. by apply Ht.
Qed.
End Run.
