(* ===== verification/DtlsRefinement.v ===== *)
(** * The session of the border agent client

    [Commissioner] keeps of the DTLS session of the border agent client its
    state and its connect handler, and lets the environment decide when a
    handshake is over and when the session fails.  Here the session itself
    ([Dtls]) is shown to do nothing else: a simulation, by events of the
    commissioner. *)

From S2P Require Import Prelude Outcome Common Tlv NetworkData CoapMessage Commissioner Dtls DtlsFacts.
Import Addr Tlv Message.

(** The session [d], of a client, as the commissioner [c] knows it, with the handlers behind their numbers. *)
Definition viewed {K T} (handlers : nat -> ConnectHandler) (d : DtlsSession K T) (c : Commissioner) : Prop :=
  mIsServer d = false /\ mDtls c = mSessionState d /\ mOnConnected c = handlers <$> mOnSessionConnected d.

Section Refinement.
Context `{HSign : RequestSigner} {K T : Type} `{HM : MbedtlsErrors} `{HS : Ssl T} `{HK : Socket K}.
Context (sha256 : ByteArray -> ByteArray).
Context (inet_pton4 inet_pton6 : string_t -> option ByteArray).
Context (channel0 : Channel) (panId0 rotation0 delay0 : Z) (env_send : nat -> ErrorCode) (fuel : nat).
Context (handlers : nat -> ConnectHandler).
Context (connected : nat -> ErrorCode -> DtlsSession K T -> outcome (DtlsSession K T)).
Context (receive : ByteArray -> DtlsSession K T -> outcome (DtlsSession K T)).
Abbreviation D := (DtlsSession K T).
Abbreviation rsp := (Commissioner.respond channel0 panId0 rotation0 delay0 env_send fuel).
Abbreviation run_c := (Commissioner.run inet_pton4 inet_pton6 channel0 panId0 rotation0 delay0 env_send fuel).

(** [c'] is reached from [c] by events of the environment. *)
Definition evolves (c c' : Commissioner) : Prop := exists evs, run_c evs c = Ok c'.

Lemma run_app l1 : forall l2 c c1 c2, run_c l1 c = Ok c1 -> run_c l2 c1 = Ok c2 -> run_c (l1 ++ l2) c = Ok c2.
Proof.
  induction l1 as [|e l1 IH]; intros l2 c c1 c2 E1 E2; cbn in *; [by injection E1 as ->|].
  apply bind_ok in E1 as (c3 & -> & E1). cbn. by eapply IH.
Qed.

#[local] Instance evolves_preorder : PreOrder evolves.
Proof.
  split; [intros c; by exists []|]. intros c1 c2 c3 [l1 H1] [l2 H2]. exists (l1 ++ l2). by eapply run_app.
Qed.

Lemma evolves_one ev c c' : Commissioner.step inet_pton4 inet_pton6 channel0 panId0 rotation0 delay0 env_send fuel ev c = Ok c' ->
  evolves c c'.
Proof. intros E. exists [ev]. cbn. by rewrite E. Qed.

(** The handlers of the session are those of the commissioner, and what is received are events for it. *)
Context (Hconnected : forall h e (d d' : D) c, viewed handlers d c -> connected h e d = Ok d' ->
  exists c', call_connected env_send rsp c (handlers h) e = Ok c' /\ viewed handlers d' c').
Context (Hreceive : forall b (d d' : D) c, viewed handlers d c -> receive b d = Ok d' ->
  exists c', evolves c c' /\ viewed handlers d' c').

Lemma viewed_same (d d' : D) c : mIsServer d' = mIsServer d -> mSessionState d' = mSessionState d ->
  mOnSessionConnected d' = mOnSessionConnected d -> viewed handlers d c -> viewed handlers d' c.
Proof. unfold viewed. by intros -> -> ->. Qed.

Lemma io_viewed {R} (p : Io R) (d d' : D) r c : run_io sha256 p d = Ok (d', r) -> viewed handlers d c -> viewed handlers d' c.
Proof. intros E. apply run_io_same in E as []. by apply viewed_same. Qed.

Lemma tell_viewed e (d d' : D) c : viewed handlers d c -> tell_connected connected e d = Ok d' ->
  exists c', (match mOnConnected c with
              | Some h => c ← call_connected env_send rsp c h e; Ok (with_dtls c (mDtls c) None)
              | None => Ok c
              end) = Ok c' /\ viewed handlers d' c'.
Proof using Hconnected.
  intros (Hc & Hs & Hh) E. unfold tell_connected in E. rewrite Hh.
  destruct (mOnSessionConnected d) as [h|] eqn:Eh; cbn [fmap option_fmap option_map].
  - apply bind_ok in E as (d1 & E1 & E). injection E as <-.
    apply (Hconnected h e _ d1 c) in E1 as (c1 & -> & Hv1); [|split_and!; [done..|]; cbn; by rewrite Eh].
    cbn. eexists. split; [done|]. by split_and!; [apply Hv1..|].
  - injection E as <-. exists c. split; [done|]. split_and!; [done..|]. by rewrite Eh.
Qed.

Lemma Reset_viewed (d d' : D) c : viewed handlers d c -> Reset sha256 d = Ok d' ->
  viewed handlers d' (with_dtls c kOpen (mOnConnected c)).
Proof using.
  intros (Hc & Hs & Hh) E. pose proof E as E'. apply Reset_spec in E' as (H1 & H2 & _).
  split_and!; cbn; [|done|by rewrite H2]. unfold Reset in E. destruct (mSessionState d); [by injection E as <-|..].
  all: apply bind_ok in E as ([d1 t] & E1 & E); apply run_io_same in E1 as []; injection E as <-; cbn.
  all: unfold ssl_do; destruct (is_nil _); [|destruct (ssl_call _ _)]; cbn; by rewrite same_server.
Qed.

Lemma Disconnect_viewed e (d d' : D) c : viewed handlers d c -> Disconnect sha256 connected e d = Ok d' ->
  exists c', dtls_Disconnect env_send rsp c e = Ok c' /\ viewed handlers d' c'.
Proof using Hconnected.
  intros Hv E.
  assert (Hdone : forall d1 d2, viewed handlers d1 c ->
    tell_connected connected e (with_session_state d1 kDisconnected (mOnSessionConnected d1)) = Ok d2 ->
    Reset sha256 d2 = Ok d' -> exists c', (c ← (let c := with_dtls c kDisconnected (mOnConnected c) in
          match mOnConnected c with
          | Some h => c ← call_connected env_send rsp c h e; Ok (with_dtls c (mDtls c) None)
          | None => Ok c
          end); Ok (with_dtls c kOpen (mOnConnected c))) = Ok c' /\ viewed handlers d' c').
  { intros d1 d2 (Hc & Hs & Hh) E2 E3.
    apply (tell_viewed e _ d2 (with_dtls c kDisconnected (mOnConnected c))) in E2 as (c2 & E2 & Hv2); [|done].
    cbv zeta. rewrite E2. cbn. eexists. split; [done|]. by eapply Reset_viewed. }
  unfold Disconnect in E. unfold dtls_Disconnect. pose proof Hv as (Hc & Hs & Hh). rewrite Hs.
  destruct (mSessionState d) eqn:Es.
  - injection E as <-. by exists c.
  - apply bind_ok in E as (d1 & E1 & E). apply bind_ok in E as (d2 & E2 & E). injection E1 as <-. by eapply Hdone; [|exact E2|].
  - apply bind_ok in E as (d1 & E1 & E). apply bind_ok in E as (d2 & E2 & E). eapply Hdone; [|exact E2|exact E].
    destruct (_ && _); [|by injection E1 as <-]. apply bind_ok in E1 as ([d3 t] & E1 & E3). injection E3 as <-.
    by apply (io_viewed _ _ _ _ c) in E1.
  - injection E as <-. by exists c.
Qed.

(** A client is never told that a client reconnects. *)
Context (Hclient : forall (d d' : D) t rval, run_io sha256 (ssl_read (mSsl d)) d = Ok (d', (t, inl rval)) ->
  rval <> ERR_SSL_CLIENT_RECONNECT).

Lemma Handshake_viewed (d d' : D) c e : viewed handlers d c ->
  Handshake sha256 connected d = Ok (d', e) -> exists c', evolves c c' /\ viewed handlers d' c'.
Proof using Hconnected.
  intros Hv. unfold Handshake. case_bool_decide as Hst; [|intros [= <- <-]; by exists c].
  intros E. apply bind_ok in E as ([d1 [t rval]] & E1 & E). apply (io_viewed _ _ _ _ c) in E1 as (Hc1 & Hs1 & Hh1); [|done].
  apply bind_ok in E as (d2 & E2 & E).
  assert (Hd2 : exists c', evolves c c' /\ viewed handlers d2 c').
  { destruct (_ && _) eqn:Eo; [|injection E2 as <-; by exists c]. apply andb_true_iff in Eo as [Eo _].
    apply bool_decide_eq_true in Eo. cbn in Eo.
    apply (tell_viewed kNone _ d2 (with_dtls c kConnected (mOnConnected c))) in E2 as (c2 & E2 & Hv2); [|done].
    exists c2. split; [|done]. apply (evolves_one EvtHandshakeOver). cbn [step]. unfold handshake_over.
    rewrite Hs1, Eo. exact E2. }
  destruct Hd2 as (c2 & Hev & Hv2). exists c2. split; [done|].
  case_match; apply bind_ok in E as (? & E3 & E); injection E as <- <-; [|done].
  unfold Reconnect in E3. by rewrite (proj1 Hv2) in E3.
Qed.

Lemma Read_viewed (d d' : D) c e : viewed handlers d c ->
  Read sha256 receive d = Ok (d', e) -> exists c', evolves c c' /\ viewed handlers d' c'.
Proof using Hreceive Hclient.
  intros Hv. unfold Read. case_bool_decide as Hst; [|intros [= <- <-]; by exists c].
  intros E. apply bind_ok in E as ([d1 [t rval]] & E1 & E). pose proof E1 as Er.
  apply (io_viewed _ _ _ _ c) in E1; [|done]. destruct rval as [rval|data].
  - apply Hclient in Er. exists c. split; [done|]. destruct (rval =? 0); [by injection E as <- <-|].
    rewrite (proj2 (Z.eqb_neq _ _) Er) in E. apply bind_ok in E as (? & _ & E). by injection E as <- <-.
  - apply bind_ok in E as (d2 & E2 & E). injection E as <- <-. by eapply Hreceive in E2.
Qed.

Lemma Read_loop_viewed n : forall (d d' : D) c e e', viewed handlers d c ->
  Read_loop sha256 receive n e d = Ok (d', e') -> exists c', evolves c c' /\ viewed handlers d' c'.
Proof using Hreceive Hclient.
  induction n as [|n IH]; intros d d' c e e' Hv E; cbn [Read_loop] in E; case_bool_decide;
    try (injection E as <- <-; by exists c); [done|].
  apply bind_ok in E as ([d1 e1] & E1 & E). eapply Read_viewed in E1 as (c1 & Hev1 & Hv1); [|done].
  eapply IH in E as (c2 & Hev2 & Hv2); [|done]. exists c2. split; [by transitivity c1|done].
Qed.

Lemma Write_server b t (d d' : D) e : Write sha256 b t d = Ok (d', e) -> mIsServer d' = mIsServer d.
Proof using.
  unfold Write. case_bool_decide; [|by intros [= <- <-]]. intros E.
  apply bind_ok in E as ([d1 [t1 rval]] & E1 & E). apply run_io_same in E1 as [].
  repeat case_match; try (apply bind_ok in E as (? & _ & E)); by injection E as <- <-.
Qed.

Lemma TryWrite_viewed q : forall (d d' : D) c e, viewed handlers d c -> TryWrite_loop sha256 q d = Ok (d', e) -> viewed handlers d' c.
Proof using.
  induction q as [|[b t] q IH]; intros d d' c e Hv E; cbn [TryWrite_loop] in E; [by injection E as <- <-|].
  apply bind_ok in E as ([d1 e1] & E1 & E). pose proof (Write_server _ _ _ _ _ E1). apply Write_apart in E1 as [].
  assert (Hv1 : viewed handlers d1 c) by by eapply viewed_same.
  case_bool_decide; [|by injection E as <- <-]. by apply (IH _ _ c) in E.
Qed.

Lemma handle_connected_viewed n r w (d d' : D) c e e' : viewed handlers d c ->
  handle_connected sha256 receive n r w e d = Ok (d', e') -> exists c', evolves c c' /\ viewed handlers d' c'.
Proof using Hreceive Hclient.
  intros Hv E. unfold handle_connected in E. apply bind_ok in E as ([d1 e1] & E1 & E).
  assert (H1 : exists c1, evolves c c1 /\ viewed handlers d1 c1).
  { destruct r; [by eapply Read_loop_viewed|]. injection E1 as <- <-. by exists c. }
  destruct H1 as (c1 & Hev & Hv1). exists c1. split; [done|].
  destruct (_ && _); [by eapply TryWrite_viewed|by injection E as <- <-].
Qed.

Lemma stop_viewed e (d d' : D) c : viewed handlers d c ->
  (if ShouldStop e then Disconnect sha256 connected e d else Ok d) = Ok d' -> exists c', evolves c c' /\ viewed handlers d' c'.
Proof using Hconnected.
  intros Hv E. destruct (ShouldStop e) eqn:He; [|injection E as <-; by exists c].
  eapply Disconnect_viewed in E as (c' & E & Hv'); [|done]. exists c'. split; [|done].
  apply (evolves_one (EvtDtlsError e)). cbn [step]. rewrite bool_decide_eq_false_2; [done|by intros ->].
Qed.

(** C8: Simulation: what happens to the DTLS session of the border agent client is what the events of the
    commissioner's model do.  If the connect handlers of the session are those of the commissioner and data it
    receives are events for the commissioner, then handling a socket event or the handshake timer leads, from a
    state that the commissioner sees, to one that it sees after some of its own events (the end of a handshake,
    the failure of the session); and connecting and disconnecting the session are the operations of the model. *)
Theorem dtls_refines_commissioner_events (d d' : D) c :
  viewed handlers d c ->
  (forall n r w, HandleEvent sha256 connected receive n r w d = Ok d' -> exists c', evolves c c' /\ viewed handlers d' c') /\
  (HandshakeTimerCallback sha256 connected d = Ok d' -> exists c', evolves c c' /\ viewed handlers d' c') /\
  (forall h, Connect (Some h) d = Ok d' -> exists c', dtls_Connect c (handlers h) = Ok c' /\ viewed handlers d' c') /\
  (forall e, Disconnect sha256 connected e d = Ok d' -> exists c', dtls_Disconnect env_send rsp c e = Ok c' /\ viewed handlers d' c').
Proof using Hconnected Hreceive Hclient.
  intros Hv. split_and!.
  - intros n r w E. unfold HandleEvent in E. rewrite (proj1 Hv) in E. cbn [andb mbind outcome_bind] in E.
    rewrite bool_decide_eq_true_2 in E by done. apply bind_ok in E as ([d1 e1] & E1 & E).
    assert (H1 : exists c1, evolves c c1 /\ viewed handlers d1 c1).
    { destruct (mSessionState d); [injection E1 as <- <-; by exists c| |by eapply handle_connected_viewed|injection E1 as <- <-; by exists c].
      apply bind_ok in E1 as ([d2 e2] & E2 & E1). eapply Handshake_viewed in E2 as (c2 & Hev2 & Hv2); [|done].
      destruct (_ || _); [injection E1 as <- <-; by exists c2|].
      eapply handle_connected_viewed in E1 as (c3 & Hev3 & Hv3); [|done]. exists c3. split; [by transitivity c2|done]. }
    destruct H1 as (c1 & Hev1 & Hv1). eapply stop_viewed in E as (c2 & Hev2 & Hv2); [|done].
    exists c2. split; [by transitivity c1|done].
  - unfold HandshakeTimerCallback. set (d0 := with_time _ _ _). assert (Hv0 : viewed handlers d0 c) by done.
    intros E. destruct (mSessionState d0); try done. apply bind_ok in E as ([d1 e1] & E1 & E).
    eapply Handshake_viewed in E1 as (c1 & Hev1 & Hv1); [|done].
    eapply stop_viewed in E as (c2 & Hev2 & Hv2); [|done]. exists c2. split; [by transitivity c1|done].
  - intros h E. unfold Connect in E. case_bool_decide as Hs; [|done]. injection E as <-. destruct Hv as (Hc & Hst & Hh).
    unfold dtls_Connect. rewrite bool_decide_eq_true_2 by congruence. eexists. split; [done|]. done.
  - intros e. by apply Disconnect_viewed.
Qed.
End Refinement.
