(* ===== verification/DtlsScript.v ===== *)
(** * Runs of DTLS sessions

    An mbedtls that finishes its handshake after some attempts and passes
    records on as they are: the witnesses of the properties of DTLS sessions,
    and the behaviours of the code that its comments do not mean. *)

From S2P Require Import Prelude Outcome Common Tlv NetworkData CoapMessage Commissioner Dtls DtlsFacts DtlsRefinement.
Import Addr Tlv Message.

(** The error codes that mbedtls documents. *)
#[export] Instance sample_errors : MbedtlsErrors := {|
  ERR_SSL_WANT_READ := -26880;
  ERR_SSL_WANT_WRITE := -26752;
  ERR_SSL_ASYNC_IN_PROGRESS := -25856;
  ERR_SSL_CRYPTO_IN_PROGRESS := -28672;
  ERR_SSL_TIMEOUT := -26624;
  ERR_SSL_HELLO_VERIFY_REQUIRED := -27264;
  ERR_SSL_CLIENT_RECONNECT := -26496;
  ERR_NET_SEND_FAILED := -78 |}.

(** The results of the next handshakes. *)
Record SampleSsl : Type := mkSampleSsl { sample_over : bool; sample_handshakes : list Z }.

(** A record that a client sends when it reconnects. *)
Definition client_hello : ByteArray := [22].

Definition sample_ssl (reconnects : bool) : Ssl SampleSsl := {|
  ssl_call := fun _ t => (t, 0);
  ssl_handshake := fun t =>
    match sample_handshakes t with
    | [] => IoSetDelay 0 0 (IoRet (mkSampleSsl true [], 0))
    | e :: l => IoSetDelay 1000 2000 (IoRet (mkSampleSsl false l, e))
    end;
  ssl_handshake_over := sample_over;
  ssl_read := fun t =>
    IoReceive 16384 (fun r =>
      match r with
      | inr b => if reconnects && bool_decide (b = client_hello) then IoRet (t, inl (-26496)) else IoRet (t, inr b)
      | inl _ => IoRet (t, inl (-26880))
      end);
  ssl_write := fun t b => IoSend b (fun n => IoRet (t, n));
  ssl_close_notify := fun t => IoSend [21] (fun _ => IoRet t);
  ssl_session_reset := fun t => IoSetDelay 0 0 (IoRet (mkSampleSsl false (sample_handshakes t))) |}.

(** Datagrams to read, datagrams sent, and whether the socket is busy; it is
    made busy and free again by the arrival of two special datagrams. *)
Record SampleSocket : Type := mkSampleSocket { inbox : list ByteArray; outbox : list ByteArray; is_busy : bool }.

#[export] Instance sample_socket : Socket SampleSocket := {|
  sock_send := fun _ _ b s =>
    if is_busy s then Ok (s, -26752) else Ok (mkSampleSocket (inbox s) (outbox s ++ [b]) false, zlen b);
  sock_receive := fun _ s =>
    match inbox s with
    | [] => Ok (s, inl (-26880))
    | b :: l => Ok (mkSampleSocket l (outbox s) (is_busy s), inr b)
    end;
  sock_peer := fun _ => Ok (repeat 1 16);
  sock_arrive := fun b s =>
    match b with
    | [0] => mkSampleSocket (inbox s) (outbox s) true
    | [1] => mkSampleSocket (inbox s) (outbox s) false
    | _ => mkSampleSocket (inbox s ++ [b]) (outbox s) (is_busy s)
    end |}.
Definition busy : SessionEvent := EvtArrive [0].
Definition free : SessionEvent := EvtArrive [1].

Definition fresh (server : bool) (handshakes : list Z) : DtlsSession SampleSocket SampleSsl :=
  DtlsSession_init server (mkSampleSocket [] [] false) (mkSampleSsl false handshakes) 0.

(** No host name is an address. *)
Definition inet_pton4_none (s : string_t) : option ByteArray := None.

(** Handlers that do nothing, and a connect handler that disconnects. *)
Definition quiet_connected (h : nat) (e : ErrorCode) : list Call := [].
Definition leaving (h : nat) (e : ErrorCode) : list Call :=
  match e with kNone => [CallDisconnect kCancelled] | _ => [] end.
Definition echo (b : ByteArray) : list Call := [CallSend b kSubTypeNone].

Abbreviation dtls_run connected evs d :=
  (session_run (HS := sample_ssl true) (fun b => b) connected echo 10 10 evs d).
Definition dtls_end (connected : nat -> ErrorCode -> list Call) (evs : list SessionEvent)
    (d : DtlsSession SampleSocket SampleSsl) : DtlsSession SampleSocket SampleSsl :=
  match dtls_run connected evs d with Ok d' => d' | _ => d end.

(** A server that connects after one attempt, answers a message, and queues two more. *)
Definition serving : list SessionEvent :=
  [EvtCall (CallConnect 7); EvtReady true false; EvtArrive [5; 5]; EvtReady true true; busy;
   EvtCall (CallSend [1] kSubTypeNone); EvtCall (CallSend [2] kJoinFinResponse)].
Abbreviation server := (fresh true [-26880]).

(** ** The theorems apply *)

Lemma dtls_send_queue_refines_channel_witness :
  dtls_run quiet_connected serving server = Ok (dtls_end quiet_connected serving server) /\
  accepted (mTrace (dtls_end quiet_connected serving server))
  = written (mTrace (dtls_end quiet_connected serving server)) ++ mSendQueue (dtls_end quiet_connected serving server).
Proof.
  assert (E : dtls_run quiet_connected serving server = Ok (dtls_end quiet_connected serving server)) by (vm_compute; reflexivity).
  split; [exact E|].
  apply (proj2 (dtls_send_queue_refines_channel (HS := sample_ssl true) (fun b => b) quiet_connected echo 10)
    10%nat serving true (mkSampleSocket [] [] false) (mkSampleSsl false [-26880]) 0 _ E).
Defined.

Lemma dtls_connect_handler_once_witness :
  dtls_run quiet_connected serving server = Ok (dtls_end quiet_connected serving server) /\
  (told_connected 7 (mTrace (dtls_end quiet_connected serving server))
   + waits 7 (mOnSessionConnected (dtls_end quiet_connected serving server))
   = connects 7 (mTrace (dtls_end quiet_connected serving server)))%nat.
Proof.
  assert (E : dtls_run quiet_connected serving server = Ok (dtls_end quiet_connected serving server)) by (vm_compute; reflexivity).
  split; [exact E|].
  apply (dtls_connect_handler_once (HS := sample_ssl true) (fun b => b) quiet_connected echo 10 (fun _ _ => List.Forall_nil _)
    10%nat serving true (mkSampleSocket [] [] false) (mkSampleSsl false [-26880]) 0 _ E).
Defined.

(** The commissioner of the session is not in a commercial network. *)
#[export] Instance unsigned : RequestSigner :=
  {| sign_request m _ := Ok m; sign_ntop4 _ := None; sign_ntop6 _ := None |}.

(** A client that is connecting, as the commissioner sees it. *)
Definition connecting : DtlsSession SampleSocket SampleSsl := with_session_state (fresh false []) kConnecting (Some 7%nat).
Definition connecting_view : Commissioner :=
  with_dtls (Commissioner_init (mkConfig false 30 [] (str "comm") (repeat 1 16) [] [] []) 0) kConnecting (Some (ConnUser 7)).
Abbreviation client_event s :=
  (HandleEvent (HS := sample_ssl false) (fun b => b) (fun _ _ d => Ok d) (fun _ d => Ok d) 10 true true s).

Lemma dtls_refines_commissioner_events_witness :
  exists d', client_event connecting = Ok d' /\ mSessionState d' = kConnected /\
  exists c', evolves inet_pton4_none inet_pton4_none (mkChannel 0 0) 0 0 0 (fun _ => kNone) 10 connecting_view c' /\
    viewed ConnUser d' c'.
Proof.
  eexists. split; [vm_compute; reflexivity|]. split; [reflexivity|].
  refine (proj1 (dtls_refines_commissioner_events (HS := sample_ssl false) (fun b => b) inet_pton4_none inet_pton4_none
    (mkChannel 0 0) 0 0 0 (fun _ => kNone) 10 ConnUser (fun _ _ d => Ok d) (fun _ d => Ok d) _ _ _ connecting _
    connecting_view _) 10%nat true true _).
  - intros h e d d' c Hv [= <-]. eexists. split; [reflexivity|]. exact Hv.
  - intros b d d' c Hv [= <-]. exists c. split; [by exists []|exact Hv].
  - intros d d' t rval E. cbn in E. destruct (inbox (mSocket d)); cbn in E; [injection E as <- <- <-; discriminate|discriminate].
  - split_and!; reflexivity.
  - vm_compute. reflexivity.
Defined.

(** ** Runs that go wrong *)

(** Faults of the DTLS session, each with a run that shows it.  (1) When a client reconnects the session should
    go on with its handshake, but the loop that reads tries once more, takes the new state for an error, and
    disconnects; no handler hears of it.  (2) A message that could not be written before the session was
    disconnected stays in the queue, and is written to the next connection.  (3) A connect handler that
    disconnects is called a second time, for the connection that it just heard of. *)
Theorem dtls_faults :
  (let d := dtls_end quiet_connected [EvtCall (CallConnect 7); EvtReady true false; EvtArrive client_hello; EvtReady true false]
              (fresh true []) in
   mSessionState d = kOpen /\ mTrace d = [LConnected 7 kNone; LConnect 7]) /\
  (let m := ([1; 2; 3], kSubTypeNone) in
   mTrace (dtls_end quiet_connected
     [EvtCall (CallConnect 7); EvtReady true false; busy; EvtCall (CallSend [1; 2; 3] kSubTypeNone);
      EvtCall (CallDisconnect kCancelled); free; EvtCall (CallConnect 8); EvtReady true true] (fresh false []))
   = [LWritten m; LWriting m; LConnected 8 kNone; LConnect 8; LAccepted m; LWriting m; LConnected 7 kNone; LConnect 7]) /\
  mTrace (dtls_end leaving [EvtCall (CallConnect 7); EvtReady true false] (fresh false []))
  = [LConnected 7 kCancelled; LConnected 7 kNone; LConnect 7].
Proof. vm_compute. repeat split. Qed.
