(* ===== verification/Socket.v ===== *)
(** * UDP sockets and CoAP over DTLS

    [UdpSocket] of [src/library/socket.{hpp,cpp}], the socket below the DTLS
    session of the border agent and the registrar, and [coap::CoapSecure] of
    [src/library/coap_secure.hpp], which puts the session on it.

    The sockets of mbedtls and the events of libevent are not part of the
    repository: the class [Net] gives the results of their calls on the state
    [N] of the system.  Descriptors are integers, -1 is none. *)

From S2P Require Import Prelude Outcome Common Tlv NetworkData CoapMessage Commissioner Dtls.
Import Addr Tlv.

(** ** The system *)

(** [sockaddr_storage] of the families the code tells apart; the port is in network byte order. *)
Inductive SockAddr : Type :=
| SockIn (sin_addr : ByteArray) (sin_port : Z * Z)
| SockIn6 (sin6_addr : ByteArray) (sin6_port : Z * Z)
| SockOther.

Class Net (N : Type) : Type := {
  (* the result, and the descriptor that the context is left with *)
  net_connect : string_t -> string_t -> N -> N * (Z * Z);
  net_bind : string_t -> string_t -> N -> N * (Z * Z);
  net_set_nonblock : Z -> N -> N * Z;
  (* the result, and the descriptors of the context that is bound and of the one that is connected *)
  net_accept : Z -> N -> N * (Z * Z * Z);
  net_free : Z -> N -> N;
  net_send : Z -> ByteArray -> N -> N * Z;
  net_recv : Z -> Z -> N -> N * (Z + ByteArray);
  getsockname : Z -> N -> option SockAddr;
  getpeername : Z -> N -> option SockAddr;
  event_assign : Z -> N -> N * Z;
  event_add : Z -> N -> N * Z;
  event_del : Z -> N -> N;
  (* a datagram arrives *)
  net_arrive : ByteArray -> N -> N }.

(** What mbedtls documents of the calls that succeed. *)
Class NetLaws (N : Type) `{Net N} : Prop := {
  net_connect_ok host port n n' fd : net_connect host port n = (n', (0, fd)) -> 0 <= fd }.

(** ** Sockets *)

Record UdpSocket {N : Type} : Type := mkUdpSocket {
  mNetCtx : Z;                          (* the descriptor *)
  mEvent : option Z;                    (* the descriptor the event was assigned, when [ev_base] is not null *)
  mEventAdded : bool;                   (* libevent watches it *)
  mIsConnected : bool;
  mIsBound : bool;
  mNet : N }.
Arguments UdpSocket : clear implicits.
Arguments mkUdpSocket {N}.

Definition GetSockPort (aSockAddr : SockAddr) : outcome Z :=
  match aSockAddr with
  | SockIn _ (hi, lo) => Ok (256 * hi + lo)
  | SockIn6 _ (hi, lo) => Ok (256 * hi + lo)
  | SockOther => Die
  end.

(** [Address::Set(const sockaddr_storage &)] *)
Definition SetSockAddr (aSockAddr : SockAddr) : outcome Address :=
  match aSockAddr with
  | SockIn sin_addr _ => Ok (take 4 sin_addr)
  | SockIn6 sin6_addr _ => Ok (take 16 sin6_addr)
  | SockOther => Err kInvalidArgs
  end.
Definition SuccessOrDie {A} (m : outcome A) : outcome A := match m with Err _ => Die | _ => m end.

Section Socket.
Context {N : Type} `{HN : Net N}.
Abbreviation UdpSocket := (UdpSocket N).

Definition UdpSocket_init (net : N) : UdpSocket := mkUdpSocket (-1) None false false false net.

Definition with_net (s : UdpSocket) (fd : Z) (net : N) : UdpSocket :=
  mkUdpSocket fd (mEvent s) (mEventAdded s) (mIsConnected s) (mIsBound s) net.
Definition with_event (s : UdpSocket) (event : option Z) (added : bool) (net : N) : UdpSocket :=
  mkUdpSocket (mNetCtx s) event added (mIsConnected s) (mIsBound s) net.
Definition with_marks (s : UdpSocket) (connected bound : bool) : UdpSocket :=
  mkUdpSocket (mNetCtx s) (mEvent s) (mEventAdded s) connected bound (mNet s).

(** [mbedtls_net_free(&mNetCtx)] *)
Definition free (s : UdpSocket) : UdpSocket := with_net s (-1) (net_free (mNetCtx s) (mNet s)).

(** "Free the fd if already opened" *)
Definition close (s : UdpSocket) : UdpSocket :=
  let s := free s in
  match mEvent s with Some fd => with_event s (Some fd) false (event_del fd (mNet s)) | None => s end.

(** "Setup event", with the call before it *)
Definition setup_event (s : UdpSocket) : UdpSocket * Z :=
  let '(net, rval) := net_set_nonblock (mNetCtx s) (mNet s) in
  let s := with_net s (mNetCtx s) net in
  if rval =? 0 then
    let '(net, rval) := event_assign (mNetCtx s) (mNet s) in
    let s := with_event s (Some (mNetCtx s)) false net in
    if rval =? 0 then
      let '(net, rval) := event_add (mNetCtx s) (mNet s) in
      (with_event s (mEvent s) (rval =? 0) net, rval)
    else (s, rval)
  else (s, rval).

Definition Connect_socket (aHost : string_t) (aPort : Z) (s : UdpSocket) : UdpSocket * Z :=
  let s := close s in
  let '(net, (rval, fd)) := net_connect aHost (Ipv6Prefix.to_string 5 aPort) (mNet s) in
  let s := with_net s fd net in
  let '(s, rval) := if rval =? 0 then setup_event s else (s, rval) in
  if negb (rval =? 0) then (free s, rval) else (with_marks s true (mIsBound s), rval).

Definition Bind (aBindIp : string_t) (aPort : Z) (s : UdpSocket) : UdpSocket * Z :=
  let s := close s in
  let '(net, (rval, fd)) := net_bind aBindIp (Ipv6Prefix.to_string 5 aPort) (mNet s) in
  let s := with_net s fd net in
  let '(s, rval) := if rval =? 0 then setup_event s else (s, rval) in
  if negb (rval =? 0) then (free s, rval) else (with_marks s (mIsConnected s) true, rval).

Definition of_name {A} (name : option SockAddr) (f : SockAddr -> outcome A) : outcome A :=
  match name with Some addr => f addr | None => Die end.

Definition GetLocalPort (s : UdpSocket) : outcome Z := of_name (getsockname (mNetCtx s) (mNet s)) GetSockPort.
Definition GetLocalAddr_socket (s : UdpSocket) : outcome Address :=
  of_name (getsockname (mNetCtx s) (mNet s)) (fun addr => SuccessOrDie (SetSockAddr addr)).
Definition GetPeerPort (s : UdpSocket) : outcome Z :=
  VerifyOrDie mIsConnected s;; of_name (getpeername (mNetCtx s) (mNet s)) GetSockPort.
Definition GetPeerAddr (s : UdpSocket) : outcome Address :=
  VerifyOrDie mIsConnected s;; of_name (getpeername (mNetCtx s) (mNet s)) (fun addr => SuccessOrDie (SetSockAddr addr)).

Definition Send_socket (aBuf : ByteArray) (s : UdpSocket) : outcome (UdpSocket * Z) :=
  VerifyOrDie 0 <=? mNetCtx s;;
  VerifyOrDie mIsConnected s;;
  let '(net, n) := net_send (mNetCtx s) aBuf (mNet s) in Ok (with_net s (mNetCtx s) net, n).
Definition Receive_socket (aMaxLen : Z) (s : UdpSocket) : outcome (UdpSocket * (Z + ByteArray)) :=
  VerifyOrDie 0 <=? mNetCtx s;;
  VerifyOrDie mIsConnected s;;
  let '(net, r) := net_recv (mNetCtx s) aMaxLen (mNet s) in Ok (with_net s (mNetCtx s) net, r).

(** The handler of [SetEventHandler] up to the call of [aEventHandler]: a socket that is bound gets connected by its
    first datagram. *)
Definition accept_first (read : bool) (s : UdpSocket) : UdpSocket :=
  if mIsBound s && negb (mIsConnected s) && read then
    let '(net, (rval, bound, connected)) := net_accept (mNetCtx s) (mNet s) in
    let s := with_net s bound net in
    if negb (rval =? 0) then s
    else with_marks (with_net (free s) connected (mNet (free s))) true (mIsBound s)
  else s.

#[export] Instance udp_socket : Socket UdpSocket := {|
  sock_send := fun _ _ => Send_socket;
  sock_receive := Receive_socket;
  sock_peer := GetPeerAddr;
  sock_arrive := fun b s => with_net s (mNetCtx s) (net_arrive b (mNet s)) |}.
End Socket.

(** ** CoAP over DTLS *)

Section CoapSecure.
Context {N T : Type} `{HN : Net N} `{HM : MbedtlsErrors} `{HS : Ssl T}.
Context (sha256 : ByteArray -> ByteArray).
Abbreviation CoapSecure := (DtlsSession (UdpSocket N) T).

(** The session owns the socket; of the CoAP object, which is [Coap], the handlers of the session are left. *)
Definition CoapSecure_new (aIsServer : bool) (net : N) (ssl : T) (now : Z) : CoapSecure :=
  DtlsSession_init aIsServer (UdpSocket_init net) ssl now.

Definition on_socket (f : UdpSocket N -> UdpSocket N * Z) (c : CoapSecure) : CoapSecure * Z :=
  let '(s, fail) := f (mSocket c) in (with_socket c s (mSocketSubType c), fail).

Section Handlers.
Context (on_connected : nat -> ErrorCode -> CoapSecure -> outcome CoapSecure).
Context (on_receive : ByteArray -> CoapSecure -> outcome CoapSecure).
(** What the handlers of the requests that [mCoap.ClearRequestsAndResponses] cancels do. *)
Context (on_cleared : CoapSecure -> outcome CoapSecure).

Definition Start (aOnConnected : option nat) (aLocalAddr : string_t) (aLocalPort : Z) (c : CoapSecure) :
    outcome (CoapSecure * ErrorCode) :=
  let '(c, fail) := on_socket (Bind aLocalAddr aLocalPort) c in
  if negb (fail =? 0) then Ok (c, kIOError) else c ← Dtls.Connect aOnConnected c; Ok (c, kNone).

Definition Connect (aOnConnected : option nat) (aPeerAddr : string_t) (aPeerPort : Z) (c : CoapSecure) : outcome CoapSecure :=
  let '(c, fail) := on_socket (Connect_socket aPeerAddr aPeerPort) c in
  match negb (fail =? 0), aOnConnected with
  | true, Some h => on_connected h kIOError c
  | _, _ => Dtls.Connect aOnConnected c
  end.

Definition Disconnect (aError : ErrorCode) (c : CoapSecure) : outcome CoapSecure :=
  c ← Dtls.Disconnect sha256 on_connected aError c; on_cleared c.
Definition Stop (c : CoapSecure) : outcome CoapSecure := Disconnect kCancelled c.

Definition GetLocalAddr (c : CoapSecure) : outcome Address :=
  VerifyOrExit mIsConnected (mSocket c) else kInvalidState;;
  GetLocalAddr_socket (mSocket c).

Definition IsConnected (c : CoapSecure) : bool := bool_decide (mSessionState c = kConnected).

(** [Socket::HandleEvent] with the handler that the session set. *)
Definition HandleEvent (reads : nat) (read write : bool) (c : CoapSecure) : outcome CoapSecure :=
  let c := with_socket c (accept_first read (mSocket c)) (mSocketSubType c) in
  if mIsConnected (mSocket c) then Dtls.HandleEvent sha256 on_connected on_receive reads read write c else Ok c.
End Handlers.
End CoapSecure.
