(* ===== verification/SocketFacts.v ===== *)
(** * The socket below a session

    A client session that is not open always has a socket that is connected, so
    that no call of mbedtls ends the process, as long as its clients connect only
    when the session is open, and pass a handler to be told. *)

From S2P Require Import Prelude Outcome Common Tlv NetworkData CoapMessage Commissioner Dtls DtlsFacts Socket.
Import Addr Tlv Message.

Section Facts.
Context {N T : Type} `{HN : Net N} `{HL : !NetLaws N} `{HM : MbedtlsErrors} `{HS : Ssl T}.
Context (sha256 : ByteArray -> ByteArray).
Abbreviation D := (DtlsSession (UdpSocket N) T).

(** ** The socket *)

(** What [Send] and [Receive] check, and that nobody accepts. *)
Definition usable (s : UdpSocket N) : Prop := mIsConnected s = true /\ 0 <= mNetCtx s.
(** The event that libevent watches is that of the descriptor in use. *)
Definition watched (s : UdpSocket N) : Prop := mEventAdded s = true -> mEvent s = Some (mNetCtx s).
Definition client_socket (s : UdpSocket N) : Prop := mIsBound s = false /\ watched s.

Lemma setup_event_keeps (s s' : UdpSocket N) rval : setup_event s = (s', rval) -> mEventAdded s = false ->
  mNetCtx s' = mNetCtx s /\ mIsBound s' = mIsBound s /\ mIsConnected s' = mIsConnected s /\ watched s' /\
  (mEventAdded s' = true -> rval = 0).
Proof.
  unfold setup_event, watched. intros E Ha. destruct (net_set_nonblock _ _) as [n1 r1]. case_match; [|by simplify_eq/=; rewrite Ha].
  destruct (event_assign _ _) as [n2 r2]. case_match; [|by simplify_eq/=].
  destruct (event_add _ _) as [n3 r3]. simplify_eq/=. split_and!; try done. lia.
Qed.

Lemma close_closed (s : UdpSocket N) : watched s ->
  mNetCtx (close s) = -1 /\ mIsBound (close s) = mIsBound s /\ mIsConnected (close s) = mIsConnected s /\ mEventAdded (close s) = false.
Proof. unfold close, watched, free. intros Hw. destruct (mEvent s) eqn:E; cbn; rewrite ?E; cbn; [done|]. destruct (mEventAdded s); [by specialize (Hw eq_refl)|done]. Qed.

(** A connected socket is usable and watched; a failure leaves it without a descriptor. *)
Lemma setup_event_watched (s s' : UdpSocket N) : setup_event s = (s', 0) -> mEventAdded s' = true.
Proof.
  unfold setup_event. destruct (net_set_nonblock _ _) as [n1 r1]. case_match eqn:E1; [|intros [= <- ->]; done].
  destruct (event_assign _ _) as [n2 r2]. case_match eqn:E2; [|intros [= <- ->]; done].
  destruct (event_add _ _) as [n3 r3]. by intros [= <- ->].
Qed.

(** A connected socket is usable and watched; after a failure there is no descriptor. *)
Lemma Connect_socket_spec host port (s s' : UdpSocket N) rval : client_socket s -> Connect_socket host port s = (s', rval) ->
  client_socket s' /\ (rval = 0 -> usable s' /\ mEventAdded s' = true) /\ (rval <> 0 -> mNetCtx s' = -1 /\ mEventAdded s' = false).
Proof using HL.
  intros [Hb Hw] E. unfold Connect_socket in E. destruct (close_closed s Hw) as (_ & Cb & _ & Ca).
  destruct (net_connect host _ _) as [n [r fd]] eqn:En. set (s1 := with_net (close s) fd n) in *.
  destruct (if r =? 0 then setup_event s1 else (s1, r)) as [s2 r2] eqn:E2.
  assert (H2 : mIsBound s2 = false /\ watched s2 /\ (mEventAdded s2 = true -> r2 = 0) /\ (r2 = 0 -> 0 <= mNetCtx s2 /\ mEventAdded s2 = true)).
  { destruct (r =? 0) eqn:Er.
    - apply Z.eqb_eq in Er as ->. apply net_connect_ok in En. pose proof E2 as E3. apply setup_event_keeps in E2 as (F & B & _ & W & A); [|done].
      split_and!; [rewrite B; cbn; by rewrite Cb|done|done|]. intros ->. apply setup_event_watched in E3. by rewrite F.
    - apply Z.eqb_neq in Er. injection E2 as <- <-. unfold watched. cbn. rewrite Ca. split_and!; (done || by rewrite ?Cb || (intros; congruence)). }
  destruct H2 as (B & W & A & O). destruct (r2 =? 0) eqn:Er; cbn [negb] in E; injection E as <- <-.
  - apply Z.eqb_eq in Er as ->. destruct (O eq_refl). by split_and!.
  - apply Z.eqb_neq in Er. assert (Hn : mEventAdded s2 = false) by (destruct (mEventAdded s2); [by specialize (A eq_refl)|done]).
    unfold client_socket, watched. cbn. rewrite Hn. by split_and!.
Qed.

Lemma accept_client (s : UdpSocket N) read : client_socket s -> accept_first read s = s.
Proof. intros [Hb _]. unfold accept_first. by rewrite Hb. Qed.

(** ** Calls of mbedtls *)

Record sock_kept (s s' : UdpSocket N) : Prop := {
  kept_fd : mNetCtx s' = mNetCtx s;
  kept_event : mEvent s' = mEvent s;
  kept_added : mEventAdded s' = mEventAdded s;
  kept_connected : mIsConnected s' = mIsConnected s;
  kept_bound : mIsBound s' = mIsBound s }.
#[local] Instance sock_kept_preorder : PreOrder sock_kept.
Proof. split; [by intros s|]. intros s1 s2 s3 [] []. split; congruence. Qed.

Lemma run_io_kept {R} (p : Io R) : forall (d d' : D) r, run_io sha256 p d = Ok (d', r) -> sock_kept (mSocket d) (mSocket d').
Proof.
  induction p as [r|b k IH|m k IH|i f k IH|k IH|b m y v k IH]; intros d d' r' E; cbn [run_io] in E.
  - by injection E as <- <-.
  - apply bind_ok in E as ([s n] & Es & E). apply IH in E. etrans; [|exact E]. revert Es. cbn. unfold Send_socket.
    repeat case_match; try done. by intros [= <- <-].
  - apply bind_ok in E as ([s n] & Es & E). apply IH in E. etrans; [|exact E]. revert Es. cbn. unfold Receive_socket.
    repeat case_match; try done. by intros [= <- <-].
  - by apply IH in E.
  - by apply IH in E.
  - by apply IH in E.
Qed.

(** On a usable socket no call of mbedtls ends the process. *)
Lemma run_io_usable {R} (p : Io R) : forall d : D, usable (mSocket d) -> exists d' r, run_io sha256 p d = Ok (d', r).
Proof.
  induction p as [r|b k IH|m k IH|i f k IH|k IH|b m y v k IH]; intros d [Hc Hf]; cbn [run_io].
  - eauto.
  - cbn. unfold Send_socket. rewrite Hc, (proj2 (Z.leb_le _ _)) by done. destruct (net_send _ _ _) as [n z]. cbn. by apply IH.
  - cbn. unfold Receive_socket. rewrite Hc, (proj2 (Z.leb_le _ _)) by done. destruct (net_recv _ _ _) as [n z]. cbn. by apply IH.
  - by apply IH.
  - by apply IH.
  - by apply IH.
Qed.

(** ** Client sessions *)

Definition good (d : D) : Prop :=
  mIsServer d = false /\ client_socket (mSocket d) /\
  (mSessionState d = kOpen \/ (usable (mSocket d) /\ mEventAdded (mSocket d) = true)).

Lemma good_kept (d d' : D) : mIsServer d' = mIsServer d -> sock_kept (mSocket d) (mSocket d') ->
  (mSessionState d = kOpen -> mSessionState d' = kOpen) -> good d -> good d'.
Proof.
  intros Hs [K1 K2 K3 K4 K5] Ho (G1 & [G2 G3] & G4). unfold good, client_socket, watched, usable in *.
  rewrite Hs, K1, K2, K3, K4, K5. destruct G4 as [G4|G4]; [split_and!; try done; left; auto|split_and!; auto].
Qed.

Lemma io_good {R} (p : Io R) (d d' : D) r : run_io sha256 p d = Ok (d', r) -> good d -> good d'.
Proof.
  intros E. pose proof (run_io_same _ _ _ _ _ E) as []. apply run_io_kept in E. apply good_kept; [done|done|congruence].
Qed.

Lemma ssl_good (d : D) t b : good d -> good (with_ssl d t b).
Proof. by apply good_kept. Qed.

Ltac io E := let H := fresh "Hio" in apply bind_ok in E as ([? ?] & H & E); apply io_good in H; [|done].

Section Handlers.
Context (connected : nat -> ErrorCode -> D -> outcome D) (receive : ByteArray -> D -> outcome D).
Context (Hconnected : forall h e d d', connected h e d = Ok d' -> good d -> good d').
Context (Hreceive : forall b d d', receive b d = Ok d' -> good d -> good d').

Lemma Reset_good (d d' : D) : Reset sha256 d = Ok d' -> good d -> good d'.
Proof using.
  unfold Reset. intros E Hd. destruct (mSessionState d) eqn:Es; [by injection E as <-|..].
  all: io E; injection E as <-; (eapply good_kept; [..|exact Hio]); try done.
  all: unfold ssl_do; destruct (is_nil _); try done; by destruct (ssl_call _ _).
Qed.

Lemma tell_good e (d d' : D) : tell_connected connected e d = Ok d' -> good d -> good d'.
Proof using Hconnected.
  unfold tell_connected. intros E Hd. destruct (mOnSessionConnected d) as [h|]; [|by injection E as <-].
  apply bind_ok in E as (d1 & E1 & [= <-]). apply Hconnected in E1; [by eapply good_kept; [..|exact E1]|].
  by eapply good_kept; [..|exact Hd].
Qed.

(** A step to another state of a session that is not open. *)
Lemma state_good (d : D) st h : mSessionState d <> kOpen -> good d -> good (with_session_state d st h).
Proof using. intros Ho. by apply good_kept. Qed.

Lemma Disconnect_session_good e (d d' : D) : Dtls.Disconnect sha256 connected e d = Ok d' -> good d -> good d'.
Proof using Hconnected.
  intros E Hd. unfold Dtls.Disconnect in E.
  assert (Hc : mSessionState d = kOpen \/ mSessionState d = kDisconnected \/ mSessionState d <> kOpen) by (destruct (mSessionState d); auto).
  destruct (decide (mSessionState d = kOpen \/ mSessionState d = kDisconnected)) as [Ho|Ho].
  { destruct Ho as [Ho|Ho]; rewrite Ho in E; by injection E as <-. }
  assert (E' : (d1 ← (if bool_decide (mSessionState d = kConnected) && bool_decide (e = kCancelled)
           then '(d, t) ← run_io sha256 (ssl_close_notify (mSsl d)) d; Ok (with_ssl d t (mIsClientIdSet d)) else Ok d);
           d2 ← tell_connected connected e (with_session_state d1 kDisconnected (mOnSessionConnected d1));
           Reset sha256 d2) = Ok d') by (destruct (mSessionState d); (done || tauto)).
  clear E. apply bind_ok in E' as (d1 & E1 & (d2 & E2 & E3)%bind_ok).
  assert (H1 : good d1 /\ mSessionState d1 <> kOpen).
  { destruct (_ && _); [|injection E1 as <-; tauto]. apply bind_ok in E1 as ([d3 t] & E1 & [= <-]).
    apply run_io_same in E1 as Hsame. apply io_good in E1; [|done].
    split; [by apply ssl_good|]. cbn. rewrite (same_state _ _ Hsame). tauto. }
  eapply Reset_good; [exact E3|]. eapply tell_good; [exact E2|]. apply state_good; tauto.
Qed.

Lemma Handshake_good (d d' : D) e : Handshake sha256 connected d = Ok (d', e) -> good d -> good d'.
Proof using Hconnected.
  unfold Handshake. intros E Hd. case_bool_decide as Hc; [|by injection E as <- <-].
  apply bind_ok in E as ([d1 [t rval]] & E1 & E). apply run_io_same in E1 as Hsame; pose proof (same_state _ _ Hsame). apply io_good in E1; [|done].
  apply bind_ok in E as (d2 & E2 & E).
  assert (H2 : good d2).
  { destruct (_ && _); [|injection E2 as <-; by apply ssl_good]. eapply tell_good; [exact E2|]. apply state_good; [cbn; congruence|].
    by apply ssl_good. }
  case_match; apply bind_ok in E as (d3 & E3 & [= <- <-]); [|done]. unfold Reconnect in E3. destruct H2 as (Hs & _). by rewrite Hs in E3.
Qed.

Lemma Read_good (d d' : D) e : Read sha256 receive d = Ok (d', e) -> good d -> good d'.
Proof using Hreceive.
  unfold Read. intros E Hd. case_bool_decide as Hc; [|by injection E as <- <-].
  apply bind_ok in E as ([d1 [t rval]] & E1 & E). apply run_io_same in E1 as Hsame; pose proof (same_state _ _ Hsame). apply io_good in E1; [|done].
  destruct rval as [rval|data].
  - repeat case_match; try (injection E as <- <-; by repeat (apply ssl_good || (apply state_good; [cbn; congruence|]))).
    apply bind_ok in E as (? & _ & [= <- <-]). by apply ssl_good.
  - apply bind_ok in E as (d2 & E2 & [= <- <-]). eapply Hreceive; [exact E2|]. by eapply good_kept; [..|exact E1].
Qed.

Lemma Read_loop_good n : forall e (d d' : D) e', Read_loop sha256 receive n e d = Ok (d', e') -> good d -> good d'.
Proof using Hreceive.
  induction n as [|n IH]; intros e d d' e' E Hd; cbn [Read_loop] in E; case_bool_decide; try (by injection E as <- <-); [done|].
  apply bind_ok in E as ([d1 e1] & E1 & E). eapply IH; [exact E|]. by eapply Read_good.
Qed.

Lemma Write_good b t (d d' : D) e : Write sha256 b t d = Ok (d', e) -> good d -> good d'.
Proof using.
  unfold Write. intros E Hd. case_bool_decide; [|by injection E as <- <-].
  apply bind_ok in E as ([d1 [t1 rval]] & E1 & E). apply io_good in E1; [|by eapply good_kept; [..|exact Hd]].
  repeat case_match; try (apply bind_ok in E as (? & _ & E)); injection E as <- <-; by eapply good_kept; [..|exact E1].
Qed.

Lemma TryWrite_good q : forall (d d' : D) e, TryWrite_loop sha256 q d = Ok (d', e) -> good d -> good d'.
Proof using.
  induction q as [|[b t] q IH]; intros d d' e E Hd; cbn [TryWrite_loop] in E; [by injection E as <- <-|].
  apply bind_ok in E as ([d1 e1] & E1 & E). apply Write_good in E1; [|done]. case_bool_decide; [|by injection E as <- <-].
  eapply IH; [exact E|]. by eapply good_kept; [..|exact E1].
Qed.

Lemma Send_good b t (d d' : D) e : Send sha256 b t d = Ok (d', e) -> good d -> good d'.
Proof using.
  unfold Send. intros E Hd. case_bool_decide; [|by injection E as <- <-]. case_match; [|injection E as <- <-; by eapply good_kept; [..|exact Hd]].
  apply bind_ok in E as ([d1 e1] & E1 & E). apply Write_good in E1; [|done].
  repeat case_match; injection E as <- <-; by eapply good_kept; [..|exact E1].
Qed.

Lemma handle_connected_good n r w e (d d' : D) e' : handle_connected sha256 receive n r w e d = Ok (d', e') -> good d -> good d'.
Proof using Hreceive.
  unfold handle_connected. intros E Hd. apply bind_ok in E as ([d1 e1] & E1 & E).
  assert (H1 : good d1) by (destruct r; [by eapply Read_loop_good|by injection E1 as <- <-]).
  destruct (_ && _); [by eapply TryWrite_good|by injection E as <- <-].
Qed.

Lemma HandleEvent_good n r w (d d' : D) : HandleEvent sha256 connected receive n r w d = Ok d' -> good d -> good d'.
Proof using Hconnected Hreceive.
  unfold HandleEvent. intros E Hd. rewrite accept_client in E by apply Hd.
  assert (H0 : good (with_socket d (mSocket d) (mSocketSubType d))) by by eapply good_kept; [..|exact Hd].
  revert H0 E. generalize (with_socket d (mSocket d) (mSocketSubType d)). clear d Hd. intros d Hd E.
  destruct (mIsConnected (mSocket d)) eqn:Ec; [|by injection E as <-]. unfold Dtls.HandleEvent in E.
  assert (Hs : mIsServer d = false) by apply Hd. rewrite Hs in E. cbn [andb mbind outcome_bind] in E.
  rewrite bool_decide_eq_true_2 in E by done. apply bind_ok in E as ([d2 e2] & E2 & E).
  assert (H2 : good d2).
  { destruct (mSessionState d); [by injection E2 as <- <-| |by eapply handle_connected_good|by injection E2 as <- <-].
    apply bind_ok in E2 as ([d3 e3] & E3 & E2). apply Handshake_good in E3; [|done].
    destruct (_ || _); [by injection E2 as <- <-|by eapply handle_connected_good]. }
  destruct (ShouldStop e2); [by eapply Disconnect_session_good|by injection E as <-].
Qed.

Lemma Timer_good (d d' : D) : HandshakeTimerCallback sha256 connected d = Ok d' -> good d -> good d'.
Proof using Hconnected.
  unfold HandshakeTimerCallback. cbn [mSessionState with_time]. intros E Hd. destruct (mSessionState d); try done.
  apply bind_ok in E as ([d1 e1] & E1 & E). apply Handshake_good in E1; [|by eapply good_kept; [..|exact Hd]].
  destruct (ShouldStop e1); [by eapply Disconnect_session_good|by injection E as <-].
Qed.

(** A connection takes the socket anew. *)
Lemma Connect_good h host port (d d' : D) : mSessionState d = kOpen -> Connect connected (Some h) host port d = Ok d' -> good d -> good d'.
Proof using Hconnected HL.
  intros Ho E (Hs & Hc & _). unfold Connect, on_socket in E. destruct (Connect_socket host port (mSocket d)) as [s fail] eqn:Ec.
  apply Connect_socket_spec in Ec as (H1 & H2 & _); [|done]. destruct (fail =? 0) eqn:Ef; cbn [negb] in E.
  - apply Z.eqb_eq in Ef. unfold Dtls.Connect in E. case_bool_decide; [|done]. injection E as <-. split_and!; [done|done|]. right. by apply H2.
  - eapply Hconnected; [exact E|]. split_and!; [done|done|by left].
Qed.
End Handlers.

(** ** Runs *)

(** The calls of the clients of a [CoapSecure] object, and the events of the loop. *)
Inductive SecureCall : Type :=
| SecSend (aBuf : ByteArray) (aSubType : MessageSubType)
| SecConnect (aOnConnected : option nat) (aPeerAddr : string_t) (aPeerPort : Z)
| SecDisconnect (e : ErrorCode).

Inductive SecureEvent : Type :=
| SecReady (read write : bool)
| SecTimer
| SecTime (now : Z)
| SecArrive (b : ByteArray)
| SecCall (c : SecureCall).

(** What the handlers call, and a bound on the records read in one event. *)
Context (script_connected : nat -> ErrorCode -> list SecureCall) (script_receive : ByteArray -> list SecureCall).
Context (script_cleared : list SecureCall).
Context (reads : nat).

Definition in_turn (f : SecureCall -> D -> outcome D) : list SecureCall -> D -> outcome D :=
  fix run l d := match l with [] => Ok d | c :: l => d ← f c d; run l d end.

(** The discipline of the clients: they connect only when the session is open, and pass a handler. *)
Definition may_connect (aOnConnected : option nat) (d : D) : bool :=
  bool_decide (mSessionState d = kOpen) && match aOnConnected with Some _ => true | None => false end.

(** A call, whose handlers may call again, [n] times nested at most.  [ordered]: calls against the discipline are not
    made. *)
Fixpoint secure_call (ordered : bool) (n : nat) (c : SecureCall) (d : D) : outcome D :=
  match n with
  | O => Die
  | S n =>
      let connected h e := in_turn (secure_call ordered n) (script_connected h e) in
      match c with
      | SecSend aBuf aSubType => '(d, _) ← Send sha256 aBuf aSubType d; Ok d
      | SecConnect aOnConnected aPeerAddr aPeerPort =>
          if ordered && negb (may_connect aOnConnected d) then Ok d
          else Connect connected aOnConnected aPeerAddr aPeerPort d
      | SecDisconnect e => Disconnect sha256 connected (in_turn (secure_call ordered n) script_cleared) e d
      end
  end.

Definition secure_step (ordered : bool) (n : nat) (ev : SecureEvent) (d : D) : outcome D :=
  let connected h e := in_turn (secure_call ordered n) (script_connected h e) in
  match ev with
  | SecReady read write => HandleEvent sha256 connected (fun b => in_turn (secure_call ordered n) (script_receive b)) reads read write d
  | SecTimer =>
      match mFireTime (mHandshakeTimer d) with
      | Some t => if t <=? mNow d then HandshakeTimerCallback sha256 connected d else Ok d
      | None => Ok d
      end
  | SecTime now => Ok (with_time d (mHandshakeTimer d) (Z.max now (mNow d)))
  | SecArrive b => Ok (with_socket d (sock_arrive b (mSocket d)) (mSocketSubType d))
  | SecCall c => secure_call ordered (S n) c d
  end.
Fixpoint secure_run (ordered : bool) (n : nat) (l : list SecureEvent) (d : D) : outcome D :=
  match l with [] => Ok d | ev :: l => d ← secure_step ordered n ev d; secure_run ordered n l d end.

Lemma in_turn_good f l : (forall c d d', f c d = Ok d' -> good d -> good d') ->
  forall d d', in_turn f l d = Ok d' -> good d -> good d'.
Proof.
  intros Hf. induction l as [|c l IH]; intros d d' E Hd; [by injection E as <-|].
  apply bind_ok in E as (d1 & E1 & E). eapply IH; [exact E|]. by eapply Hf.
Qed.

Lemma secure_call_good n : forall c d d', secure_call true n c d = Ok d' -> good d -> good d'.
Proof using HL.
  induction n as [|n IH]; intros c d d' E Hd; [done|]. destruct c as [b t|h host port|e]; cbn [secure_call] in E.
  - apply bind_ok in E as ([d1 e] & E1 & [= <-]). by eapply Send_good.
  - destruct (may_connect h d) eqn:Em; cbn [andb negb] in E; [|by injection E as <-].
    unfold may_connect in Em. destruct h as [h|]; [|by rewrite andb_false_r in Em]. rewrite andb_true_r in Em.
    apply bool_decide_eq_true in Em as Ho. eapply Connect_good; [|exact Ho|exact E|exact Hd]. intros h' e'. by apply in_turn_good.
  - unfold Disconnect in E. apply bind_ok in E as (d1 & E1 & E). eapply in_turn_good; [exact IH|exact E|].
    eapply Disconnect_session_good; [|exact E1|exact Hd]. intros h' e'. by apply in_turn_good.
Qed.

Lemma secure_step_good n ev d d' : secure_step true n ev d = Ok d' -> good d -> good d'.
Proof using HL.
  pose proof (fun l => in_turn_good _ l (secure_call_good n)) as Hn.
  destruct ev as [r w| |now|b|c]; cbn [secure_step]; intros E Hd.
  - eapply HandleEvent_good; [..|exact E|exact Hd]; [intros h e; by apply Hn|intros b; by apply Hn].
  - destruct (mFireTime _) as [t|]; [|by injection E as <-]. destruct (t <=? mNow d); [|by injection E as <-].
    eapply Timer_good; [|exact E|exact Hd]. intros h e; by apply Hn.
  - injection E as <-. by eapply good_kept; [..|exact Hd].
  - injection E as <-. by eapply good_kept; [..|exact Hd].
  - by eapply secure_call_good.
Qed.

(** C11: As long as the clients of a [CoapSecure] object connect only when its session is open, and pass a handler to
    be told ([may_connect]), a client's session that is not open has a socket below it: it is connected, its
    descriptor is valid, libevent watches it, and so no call of mbedtls ends the process in [Socket::Send] or
    [Socket::Receive] - whatever the network, mbedtls and the handlers do, in every run that does not end the process
    before.  (Without the two conditions it does not: [SocketScript.socket_faults].) *)
Theorem session_has_socket n l net ssl now d :
  secure_run true n l (CoapSecure_new false net ssl now) = Ok d -> mSessionState d <> kOpen ->
  usable (mSocket d) /\ mEventAdded (mSocket d) = true /\ mEvent (mSocket d) = Some (mNetCtx (mSocket d)) /\
  forall R (p : Io R), exists d' r, run_io sha256 p d = Ok (d', r).
Proof using HL.
  intros E Ho. assert (Hg : good (CoapSecure_new false net ssl now)) by (split_and!; try done; by left).
  assert (Hd : good d).
  { revert Hg E. generalize (CoapSecure_new false net ssl now). induction l as [|ev l IH]; intros d0 H0 E; [by injection E as <-|].
    apply bind_ok in E as (d1 & E1 & E). eapply IH; [|exact E]. by eapply secure_step_good. }
  destruct Hd as (_ & [_ Hw] & [Hs|[Hu Ha]]); [done|]. split; [done|]. split; [done|]. split; [by apply Hw|]. intros R p. by apply run_io_usable.
Qed.
End Facts.
