(* ===== verification/SocketScript.v ===== *)
(** * Runs of a session on a UDP socket

    A network where every host but the empty one can be reached: the witness of
    the property of client sessions, and the runs that go wrong. *)

From S2P Require Import Prelude Outcome Common Tlv NetworkData CoapMessage Commissioner Dtls DtlsFacts DtlsScript Socket SocketFacts.
Import Addr Tlv Message.

(** The next descriptor, and what was sent. *)
Record SampleNet : Type := mkSampleNet { next_fd : Z; sent_on : list (Z * ByteArray) }.

Definition kUnknownHost : Z := -82.
#[export] Instance sample_net : Net SampleNet := {|
  net_connect := fun host _ n => match host with [] => (n, (kUnknownHost, -1)) | _ => (mkSampleNet (next_fd n + 1) (sent_on n), (0, Z.max 0 (next_fd n))) end;
  net_bind := fun _ _ n => (mkSampleNet (next_fd n + 1) (sent_on n), (0, Z.max 0 (next_fd n)));
  net_set_nonblock := fun _ n => (n, 0);
  net_accept := fun fd n => (n, (0, fd, fd));
  net_free := fun _ n => n;
  net_send := fun fd b n => (mkSampleNet (next_fd n) (sent_on n ++ [(fd, b)]), zlen b);
  net_recv := fun _ _ n => (n, inl (-26880));
  getsockname := fun fd _ => if 0 <=? fd then Some (SockIn [127; 0; 0; 1] (191, 125)) else None;
  getpeername := fun fd _ => if 0 <=? fd then Some (SockIn [127; 0; 0; 2] (191, 125)) else None;
  event_assign := fun _ n => (n, 0);
  event_add := fun _ n => (n, 0);
  event_del := fun _ n => n;
  net_arrive := fun _ n => n |}.

#[export] Instance sample_net_laws : NetLaws SampleNet.
Proof. split. intros host port n n' fd. destruct host; cbn; [discriminate|]. intros [= <- <-]. lia. Qed.

(** Handlers that do nothing; the session connects at the first event. *)
Definition silent_connected (h : nat) (e : ErrorCode) : list SecureCall := [].
Definition silent_receive (b : ByteArray) : list SecureCall := [].
Definition here : string_t := str "fd00::1".

Abbreviation secure ordered evs d :=
  (secure_run (HS := sample_ssl false) (fun b => b) silent_connected silent_receive [] 10 ordered 10 evs d).
Definition client : DtlsSession (UdpSocket SampleNet) SampleSsl := CoapSecure_new false (mkSampleNet 3 []) (mkSampleSsl false []) 0.
Definition secure_end (ordered : bool) (evs : list SecureEvent) : DtlsSession (UdpSocket SampleNet) SampleSsl :=
  match secure ordered evs client with Ok d => d | _ => client end.

Definition connecting_client : list SecureEvent := [SecCall (SecConnect (Some 7%nat) here 49191); SecReady false true].

Lemma session_has_socket_witness :
  mSessionState (secure_end true connecting_client) = kConnected /\ usable (mSocket (secure_end true connecting_client)) /\
  mEvent (mSocket (secure_end true connecting_client)) = Some 3.
Proof.
  assert (E : secure true connecting_client client = Ok (secure_end true connecting_client)) by (vm_compute; reflexivity).
  assert (Hs : mSessionState (secure_end true connecting_client) = kConnected) by (vm_compute; reflexivity).
  destruct (session_has_socket (HS := sample_ssl false) (fun b => b) silent_connected silent_receive [] 10 10 connecting_client
    (mkSampleNet 3 []) (mkSampleSsl false []) 0 _ E) as (Hu & _ & He & _); [by rewrite Hs|].
  split; [exact Hs|]. split; [exact Hu|]. rewrite He. vm_compute. reflexivity.
Defined.

(** Faults of [CoapSecure], each with a run that shows it.  (1) Connecting while the session is connected, to a
    host that is not found, takes the socket from the session: the handler is told, the session still counts as
    connected, and the next message ends the process.  (2) A socket that was connected before counts as connected
    when the next connection fails: [GetLocalAddr] ends the process, where it means to report [kInvalidState].
    (3) A connection that fails without a handler to tell goes on: the session waits for a handshake on no socket. *)
Theorem socket_faults :
  let stolen := connecting_client ++ [SecCall (SecConnect (Some 8%nat) [] 49191)] in
  let lost := connecting_client ++ [SecCall (SecDisconnect kCancelled); SecCall (SecConnect (Some 8%nat) [] 49191)] in
  mSessionState (secure_end false stolen) = kConnected /\ mNetCtx (mSocket (secure_end false stolen)) = -1 /\
  secure false (stolen ++ [SecCall (SecSend [1] kSubTypeNone)]) client = Die /\
  mSessionState (secure_end true lost) = kOpen /\ GetLocalAddr (secure_end true lost) = Die /\
  let untold := [SecCall (SecConnect None [] 49191)] in
  mSessionState (secure_end false untold) = kConnecting /\ mNetCtx (mSocket (secure_end false untold)) = -1.
Proof.
  cbv zeta. split_and!; vm_compute; reflexivity.
Qed.
