(* ===== verification/Cose.v ===== *)
(** * CBOR and COSE

    The wrappers of [src/library/cbor.{hpp,cpp}] over cn-cbor, of
    [src/library/cose.{hpp,cpp}] over COSE-C, and the constants of
    [src/library/cwt.hpp].

    The libraries are not part of the repository: [Cbor] is what the code uses
    of cn-cbor, [Cose] what it uses of COSE-C, [Pk] what it uses of the keys of
    mbedtls.  A function that returns a null pointer or [false] on a failure
    gives [None] there.  A value put into a map is shared with it; the code
    never changes a value after putting it somewhere, so that sharing and
    copying cannot be told apart.  Freeing is not modelled. *)

From S2P Require Import Prelude Outcome Common Commissioner Dtls.

(** ** The libraries *)

(** cn-cbor.  [cn_cbor_bytes] is reading [length] bytes at the pointer of the
    union of a value, which is defined when the value is a string. *)
Class Cbor (V : Type) : Type := {
  cn_cbor_map_create : option V;
  cn_cbor_int_create : Z -> option V;
  cn_cbor_data_create : ByteArray -> option V;
  cn_cbor_string_create : string_t -> option V;
  cn_cbor_mapput_int : V -> Z -> V -> option V;
  cn_cbor_mapget_int : V -> Z -> option V;
  cn_cbor_encoder_write : V -> Z -> option ByteArray;
  cn_cbor_decode : ByteArray -> option V;
  cn_cbor_bytes : V -> outcome ByteArray;
  cn_cbor_sint : V -> outcome Z;
  cn_cbor_is_bytes : V -> bool;                          (* type == CN_CBOR_BYTES *)
  cn_cbor_array : V -> option (list V) }.                (* type == CN_CBOR_ARRAY, and the elements *)

(** Keys of mbedtls: a key of any kind, and an elliptic curve key. *)
Class Pk (PK EC : Type) : Type := {
  pk_init : PK;
  pk_can_do_ecdsa : PK -> bool;
  pk_ec : PK -> option EC;
  x509_crt_parse : ByteArray -> Z + PK;                  (* the result when it is not 0, or the key *)
  pk_parse_key : ByteArray -> Z + PK;
  ECP_DP_SECP256R1 : Z;
  ECP_DP_SECP384R1 : Z;
  ECP_DP_SECP521R1 : Z;
  ECP_MAX_PT_LEN : Z;
  ecp_group : EC -> Z;
  ecp_X : EC -> Z;
  ecp_Y : EC -> Z;
  mpi_size : Z -> Z;
  mpi_write_binary : Z -> Z -> Z + ByteArray }.          (* the number, the size of the buffer *)

(** COSE-C: [S] is a COSE_Sign1 message. *)
Class Cose (V S EC : Type) : Type := {
  COSE_sign0_object : Z;
  COSE_Header_KID : Z;
  COSE_Header_Algorithm : Z;
  COSE_Header_IV : Z;
  COSE_Key_ID : Z;
  COSE_Key_Type : Z;
  COSE_Key_Type_EC2 : Z;
  COSE_Key_EC2_Curve : Z;
  COSE_Key_EC2_X : Z;
  COSE_Key_EC2_Y : Z;
  COSE_INIT_FLAGS_NONE : Z;
  COSE_Algorithm_ECDSA_SHA_256 : Z;
  COSE_PROTECT_ONLY : Z;
  COSE_UNPROTECT_ONLY : Z;
  COSE_Sign0_Init : Z -> option S;
  COSE_Encode_size : S -> Z;                             (* COSE_Encode with a null buffer *)
  COSE_Encode : S -> Z -> option ByteArray;              (* the bytes written, in a buffer of this size *)
  COSE_Decode : ByteArray -> Z -> option (S * Z);        (* with the type that was found *)
  COSE_Sign0_validate : S -> V -> bool;
  COSE_Sign0_validate_eckey : S -> EC -> bool;
  COSE_Sign0_Sign_eckey : S -> EC -> option S;
  COSE_Sign0_SetContent : S -> ByteArray -> option S;
  COSE_Sign0_SetExternal : S -> ByteArray -> option S;
  COSE_Sign0_map_put_int : S -> Z -> V -> Z -> option S;
  COSE_get_cbor : S -> option V }.

(** A pointer that the code passes on without a test. *)
Definition deref {A} (p : option A) : outcome A := match p with Some a => Ok a | None => Die end.
(** The error [e] for a null pointer. *)
Definition or_error {A} (e : ErrorCode) (p : option A) : outcome A := match p with Some a => Ok a | None => Err e end.

(** [c_str()], as a function that stops at the first zero reads it *)
Fixpoint c_string (s : string_t) : string_t :=
  match s with [] => [] | c :: s => if c =? 0 then [] else c :: c_string s end.

(** ** cwt.hpp *)
Module Cwt.
Definition kAud : Z := 3.
Definition kCnf : Z := 8.
Definition kExp : Z := 4.
Definition kIss : Z := 1.
Definition kGrantType : Z := 33.
Definition kGrantTypeClientCred : Z := 2.
Definition kClientId : Z := 24.
Definition kReqAud : Z := 3.
Definition kReqCnf : Z := 4.
Definition kCoseKey : Z := 1.
End Cwt.

(** ** cbor.cpp *)
Module CborMap.
Section CborMap.
Context {V : Type} `{HC : Cbor V}.

(** [CborValue] with its pointer [mCbor]; [None] is the null pointer. *)
Definition CborMap : Type := option V.
Definition IsValid (m : CborMap) : bool := match m with Some _ => true | None => false end.

Definition Serialize (m : CborMap) (aMaxLength : Z) : outcome ByteArray :=
  mCbor ← deref m;
  or_error kOutOfMemory (cn_cbor_encoder_write mCbor aMaxLength).

Definition Deserialize (aBuf : ByteArray) : outcome CborMap :=
  cbor ← or_error kBadFormat (cn_cbor_decode aBuf); Ok (Some cbor).

Definition Init (m : CborMap) : outcome CborMap :=
  VerifyOrDie negb (IsValid m);;
  mCbor ← or_error kOutOfMemory cn_cbor_map_create; Ok (Some mCbor).

(** [cn_cbor_mapput_int(mCbor, aKey, v, nullptr)] *)
Definition put (m : CborMap) (aKey : Z) (v : option V) : outcome CborMap :=
  v ← or_error kOutOfMemory v;
  mCbor ← deref m;
  mCbor ← or_error kOutOfMemory (cn_cbor_mapput_int mCbor aKey v);
  Ok (Some mCbor).

Definition PutMap (m : CborMap) (aKey : Z) (aMap : CborMap) : outcome CborMap :=
  v ← deref aMap; put m aKey (Some v).
Definition PutInt (m : CborMap) (aKey aValue : Z) : outcome CborMap := put m aKey (cn_cbor_int_create aValue).
Definition PutBytes (m : CborMap) (aKey : Z) (aBytes : ByteArray) : outcome CborMap :=
  put m aKey (cn_cbor_data_create aBytes).
Definition PutStr (m : CborMap) (aKey : Z) (aStr : string_t) : outcome CborMap :=
  put m aKey (cn_cbor_string_create (c_string aStr)).

(** [cn_cbor_mapget_int(mCbor, aKey)] *)
Definition get (m : CborMap) (aKey : Z) : outcome V :=
  mCbor ← deref m; or_error kNotFound (cn_cbor_mapget_int mCbor aKey).

Definition GetMap (m : CborMap) (aKey : Z) : outcome CborMap := cbor ← get m aKey; Ok (Some cbor).
Definition GetInt (m : CborMap) (aKey : Z) : outcome Z := cborInt ← get m aKey; cn_cbor_sint cborInt.
(** The pointer and the length that these two return are a value of which
    nothing is read yet; its type is not looked at. *)
Definition GetBytes (m : CborMap) (aKey : Z) : outcome V := get m aKey.
Definition GetStr (m : CborMap) (aKey : Z) : outcome V := get m aKey.

End CborMap.
Arguments CborMap V : clear implicits.
End CborMap.

(** ** cose.cpp *)
Module Sign1.
Section Sign1.
Context {V S PK EC : Type} `{HC : Cbor V} `{HE : Cose V S EC} `{HP : Pk PK EC}.

(** [Sign1Message] is its pointer [mSign], which is never null where the code
    uses it, but for [GetPayload]. *)
Abbreviation Sign1Message := S (only parsing).

Definition Init (aCoseInitFlags : Z) : outcome Sign1Message := or_error kOutOfMemory (COSE_Sign0_Init aCoseInitFlags).

(** A failure of the second call is the length [-1]: [resize] throws. *)
Definition Serialize (mSign : Sign1Message) : outcome ByteArray :=
  let length := COSE_Encode_size mSign + 1 in
  deref (COSE_Encode mSign length).

Definition Deserialize (aBuf : ByteArray) : outcome Sign1Message :=
  VerifyOrExit negb (zlen aBuf =? 0) else kInvalidArgs;;
  match COSE_Decode aBuf COSE_sign0_object with
  | Some (sign, type) => VerifyOrExit type =? COSE_sign0_object else kBadFormat;; Ok sign
  | None => Err kBadFormat
  end.

Definition ValidateCbor (mSign : Sign1Message) (aCborPublicKey : CborMap.CborMap V) : outcome unit :=
  key ← or_error kInvalidArgs aCborPublicKey;
  VerifyOrExit COSE_Sign0_validate mSign key else kSecurity;; Ok tt.

(** [mbedtls_pk_can_do(&aKey, MBEDTLS_PK_ECDSA) && (eckey = mbedtls_pk_ec(aKey)) != nullptr] *)
Definition ec_key (aKey : PK) : outcome EC :=
  VerifyOrExit pk_can_do_ecdsa aKey else kInvalidArgs;; or_error kInvalidArgs (pk_ec aKey).

Definition Validate (mSign : Sign1Message) (aPubKey : PK) : outcome unit :=
  eckey ← ec_key aPubKey;
  VerifyOrExit COSE_Sign0_validate_eckey mSign eckey else kSecurity;; Ok tt.

Definition Sign (mSign : Sign1Message) (aPrivateKey : PK) : outcome Sign1Message :=
  eckey ← ec_key aPrivateKey;
  or_error kSecurity (COSE_Sign0_Sign_eckey mSign eckey).

(** An empty content is passed with a pointer to a byte that is not read. *)
Definition SetContent (mSign : Sign1Message) (aContent : ByteArray) : outcome Sign1Message :=
  or_error kUnknown (COSE_Sign0_SetContent mSign aContent).

Definition SetExternalData (mSign : Sign1Message) (aExternalData : ByteArray) : outcome Sign1Message :=
  VerifyOrExit negb (zlen aExternalData =? 0) else kInvalidArgs;;
  or_error kUnknown (COSE_Sign0_SetExternal mSign aExternalData).

Definition AddAttribute (mSign : Sign1Message) (key : Z) (value : V) (flags : Z) : outcome Sign1Message :=
  or_error kUnknown (COSE_Sign0_map_put_int mSign key value flags).
Definition AddAttributeInt (mSign : Sign1Message) (key value flags : Z) : outcome Sign1Message :=
  cbor ← or_error kOutOfMemory (cn_cbor_int_create value);
  AddAttribute mSign key cbor flags.
Definition AddAttributeBytes (mSign : Sign1Message) (aKey : Z) (aValue : ByteArray) (aFlags : Z) : outcome Sign1Message :=
  VerifyOrExit negb (zlen aValue =? 0) else kInvalidArgs;;
  cbor ← or_error kOutOfMemory (cn_cbor_data_create aValue);
  AddAttribute mSign aKey cbor aFlags.

(** Walking [index] links from the first child: the link behind the last
    element is null, and one link further a null pointer is followed. *)
Fixpoint walk (l : list V) (index : nat) : outcome (option V) :=
  match index, l with
  | O, [] => Ok None
  | O, v :: _ => Ok (Some v)
  | Datatypes.S index, _ :: l => walk l index
  | Datatypes.S _, [] => Die
  end.
Definition CborArrayAt (arr : list V) (index : nat) : outcome (option V) :=
  if Nat.leb index (length arr) then walk arr index else Ok None.

Definition GetPayload (mSign : option Sign1Message) : outcome (option V) :=
  mSign ← deref mSign;
  match COSE_get_cbor mSign with
  | None => Ok None
  | Some cbor =>
      match cn_cbor_array cbor with
      | None => Ok None
      | Some arr =>
          payload ← CborArrayAt arr 2;
          Ok (match payload with Some p => if cn_cbor_is_bytes p then Some p else None | None => None end)
      end
  end.

Definition kMaxCoseKeyLength : Z := 1024.
Definition kKeyEC2CurveP256 : Z := 1.
Definition kKeyEC2CurveP384 : Z := 2.
Definition kKeyEC2CurveP521 : Z := 3.

Definition ec2_curve (group : Z) : outcome Z :=
  if group =? ECP_DP_SECP256R1 then Ok kKeyEC2CurveP256
  else if group =? ECP_DP_SECP384R1 then Ok kKeyEC2CurveP384
  else if group =? ECP_DP_SECP521R1 then Ok kKeyEC2CurveP521
  else Err kInvalidArgs.

(** [point + sizeof(point) - length] for the number [n] written to [point]:
    the pointer must stay inside of the buffer. *)
Definition point_bytes `{HM : MbedtlsErrors} (n : Z) : outcome ByteArray :=
  match mpi_write_binary n ECP_MAX_PT_LEN with
  | inl fail => e ← ErrorFromMbedtlsError fail; Err e
  | inr point =>
      let length := mpi_size n in
      VerifyOrDie (0 <=? length) && (length <=? zlen point);;
      Ok (zsub point (zlen point - length) length)
  end.

Definition MakeCoseKey `{HM : MbedtlsErrors} (aKey : PK) (aKeyId : ByteArray) : outcome ByteArray :=
  eckey ← ec_key aKey;
  coseKey ← CborMap.Init None;
  coseKey ← (if negb (zlen aKeyId =? 0) then CborMap.PutBytes coseKey COSE_Key_ID aKeyId else Ok coseKey);
  coseKey ← CborMap.PutInt coseKey COSE_Key_Type COSE_Key_Type_EC2;
  ec2Curve ← ec2_curve (ecp_group eckey);
  coseKey ← CborMap.PutInt coseKey COSE_Key_EC2_Curve ec2Curve;
  xPoint ← point_bytes (ecp_X eckey);
  coseKey ← CborMap.PutBytes coseKey COSE_Key_EC2_X xPoint;
  yPoint ← point_bytes (ecp_Y eckey);
  coseKey ← CborMap.PutBytes coseKey COSE_Key_EC2_Y yPoint;
  CborMap.Serialize coseKey kMaxCoseKeyLength.

End Sign1.
End Sign1.
