(* ===== verification/CoseFacts.v ===== *)
(** * CBOR and COSE: laws of the libraries, and what the wrappers do

    [CborLaws], [CoseLaws] and [MpiLaws] say what the code relies on of
    cn-cbor, COSE-C and the numbers of mbedtls; [Sample] is a concrete world in
    which they hold. *)

From stdpp Require Import countable.
From S2P Require Import Prelude Outcome Common Commissioner Dtls Cose.
Import Endian CommonFacts.

(** ** Laws *)

(** Maps keep what was put under a new key; strings and integers can be read;
    what was encoded is decoded. *)
Class CborLaws (V : Type) `{Cbor V} : Prop := {
  law_map_create m k : cn_cbor_map_create = Some m -> cn_cbor_mapget_int m k = None;
  law_mapput m k v m' : cn_cbor_mapput_int m k v = Some m' -> cn_cbor_mapget_int m k = None ->
    cn_cbor_mapget_int m' k = Some v /\
    (forall k', k' <> k -> cn_cbor_mapget_int m' k' = cn_cbor_mapget_int m k');
  law_int z v : cn_cbor_int_create z = Some v -> cn_cbor_sint v = Ok z;
  law_data b v : cn_cbor_data_create b = Some v -> cn_cbor_bytes v = Ok b;
  law_string s v : cn_cbor_string_create s = Some v -> cn_cbor_bytes v = Ok s;
  law_codec v n b : cn_cbor_encoder_write v n = Some b -> cn_cbor_decode b = Some v }.

(** Signatures are correct and cannot be moved to other external data:
    [ec_pair] tells the public keys of a private key, [cbor_pair] those that
    are given as a COSE key. *)
Class CoseLaws (V S EC : Type) `{Cose V S EC} : Type := {
  ec_pair : EC -> EC -> Prop;
  cbor_pair : EC -> V -> Prop;
  law_encode_bytes s n buf : COSE_Encode s n = Some buf -> bytes buf;
  law_signature s d s1 k s2 n buf :
    COSE_Sign0_SetExternal s d = Some s1 -> COSE_Sign0_Sign_eckey s1 k = Some s2 -> COSE_Encode s2 n = Some buf ->
    buf <> [] /\
    exists s3, COSE_Decode buf COSE_sign0_object = Some (s3, COSE_sign0_object) /\
      forall d', exists s4, COSE_Sign0_SetExternal s3 d' = Some s4 /\
        (forall pk, ec_pair k pk -> COSE_Sign0_validate_eckey s4 pk = bool_decide (d' = d)) /\
        (forall v, cbor_pair k v -> COSE_Sign0_validate s4 v = bool_decide (d' = d)) }.

(** Numbers are written big-endian in the whole buffer; their size is the least
    number of bytes that holds them. *)
Class MpiLaws (PK EC : Type) `{Pk PK EC} : Prop := {
  law_mpi_size n : 0 <= n -> 0 <= mpi_size n /\ fits (8 * mpi_size n) n /\
    forall k, 0 <= k -> fits (8 * k) n -> mpi_size n <= k;
  law_mpi_write n size : 0 <= n -> 0 <= size ->
    if mpi_size n <=? size then mpi_write_binary n size = inr (Encode_loop (Z.to_nat size) n)
    else exists fail, mpi_write_binary n size = inl fail /\ fail < 0 }.

(** ** Wrappers *)

Section Cbor.
Context {V : Type} `{HL : CborLaws V}.

(** What putting does, as seen by [get]. *)
Lemma put_get m k v m' :
  CborMap.put m k v = Ok m' -> CborMap.get m k = Err kNotFound ->
  exists v', v = Some v' /\ CborMap.get m' k = Ok v' /\
  (forall k', k' <> k -> CborMap.get m' k' = CborMap.get m k').
Proof using HL.
  unfold CborMap.put, CborMap.get. destruct v as [v'|]; [|done]. destruct m as [m|]; [|done].
  cbn [or_error deref mbind outcome_bind]. destruct (cn_cbor_mapput_int m k v') as [m1|] eqn:E; [|done].
  intros [= <-]. cbn [deref mbind outcome_bind].
  destruct (cn_cbor_mapget_int m k) eqn:E1; [done|]. intros _.
  destruct (law_mapput _ _ _ _ E E1) as [H1 H2]. rewrite H1. exists v'. split_and!; [done|done|].
  intros k' Hk. by rewrite H2.
Qed.

Lemma init_get m k : CborMap.Init None = Ok m -> CborMap.get m k = Err kNotFound.
Proof using HL.
  unfold CborMap.Init. destruct cn_cbor_map_create as [m0|] eqn:E; [|done].
  cbn. intros [= <-]. unfold CborMap.get. cbn. by rewrite (law_map_create m0 k E).
Qed.

Lemma serialize_deserialize m n b : CborMap.Serialize m n = Ok b -> CborMap.Deserialize b = Ok m.
Proof using HL.
  unfold CborMap.Serialize, CborMap.Deserialize. destruct m as [v|]; [|done]. cbn.
  destruct (cn_cbor_encoder_write v n) as [b'|] eqn:E; [|done]. intros [= <-]. by rewrite (law_codec _ _ _ E).
Qed.
End Cbor.

(** The link behind the last element is never followed: [CborArrayAt] is safe
    although it admits the length itself as an index. *)
Lemma CborArrayAt_safe {V} (arr : list V) i : Sign1.CborArrayAt arr i = Ok (arr !! i).
Proof.
  unfold Sign1.CborArrayAt. destruct (Nat.leb_spec i (length arr)) as [H|H].
  - revert i H. induction arr as [|v arr IH]; intros [|i] H; cbn in *; [done|lia|done|apply IH; lia].
  - by rewrite lookup_ge_None_2 by lia.
Qed.

(** ** Coordinates *)

Lemma Encode_loop_split a b n : Encode_loop (a + b) n = Encode_loop a (Z.shiftr n (8 * Z.of_nat b)) ++ Encode_loop b n.
Proof.
  revert n. induction b as [|b IH]; intros n; [by rewrite Nat.add_0_r, app_nil_r|].
  rewrite Nat.add_succ_r. cbn [Encode_loop]. rewrite IH, app_assoc, Z.shiftr_shiftr by lia.
  repeat f_equal. lia.
Qed.

Section Coordinates.
Context {PK EC : Type} `{HL : MpiLaws PK EC} `{HM : MbedtlsErrors}.

Lemma point_bytes_spec n : 0 <= n -> 0 <= ECP_MAX_PT_LEN -> mpi_size n <= ECP_MAX_PT_LEN ->
  Sign1.point_bytes (PK := PK) (EC := EC) n = Ok (Encode_loop (Z.to_nat (mpi_size n)) n).
Proof using HL.
  intros Hn Hs Hle. destruct (law_mpi_size n Hn) as (H0 & Hf & _).
  pose proof (law_mpi_write n ECP_MAX_PT_LEN Hn Hs) as Hw. rewrite (proj2 (Z.leb_le _ _) Hle) in Hw.
  unfold Sign1.point_bytes. rewrite Hw.
  assert (Hz : zlen (Encode_loop (Z.to_nat ECP_MAX_PT_LEN) n) = ECP_MAX_PT_LEN) by (unfold zlen; rewrite length_Encode_loop; lia).
  rewrite Hz, (proj2 (Z.leb_le _ _) H0), (proj2 (Z.leb_le _ _) Hle). cbn [andb]. f_equal.
  replace (Z.to_nat ECP_MAX_PT_LEN) with (Z.to_nat (ECP_MAX_PT_LEN - mpi_size n) + Z.to_nat (mpi_size n))%nat by lia.
  rewrite Encode_loop_split. set (hi := Encode_loop _ (Z.shiftr _ _)).
  replace (ECP_MAX_PT_LEN - mpi_size n) with (zlen hi) by (unfold hi, zlen; rewrite length_Encode_loop; lia).
  rewrite <- (app_nil_r (Encode_loop (Z.to_nat (mpi_size n)) n)) at 1.
  replace (mpi_size n) with (zlen (Encode_loop (Z.to_nat (mpi_size n)) n)) at 2 by (unfold zlen; rewrite length_Encode_loop; lia).
  apply zsub_app.
Qed.

(** the coordinates of a COSE key are written without reading outside of
    the buffer and with the value of the coordinate, in as few bytes as hold it:
    a coordinate with [z] leading zero bytes loses them, although the two
    coordinates of a COSE key have the length of the field of the curve. *)
Theorem coordinate_bytes n field :
  0 <= n -> 0 <= field <= ECP_MAX_PT_LEN -> fits (8 * field) n ->
  exists b, Sign1.point_bytes (PK := PK) (EC := EC) n = Ok b /\ bytes b /\ Decode (length b) b = Ok n /\
    zlen b <= field /\ (forall k, 0 <= k <= field -> (zlen b <= field - k <-> fits (8 * (field - k)) n)).
Proof using HL.
  intros Hn Hf Hfit. destruct (law_mpi_size n Hn) as (H0 & Hs & Hmin).
  pose proof (Hmin field ltac:(lia) Hfit) as Hle.
  assert (Hz : zlen (Encode_loop (Z.to_nat (mpi_size n)) n) = mpi_size n) by (unfold zlen; rewrite length_Encode_loop; lia).
  exists (Encode_loop (Z.to_nat (mpi_size n)) n). split_and!.
  - by apply point_bytes_spec; lia.
  - apply bytes_Encode_loop.
  - rewrite length_Encode_loop. apply Decode_exact. by rewrite Z2Nat.id by lia.
  - lia.
  - intros k Hk. rewrite Hz. split; intros Hb.
    + unfold fits in *. split; [lia|]. eapply Z.lt_le_trans; [apply Hs|]. apply Z.pow_le_mono_r; lia.
    + apply Hmin; [lia|done].
Qed.
End Coordinates.

(** ** A world in which the laws hold

    CBOR values are trees, encoded as the digits of a number; a signature names
    its key and holds what it was made of. *)
Module Sample.

Abbreviation tree := (gen_tree (Z + bool * list Z)).
Definition TInt (z : Z) : tree := GenLeaf (inl z).
Definition TBytes (b : ByteArray) : tree := GenLeaf (inr (true, b)).
Definition TText (s : string_t) : tree := GenLeaf (inr (false, s)).
Definition TMap (l : list tree) : tree := GenNode 0 l.
Definition TArray (l : list tree) : tree := GenNode 1 l.
Definition TPair (k : Z) (v : tree) : tree := GenNode 2 [TInt k; v].

Definition bytes_of {A} `{Countable A} (a : A) : ByteArray :=
  let z := Z.pos (encode a) in Encode_loop (Z.to_nat (Z.log2 z / 8 + 1)) z.
Definition value_of (b : ByteArray) : Z := fold_left (fun r b => 256 * r + b) b 0.
Definition of_bytes {A} `{Countable A} (b : ByteArray) : option A :=
  match value_of b with Z.pos p => decode p | _ => None end.

Lemma value_of_Encode_loop n : forall v, fits (8 * Z.of_nat n) v -> value_of (Encode_loop n v) = v.
Proof.
  induction n as [|n IH]; intros v Hv; [unfold fits in Hv; cbn in *; lia|].
  unfold value_of in *. cbn [Encode_loop]. rewrite fold_left_app. cbn [fold_left].
  rewrite IH by (by apply fits_shiftr_8). change 255 with (2 ^ 8 - 1).
  rewrite land_low_mask, Z.shiftr_div_pow2 by lia. symmetry. apply Z.div_mod. lia.
Qed.

Lemma of_bytes_of {A} `{Countable A} (a : A) : of_bytes (bytes_of a) = Some a.
Proof.
  unfold of_bytes, bytes_of. set (z := Z.pos (encode a)). assert (Hz : 0 < z) by lia.
  pose proof (Z.log2_nonneg z). rewrite value_of_Encode_loop; [apply decode_encode|].
  pose proof (Z.log2_spec z Hz) as [_ H2]. unfold fits. split; [lia|].
  eapply Z.lt_le_trans; [exact H2|]. apply Z.pow_le_mono_r; [lia|].
  rewrite Z2Nat.id by (Z.to_euclidean_division_equations; lia). Z.to_euclidean_division_equations. lia.
Qed.

Lemma bytes_of_nonempty {A} `{Countable A} (a : A) : bytes_of a <> [].
Proof.
  unfold bytes_of. intros E%(f_equal length). rewrite length_Encode_loop in E. change (length []) with 0%nat in E.
  pose proof (Z.div_pos (Z.log2 (Z.pos (encode a))) 8 (Z.log2_nonneg _)). lia.
Qed.

Fixpoint find_pair (l : list tree) (k : Z) : option tree :=
  match l with
  | GenNode 2 [GenLeaf (inl k'); v] :: l => if k' =? k then Some v else find_pair l k
  | _ :: l => find_pair l k
  | [] => None
  end.

#[export] Instance sample_cbor : Cbor tree := {
  cn_cbor_map_create := Some (TMap []);
  cn_cbor_int_create z := Some (TInt z);
  cn_cbor_data_create b := Some (TBytes b);
  cn_cbor_string_create s := Some (TText s);
  cn_cbor_mapput_int m k v := match m with GenNode 0 l => Some (TMap (l ++ [TPair k v])) | _ => None end;
  cn_cbor_mapget_int m k := match m with GenNode 0 l => find_pair l k | _ => None end;
  cn_cbor_encoder_write v n := if zlen (bytes_of v) <=? n then Some (bytes_of v) else None;
  cn_cbor_decode b := of_bytes b;
  cn_cbor_bytes v := match v with GenLeaf (inr (_, b)) => Ok b | _ => Die end;
  cn_cbor_sint v := match v with GenLeaf (inl z) => Ok z | _ => Die end;
  cn_cbor_is_bytes v := match v with GenLeaf (inr (true, _)) => true | _ => false end;
  cn_cbor_array v := match v with GenNode 1 l => Some l | _ => None end }.

Lemma find_pair_app l k k' v : find_pair l k = None ->
  find_pair (l ++ [TPair k v]) k' = if k =? k' then Some v else find_pair l k'.
Proof.
  induction l as [|x l IH]; [done|]. cbn [app find_pair].
  destruct x as [|n xs]; [exact IH|]. destruct n as [|[|[|n]]]; try exact IH.
  destruct xs as [|[[z|]|] [|v' [|]]]; try exact IH.
  destruct (Z.eqb_spec z k); [done|]. intros H. destruct (Z.eqb_spec z k') as [->|]; [|by apply IH].
  destruct (Z.eqb_spec k k'); [congruence|done].
Qed.

#[export] Instance sample_cbor_laws : CborLaws tree.
Proof.
  split.
  - by intros m k [= <-].
  - intros [|[|n] l] k v m'; [done| |done]. intros [= <-] H. cbn in *. rewrite (find_pair_app _ _ _ _ H), Z.eqb_refl.
    split; [done|]. intros k' Hk. rewrite (find_pair_app _ _ _ _ H). by destruct (Z.eqb_spec k k').
  - by intros z v [= <-].
  - by intros b v [= <-].
  - by intros s v [= <-].
  - intros v n b. cbn. case_if; [|done]. intros [= <-]. apply of_bytes_of.
Qed.

(** *** Keys: a number, of which the coordinates are made *)

#[export] Instance sample_pk : Pk (option (option Z)) Z := {
  pk_init := None;
  pk_can_do_ecdsa k := match k with Some (Some _) => true | _ => false end;
  pk_ec k := match k with Some (Some k) => Some k | _ => None end;
  x509_crt_parse b := match b with [1; k] => inr (Some (Some k)) | [2] => inr (Some None) | [3] => inl 1 | _ => inl (-8576) end;
  pk_parse_key b := match b with [1; k] => inr (Some (Some k)) | _ => inl (-15616) end;
  ECP_DP_SECP256R1 := 3;
  ECP_DP_SECP384R1 := 4;
  ECP_DP_SECP521R1 := 5;
  ECP_MAX_PT_LEN := 133;
  ecp_group k := 3;
  ecp_X k := k;
  ecp_Y k := 2 * k;
  mpi_size n := if n =? 0 then 0 else Z.log2 n / 8 + 1;
  mpi_write_binary n size :=
    if (if n =? 0 then 0 else Z.log2 n / 8 + 1) <=? size then inr (Encode_loop (Z.to_nat size) n) else inl (-8) }.

#[export] Instance sample_mpi_laws : MpiLaws (option (option Z)) Z.
Proof.
  assert (Hsize : forall n, 0 <= n -> 0 <= mpi_size (PK := option (option Z)) n /\ fits (8 * mpi_size n) n /\
    forall k, 0 <= k -> fits (8 * k) n -> mpi_size n <= k).
  { intros n Hn. cbn. destruct (Z.eqb_spec n 0) as [->|].
    { split_and!; [done|by unfold fits|]. lia. }
    pose proof (Z.log2_nonneg n). pose proof (Z.log2_spec n ltac:(lia)) as [H1 H2]. split_and!.
    - assert (0 <= Z.log2 n / 8); [apply Z.div_pos|]; lia.
    - split; [done|]. eapply Z.lt_le_trans; [exact H2|]. apply Z.pow_le_mono_r; Z.to_euclidean_division_equations; lia.
    - intros k Hk [_ Hk2]. assert (Z.log2 n < 8 * k).
      { apply (Z.pow_lt_mono_r_iff 2); [lia..|]. eapply Z.le_lt_trans; [exact H1|exact Hk2]. }
      Z.to_euclidean_division_equations; lia. }
  split; [exact Hsize|]. intros n size Hn Hs. cbn. case_if; [done|]. by exists (-8).
Qed.

(** *** Messages: the attributes and the external data (which are not encoded),
    the content and the signature *)

Abbreviation sign0 := (list (Z * tree * Z) * ByteArray * ByteArray * option (Z * ByteArray * ByteArray))%type.

Definition signed_by (s : sign0) (k : Z) : bool :=
  match s with (_, content, external, sig) => bool_decide (sig = Some (k, external, content)) end.

(** The number of a COSE key: its first coordinate. *)
Definition key_number (v : tree) : option Z :=
  match cn_cbor_mapget_int v (-2) with
  | Some (GenLeaf (inr (_, b))) => match Decode (length b) b with Ok z => Some z | _ => None end
  | _ => None
  end.

(** A signed message is the length of its content, the content, the key and the
    external data; messages that are not signed are not encoded. *)
Definition sign0_bytes (s : sign0) : ByteArray :=
  match s with
  | (_, content, _, Some (k, external, content')) =>
      if bool_decide (content' = content /\ fits 16 (zlen content) /\ bytes content /\ is_byte k /\ bytes external)
      then Encode_loop 2 (zlen content) ++ content ++ k :: external else []
  | _ => []
  end.
Definition sign0_of (b : ByteArray) : option sign0 :=
  match b with
  | hi :: lo :: b =>
      let n := Z.to_nat (256 * hi + lo) in
      match drop n b with k :: external => Some ([], take n b, [], Some (k, external, take n b)) | [] => None end
  | _ => None
  end.

Lemma sign0_of_bytes attributes content external' k external b :
  sign0_bytes (attributes, content, external', Some (k, external, content)) = b -> b <> [] -> bytes b /\ sign0_of b = Some ([], content, [], Some (k, external, content)).
Proof.
  unfold sign0_bytes. case_bool_decide as H; [|by intros <-]. destruct H as (_ & Hf & Hc & Hk & He). intros <- _. split.
  - apply Forall_app. split; [apply bytes_Encode_loop|]. apply Forall_app. split; [done|]. by constructor.
  - pose proof (value_of_Encode_loop 2 (zlen content) Hf) as Hv. pose proof (length_Encode_loop 2 (zlen content)) as Hl.
    destruct (Encode_loop 2 (zlen content)) as [|hi [|lo [|]]]; try done. unfold value_of in Hv. cbn in Hv.
    cbn [app sign0_of]. assert (Z.to_nat (256 * hi + lo) = length content) as -> by (unfold zlen in Hv; lia).
    by rewrite drop_app_length, take_app_length.
Qed.

#[export] Instance sample_cose : Cose tree sign0 Z := {
  COSE_sign0_object := 18;
  COSE_Header_KID := 4;
  COSE_Header_Algorithm := 1;
  COSE_Header_IV := 5;
  COSE_Key_ID := 2;
  COSE_Key_Type := 1;
  COSE_Key_Type_EC2 := 2;
  COSE_Key_EC2_Curve := -1;
  COSE_Key_EC2_X := -2;
  COSE_Key_EC2_Y := -3;
  COSE_INIT_FLAGS_NONE := 0;
  COSE_Algorithm_ECDSA_SHA_256 := -7;
  COSE_PROTECT_ONLY := 1;
  COSE_UNPROTECT_ONLY := 2;
  COSE_Sign0_Init _ := Some ([], [], [], None);
  COSE_Encode_size s := zlen (sign0_bytes s);
  COSE_Encode s n :=
    let b := sign0_bytes s in if negb (zlen b =? 0) && (zlen b <=? n) then Some b else None;
  COSE_Decode b type := option_map (fun s => (s, 18)) (sign0_of b);
  COSE_Sign0_validate s v := match key_number v with Some k => signed_by s k | None => false end;
  COSE_Sign0_validate_eckey s k := signed_by s k;
  COSE_Sign0_Sign_eckey s k := let '(attributes, content, external, _) := s in Some (attributes, content, external, Some (k, external, content));
  COSE_Sign0_SetContent s content := let '(attributes, _, external, sig) := s in Some (attributes, content, external, sig);
  COSE_Sign0_SetExternal s external := let '(attributes, content, _, sig) := s in Some (attributes, content, external, sig);
  COSE_Sign0_map_put_int s k v flags := let '(attributes, content, external, sig) := s in Some ((k, v, flags) :: attributes, content, external, sig);
  COSE_get_cbor s := let '(attributes, content, _, sig) := s in Some (TArray [TMap []; TMap []; TBytes content; TMap []]) }.

#[export] Instance sample_cose_laws : CoseLaws tree sign0 Z.
Proof.
  refine {| ec_pair k pk := k = pk; cbor_pair k v := key_number v = Some k |}.
  { intros [[[at_ content] ext] sig] n buf. cbn [COSE_Encode sample_cose]. case_if; [|done]. intros [= <-]. bool_to_prop.
    assert (Hn : sign0_bytes (at_, content, ext, sig) <> []) by (intros E0; by rewrite E0 in *).
    destruct sig as [[[k e] c]|]; [|done]. assert (c = content) as ->.
    { unfold sign0_bytes in Hn. case_bool_decide; [tauto|done]. }
    by apply (sign0_of_bytes at_ content ext k e). }
  intros [[[at_ content] ext] sig] d s1 k s2 n buf. cbn [COSE_Sign0_SetExternal sample_cose].
  intros [= <-]. cbn [COSE_Sign0_Sign_eckey sample_cose]. intros [= <-]. cbn [COSE_Encode sample_cose].
  case_if; [|done]. intros [= <-]. bool_to_prop.
  assert (Hn : sign0_bytes (at_, content, d, Some (k, d, content)) <> []) by (intros E0; by rewrite E0 in *).
  split; [exact Hn|]. eexists. split; [exact (f_equal (option_map (fun s => (s, 18))) (proj2 (sign0_of_bytes _ _ _ _ _ _ eq_refl Hn)))|].
  intros d'. eexists. split; [reflexivity|]. cbn [COSE_Sign0_validate COSE_Sign0_validate_eckey sample_cose].
  assert (Hd : signed_by (at_, content, d', Some (k, d, content)) k = bool_decide (d' = d)).
  { unfold signed_by. apply bool_decide_ext. split; [by intros [= <-]|by intros ->]. }
  split; [by intros pk <-|by intros v ->].
Defined.

#[export] Instance sample_errors : MbedtlsErrors := {
  ERR_SSL_WANT_READ := -26880;
  ERR_SSL_WANT_WRITE := -26752;
  ERR_SSL_ASYNC_IN_PROGRESS := -25856;
  ERR_SSL_CRYPTO_IN_PROGRESS := -28672;
  ERR_SSL_TIMEOUT := -26624;
  ERR_SSL_HELLO_VERIFY_REQUIRED := -27264;
  ERR_SSL_CLIENT_RECONNECT := -26496;
  ERR_NET_SEND_FAILED := -78 }.

(** The signed token of a domain, for a key and with a key id. *)
Definition make_token (ca : Z) (domain : string_t) (kid : ByteArray) (key : Z) : ByteArray :=
  let x := Encode_loop 1 key in
  let claims := TMap [TPair Cwt.kAud (TText domain); TPair Cwt.kExp (TText (str "2030-01-01"));
                      TPair Cwt.kCnf (TMap [TPair Cwt.kCoseKey (TMap [TPair 2 (TBytes kid); TPair (-2) (TBytes x)])])] in
  let content := bytes_of claims in
  match COSE_Encode ([], content, [], Some (ca, [], content)) 100000 with Some b => b | None => [] end.
End Sample.

Import Sample.

(** The key of a P-256 curve with a first coordinate of one byte: one byte is
    all that is written of it. *)
Lemma coordinate_bytes_witness :
  exists b, Sign1.point_bytes (PK := option (option Z)) (EC := Z) 200 = Ok b /\ zlen b <= 32 - 31.
Proof.
  destruct (coordinate_bytes (PK := option (option Z)) (EC := Z) 200 32) as (b & H1 & _ & _ & _ & H2);
    [lia|cbn; lia|unfold fits; lia|].
  exists b. split; [exact H1|]. apply (H2 31); [lia|]. split; [lia|]. reflexivity.
Defined.
