(* ===== verification/TokenManager.v ===== *)
(** * The token manager of commercial commissioning

    [TokenManager] of [src/library/token_manager.{hpp,cpp}]: it requests the
    Commissioner Token (COM_TOK) of the domain registrar, keeps it, and signs
    management messages with it.

    The registrar is reached by a CoAP client of its own, of which this file
    has what [CommissionerImpl] has of its border agent client: the state of
    the DTLS session with the handler of [Connect], and the handlers of the
    requests that were not answered yet.  Handlers of the user are numbers. *)

From S2P Require Import Prelude Outcome Common Tlv CoapMessage Commissioner Dtls Cose.
Import Tlv Message.

(** The other paths of [src/library/uri.hpp] that signing needs *)
Definition kLeaderPetitioning : string_t := str "/c/lp".
Definition kLeaderKeepAlive : string_t := str "/c/la".
Definition kComToken : string_t := str "/.well-known/ccm".

Definition kMaxCoseKeyIdLength : Z := 16.
Definition kMaxTokenRequestSize : Z := 1024.
Definition kMaxSignedTokenLength : Z := 1024.

(** The fields of [Config] the token manager reads. *)
Record TokenConfig : Type := mkTokenConfig {
  cfgId : string_t;
  cfgDomainName : string_t;
  cfgCertificate : ByteArray;
  cfgPrivateKey : ByteArray;
  cfgTrustAnchor : ByteArray }.

Inductive TokenOutput : Type :=
| TokHandler (h : nat) (token : option ByteArray) (e : ErrorCode)
| TokRequest (m : Message).

Record TokenManager {PK : Type} : Type := mkTokenManager {
  mSequenceNumber : Z;
  mSignedToken : ByteArray;
  mCommissionerId : string_t;
  mTokenDomainName : string_t;
  mPublicKey : PK;
  mPrivateKey : PK;
  mDomainCAPublicKey : PK;
  mRegistrar : DtlsState;
  mOnRegistrar : option nat;
  mTokenRequests : list nat;
  mTokenSends : nat;
  mTokenOutputs : list TokenOutput }.   (* latest first *)
Arguments TokenManager : clear implicits.
Arguments mkTokenManager {PK}.

(** ** The content that a signature covers *)

Definition ShouldBeSerialized (aTlvType : Z) (aIsActiveSet aIsPendingSet : bool) : bool :=
  if aIsPendingSet then negb (aTlvType =? kDelayTimer) && IsDatasetParameter false aTlvType
  else if aIsActiveSet then IsDatasetParameter true aTlvType
  else negb (aTlvType =? kCommissionerToken) && negb (aTlvType =? kCommissionerSignature)
       && negb (aTlvType =? kCommissionerPenSignature) && negb (aTlvType =? kThreadCommissionerToken)
       && negb (aTlvType =? kThreadCommissionerSignature).

(** The TLVs of a [std::map] in the order of its keys, which are bytes. *)
Definition in_order (tlvSet : gmap Z Tlv.Tlv) : list Tlv.Tlv := omap (fun t => tlvSet !! t) (seqZ 0 256).

(** The loop over the set: [tlv.first] is the key, and the key is the type of
    the TLV. *)
Fixpoint serialize_tlvs (f : Z -> bool) (tlvs : list Tlv.Tlv) (content : ByteArray) : outcome ByteArray :=
  match tlvs with
  | [] => Ok content
  | tlv :: tlvs =>
      if f (Tlv.mType tlv) then content ← Tlv.Serialize tlv content; serialize_tlvs f tlvs content
      else serialize_tlvs f tlvs content
  end.

Definition signing_uri (uri : string_t) : string_t :=
  if bool_decide (uri = Uri.kPetitioning) then kLeaderPetitioning
  else if bool_decide (uri = Uri.kKeepAlive) then kLeaderKeepAlive
  else uri.

(** The serialized message without its header: the path and the separators. *)
Definition serialize_uri (aType : CoapType) (aCode : Z) (signingUri : string_t) : outcome ByteArray :=
  message ← SetUriPath (Message_new aType aCode) signingUri;
  content ← Message.Serialize message [];
  headerLength ← GetHeaderLength message;
  rdt content headerLength.

Definition PrepareSigningContent (aMessage : Message) : outcome ByteArray :=
  match GetUriPath aMessage with
  | Die => Die
  | Err _ => Err kInvalidArgs
  | Ok uri =>
      let isActiveSet := bool_decide (uri = Uri.kMgmtActiveSet) in
      let isPendingSet := bool_decide (uri = Uri.kMgmtPendingSet) in
      content ← serialize_uri (GetType aMessage) (GetCode aMessage) (signing_uri uri);
      tlvSet ← ParseTlvs (mPayload aMessage) kMeshCoP;
      serialize_tlvs (fun t => ShouldBeSerialized t isActiveSet isPendingSet) (in_order tlvSet) content
  end.

Section TokenManager.
Context {V S PK EC : Type} `{HC : Cbor V} `{HE : !Cose V S EC} `{HP : !Pk PK EC} `{HM : MbedtlsErrors}.
(** [OT_COMM_CONFIG_REFERENCE_DEVICE_ENABLE] *)
Context (reference_device : bool).
(** The result of the n-th request handed to the connected session. *)
Context (env_send : nat -> ErrorCode).
Abbreviation TokenManager := (TokenManager PK).
Abbreviation CborMap := (CborMap.CborMap V).

Definition TokenManager_new : TokenManager :=
  mkTokenManager 0 [] [] [] pk_init pk_init pk_init kOpen None [] 0 [].

Definition with_token (m : TokenManager) (n : Z) (t : ByteArray) : TokenManager :=
  mkTokenManager n t (mCommissionerId m) (mTokenDomainName m) (mPublicKey m) (mPrivateKey m) (mDomainCAPublicKey m)
    (mRegistrar m) (mOnRegistrar m) (mTokenRequests m) (mTokenSends m) (mTokenOutputs m).
Definition with_identity (m : TokenManager) (id domain : string_t) (pub priv ca : PK) : TokenManager :=
  mkTokenManager (mSequenceNumber m) (mSignedToken m) id domain pub priv ca
    (mRegistrar m) (mOnRegistrar m) (mTokenRequests m) (mTokenSends m) (mTokenOutputs m).
Definition with_registrar (m : TokenManager) (s : DtlsState) (h : option nat) : TokenManager :=
  mkTokenManager (mSequenceNumber m) (mSignedToken m) (mCommissionerId m) (mTokenDomainName m) (mPublicKey m)
    (mPrivateKey m) (mDomainCAPublicKey m) s h (mTokenRequests m) (mTokenSends m) (mTokenOutputs m).
Definition with_requests (m : TokenManager) (l : list nat) (n : nat) : TokenManager :=
  mkTokenManager (mSequenceNumber m) (mSignedToken m) (mCommissionerId m) (mTokenDomainName m) (mPublicKey m)
    (mPrivateKey m) (mDomainCAPublicKey m) (mRegistrar m) (mOnRegistrar m) l n (mTokenOutputs m).
Definition tell (m : TokenManager) (o : TokenOutput) : TokenManager :=
  mkTokenManager (mSequenceNumber m) (mSignedToken m) (mCommissionerId m) (mTokenDomainName m) (mPublicKey m)
    (mPrivateKey m) (mDomainCAPublicKey m) (mRegistrar m) (mOnRegistrar m) (mTokenRequests m) (mTokenSends m)
    (o :: mTokenOutputs m).

(** ** Keys *)

(** The code of the error of mbedtls only gets into the message. *)
Definition ParsePublicKey (aCert : ByteArray) : outcome PK :=
  VerifyOrExit negb (zlen aCert =? 0) else kInvalidArgs;;
  match x509_crt_parse aCert with
  | inl fail => _ ← ErrorFromMbedtlsError fail; Err kInvalidArgs
  | inr pk => Ok pk
  end.

Definition ParsePrivateKey (aPrivateKeyRaw : ByteArray) : outcome PK :=
  VerifyOrExit negb (zlen aPrivateKeyRaw =? 0) else kInvalidArgs;;
  match pk_parse_key aPrivateKeyRaw with
  | inl fail => _ ← ErrorFromMbedtlsError fail; Err kInvalidArgs
  | inr pk => Ok pk
  end.

(** [registrar_init] is the result of [mRegistrarClient.Init], that is of
    [DtlsSession::Init]. *)
Definition Init (registrar_init : ErrorCode) (aConfig : TokenConfig) (m : TokenManager) : outcome TokenManager :=
  publicKey ← ParsePublicKey (cfgCertificate aConfig);
  privateKey ← ParsePrivateKey (cfgPrivateKey aConfig);
  trustAnchorPublicKey ← ParsePublicKey (cfgTrustAnchor aConfig);
  VerifyOrExit bool_decide (registrar_init = kNone) else registrar_init;;
  Ok (with_identity m (cfgId aConfig) (cfgDomainName aConfig) publicKey privateKey trustAnchorPublicKey).

(** ** Tokens *)

(** The payload of a signed token, decoded. *)
Definition signed_payload (aSignedToken : ByteArray) (aPublicKey : PK) : outcome CborMap :=
  VerifyOrExit negb (zlen aSignedToken =? 0) else kInvalidArgs;;
  coseSign ← Sign1.Deserialize aSignedToken;
  _ ← Sign1.Validate coseSign aPublicKey;
  payload ← Sign1.GetPayload (Some coseSign);
  payload ← or_error kBadFormat payload;
  payload ← cn_cbor_bytes payload;
  CborMap.Deserialize payload.

Definition ValidateToken (m : TokenManager) (aSignedToken : ByteArray) (aPublicKey : PK) : outcome CborMap :=
  token ← signed_payload aSignedToken aPublicKey;
  domainName ← CborMap.GetStr token Cwt.kAud;
  expire ← CborMap.GetStr token Cwt.kExp;
  domainName ← cn_cbor_bytes domainName;
  VerifyOrExit bool_decide (domainName = mTokenDomainName m) else kSecurity;;
  Ok token.

Definition KeyIdOf (aToken : CborMap) : outcome ByteArray :=
  cnf ← CborMap.GetMap aToken Cwt.kCnf;
  coseKey ← CborMap.GetMap cnf Cwt.kCoseKey;
  keyId ← CborMap.GetBytes coseKey COSE_Key_ID;
  cn_cbor_bytes keyId.

Definition GetKeyId (m : TokenManager) : outcome ByteArray :=
  token ← ValidateToken m (mSignedToken m) (mDomainCAPublicKey m);
  KeyIdOf token.

(** [ValidateToken(const ByteArray &, const mbedtls_pk_context &)] *)
Definition CheckToken (m : TokenManager) (aSignedToken : ByteArray) (aPublicKey : PK) : outcome unit :=
  token ← ValidateToken m aSignedToken aPublicKey;
  _ ← KeyIdOf token;
  Ok tt.

Definition SetToken (m : TokenManager) (aSignedToken : ByteArray) (aAlwaysAccept : bool) : outcome TokenManager :=
  match CheckToken m aSignedToken (mDomainCAPublicKey m) with
  | Die => Die
  | Err e =>
      if reference_device && aAlwaysAccept then Ok (with_token m 0 aSignedToken)  (* the error is logged *)
      else Err e
  | Ok _ => Ok (with_token m 0 aSignedToken)
  end.

Definition GetPublicKeyInToken (m : TokenManager) : outcome ByteArray :=
  token ← ValidateToken m (mSignedToken m) (mDomainCAPublicKey m);
  cnf ← CborMap.GetMap token Cwt.kCnf;
  publicKey ← CborMap.GetMap cnf Cwt.kCoseKey;
  match CborMap.Serialize publicKey kMaxSignedTokenLength with
  | Ok aPublicKey => Ok aPublicKey
  | _ => Die                            (* SuccessOrDie *)
  end.

(** ** Signatures *)

(** The key ID in the signature. *)
Definition signing_key_id (m : TokenManager) : outcome ByteArray :=
  if reference_device then
    match GetKeyId m with
    | Ok keyId => Ok keyId
    | Err _ => Ok (replicate (Z.to_nat kMaxCoseKeyIdLength) 0)
    | Die => Die
    end
  else GetKeyId m.

Definition SignMessage (m : TokenManager) (aMessage : Message) : outcome (ByteArray * TokenManager) :=
  externalData ← PrepareSigningContent aMessage;
  sign1Msg ← Sign1.Init COSE_INIT_FLAGS_NONE;
  sign1Msg ← Sign1.AddAttributeInt sign1Msg COSE_Header_Algorithm COSE_Algorithm_ECDSA_SHA_256 COSE_PROTECT_ONLY;
  keyId ← signing_key_id m;
  sign1Msg ← Sign1.AddAttributeBytes sign1Msg COSE_Header_KID keyId COSE_UNPROTECT_ONLY;
  sign1Msg ← Sign1.SetContent sign1Msg [];
  sign1Msg ← Sign1.SetExternalData sign1Msg externalData;
  sign1Msg ← Sign1.Sign sign1Msg (mPrivateKey m);
  aSignature ← Sign1.Serialize sign1Msg;
  Ok (aSignature, with_token m (u64 (mSequenceNumber m + 1)) (mSignedToken m)).

Definition ValidateSignature (m : TokenManager) (aSignature : ByteArray) (aSignedMessage : Message) : outcome unit :=
  VerifyOrExit negb (zlen aSignature =? 0) else kInvalidArgs;;
  sign1Msg ← Sign1.Deserialize aSignature;
  externalData ← PrepareSigningContent aSignedMessage;
  sign1Msg ← Sign1.SetExternalData sign1Msg externalData;
  _ ← Sign1.Validate sign1Msg (mPublicKey m);
  rawPublicKeyInToken ← GetPublicKeyInToken m;
  publicKeyInToken ← CborMap.Deserialize rawPublicKeyInToken;
  Sign1.ValidateCbor sign1Msg publicKeyInToken.

(** ** Requesting a token *)

Definition MakeTokenRequest (aPublicKey : PK) (aId aDomainName : string_t) : outcome ByteArray :=
  let kid := zsub aId 0 (Z.min (zlen aId) kMaxCoseKeyIdLength) in
  VerifyOrExit pk_can_do_ecdsa aPublicKey else kInvalidArgs;;
  VerifyOrExit negb (zlen aId =? 0) else kInvalidArgs;;
  VerifyOrExit negb (zlen aDomainName =? 0) else kInvalidArgs;;
  tokenRequest ← CborMap.Init None;
  tokenRequest ← CborMap.PutInt tokenRequest Cwt.kGrantType Cwt.kGrantTypeClientCred;
  tokenRequest ← CborMap.PutStr tokenRequest Cwt.kClientId aId;
  tokenRequest ← CborMap.PutStr tokenRequest Cwt.kAud aDomainName;
  reqCnf ← CborMap.Init None;
  encodedCoseKey ← Sign1.MakeCoseKey aPublicKey kid;
  coseKey ← CborMap.Deserialize encodedCoseKey;
  reqCnf ← CborMap.PutMap reqCnf Cwt.kCoseKey coseKey;
  tokenRequest ← CborMap.PutMap tokenRequest Cwt.kReqCnf reqCnf;
  CborMap.Serialize tokenRequest kMaxTokenRequestSize.

(** The request of [SendTokenRequest]. *)
Definition token_request (m : TokenManager) : outcome Message :=
  request ← SetUriPath (Message_new kConfirmable Code.kPost) kComToken;
  request ← SetContentFormat request ContentFormat.kCWT;
  tokenRequest ← MakeTokenRequest (mPublicKey m) (mCommissionerId m) (mTokenDomainName m);
  Ok (Append request tokenRequest).

(** [onResponse] of [SendTokenRequest], up to the call of the handler. *)
Definition token_response (m : TokenManager) (aResponse : option Message) (aError : ErrorCode) : outcome TokenManager :=
  response ← received aResponse aError;
  VerifyOrExit GetCode response =? Code.kChanged else kBadFormat;;
  match GetContentFormat response with
  | Die => Die
  | Err _ => Err kBadFormat
  | Ok contentFormat =>
      VerifyOrExit contentFormat =? ContentFormat.kCoseSign1 else kBadFormat;;
      SetToken m (mPayload response) false
  end.

Definition report_response (m : TokenManager) (h : nat) (aResponse : option Message) (aError : ErrorCode)
    : outcome TokenManager :=
  match token_response m aResponse aError with
  | Ok m => Ok (tell m (TokHandler h (Some (mSignedToken m)) kNone))
  | Err e => Ok (tell m (TokHandler h None e))
  | Die => Die
  end.

Section Client.
(** [mRegistrarClient.Disconnect(ERROR_NONE)] *)
Context (disconnect : TokenManager -> outcome TokenManager).

Definition onResponse (m : TokenManager) (h : nat) (aResponse : option Message) (aError : ErrorCode)
    : outcome TokenManager :=
  m ← report_response m h aResponse aError; disconnect m.

(** [mRegistrarClient.SendRequest]: a request that cannot be sent is answered
    with the error. *)
Definition registrar_SendRequest (m : TokenManager) (request : Message) (h : nat) : outcome TokenManager :=
  if bool_decide (mRegistrar m = kConnected) then
    let error := env_send (mTokenSends m) in
    let m := with_requests m (mTokenRequests m) (Datatypes.S (mTokenSends m)) in
    if bool_decide (error = kNone) then
      Ok (tell (with_requests m (mTokenRequests m ++ [h]) (mTokenSends m)) (TokRequest request))
    else onResponse m h None error
  else onResponse m h None kInvalidState.

Definition SendTokenRequest (m : TokenManager) (h : nat) : outcome TokenManager :=
  match token_request m with
  | Ok request => registrar_SendRequest m request h
  | Err e => Ok (tell m (TokHandler h None e))
  | Die => Die
  end.

(** [onConnected] of [RequestToken] *)
Definition onConnected (m : TokenManager) (h : nat) (aError : ErrorCode) : outcome TokenManager :=
  if bool_decide (aError = kNone) then SendTokenRequest m h else Ok (tell m (TokHandler h None aError)).

(** [DtlsSession::Disconnect], with [Reset]; the handler is called before it is
    cleared. *)
Definition session_Disconnect (m : TokenManager) (aError : ErrorCode) : outcome TokenManager :=
  match mRegistrar m with
  | kConnecting | kConnected =>
      let m := with_registrar m kDisconnected (mOnRegistrar m) in
      m ← match mOnRegistrar m with
          | Some h => m ← onConnected m h aError; Ok (with_registrar m (mRegistrar m) None)
          | None => Ok m
          end;
      Ok (with_registrar m kOpen (mOnRegistrar m))
  | _ => Ok m
  end.

(** [Coap::CancelRequests]; a request is out of the list when its handler is
    called, as the handler of a request that is being finalized is cleared. *)
Fixpoint cancel_requests (n : nat) (m : TokenManager) : outcome TokenManager :=
  match mTokenRequests m with
  | [] => Ok m
  | h :: l =>
      match n with
      | O => Die
      | Datatypes.S n =>
          m ← onResponse (with_requests m l (mTokenSends m)) h None kCancelled; cancel_requests n m
      end
  end.

(** [CoapSecure::Disconnect] *)
Definition client_Disconnect (n : nat) (m : TokenManager) (aError : ErrorCode) : outcome TokenManager :=
  m ← session_Disconnect m aError; cancel_requests n m.

End Client.

(** The recursion of disconnecting: each level answers one handler. *)
Fixpoint Disconnect (fuel : nat) (m : TokenManager) : outcome TokenManager :=
  match fuel with
  | O => Die
  | Datatypes.S fuel => client_Disconnect (Disconnect fuel) fuel m kNone
  end.

(** ** The interface, and what the client is told *)

Section Interface.
Context (fuel : nat).
Let disconnect := Disconnect fuel.

(** [CoapSecure::Connect]; [socket] is the result of [UdpSocket::Connect]. *)
Definition RequestToken (m : TokenManager) (h : nat) (socket : bool) : outcome TokenManager :=
  if socket then
    VerifyOrDie bool_decide (mRegistrar m = kOpen);; Ok (with_registrar m kConnecting (Some h))
  else onConnected disconnect m h kIOError.

Definition CancelRequests (m : TokenManager) : outcome TokenManager := cancel_requests disconnect fuel m.

Inductive TokenEvent : Type :=
| TokApiRequest (h : nat) (socket : bool)
| TokApiSetToken (aSignedToken : ByteArray) (aAlwaysAccept : bool)
| TokApiSign (aMessage : Message)
| TokApiCancel
| TokHandshakeOver                      (* DtlsSession::Handshake completes *)
| TokDtlsError (e : ErrorCode)          (* DtlsSession::HandleEvent stops on an error *)
| TokResponse (i : nat) (aResponse : option Message) (aError : ErrorCode).

Definition registrar_connected (m : TokenManager) : outcome TokenManager :=
  match mRegistrar m with
  | kConnecting =>
      let m := with_registrar m kConnected (mOnRegistrar m) in
      match mOnRegistrar m with
      | Some h => m ← onConnected disconnect m h kNone; Ok (with_registrar m (mRegistrar m) None)
      | None => Ok m
      end
  | _ => Ok m
  end.

(** The client answers its [i]-th request. *)
Definition registrar_response (m : TokenManager) (i : nat) (aResponse : option Message) (aError : ErrorCode)
    : outcome TokenManager :=
  match mTokenRequests m !! i with
  | None => Ok m
  | Some h =>
      onResponse disconnect (with_requests m (take i (mTokenRequests m) ++ drop (Datatypes.S i) (mTokenRequests m)) (mTokenSends m))
        h aResponse aError
  end.

(** An error of [SetToken] or [SignMessage] is returned and changes nothing. *)
Definition keep_on_error (m : TokenManager) (r : outcome TokenManager) : outcome TokenManager :=
  match r with Err _ => Ok m | _ => r end.

Definition token_step (e : TokenEvent) (m : TokenManager) : outcome TokenManager :=
  match e with
  | TokApiRequest h socket => RequestToken m h socket
  | TokApiSetToken aSignedToken aAlwaysAccept => keep_on_error m (SetToken m aSignedToken aAlwaysAccept)
  | TokApiSign aMessage => keep_on_error m ('(_, m) ← SignMessage m aMessage; Ok m)
  | TokApiCancel => CancelRequests m
  | TokHandshakeOver => registrar_connected m
  | TokDtlsError e => if bool_decide (e = kNone) then Ok m else session_Disconnect disconnect m e
  | TokResponse i aResponse aError => registrar_response m i aResponse aError
  end.

Fixpoint token_run (l : list TokenEvent) (m : TokenManager) : outcome TokenManager :=
  match l with [] => Ok m | e :: l => m ← token_step e m; token_run l m end.

End Interface.
End TokenManager.
