(* ===== verification/TokenManagerFacts.v ===== *)
(** * Theorems on the token manager

    What a signature covers ([SigningContent]), what signing and validating
    promise of each other ([Signatures], over laws of the libraries), the token
    that is kept and the handlers that are told ([Client]). *)

From stdpp Require Import sorting.
From S2P Require Import Prelude Outcome Common Tlv CoapMessage Commissioner Dtls Cose CoseFacts TokenManager.
Import Tlv TlvFacts Message MessageFacts CommonFacts.

(** ** The content of a signature *)
Module SigningContent.

(** *** Sets in order *)

Lemma elem_in_order s t : t ∈ in_order s <-> exists k, 0 <= k < 256 /\ s !! k = Some t.
Proof. unfold in_order. rewrite list_elem_of_omap. setoid_rewrite elem_of_seqZ. done. Qed.

(** The parser keys each TLV by its type, so the order is that of the types. *)
Lemma map_mType_in_order s : set_ok kMeshCoP s ->
  map Tlv.mType (in_order s) = filter (fun k => is_Some (s !! k)) (seqZ 0 256).
Proof.
  intros Hs. unfold in_order. generalize (seqZ 0 256). induction l as [|k l IH]; [done|]. cbn [omap list_omap].
  rewrite filter_cons. destruct (s !! k) as [t|] eqn:E.
  - rewrite decide_True by done. cbn [map]. rewrite IH. by destruct (Hs _ _ E) as (_ & -> & _).
  - rewrite decide_False by (intros [? [=]]). done.
Qed.

Lemma in_order_valid s : set_ok kMeshCoP s -> Forall (fun t => IsValid t = true) (in_order s).
Proof. intros Hs. apply Forall_forall. intros t (k & _ & H)%elem_in_order. by apply Hs in H as (? & _). Qed.

Lemma serialize_tlvs_encoding f ts content :
  Forall (fun t => IsValid t = true) ts ->
  serialize_tlvs f ts content = Ok (content ++ concat (map encoding (filter (fun t => f (Tlv.mType t) = true) ts))).
Proof.
  intros H; revert content; induction H as [|t ts Ht _ IH]; intros content; cbn [serialize_tlvs];
    [by rewrite app_nil_r|]. rewrite filter_cons.
  destruct (f (Tlv.mType t)) eqn:E.
  - rewrite decide_True by done. rewrite Serialize_encoding by done. cbn [mbind outcome_bind].
    by rewrite IH, map_cons, concat_cons, <- app_assoc.
  - by rewrite decide_False, IH by done.
Qed.

(** *** A TLV behind a payload that parses *)

Lemma rd_app_l {A} (l k : list A) i b : rd l i = Ok b -> rd (l ++ k) i = Ok b.
Proof.
  unfold rd. intros H. destruct ((0 <=? i) && (i <? zlen l)) eqn:E; [|done]. bool_to_prop. rewrite zlen_app. pose proof (zlen_nonneg k).
  rewrite (proj2 (Z.leb_le _ _)), (proj2 (Z.ltb_lt _ _)) by lia. cbn [andb].
  destruct (l !! Z.to_nat i) as [b'|] eqn:El; [|done]. by rewrite (lookup_app_l_Some _ _ _ _ El).
Qed.

Lemma zsub_app_l {A} (l k : list A) off n : 0 <= off -> 0 <= n -> off + n <= zlen l -> zsub (l ++ k) off n = zsub l off n.
Proof.
  intros. unfold zsub. rewrite drop_app_le by zw. rewrite take_app_le; [done|]. rewrite length_drop. zw.
Qed.

Lemma Deserialize_app off buf ext sc t off' :
  bytes buf -> 0 <= off -> Tlv.Deserialize off buf sc = Ok (t, off') -> Tlv.Deserialize off (buf ++ ext) sc = Ok (t, off').
Proof.
  intros Hb Ho. pose proof (zlen_nonneg ext). unfold Tlv.Deserialize. rewrite zlen_app.
  destruct (off + 2 <=? zlen buf) eqn:E; [|done]. bool_to_prop.
  rewrite (proj2 (Z.leb_le (off + 2) (zlen buf + zlen ext))) by lia.
  intros (ty & Ety & (le & Ele & H1)%bind_ok)%bind_ok.
  rewrite (rd_app_l _ _ _ _ Ety). cbn [mbind outcome_bind]. rewrite (rd_app_l _ _ _ _ Ele). cbn [mbind outcome_bind].
  pose proof (rd_byte _ _ _ Hb Ele) as Hle.
  apply bind_ok in H1 as ([len o] & Hlen & H1).
  assert (0 <= len /\ 0 <= o) as [].
  { destruct (le =? kEscapeLength); [|simplify_eq; split; [zw|lia]].
    destruct (off + 1 + 1 + 2 <=? zlen buf); [|done].
    apply bind_ok in Hlen as (b0 & _ & (b1 & _ & [= <- <-])%bind_ok). split; [|lia].
    apply Z.lor_nonneg; split; apply Z.land_nonneg; lia. }
  assert ((if le =? kEscapeLength then
    VerifyOrExit off + 1 + 1 + 2 <=? zlen buf + zlen ext else kBadFormat;;
    b0 ← rd (buf ++ ext) (off + 1 + 1);
    b1 ← rd (buf ++ ext) (off + 1 + 1 + 1);
    Ok (Z.lor (Z.land (Z.shiftl b0 8) 65280) (Z.land b1 255), off + 1 + 1 + 1 + 1)
    else Ok (le, off + 1 + 1)) = Ok (len, o)) as ->.
  { destruct (le =? kEscapeLength); [|done].
    destruct (off + 1 + 1 + 2 <=? zlen buf) eqn:E3; [|done]. bool_to_prop. rewrite (proj2 (Z.leb_le _ _)) by lia.
    apply bind_ok in Hlen as (b0 & E0 & (b1 & E1 & Hl)%bind_ok).
    rewrite (rd_app_l _ _ _ _ E0). cbn [mbind outcome_bind]. by rewrite (rd_app_l _ _ _ _ E1). }
  cbn [mbind outcome_bind]. destruct (o + len <=? zlen buf) eqn:E2; [|done]. bool_to_prop.
  rewrite (proj2 (Z.leb_le _ _)) by lia.
  rewrite rds_ok in * by (rewrite ?zlen_app; lia). by rewrite zsub_app_l by lia.
Qed.

Lemma GetTlvSet_loop_app t sc buf n : forall fuel s off s',
  IsValid t = true -> tlv_bytes t -> representable t -> mScope t = sc -> bytes buf ->
  0 <= off <= zlen buf -> (0 < n)%nat ->
  GetTlvSet_loop fuel s off buf sc = (s', Ok tt) ->
  GetTlvSet_loop (fuel + n) s off (buf ++ encoding t) sc = (<[Tlv.mType t := t]> s', Ok tt).
Proof.
  intros fuel s off s' Hv Hb Hr Hsc Hbuf. revert fuel s off.
  pose proof (encoding_length t) as Hlen. pose proof (zlen_nonneg buf).
  assert (Hend : forall k s, (0 < k)%nat ->
    GetTlvSet_loop k s (zlen buf) (buf ++ encoding t) sc = (<[Tlv.mType t := t]> s, Ok tt)).
  { intros [|k] s Hk; [lia|]. pose proof (GetTlvSet_loop_encodings sc [t] (S (k + length (encoding t))) buf s) as He.
    cbn [map concat] in He. rewrite app_nil_r in He. cbn [GetTlvSet_loop] in *.
    rewrite zlen_app, (proj2 (Z.ltb_lt _ _)) in * by lia. cbn [negb] in *.
    pose proof (Deserialize_encoding buf t [] Hv Hb Hr) as HD. rewrite app_nil_r, Hsc in HD. rewrite HD, Hv in *.
    destruct k; cbn [GetTlvSet_loop]; by rewrite Z.ltb_irrefl. }
  induction fuel as [|fuel IH]; intros s off Hoff Hn; cbn [GetTlvSet_loop].
  - destruct (negb (off <? zlen buf)) eqn:E; [|done]. bool_to_prop. assert (off = zlen buf) as -> by lia.
    intros [= ->]. by apply Hend.
  - cbn [Nat.add]. destruct (negb (off <? zlen buf)) eqn:E.
    { bool_to_prop. assert (off = zlen buf) as -> by lia. intros [= ->]. by apply (Hend (S (fuel + n)) s'); lia. }
    bool_to_prop. cbn [GetTlvSet_loop]. rewrite zlen_app, (proj2 (Z.ltb_lt off _)) by lia. cbn [negb].
    pose proof (Deserialize_total off buf sc Hbuf (proj1 Hoff)) as HD.
    destruct (Tlv.Deserialize off buf sc) as [[t' off']|e|] eqn:ED; [|done..].
    rewrite (Deserialize_app _ _ _ _ _ _ Hbuf (proj1 Hoff) ED). apply IH; [lia|done].
Qed.

Lemma ParseTlvs_app buf t s :
  bytes buf -> TlvFacts.wire_ok kMeshCoP t -> ParseTlvs buf kMeshCoP = Ok s ->
  ParseTlvs (buf ++ encoding t) kMeshCoP = Ok (<[Tlv.mType t := t]> s).
Proof.
  intros Hbuf (Hv & Hb & Hr & Hsc). unfold ParseTlvs, GetTlvSet. pose proof (encoding_length t).
  pose proof (zlen_nonneg buf).
  destruct (GetTlvSet_loop (length buf) ∅ 0 buf kMeshCoP) as [s' r] eqn:E. destruct r as [[]| |]; [|done..].
  intros [= <-]. rewrite length_app.
  rewrite (GetTlvSet_loop_app t kMeshCoP buf (length (encoding t)) (length buf) ∅ 0 s') by (done || zw). done.
Qed.

(** *** The types that are left out *)

Definition unsigned_type (t : Z) : bool :=
  (t =? kCommissionerToken) || (t =? kCommissionerSignature) || (t =? kCommissionerPenSignature).

Lemma unsigned_not_serialized t a p : unsigned_type t = true -> ShouldBeSerialized t a p = false.
Proof.
  unfold unsigned_type, ShouldBeSerialized. intros H.
  assert (t = 63 \/ t = 64 \/ t = 70) as [-> | [-> | ->]].
  { apply orb_true_iff in H as [H|H]; [apply orb_true_iff in H as [H|H]|]; bool_to_prop; tauto. }
  all: destruct p, a; reflexivity.
Qed.

Lemma filter_in_order_insert (P : Tlv.Tlv -> Prop) `{forall t, Decision (P t)} k t s :
  (forall t', s !! k = Some t' -> ~ P t') -> ~ P t ->
  filter P (in_order (<[k := t]> s)) = filter P (in_order s).
Proof.
  intros Hs Ht. unfold in_order. induction (seqZ 0 256) as [|k' l IH]; [done|]. cbn [omap list_omap].
  destruct (decide (k = k')) as [<-|Hne].
  - rewrite lookup_insert_eq. rewrite filter_cons, decide_False by done. rewrite IH.
    destruct (s !! k) as [t'|] eqn:E; [|done]. rewrite filter_cons, decide_False by (by apply Hs). done.
  - rewrite lookup_insert_ne by done. destruct (s !! k'); [rewrite !filter_cons|]; by rewrite IH.
Qed.

(** *** The content *)

(** Whether a message of this path signs the TLVs of a type. *)
Definition covers (uri : string_t) (t : Z) : bool :=
  ShouldBeSerialized t (bool_decide (uri = Uri.kMgmtActiveSet)) (bool_decide (uri = Uri.kMgmtPendingSet)).

Definition covered (uri : string_t) (s : gmap Z Tlv.Tlv) : list Tlv.Tlv :=
  filter (fun t => covers uri (Tlv.mType t) = true) (in_order s).

Lemma ParseTlvs_set_ok buf s : bytes buf -> ParseTlvs buf kMeshCoP = Ok s -> set_ok kMeshCoP s.
Proof.
  intros Hb. unfold ParseTlvs, GetTlvSet.
  destruct (GetTlvSet_loop_safe kMeshCoP buf (length buf) ∅ 0 Hb (set_ok_empty _)) as [H _]; [lia|zw|].
  destruct (GetTlvSet_loop _ _ _ _ _) as [s' r]. destruct r; [|done..]. by intros [= <-].
Qed.

Lemma PrepareSigningContent_eq m uri :
  GetUriPath m = Ok uri -> bytes (mPayload m) ->
  PrepareSigningContent m =
    (u ← serialize_uri (GetType m) (GetCode m) (signing_uri uri);
     s ← ParseTlvs (mPayload m) kMeshCoP;
     Ok (u ++ concat (map encoding (covered uri s)))).
Proof.
  intros Hu Hb. unfold PrepareSigningContent. rewrite Hu.
  destruct (serialize_uri _ _ _) as [u| |]; [|done..]. cbn [mbind outcome_bind].
  destruct (ParseTlvs (mPayload m) kMeshCoP) as [s| |] eqn:E; [|done..]. cbn [mbind outcome_bind].
  apply serialize_tlvs_encoding, in_order_valid. by eapply ParseTlvs_set_ok.
Qed.

Lemma Append_fields m b :
  GetUriPath (Append m b) = GetUriPath m /\ GetType (Append m b) = GetType m /\ GetCode (Append m b) = GetCode m
  /\ mPayload (Append m b) = mPayload m ++ b.
Proof. done. Qed.

Lemma bytes_encoding t : tlv_bytes t -> bytes (encoding t).
Proof.
  intros [_ Hb]. unfold encoding. rewrite !Forall_app. split_and!; [apply bytes_Encode_loop| |done].
  case_if; [apply Forall_app; split|]; apply bytes_Encode_loop.
Qed.

(** A TLV of a type that is left out can be appended to a message without
    changing what its signature covers. *)
Lemma content_append m t d :
  bytes (mPayload m) -> TlvFacts.wire_ok kMeshCoP t -> unsigned_type (Tlv.mType t) = true ->
  PrepareSigningContent m = Ok d -> PrepareSigningContent (Append m (encoding t)) = Ok d.
Proof.
  intros Hb Ht Hu Hd. destruct (GetUriPath m) as [uri| |] eqn:Euri;
    [|by unfold PrepareSigningContent in Hd; rewrite Euri in Hd..].
  assert (Hbt : bytes (encoding t)) by apply bytes_encoding, Ht.
  rewrite (PrepareSigningContent_eq m uri) in Hd by done.
  rewrite (PrepareSigningContent_eq _ uri) by (done || by apply Forall_app).
  destruct (Append_fields m (encoding t)) as (_ & -> & -> & ->).
  apply bind_ok in Hd as (u & -> & (s & Es & [= <-])%bind_ok). cbn [mbind outcome_bind].
  rewrite (ParseTlvs_app _ _ _ Hb Ht Es). cbn [mbind outcome_bind]. do 4 f_equal.
  pose proof (ParseTlvs_set_ok _ _ Hb Es) as Hs. apply filter_in_order_insert.
  - intros t' Ht'. destruct (Hs _ _ Ht') as (_ & -> & _). unfold covers. by rewrite unsigned_not_serialized.
  - unfold covers. by rewrite unsigned_not_serialized.
Qed.

Lemma last_wins_set_ok ts s : Forall (TlvFacts.wire_ok kMeshCoP) ts -> set_ok kMeshCoP s -> set_ok kMeshCoP (last_wins ts s).
Proof.
  intros H; revert s; induction H as [|t ts (Hv & Hb & _ & Hsc) _ IH]; intros s Hs; [done|].
  apply IH. by apply set_ok_insert.
Qed.

Lemma StronglySorted_filter {A} (R : A -> A -> Prop) (P : A -> Prop) `{forall x, Decision (P x)} l :
  StronglySorted R l -> StronglySorted R (filter P l).
Proof.
  induction 1 as [|x l _ IH Hx]; [constructor|]. rewrite filter_cons. case_decide; [|done].
  constructor; [done|]. rewrite Forall_forall in *. intros y [_ Hy]%list_elem_of_filter. auto.
Qed.

Lemma in_order_sorted s : set_ok kMeshCoP s -> StronglySorted (fun a b => Tlv.mType a < Tlv.mType b) (in_order s).
Proof.
  intros Hs. assert (H : StronglySorted Z.lt (map Tlv.mType (in_order s))).
  { rewrite map_mType_in_order by done. apply StronglySorted_filter.
    assert (Hz : forall n z, StronglySorted Z.lt (seqZ z (Z.of_nat n))); [|apply (Hz 256%nat 0)].
    induction n as [|n IH]; intros z; [by constructor|]. rewrite seqZ_cons by lia. constructor.
    - replace (Z.pred (Z.of_nat (S n))) with (Z.of_nat n) by lia. apply IH.
    - apply Forall_forall. intros x Hx%elem_of_seqZ. lia. }
  induction (in_order s) as [|t l IH]; [constructor|]. apply StronglySorted_inv in H as [H1 H2].
  constructor; [by apply IH|]. exact (proj1 (List.Forall_map _ _ _) H2).
Qed.

(** The path of the leader's resource: the border agent forwards petitions and keep-alives to it under other names. *)
Definition leader_path (uri : string_t) : string_t :=
  if bool_decide (uri = str "/c/cp") then str "/c/lp"
  else if bool_decide (uri = str "/c/ca") then str "/c/la" else uri.

(** The types that are signed, by number: of an active dataset its ten TLVs, of a pending one also the pending timestamp
    (51), but not the delay timer (52), which devices count down; of any other message all but the tokens and the
    signatures. *)
Definition active_types : list Z := [0; 1; 2; 3; 4; 5; 7; 12; 14; 53].
Definition signed_type (uri : string_t) (t : Z) : Prop :=
  if bool_decide (uri = str "/c/as") then t ∈ active_types
  else if bool_decide (uri = str "/c/ps") then t ∈ 51 :: active_types
  else t ∉ [63; 64; 70].

Lemma existsb_elem t l : existsb (Z.eqb t) l = true <-> t ∈ l.
Proof.
  rewrite existsb_exists, list_elem_of_In. split; [intros (x & Hx & ->%Z.eqb_eq); done|].
  intros H. exists t. by rewrite Z.eqb_refl.
Qed.

Lemma covers_signed uri t : covers uri t = true <-> signed_type uri t.
Proof.
  unfold covers, ShouldBeSerialized, signed_type, IsDatasetParameter. change Uri.kMgmtActiveSet with (str "/c/as").
  change Uri.kMgmtPendingSet with (str "/c/ps").
  repeat case_bool_decide; subst; try done.
  - rewrite andb_true_iff, negb_true_iff, Z.eqb_neq, existsb_elem. unfold kPendingSet, active_types.
    rewrite !elem_of_cons, elem_of_nil. unfold kActiveTimestamp, kChannel, kChannelMask, kDelayTimer, kExtendedPanId,
      kNetworkMeshLocalPrefix, kNetworkMasterKey, kNetworkName, kPanId, kPendingTimestamp, kPSKc, kSecurityPolicy. intuition lia.
  - rewrite existsb_elem. unfold Tlv.kActiveSet, active_types. rewrite !elem_of_cons, elem_of_nil.
    unfold kActiveTimestamp, kChannel, kChannelMask, kExtendedPanId, kNetworkMeshLocalPrefix, kNetworkMasterKey, kNetworkName,
      kPanId, kPSKc, kSecurityPolicy. intuition lia.
  - rewrite !andb_true_iff, !negb_true_iff, !Z.eqb_neq, !elem_of_cons, elem_of_nil.
    unfold kCommissionerToken, kCommissionerSignature, kCommissionerPenSignature, kThreadCommissionerToken,
      kThreadCommissionerSignature. intuition lia.
Qed.

(** A path of short segments: each one has its length before it. *)
Definition short_path (segs : list string_t) : Prop :=
  segs <> [] /\ Forall good_segment segs /\ Forall (fun s => zlen s <= 12) segs /\ zlen (join segs) <= 255.

Lemma serialize_uri_path t code uri segs : is_byte code -> leader_path uri = join segs -> short_path segs ->
  serialize_uri t code (signing_uri uri) = Ok (path_options segs).
Proof.
  intros Hc Hu (Hne & Hs & Hl & Hlen). change (signing_uri uri) with (leader_path uri). rewrite Hu. unfold serialize_uri.
  rewrite SetUriPath_join by done. cbn [mbind outcome_bind]. rewrite Serialize_path by done. cbn [mbind outcome_bind].
  unfold GetHeaderLength. rewrite SerializeHeader_bytes by by apply (path_message_ok t code segs). cbn [mbind outcome_bind app].
  set (h := header_bytes _). pose proof (zlen_nonneg h). pose proof (zlen_nonneg (path_options segs)).
  rewrite rdt_ok by (rewrite zlen_app; lia). by rewrite zdrop_app.
Qed.

(** C22: the content of a signature is canonical.  For a message whose payload is a list of TLVs, it is the options of
    the path that the leader sees, without any header, followed by the TLVs of the types that such a message signs,
    sorted by type, of each type the last one and no other: neither the type, the identifier or the token of the
    message nor the order of its TLVs matter.  The path has segments of at most 12 characters, as all of the
    commissioner's have. *)
Theorem signing_content_canonical m uri segs ts :
  GetUriPath m = Ok uri -> leader_path uri = join segs -> short_path segs -> is_byte (GetCode m) ->
  mPayload m = concat (map encoding ts) -> Forall (TlvFacts.wire_ok kMeshCoP) ts ->
  exists l, PrepareSigningContent m = Ok (path_options segs ++ concat (map encoding l)) /\
    StronglySorted (fun a b => Tlv.mType a < Tlv.mType b) l /\
    (forall t, t ∈ l <-> last_wins ts ∅ !! Tlv.mType t = Some t /\ signed_type uri (Tlv.mType t)).
Proof.
  intros Hu Hseg Hpath Hcode Hp Hts. exists (covered uri (last_wins ts ∅)).
  pose proof (serialize_uri_path (GetType m) (GetCode m) uri segs Hcode Hseg Hpath) as Hser.
  pose proof (last_wins_set_ok ts ∅ Hts (set_ok_empty _)) as Hok.
  assert (Hb : bytes (mPayload m)).
  { rewrite Hp. apply Forall_concat, Forall_map. eapply Forall_impl; [exact Hts|]. intros t Ht.
    apply bytes_encoding, Ht. }
  split_and!.
  - rewrite (PrepareSigningContent_eq m uri), Hser by done. cbn [mbind outcome_bind].
    pose proof (GetTlvSet_loop_encodings kMeshCoP ts (length (mPayload m)) [] ∅ Hts) as HL.
    unfold ParseTlvs, GetTlvSet. rewrite Hp in *. cbn [app] in HL. change (zlen []) with 0 in HL.
    rewrite HL by lia. done.
  - by apply StronglySorted_filter, in_order_sorted.
  - intros t. unfold covered. rewrite list_elem_of_filter, elem_in_order, <- covers_signed. split.
    + intros (Hc & k & _ & Hk). destruct (Hok _ _ Hk) as (_ & <- & _). done.
    + intros [Hl Hc]. split; [done|]. exists (Tlv.mType t). split; [|done].
      destruct (Hok _ _ Hl) as (_ & _ & _ & [Ht _]). zw.
Qed.

(** A petition, and a request that lists its TLVs in another order, with some that are not signed. *)
Definition a_message (uri : string_t) (ts : list Tlv.Tlv) : Message :=
  default Message_init (match SetUriPath (Message_new kConfirmable Code.kPost) uri with
    | Ok m => Some (Append m (concat (map encoding ts))) | _ => None end).
Definition petition_tlvs : list Tlv.Tlv := [Tlv_bytes kCommissionerId (str "me")].
Definition pending_tlvs : list Tlv.Tlv :=
  [Tlv_u16 kPanId 4660; Tlv_u32 kDelayTimer 30000; Tlv_u64 kPendingTimestamp 65536; Tlv_u64 kActiveTimestamp 65536;
   Tlv_bytes kNetworkName (str "net")].

Lemma signing_content_canonical_witness :
  (exists l, PrepareSigningContent (a_message Uri.kPetitioning petition_tlvs)
     = Ok ([177; 99; 2; 108; 112] ++ concat (map encoding l))) /\
  (exists l, PrepareSigningContent (a_message Uri.kMgmtPendingSet pending_tlvs)
     = Ok ([177; 99; 2; 112; 115] ++ concat (map encoding l)) /\
   map Tlv.mType l = [kPanId; kNetworkName; kActiveTimestamp; kPendingTimestamp]).
Proof.
  assert (Hp : forall s, s ∈ [str "lp"; str "ps"] -> short_path [str "c"; s]).
  { intros s Hs. rewrite !elem_of_cons, elem_of_nil in Hs. destruct Hs as [-> |[-> |[]]].
    all: repeat split; repeat apply Forall_cons_2; try apply Forall_nil_2; repeat split; try discriminate; decide_in || closed. }
  split.
  - destruct (signing_content_canonical (a_message Uri.kPetitioning petition_tlvs) Uri.kPetitioning [str "c"; str "lp"] petition_tlvs)
      as (l & H & _); [reflexivity|reflexivity|apply Hp; by left|closed|reflexivity| |by exists l].
    repeat apply Forall_cons_2; [..|apply Forall_nil_2]; (split; [reflexivity|]); repeat split; closed.
  - destruct (signing_content_canonical (a_message Uri.kMgmtPendingSet pending_tlvs) Uri.kMgmtPendingSet [str "c"; str "ps"] pending_tlvs)
      as (l & H & _); [reflexivity|reflexivity|apply Hp; right; by left|closed|reflexivity| |].
    + repeat apply Forall_cons_2; [..|apply Forall_nil_2]; (split; [reflexivity|]); repeat split; closed.
    + exists (covered Uri.kMgmtPendingSet (last_wins pending_tlvs ∅)). split; vm_compute; reflexivity.
Defined.
End SigningContent.

(** ** Signing and validating *)
Module Signatures.
Section Signatures.
Context {V S PK EC : Type} `{HC : Cbor V} `{HE : !Cose V S EC} `{HP : !Pk PK EC} `{HM : MbedtlsErrors}.
Context `{HL : !CoseLaws V S EC}.
Context (reference_device : bool).
Abbreviation TokenManager := (TokenManager PK).

(** The public key of the manager and the one in its token are those of its
    private key. *)
Definition keys_match (m : TokenManager) : Prop :=
  exists k pk raw v,
    Sign1.ec_key (mPrivateKey m) = Ok k /\ Sign1.ec_key (mPublicKey m) = Ok pk /\ ec_pair k pk /\
    GetPublicKeyInToken (S := S) m = Ok raw /\ CborMap.Deserialize raw = Ok (Some v) /\ cbor_pair k v.

Lemma or_error_ok {A} e (p : option A) a : or_error e p = Ok a -> p = Some a.
Proof. destruct p; [by intros [= <-]|done]. Qed.
Lemma deref_ok {A} (p : option A) a : deref p = Ok a -> p = Some a.
Proof. destruct p; [by intros [= <-]|done]. Qed.

(** What was signed, and how it was encoded. *)
Lemma SignMessage_inv m msg sig m' :
  SignMessage (V := V) (S := S) reference_device m msg = Ok (sig, m') ->
  exists d s s1 k s2 n, PrepareSigningContent msg = Ok d /\ d <> [] /\
    COSE_Sign0_SetExternal s d = Some s1 /\ Sign1.ec_key (mPrivateKey m) = Ok k /\
    COSE_Sign0_Sign_eckey s1 k = Some s2 /\ COSE_Encode s2 n = Some sig /\
    m' = with_token m (u64 (mSequenceNumber m + 1)) (mSignedToken m).
Proof.
  unfold SignMessage.
  intros (d & Ed & (s0 & _ & (sa & _ & (kid & _ & (sb & _ & (sc & _ & H)%bind_ok)%bind_ok)%bind_ok)%bind_ok)%bind_ok)%bind_ok.
  apply bind_ok in H as (s1 & E1 & (s2 & E2 & (b & E3 & [= <- <-])%bind_ok)%bind_ok).
  unfold Sign1.SetExternalData in E1. destruct (zlen d =? 0) eqn:Ez; [done|]. cbn in E1. bool_to_prop.
  unfold Sign1.Sign in E2. apply bind_ok in E2 as (k & Ek & E2). apply or_error_ok in E1, E2. apply deref_ok in E3.
  exists d, sc, s1, k, s2, (COSE_Encode_size s2 + 1). split_and!; try done. by intros ->.
Qed.

(** A signature is accepted for exactly the messages with the content that was
    signed: whatever changes the path or a covered TLV is detected, and
    whatever is not covered can be changed. *)
Lemma signature_content_iff m msg sig m' msg' :
  SignMessage (V := V) (S := S) reference_device m msg = Ok (sig, m') -> keys_match m ->
  (ValidateSignature (V := V) (S := S) m' sig msg' = Ok tt <-> PrepareSigningContent msg' = PrepareSigningContent msg).
Proof.
  intros (d & s & s1 & k & s2 & n & Ed & Hd & E1 & Ek & E2 & E3 & ->)%SignMessage_inv.
  intros (k' & pk & raw & v & Ek' & Epk & Hpk & Eraw & Ev & Hv). assert (k' = k) as -> by congruence.
  destruct (law_signature _ _ _ _ _ _ _ E1 E2 E3) as (Hne & s3 & E4 & Hval).
  unfold ValidateSignature. assert ((zlen sig =? 0) = false) as ->.
  { apply Z.eqb_neq. intros E. apply Hne. destruct sig; [done|zw]. }
  cbn [negb]. unfold Sign1.Deserialize at 1. assert ((zlen sig =? 0) = false) as ->.
  { apply Z.eqb_neq. intros E. apply Hne. destruct sig; [done|zw]. }
  cbn [negb]. rewrite E4, Z.eqb_refl. cbn [mbind outcome_bind]. rewrite Ed.
  destruct (PrepareSigningContent msg') as [d'|e|]; [|by split|by split]. cbn [mbind outcome_bind].
  destruct (Hval d') as (s4 & E5 & Hv1 & Hv2). unfold Sign1.SetExternalData.
  destruct (zlen d' =? 0) eqn:Ez; cbn [negb].
  { bool_to_prop. split; [done|]. intros [= ->]. destruct d; [done|zw]. }
  rewrite E5. cbn [or_error mbind outcome_bind]. unfold Sign1.Validate, Sign1.ValidateCbor.
  change (mPublicKey (with_token m _ _)) with (mPublicKey m). rewrite Epk. cbn [mbind outcome_bind].
  rewrite (Hv1 _ Hpk). case_bool_decide as Hdd; cbn [mbind outcome_bind]; [|split; [done|congruence]].
  change (GetPublicKeyInToken (with_token m _ _)) with (GetPublicKeyInToken (S := S) m).
  rewrite Eraw. cbn [mbind outcome_bind]. rewrite Ev. cbn [or_error mbind outcome_bind].
  rewrite (Hv2 _ Hv). by subst.
Qed.
End Signatures.

Import Sample.

(** A manager with its keys and its token. *)
Definition sample_config : TokenConfig := mkTokenConfig (str "commissioner") (str "Thread") [1; 7] [1; 7] [1; 99].
Definition sample_token : ByteArray := make_token 99 (str "Thread") (str "kid") 7.
Definition sample_manager : TokenManager (option (option Z)) :=
  match (m ← Init kNone sample_config TokenManager_new; SetToken (V := tree) (S := sign0) false m sample_token false) with
  | Ok m => m | _ => TokenManager_new end.

Lemma sample_keys_match : keys_match (V := tree) (S := sign0) sample_manager.
Proof.
  eexists 7, 7, _, _. split_and!; [reflexivity|reflexivity|reflexivity|vm_compute; reflexivity|vm_compute; reflexivity|vm_compute; reflexivity].
Qed.

Definition sample_petition (id : string_t) : Message :=
  default Message_init (match SetUriPath (Message_new kConfirmable Code.kPost) Uri.kPetitioning with
    | Ok m => Some (Append m (encoding (Tlv_bytes kCommissionerId id))) | _ => None end).

Definition sample_signature : ByteArray :=
  match SignMessage (V := tree) (S := sign0) false sample_manager (sample_petition (str "me")) with Ok (b, _) => b | _ => [] end.

Lemma sample_signature_content :
  ValidateSignature (V := tree) (S := sign0) (with_token sample_manager 1 sample_token) sample_signature (sample_petition (str "me")) = Ok tt /\
  ValidateSignature (V := tree) (S := sign0) (with_token sample_manager 1 sample_token) sample_signature (sample_petition (str "you")) <> Ok tt.
Proof.
  assert (H : forall msg', ValidateSignature (V := tree) (S := sign0) (with_token sample_manager 1 sample_token) sample_signature msg' = Ok tt <->
      PrepareSigningContent msg' = PrepareSigningContent (sample_petition (str "me"))).
  { intros msg'. apply (signature_content_iff false sample_manager); [vm_compute; reflexivity|exact sample_keys_match]. }
  split.
  - apply H. reflexivity.
  - rewrite H. vm_compute. discriminate.
Qed.
End Signatures.

(** ** The token that is kept, and the handlers *)
Module Client.
Section Client.
Context {V S PK EC : Type} `{HC : Cbor V} `{HE : !Cose V S EC} `{HP : !Pk PK EC} `{HM : MbedtlsErrors}.
Context (reference_device : bool) (env_send : nat -> ErrorCode).
Abbreviation TokenManager := (TokenManager PK).
Abbreviation disconnect := (Disconnect (V := V) (S := S) (PK := PK) (EC := EC) reference_device env_send).
Abbreviation step := (token_step (V := V) (S := S) (PK := PK) (EC := EC) reference_device env_send).
Abbreviation run := (token_run (V := V) (S := S) (PK := PK) (EC := EC) reference_device env_send).
Abbreviation request_of m := (token_request (V := V) (S := S) (PK := PK) (EC := EC) m).

(** *** Disconnecting, in closed form *)

Definition idle (m : TokenManager) : Prop := mRegistrar m = kOpen \/ mRegistrar m = kDisconnected.

(** Every request that was not answered is told that it was cancelled. *)
Definition cancelled (m : TokenManager) : TokenManager :=
  mkTokenManager (mSequenceNumber m) (mSignedToken m) (mCommissionerId m) (mTokenDomainName m) (mPublicKey m)
    (mPrivateKey m) (mDomainCAPublicKey m) (mRegistrar m) (mOnRegistrar m) [] (mTokenSends m)
    (rev (map (fun h => TokHandler h None kCancelled) (mTokenRequests m)) ++ mTokenOutputs m).

(** What a pending connect handler is told: it is called with [kNone], and its
    request fails. *)
Definition late_error (m : TokenManager) : ErrorCode :=
  match request_of m with Err e => e | _ => kInvalidState end.

Definition disconnected (m : TokenManager) : TokenManager :=
  cancelled match mRegistrar m with
    | kConnecting | kConnected =>
        with_registrar (match mOnRegistrar m with Some h => tell m (TokHandler h None (late_error m)) | None => m end) kOpen None
    | _ => m
    end.

Lemma report_error m h e : e <> kNone ->
  report_response (V := V) (S := S) reference_device m h None e = Ok (tell m (TokHandler h None e)).
Proof. intros He. unfold report_response, token_response, received. by rewrite bool_decide_false by done. Qed.

Lemma cancelled_none m : mTokenRequests m = [] -> cancelled m = m.
Proof. destruct m. cbn. by intros ->. Qed.

Lemma cancelled_cons m h l : mTokenRequests m = h :: l ->
  cancelled (tell (with_requests m l (mTokenSends m)) (TokHandler h None kCancelled)) = cancelled m.
Proof. intros E. unfold cancelled. rewrite E. cbn. by rewrite <- app_assoc. Qed.

Lemma cancel_idle f n m : idle m -> (length (mTokenRequests m) <= n)%nat ->
  (forall m', idle m' -> (length (mTokenRequests m') < length (mTokenRequests m))%nat -> disconnect f m' = Ok (cancelled m')) ->
  cancel_requests (V := V) (S := S) reference_device (disconnect f) n m = Ok (cancelled m).
Proof.
  intros Hi Hn Hf. destruct n as [|n], (mTokenRequests m) as [|h l] eqn:E; cbn [cancel_requests] in *; rewrite E;
    try (by rewrite cancelled_none); [cbn in Hn; lia|].
  unfold onResponse. rewrite report_error by done. cbn [mbind outcome_bind].
  rewrite Hf; [|done|cbn; lia]. rewrite (cancelled_cons m h l E). cbn [mbind outcome_bind]. by destruct n.
Qed.

Lemma Disconnect_idle f : forall m, idle m -> (length (mTokenRequests m) < f)%nat -> disconnect f m = Ok (cancelled m).
Proof.
  induction f as [|f IH]; intros m Hi Hl; [lia|]. cbn [Disconnect]. unfold client_Disconnect, session_Disconnect.
  assert ((match mRegistrar m with
    | kConnecting | kConnected => Die
    | _ => Ok m end) = Ok m) as Em by (by destruct Hi as [-> | ->]).
  destruct (mRegistrar m) eqn:Er; try done; cbn [mbind outcome_bind].
  all: apply cancel_idle; [done|lia|]; intros m' Hi' Hl'; apply IH; [done|lia].
Qed.

(** What the continuation of a connect handler does once the session is being
    disconnected. *)
Lemma onConnected_late f m h : mRegistrar m = kDisconnected -> request_of m <> Die ->
  (length (mTokenRequests m) < f)%nat ->
  onConnected (V := V) (S := S) reference_device env_send (disconnect f) m h kNone =
    Ok (match request_of m with
        | Ok _ => cancelled (tell m (TokHandler h None kInvalidState))
        | _ => tell m (TokHandler h None (late_error m)) end).
Proof.
  intros Er Hd Hl. unfold onConnected, SendTokenRequest, late_error. rewrite bool_decide_true by done.
  destruct (request_of m) as [request|e|] eqn:E; [|done|done].
  unfold registrar_SendRequest. rewrite bool_decide_false by (by rewrite Er). unfold onResponse.
  rewrite report_error by done. cbn [mbind outcome_bind]. apply Disconnect_idle; [by right|done].
Qed.

(** disconnecting ends, whatever is pending, and calls every handler that
    waits once: enough fuel is one more than the requests that are pending, and
    one for the connect handler. *)
Theorem registrar_Disconnect_complete f m :
  request_of m <> Die -> (length (mTokenRequests m) + 1 < f)%nat -> disconnect f m = Ok (disconnected m).
Proof.
  intros Hd Hf. destruct f as [|f]; [lia|].
  destruct (decide (idle m)) as [Hi|Hi].
  { rewrite Disconnect_idle by (done || lia). f_equal. unfold disconnected. by destruct Hi as [-> | ->]. }
  assert (Hc : forall m', idle m' -> (length (mTokenRequests m') <= f)%nat ->
    cancel_requests (V := V) (S := S) reference_device (disconnect f) f m' = Ok (cancelled m')).
  { intros m' Hi' Hl. apply cancel_idle; [done..|]. intros m'' Hi'' Hl''. apply Disconnect_idle; [done|lia]. }
  assert (Er : mRegistrar m = kConnecting \/ mRegistrar m = kConnected).
  { unfold idle in Hi. destruct (mRegistrar m); tauto. }
  cbn [Disconnect]. unfold client_Disconnect, session_Disconnect, disconnected.
  assert (Hs : (match mRegistrar m with kConnecting | kConnected => true | _ => false end) = true)
    by (by destruct Er as [-> | ->]).
  destruct (mOnRegistrar m) as [h|] eqn:Eo.
  - set (m1 := with_registrar m kDisconnected (Some h)).
    assert (mOnRegistrar m1 = Some h) as Eo1 by done.
    pose proof (onConnected_late f m1 h eq_refl Hd ltac:(cbn; lia)) as HL.
    destruct (mRegistrar m); try done; rewrite Eo1, HL; cbn [mbind outcome_bind].
    all: rewrite Hc; [|by left|]; [|by change (request_of m1) with (request_of m); destruct (request_of m); cbn; lia].
    all: unfold late_error; change (request_of m1) with (request_of m); by destruct (request_of m).
  - destruct (mRegistrar m); try done; cbn [mbind outcome_bind mOnRegistrar with_registrar].
    all: by rewrite Hc; [|by left|cbn; lia].
Qed.

(** *** The same, from a call that returned *)

Lemma onConnected_late_inv f m h m' :
  (forall m m', disconnect f m = Ok m' -> m' = disconnected m) -> mRegistrar m = kDisconnected ->
  onConnected (V := V) (S := S) reference_device env_send (disconnect f) m h kNone = Ok m' ->
  m' = match request_of m with
       | Ok _ => cancelled (tell m (TokHandler h None kInvalidState))
       | _ => tell m (TokHandler h None (late_error m)) end.
Proof.
  intros Hf Er. unfold onConnected, SendTokenRequest, late_error. rewrite bool_decide_true by done.
  destruct (request_of m) as [request|e|] eqn:E; [|by intros [= <-]|done].
  unfold registrar_SendRequest. rewrite bool_decide_false by (by rewrite Er). unfold onResponse.
  rewrite report_error by done. cbn [mbind outcome_bind]. intros ->%Hf. unfold disconnected. cbn. by rewrite Er.
Qed.

Definition cancelled_all (m : TokenManager) : TokenManager :=
  match mTokenRequests m with
  | [] => m
  | h :: l => disconnected (tell (with_requests m l (mTokenSends m)) (TokHandler h None kCancelled))
  end.

Lemma cancel_requests_inv f n m m' :
  (forall m m', disconnect f m = Ok m' -> m' = disconnected m) ->
  cancel_requests (V := V) (S := S) reference_device (disconnect f) n m = Ok m' -> m' = cancelled_all m.
Proof.
  intros Hf. unfold cancelled_all. destruct n as [|n]; cbn [cancel_requests];
    (destruct (mTokenRequests m) as [|h l]; [by intros [= <-]|]); [done|].
  unfold onResponse. rewrite report_error by done. cbn [mbind outcome_bind].
  intros (m1 & ->%Hf & H)%bind_ok. revert H. by destruct n; cbn; intros [= <-].
Qed.

Lemma cancelled_all_idle m : idle m -> cancelled_all m = cancelled m.
Proof.
  intros Hi. unfold cancelled_all. destruct (mTokenRequests m) as [|h l] eqn:E; [by rewrite cancelled_none|].
  unfold disconnected. cbn [mRegistrar tell with_requests]. rewrite <- (cancelled_cons m h l E).
  by destruct Hi as [-> | ->].
Qed.

(** Closing the session with an error, other than by a failed request. *)
Definition closed (m : TokenManager) (e : ErrorCode) : TokenManager :=
  match mRegistrar m with
  | kConnecting | kConnected =>
      with_registrar (match mOnRegistrar m with Some h => tell m (TokHandler h None e) | None => m end) kOpen None
  | _ => m
  end.

Lemma session_Disconnect_error dis m e m' : e <> kNone ->
  session_Disconnect (V := V) (S := S) reference_device env_send dis m e = Ok m' -> m' = closed m e.
Proof.
  intros He. unfold session_Disconnect, closed, onConnected.
  destruct (mRegistrar m); try (by intros [= <-]); cbn [mOnRegistrar with_registrar].
  all: destruct (mOnRegistrar m) as [h|] eqn:Eo; rewrite ?(bool_decide_false (e = kNone)) by done; cbn; by intros [= <-].
Qed.

Lemma Disconnect_inv f : forall m m', disconnect f m = Ok m' -> m' = disconnected m.
Proof.
  induction f as [|f IH]; intros m m'; [done|]. cbn [Disconnect]. unfold client_Disconnect.
  intros (m1 & H1 & H2%(cancel_requests_inv f f m1 m' IH))%bind_ok. subst m'. unfold disconnected.
  assert (m1 = match mRegistrar m with
    | kConnecting | kConnected => match mOnRegistrar m with
        | Some h => match request_of m with
           | Ok _ => with_registrar (cancelled (tell m (TokHandler h None kInvalidState))) kOpen None
           | _ => with_registrar (tell m (TokHandler h None (late_error m))) kOpen None end
        | None => with_registrar m kOpen None end
    | _ => m end) as ->.
  { revert H1. unfold session_Disconnect. destruct (mRegistrar m); try (by intros [= <-]).
    all: destruct (mOnRegistrar m) as [h|]; cbn [mOnRegistrar with_registrar]; [|by intros [= <-]].
    all: intros (m2 & (m3 & H3 & H4)%bind_ok & H5)%bind_ok; injection H4 as <-; injection H5 as <-.
    all: rewrite (onConnected_late_inv f (with_registrar m kDisconnected (Some h)) h m3 IH eq_refl H3).
    all: unfold late_error; change (request_of (with_registrar m _ _)) with (request_of m); by destruct (request_of m). }
  rewrite cancelled_all_idle.
  - unfold late_error. destruct (mRegistrar m), (mOnRegistrar m), (request_of m); done.
  - unfold idle. destruct (mRegistrar m) eqn:?, (mOnRegistrar m), (request_of m); cbn; auto.
Qed.

Lemma onResponse_inv f m h r e m' :
  onResponse (V := V) (S := S) reference_device (disconnect f) m h r e = Ok m' ->
  exists m1, report_response (V := V) (S := S) reference_device m h r e = Ok m1 /\ m' = disconnected m1.
Proof. intros (m1 & H1 & H2%Disconnect_inv)%bind_ok. eauto. Qed.

(** *** The ledger of handlers *)

Definition one (h h' : nat) : nat := if bool_decide (h' = h) then 1 else 0.
Arguments one h h' : simpl never.
Definition count (h : nat) (l : list nat) : nat := sum_list_with (one h) l.
Arguments count h l : simpl never.
Definition told (h : nat) (o : TokenOutput) : nat := match o with TokHandler h' _ _ => one h h' | _ => 0 end.
(** The calls of a handler, and the places where it waits to be called. *)
Definition calls (h : nat) (m : TokenManager) : nat := sum_list_with (told h) (mTokenOutputs m).
Definition waiting (h : nat) (m : TokenManager) : nat :=
  count h (mTokenRequests m) + match mOnRegistrar m with Some h' => one h h' | None => 0 end.
Definition entries (h : nat) (m : TokenManager) : nat := calls h m + waiting h m.

Lemma told_rev h l : sum_list_with (told h) (rev (map (fun h => TokHandler h None kCancelled) l)) = count h l.
Proof.
  unfold count. induction l as [|x l IH]; [done|]. cbn [map rev]. rewrite sum_list_with_app, IH. cbn. lia.
Qed.

Lemma entries_cancelled h m : entries h (cancelled m) = entries h m.
Proof.
  unfold entries, calls, waiting, cancelled, count. cbn. rewrite sum_list_with_app, told_rev.
  unfold count. lia.
Qed.

Lemma entries_tell h m h' t e : entries h (tell m (TokHandler h' t e)) = (entries h m + one h h')%nat.
Proof. unfold entries, calls, waiting. cbn. lia. Qed.

Lemma entries_closed h m e : entries h (closed m e) = entries h m.
Proof. unfold closed, entries, calls, waiting. destruct (mRegistrar m), (mOnRegistrar m) eqn:E; cbn; rewrite ?E; lia. Qed.

Lemma disconnected_closed m : disconnected m = cancelled (closed m (late_error m)).
Proof. done. Qed.

Lemma entries_disconnected h m : entries h (disconnected m) = entries h m.
Proof. by rewrite disconnected_closed, entries_cancelled, entries_closed. Qed.

Lemma entries_cancelled_all h m : entries h (cancelled_all m) = entries h m.
Proof.
  unfold cancelled_all. destruct (mTokenRequests m) as [|h' l] eqn:E; [done|].
  rewrite entries_disconnected, entries_tell. unfold entries, calls, waiting, count. cbn. rewrite E. cbn. lia.
Qed.

Lemma SetToken_fields m b a m1 : SetToken (V := V) (S := S) reference_device m b a = Ok m1 -> m1 = with_token m 0 b.
Proof. unfold SetToken. destruct (CheckToken m b (mDomainCAPublicKey m)); [|case_if|]; by intros [= <-]. Qed.

Lemma report_response_entries h m h' r e m1 :
  report_response (V := V) (S := S) reference_device m h' r e = Ok m1 -> entries h m1 = (entries h m + one h h')%nat.
Proof.
  unfold report_response. destruct (token_response reference_device m r e) as [m2|e'|] eqn:E; [|by intros [= <-]; apply entries_tell|done].
  intros [= <-]. rewrite entries_tell. f_equal. revert E. unfold token_response.
  intros (resp & _ & H)%bind_ok. case_if; [|done]. destruct (GetContentFormat resp); [|done..]. case_if; [|done].
  by rewrite (SetToken_fields _ _ _ _ H).
Qed.

Lemma onResponse_entries h f m h' r e m' :
  onResponse (V := V) (S := S) reference_device (disconnect f) m h' r e = Ok m' ->
  entries h m' = (entries h m + one h h')%nat.
Proof. intros (m1 & H1 & ->)%onResponse_inv. rewrite entries_disconnected. by eapply report_response_entries. Qed.

Lemma count_app h l k : count h (l ++ k) = (count h l + count h k)%nat.
Proof. apply sum_list_with_app. Qed.

(** Requests that the connected session takes are sent. *)
Lemma SendTokenRequest_entries h f m h' m' :
  (forall n, env_send n = kNone) ->
  SendTokenRequest (V := V) (S := S) reference_device env_send (disconnect f) m h' = Ok m' ->
  entries h m' = (entries h m + one h h')%nat.
Proof.
  intros Hsend. unfold SendTokenRequest. destruct (request_of m) as [request|e|]; [|by intros [= <-]; apply entries_tell|done].
  unfold registrar_SendRequest. case_bool_decide; [|by apply onResponse_entries].
  rewrite bool_decide_true by apply Hsend. intros [= <-].
  unfold entries, calls, waiting. cbn. rewrite count_app. unfold count. cbn. lia.
Qed.

(** A connected session keeps its connect handler while that is called. *)
Lemma SendTokenRequest_handler f m h m' : (forall n, env_send n = kNone) -> mRegistrar m = kConnected ->
  SendTokenRequest (V := V) (S := S) reference_device env_send (disconnect f) m h = Ok m' -> mOnRegistrar m' = mOnRegistrar m.
Proof.
  intros Hsend Er. unfold SendTokenRequest, registrar_SendRequest.
  destruct (request_of m) as [request|e|]; [|by intros [= <-]|done].
  rewrite Er. rewrite (bool_decide_true (kConnected = kConnected)) by done.
  rewrite bool_decide_true by apply Hsend. by intros [= <-].
Qed.

Lemma entries_with_registrar h m s o : entries h (with_registrar m s o) =
  (calls h m + count h (mTokenRequests m) + match o with Some h' => one h h' | None => 0 end)%nat.
Proof. unfold entries, calls, waiting. cbn. lia. Qed.

Definition requested (h : nat) (e : TokenEvent) : nat := match e with TokApiRequest h' _ => one h h' | _ => 0 end.

Lemma take_drop_count h l i h' : l !! i = Some h' -> count h l = (count h (take i l ++ drop (Datatypes.S i) l) + one h h')%nat.
Proof. intros E. rewrite <- (take_drop_middle l i h' E) at 1. rewrite !count_app. unfold count. cbn. lia. Qed.

Lemma step_entries h f e m m' :
  (forall n, env_send n = kNone) -> (mOnRegistrar m <> None -> mRegistrar m <> kOpen) ->
  step f e m = Ok m' -> entries h m' = (entries h m + requested h e)%nat.
Proof.
  intros Hsend Hon. destruct e as [h' socket|b a|msg| | |e|i r e]; cbn [token_step requested].
  - unfold RequestToken, onConnected. destruct socket.
    + case_bool_decide as Er; [|done]. intros [= <-]. rewrite entries_with_registrar. unfold entries, waiting.
      destruct (mOnRegistrar m); [by destruct Hon|]. lia.
    + intros [= <-]. apply entries_tell.
  - unfold keep_on_error. destruct (SetToken reference_device m b a) as [m1| |] eqn:E; intros [= <-]; [|lia].
    rewrite (SetToken_fields _ _ _ _ E). unfold entries, calls, waiting. cbn. lia.
  - unfold keep_on_error. destruct (SignMessage reference_device m msg) as [[sig m1]| |] eqn:E; intros [= <-]; [|lia].
    apply Signatures.SignMessage_inv in E as (? & ? & ? & ? & ? & ? & _ & _ & _ & _ & _ & _ & ->).
    unfold entries, calls, waiting. cbn. lia.
  - unfold CancelRequests. intros ->%(cancel_requests_inv f); [|apply Disconnect_inv]. rewrite entries_cancelled_all. lia.
  - unfold registrar_connected. destruct (mRegistrar m) eqn:Er; try (intros [= <-]; lia).
    cbn [mOnRegistrar with_registrar]. destruct (mOnRegistrar m) as [h'|] eqn:Eo.
    + unfold onConnected. rewrite bool_decide_true by done.
      intros (m1 & H1 & [= <-])%bind_ok.
      pose proof (SendTokenRequest_handler f (with_registrar m kConnected (Some h')) _ _ Hsend eq_refl H1) as Ho. cbn in Ho.
      apply (SendTokenRequest_entries h _ _ _ _ Hsend) in H1. rewrite entries_with_registrar in *.
      unfold entries, waiting in *. rewrite Ho, Eo in *. lia.
    + intros [= <-]. rewrite entries_with_registrar. unfold entries, waiting. rewrite Eo. lia.
  - case_bool_decide; [intros [= <-]; lia|]. intros ->%session_Disconnect_error; [|done]. rewrite entries_closed. lia.
  - unfold registrar_response. destruct (mTokenRequests m !! i) as [h'|] eqn:E; [|intros [= <-]; lia].
    intros ->%(onResponse_entries h). pose proof (take_drop_count h _ _ _ E).
    unfold entries, calls, waiting in *. cbn. lia.
Qed.

(** *** A connect handler waits only while the session connects *)

Definition on_ok (m : TokenManager) : Prop := mOnRegistrar m <> None -> mRegistrar m = kConnecting.

Lemma on_ok_none m s : on_ok (with_registrar m s None).
Proof. by intros H. Qed.

Lemma on_ok_closed m e : on_ok m -> on_ok (closed m e).
Proof. intros H. unfold closed. destruct (mRegistrar m) eqn:E; [done|apply on_ok_none|apply on_ok_none|done]. Qed.

Lemma on_ok_disconnected m : on_ok m -> on_ok (disconnected m).
Proof. intros H. rewrite disconnected_closed. by apply on_ok_closed. Qed.

Lemma report_response_session m h r e m1 :
  report_response (V := V) (S := S) reference_device m h r e = Ok m1 ->
  mRegistrar m1 = mRegistrar m /\ mOnRegistrar m1 = mOnRegistrar m.
Proof.
  unfold report_response. destruct (token_response reference_device m r e) as [m2|e'|] eqn:E; [|by intros [= <-]|done].
  intros [= <-]. revert E. unfold token_response. intros (resp & _ & H)%bind_ok.
  case_if; [|done]. destruct (GetContentFormat resp); [|done..]. case_if; [|done].
  by rewrite (SetToken_fields _ _ _ _ H).
Qed.

Lemma on_ok_onResponse f m h r e m' : on_ok m ->
  onResponse (V := V) (S := S) reference_device (disconnect f) m h r e = Ok m' -> on_ok m'.
Proof.
  intros Ho (m1 & [H1 H2]%report_response_session & ->)%onResponse_inv.
  apply on_ok_disconnected. unfold on_ok. by rewrite H1, H2.
Qed.

Lemma on_ok_step f e m m' : on_ok m -> step f e m = Ok m' -> on_ok m'.
Proof.
  intros Ho. destruct e as [h' socket|b a|msg| | |e|i r e]; cbn [token_step].
  - unfold RequestToken, onConnected. destruct socket; [case_bool_decide; [|done]|]; by intros [= <-].
  - unfold keep_on_error. destruct (SetToken reference_device m b a) as [m1| |] eqn:E; intros [= <-]; [|done].
    by rewrite (SetToken_fields _ _ _ _ E).
  - unfold keep_on_error. destruct (SignMessage reference_device m msg) as [[sig m1]| |] eqn:E; intros [= <-]; [|done].
    by apply Signatures.SignMessage_inv in E as (? & ? & ? & ? & ? & ? & _ & _ & _ & _ & _ & _ & ->).
  - unfold CancelRequests. intros ->%(cancel_requests_inv f); [|apply Disconnect_inv].
    unfold cancelled_all. destruct (mTokenRequests m); [done|]. by apply on_ok_disconnected.
  - unfold registrar_connected. destruct (mRegistrar m); try (by intros [= <-]).
    cbn [mOnRegistrar with_registrar]. destruct (mOnRegistrar m); [|intros [= <-]; apply on_ok_none].
    intros (m1 & _ & [= <-])%bind_ok. apply on_ok_none.
  - case_bool_decide; [by intros [= <-]|]. intros ->%session_Disconnect_error; [|done]. by apply on_ok_closed.
  - unfold registrar_response. destruct (mTokenRequests m !! i); [|by intros [= <-]].
    by apply on_ok_onResponse.
Qed.


(** *** The token *)

(** The token that is kept validates, and so does every token that was handed
    to the user. *)
Definition valid_token (m : TokenManager) (t : ByteArray) : Prop :=
  CheckToken (V := V) (S := S) (EC := EC) m t (mDomainCAPublicKey m) = Ok tt.
Definition tokens_ok (m : TokenManager) : Prop :=
  (mSignedToken m = [] \/ valid_token m (mSignedToken m)) /\
  Forall (fun o => match o with TokHandler _ (Some t) _ => valid_token m t | _ => True end) (mTokenOutputs m).

Lemma tokens_ok_tell m h e : tokens_ok m -> tokens_ok (tell m (TokHandler h None e)).
Proof. intros [H1 H2]. split; [done|]. by constructor. Qed.

Lemma tokens_ok_cancelled m : tokens_ok m -> tokens_ok (cancelled m).
Proof.
  intros [H1 H2]. split; [done|]. cbn. apply Forall_app. split; [|done].
  apply Forall_rev, Forall_map. by apply Forall_true.
Qed.

Lemma tokens_ok_closed m e : tokens_ok m -> tokens_ok (closed m e).
Proof.
  intros H. unfold closed. destruct (mRegistrar m); try done; (destruct (mOnRegistrar m) as [h|]; [|done]);
    by apply (tokens_ok_tell m h e) in H.
Qed.

Lemma tokens_ok_disconnected m : tokens_ok m -> tokens_ok (disconnected m).
Proof. intros H. rewrite disconnected_closed. by apply tokens_ok_cancelled, tokens_ok_closed. Qed.

Lemma SetToken_valid m b a m1 : reference_device && a = false ->
  SetToken (V := V) (S := S) reference_device m b a = Ok m1 -> valid_token m b /\ m1 = with_token m 0 b.
Proof.
  intros Ha H. split; [|by eapply SetToken_fields]. revert H. unfold SetToken, valid_token. rewrite Ha.
  by destruct (CheckToken m b (mDomainCAPublicKey m)) as [[]| |].
Qed.

Lemma report_response_ok m h r e m1 : tokens_ok m ->
  report_response (V := V) (S := S) reference_device m h r e = Ok m1 -> tokens_ok m1.
Proof.
  intros H. unfold report_response.
  destruct (token_response reference_device m r e) as [m2|e'|] eqn:E; [|intros [= <-]; by apply tokens_ok_tell|done].
  intros [= <-]. revert E. unfold token_response. intros (resp & _ & Hs)%bind_ok.
  case_if; [|done]. destruct (GetContentFormat resp); [|done..]. case_if; [|done].
  apply SetToken_valid in Hs as [Hv ->]; [|apply andb_false_r]. destruct H as [_ H2].
  split; [by right|]. constructor; [done|done].
Qed.

Lemma tokens_ok_onResponse f m h r e m' : tokens_ok m ->
  onResponse (V := V) (S := S) reference_device (disconnect f) m h r e = Ok m' -> tokens_ok m'.
Proof. intros H (m1 & H1 & ->)%onResponse_inv. apply tokens_ok_disconnected. by eapply report_response_ok. Qed.

Lemma tokens_ok_SendTokenRequest f m h m' : tokens_ok m ->
  SendTokenRequest (V := V) (S := S) reference_device env_send (disconnect f) m h = Ok m' -> tokens_ok m'.
Proof.
  intros H. unfold SendTokenRequest, registrar_SendRequest. destruct (request_of m); [|intros [= <-]; by apply tokens_ok_tell|done].
  case_bool_decide; [case_bool_decide|]; [|by apply tokens_ok_onResponse..].
  intros [= <-]. destruct H as [Ha Hb]. split; [done|]. by constructor.
Qed.

Lemma tokens_ok_step f e m m' : reference_device = false -> tokens_ok m -> step f e m = Ok m' -> tokens_ok m'.
Proof.
  intros Hr Ho. destruct e as [h' socket|b a|msg| | |e|i r e]; cbn [token_step].
  - unfold RequestToken, onConnected. destruct socket; [case_bool_decide; [|done]|]; intros [= <-]; [done|by apply tokens_ok_tell].
  - unfold keep_on_error. destruct (SetToken reference_device m b a) as [m1| |] eqn:E; intros [= <-]; [|done].
    apply SetToken_valid in E as [Hv ->]; [|by rewrite Hr]. split; [by right|apply Ho].
  - unfold keep_on_error. destruct (SignMessage reference_device m msg) as [[sig m1]| |] eqn:E; intros [= <-]; [|done].
    by apply Signatures.SignMessage_inv in E as (? & ? & ? & ? & ? & ? & _ & _ & _ & _ & _ & _ & ->).
  - unfold CancelRequests. intros ->%(cancel_requests_inv f); [|apply Disconnect_inv].
    unfold cancelled_all. destruct (mTokenRequests m) as [|h l]; [done|].
    apply tokens_ok_disconnected. by apply (tokens_ok_tell (with_requests m l (mTokenSends m))).
  - unfold registrar_connected. destruct (mRegistrar m); try (by intros [= <-]).
    cbn [mOnRegistrar with_registrar]. destruct (mOnRegistrar m) as [h|]; [|by intros [= <-]].
    unfold onConnected. rewrite bool_decide_true by done. intros (m1 & H1 & [= <-])%bind_ok.
    apply tokens_ok_SendTokenRequest in H1; done.
  - case_bool_decide; [by intros [= <-]|]. intros ->%session_Disconnect_error; [|done]. by apply tokens_ok_closed.
  - unfold registrar_response. destruct (mTokenRequests m !! i); [|by intros [= <-]].
    by apply tokens_ok_onResponse.
Qed.

(** C16: in a build that is not for a reference device, the token that is kept is
    empty or validates against the key of the domain, names the domain and has a
    key ID, and so does every token handed to the user: whatever the registrar
    answers, and although the application asks for any token to be accepted. *)
Theorem tokens_validate f l m m' :
  reference_device = false -> tokens_ok m -> run f l m = Ok m' -> tokens_ok m'.
Proof.
  intros Hr. revert m. induction l as [|e l IH]; intros m Ho; cbn [token_run]; [by intros [= <-]|].
  intros (m1 & H1 & H2)%bind_ok. eapply IH; [|exact H2]. by eapply tokens_ok_step.
Qed.

(** *** The identity *)

(** What [Init] sets is never changed again. *)
Definition same_identity (m m' : TokenManager) : Prop :=
  mCommissionerId m' = mCommissionerId m /\ mTokenDomainName m' = mTokenDomainName m /\
  mPublicKey m' = mPublicKey m /\ mPrivateKey m' = mPrivateKey m /\ mDomainCAPublicKey m' = mDomainCAPublicKey m.

#[global] Instance same_identity_preorder : PreOrder same_identity.
Proof. split; [by intros m|]. intros m1 m2 m3. unfold same_identity. intuition congruence. Qed.

Lemma disconnected_identity m : same_identity m (disconnected m).
Proof. rewrite disconnected_closed. unfold closed. by destruct (mRegistrar m), (mOnRegistrar m). Qed.

Lemma onResponse_identity f m h r e m' :
  onResponse (V := V) (S := S) reference_device (disconnect f) m h r e = Ok m' -> same_identity m m'.
Proof.
  intros (m1 & H1 & ->)%onResponse_inv. etrans; [|apply disconnected_identity]. revert H1. unfold report_response.
  destruct (token_response reference_device m r e) as [m2|e'|] eqn:E; [|by intros [= <-]|done].
  intros [= <-]. revert E. unfold token_response. intros (resp & _ & Hs)%bind_ok.
  case_if; [|done]. destruct (GetContentFormat resp); [|done..]. case_if; [|done].
  by apply SetToken_fields in Hs as ->.
Qed.

Lemma SendTokenRequest_identity f m h m' :
  SendTokenRequest (V := V) (S := S) reference_device env_send (disconnect f) m h = Ok m' -> same_identity m m'.
Proof.
  unfold SendTokenRequest, registrar_SendRequest. destruct (request_of m); [|by intros [= <-]|done].
  case_bool_decide; [case_bool_decide|]; [by intros [= <-]|by intros ?%onResponse_identity..].
Qed.

Lemma step_identity f e m m' : step f e m = Ok m' -> same_identity m m'.
Proof.
  destruct e as [h' socket|b a|msg| | |e|i r e]; cbn [token_step].
  - unfold RequestToken, onConnected. destruct socket; [case_bool_decide; [|done]|]; by intros [= <-].
  - unfold keep_on_error. destruct (SetToken reference_device m b a) as [m1| |] eqn:E; intros [= <-]; [|done].
    by apply SetToken_fields in E as ->.
  - unfold keep_on_error. destruct (SignMessage reference_device m msg) as [[sig m1]| |] eqn:E; intros [= <-]; [|done].
    by apply Signatures.SignMessage_inv in E as (? & ? & ? & ? & ? & ? & _ & _ & _ & _ & _ & _ & ->).
  - unfold CancelRequests. intros ->%(cancel_requests_inv f); [|apply Disconnect_inv].
    unfold cancelled_all. destruct (mTokenRequests m) as [|h l]; [done|].
    by etrans; [|apply disconnected_identity].
  - unfold registrar_connected. destruct (mRegistrar m); try (by intros [= <-]).
    cbn [mOnRegistrar with_registrar]. destruct (mOnRegistrar m) as [h|]; [|by intros [= <-]].
    unfold onConnected. rewrite bool_decide_true by done. intros (m1 & H1 & [= <-])%bind_ok.
    by apply SendTokenRequest_identity in H1.
  - case_bool_decide; [by intros [= <-]|]. intros ->%session_Disconnect_error; [|done].
    unfold closed. by destruct (mRegistrar m), (mOnRegistrar m).
  - unfold registrar_response. destruct (mTokenRequests m !! i); [|by intros [= <-]].
    by intros H%onResponse_identity.
Qed.
End Client.
End Client.
