(* ===== verification/Ccm.v ===== *)
(** * The commissioner of a commercial network

    [CommissionerImpl] of [src/library/commissioner_impl.cpp] in the build with
    [OT_COMM_CONFIG_CCM_ENABLE], put together: the commissioner ([Commissioner])
    signs its requests with the token manager ([TokenManager]), which gets its
    token from the registrar or from the user.

    The two talk to different peers and only meet in [SignRequest].  A signature
    changes nothing of the token manager but the count of signatures, which
    nothing reads: [signer] leaves the token manager as it is. *)

From S2P Require Import Prelude Outcome Common Tlv CoapMessage Dataset Dtls Cose TokenManager Commissioner.
Import Tlv Message Dataset.Dataset.

Definition token_config (aConfig : Config) : TokenConfig :=
  mkTokenConfig (mId aConfig) (mDomainName aConfig) (mCertificate aConfig) (Commissioner.mPrivateKey aConfig)
    (mTrustAnchor aConfig).

Record Ccm {PK : Type} : Type := mkCcm {
  mCommissioner : Commissioner;
  mTokenManager : TokenManager PK }.
Arguments Ccm : clear implicits.
Arguments mkCcm {PK}.

Section Ccm.
Context {V S PK EC : Type} `{HC : Cbor V} `{HE : !Cose V S EC} `{HP : !Pk PK EC} `{HM : MbedtlsErrors}.
Context (reference_device : bool).
Abbreviation TokenManager := (TokenManager PK).
Abbreviation Ccm := (Ccm PK).

(** ** Signing *)

Definition SignRequest (m : TokenManager) (aRequest : Message) (aScope : Scope) (aAppendToken : bool)
    : outcome (Message * TokenManager) :=
  '(signature, m) ← SignMessage (V := V) (S := S) reference_device m aRequest;
  aRequest ← (if aAppendToken then AppendTlv aRequest (mkTlv aScope kCommissionerToken (mSignedToken m)) else Ok aRequest);
  aRequest ← AppendTlv aRequest (mkTlv aScope kCommissionerSignature signature);
  Ok (aRequest, m).

Section Signer.
Context (inet_ntop4 inet_ntop6 : ByteArray -> option string_t).

(** What the commissioner sees of it; every call signs in the default scope. *)
Definition signer (m : TokenManager) : RequestSigner := {|
  sign_request aRequest aAppendToken := '(aRequest, _) ← SignRequest m aRequest kMeshCoP aAppendToken; Ok aRequest;
  sign_ntop4 := inet_ntop4;
  sign_ntop6 := inet_ntop6 |}.

(** ** The commissioner *)

Context (inet_pton4 inet_pton6 : string_t -> option ByteArray).
Context (channel0 : NetworkData.Channel) (panId0 rotation0 delay0 : Z).
(** The results of sending to the border agent and to the registrar. *)
Context (env_send registrar_send : nat -> ErrorCode).
Context (fuel : nat).

(** [br_init] and [registrar_init] are what [DtlsSession::Init] returns for the
    two clients. *)
Definition Init (br_init registrar_init : ErrorCode) (aConfig : Config) (now : Z) : outcome Ccm :=
  _ ← ValidateConfig aConfig;
  VerifyOrExit bool_decide (br_init = kNone) else br_init;;
  m ← (if mEnableCcm aConfig then TokenManager.Init registrar_init (token_config aConfig) TokenManager_new
       else Ok TokenManager_new);
  Ok (mkCcm (Commissioner_init aConfig now) m).

Definition with_commissioner (s : Ccm) (c : Commissioner) : Ccm := mkCcm c (mTokenManager s).
Definition with_tokens (s : Ccm) (m : TokenManager) : Ccm := mkCcm (mCommissioner s) m.

(** An event of the commissioner, whose requests are signed with the token of
    that moment. *)
Definition commissioner_step (e : Event) (s : Ccm) : outcome Ccm :=
  c ← step (HSign := signer (mTokenManager s)) inet_pton4 inet_pton6 channel0 panId0 rotation0 delay0 env_send fuel
        e (mCommissioner s);
  Ok (with_commissioner s c).

Definition tokens_step (e : TokenEvent) (s : Ccm) : outcome Ccm :=
  m ← token_step (V := V) (S := S) reference_device registrar_send fuel e (mTokenManager s);
  Ok (with_tokens s m).

Definition CancelRequests (s : Ccm) : outcome Ccm :=
  s ← commissioner_step (EvtApi ApiCancelRequests) s;
  if IsCcmMode (mCommissioner s) then tokens_step TokApiCancel s else Ok s.

Definition RequestToken (s : Ccm) (h : nat) (socket : bool) : outcome Ccm :=
  if negb (IsCcmMode (mCommissioner s)) then Ok (with_tokens s (tell (mTokenManager s) (TokHandler h None kInvalidState)))
  else tokens_step (TokApiRequest h socket) s.

(** The error it returns, and the commissioner. *)
Definition SetToken (s : Ccm) (aSignedToken : ByteArray) : outcome (ErrorCode * Ccm) :=
  if IsCcmMode (mCommissioner s) then
    match TokenManager.SetToken (V := V) (S := S) reference_device (mTokenManager s) aSignedToken true with
    | Ok m => Ok (kNone, with_tokens s m)
    | Err e => Ok (e, s)
    | Die => Die
    end
  else Ok (kInvalidState, s).

Inductive CcmEvent : Type :=
| CcmCommissioner (e : Event)           (* but for [ApiCancelRequests] *)
| CcmCancelRequests
| CcmRequestToken (h : nat) (socket : bool)
| CcmSetToken (aSignedToken : ByteArray)
| CcmRegistrarConnected
| CcmRegistrarError (e : ErrorCode)
| CcmRegistrarResponse (i : nat) (aResponse : option Message) (aError : ErrorCode).

Definition ccm_step (e : CcmEvent) (s : Ccm) : outcome Ccm :=
  match e with
  | CcmCommissioner (EvtApi ApiCancelRequests) | CcmCancelRequests => CancelRequests s
  | CcmCommissioner e => commissioner_step e s
  | CcmRequestToken h socket => RequestToken s h socket
  | CcmSetToken aSignedToken => '(_, s) ← SetToken s aSignedToken; Ok s
  | CcmRegistrarConnected => tokens_step TokHandshakeOver s
  | CcmRegistrarError e => tokens_step (TokDtlsError e) s
  | CcmRegistrarResponse i aResponse aError => tokens_step (TokResponse i aResponse aError) s
  end.

Fixpoint ccm_run (l : list CcmEvent) (s : Ccm) : outcome Ccm :=
  match l with [] => Ok s | e :: l => s ← ccm_step e s; ccm_run l s end.

End Signer.
End Ccm.
