(* ===== verification/CcmFacts.v ===== *)
(** * Theorems on the commissioner of a commercial network

    What a signed request is worth to the one that receives it ([Signing]), and
    that whatever the commissioner sends was signed under a valid token
    ([Network]). *)

From S2P Require Import Prelude Outcome Common Tlv CoapMessage Dataset Dtls Cose CoseFacts TokenManager TokenManagerFacts.
From S2P Require Import Commissioner CommissionerInvariant CommissionerHandlers CommissionerWalk CommissionerSigned Ccm.
Import Tlv TlvFacts Message MessageFacts Dataset CommonFacts.

(** ** Signed requests *)
Module Signing.
Import SigningContent Signatures.
Section Signing.
Context {V S PK EC : Type} `{HC : Cbor V} `{HE : !Cose V S EC} `{HP : !Pk PK EC} `{HM : MbedtlsErrors}.
Context (reference_device : bool).
Abbreviation TokenManager := (TokenManager PK).

Lemma SignRequest_inv m r b r' m' :
  SignRequest (V := V) (S := S) reference_device m r kMeshCoP b = Ok (r', m') ->
  exists sig, SignMessage (V := V) (S := S) reference_device m r = Ok (sig, m') /\
    (b = true -> IsValid (Tlv_bytes kCommissionerToken (mSignedToken m)) = true) /\
    IsValid (Tlv_bytes kCommissionerSignature sig) = true /\
    r' = Append (if b then Append r (encoding (Tlv_bytes kCommissionerToken (mSignedToken m))) else r)
           (encoding (Tlv_bytes kCommissionerSignature sig)).
Proof.
  unfold SignRequest. intros ([sig m1] & Hs & (r1 & H1 & (r2 & H2 & [= <- <-])%bind_ok)%bind_ok)%bind_ok.
  exists sig. assert (mSignedToken m1 = mSignedToken m) as Et.
  { by apply SignMessage_inv in Hs as (? & ? & ? & ? & ? & ? & _ & _ & _ & _ & _ & _ & ->). }
  rewrite Et in H1. change (mkTlv kMeshCoP ?t ?v) with (Tlv_bytes t v) in *.
  destruct (IsValid (Tlv_bytes kCommissionerSignature sig)) eqn:Es; [|by rewrite DatasetFacts.AppendTlv_invalid in H2].
  rewrite DatasetFacts.AppendTlv_valid in H2 by done. injection H2 as <-. destruct b; [|by injection H1 as <-; split_and!].
  destruct (IsValid (Tlv_bytes kCommissionerToken (mSignedToken m))) eqn:Ev; [|by rewrite DatasetFacts.AppendTlv_invalid in H1].
  rewrite DatasetFacts.AppendTlv_valid in H1 by done. injection H1 as <-. by split_and!.
Qed.

(** Signing keeps the header: [Ccm.signer] is a signer for the theorems on the
    commissioner. *)
#[export] Instance signer_laws ntop4 ntop6 (m : TokenManager) :
  SignerLaws (H := signer (V := V) (S := S) reference_device ntop4 ntop6 m).
Proof.
  intros r b r' ([r1 m1] & H & [= <-])%bind_ok. apply SignRequest_inv in H as (sig & _ & _ & _ & ->). by destruct b.
Qed.

Context `{HL : !CoseLaws V S EC}.

(** C15: whoever gets a signed request finds the signature in it, and the token when that was to be appended; a
    receiver that holds the keys of the signer accepts the signature for the request as it arrived, these two
    TLVs included, and rejects it for every request with another content. *)
Theorem signed_request_validates m r b r' m' :
  SignRequest (V := V) (S := S) reference_device m r kMeshCoP b = Ok (r', m') ->
  keys_match m -> bytes (mPayload r) -> bytes (mSignedToken m) ->
  (b = true -> GetTlv kCommissionerToken (mPayload r') kMeshCoP = Some (Tlv_bytes kCommissionerToken (mSignedToken m))) /\
  exists sig, GetTlv kCommissionerSignature (mPayload r') kMeshCoP = Some (Tlv_bytes kCommissionerSignature sig) /\
    ValidateSignature (V := V) (S := S) m' sig r' = Ok tt /\
    (forall r2, ValidateSignature (V := V) (S := S) m' sig r2 = Ok tt <-> PrepareSigningContent r2 = PrepareSigningContent r).
Proof.
  intros (sig & Hs & Ht & Hv & ->)%SignRequest_inv Hk Hr Hb.
  pose proof (signature_content_iff reference_device m r sig m') as Hval.
  pose proof (SignMessage_inv _ _ _ _ _ Hs) as (d & s & s1 & k & s2 & n & Ed & _ & _ & _ & _ & Ee & _).
  assert (Hw : TlvFacts.wire_ok kMeshCoP (Tlv_bytes kCommissionerSignature sig)).
  { split_and!; [done|split; [split; done|by eapply law_encode_bytes]|done|done]. }
  set (r1 := if b then Append r (encoding (Tlv_bytes kCommissionerToken (mSignedToken m))) else r).
  assert (Hr1 : bytes (mPayload r1) /\ PrepareSigningContent r1 = Ok d /\
    exists t, ParseTlvs (mPayload r1) kMeshCoP = Ok t /\
      (b = true -> t !! kCommissionerToken = Some (Tlv_bytes kCommissionerToken (mSignedToken m)))).
  { assert (Hp : exists t, ParseTlvs (mPayload r) kMeshCoP = Ok t).
    { revert Ed. unfold PrepareSigningContent. destruct (GetUriPath r); [|done..]. intros (? & _ & (t & Et & _)%bind_ok)%bind_ok. by exists t. }
    destruct Hp as [t Et]. unfold r1. destruct b; [|split_and!; [done|done|by exists t]].
    assert (Hw2 : TlvFacts.wire_ok kMeshCoP (Tlv_bytes kCommissionerToken (mSignedToken m))).
    { split_and!; [by apply Ht|split; [split; done|done]|done|done]. }
    split_and!.
    - cbn [Append mPayload]. apply Forall_app. split; [done|]. apply bytes_encoding, Hw2.
    - by apply content_append.
    - eexists. split; [by apply ParseTlvs_app|]. intros _. apply lookup_insert_eq. }
  destruct Hr1 as (Hb1 & Ed1 & t & Et & Htok). pose proof (ParseTlvs_app _ _ _ Hb1 Hw Et) as Hp.
  assert (Hg : forall ty, GetTlv ty (mPayload (Append r1 (encoding (Tlv_bytes kCommissionerSignature sig)))) kMeshCoP
    = (<[kCommissionerSignature := Tlv_bytes kCommissionerSignature sig]> t) !! ty).
  { intros ty. unfold GetTlv. cbn [Append mPayload]. revert Hp. unfold ParseTlvs.
    destruct (GetTlvSet ∅ _ kMeshCoP) as [s' [[]| |]]; cbn [mbind outcome_bind]; [|done..]. by intros [= ->]. }
  split.
  - intros Hbt. rewrite Hg, lookup_insert_ne by done. by apply Htok.
  - exists sig. rewrite Hg. split_and!; [apply lookup_insert_eq| |intros r2; by apply Hval].
    apply (Hval _ Hs Hk). rewrite Ed. by apply content_append.
Qed.
End Signing.
End Signing.

(** ** What is sent *)
Module Network.
Section Network.
Context {V S PK EC : Type} `{HC : Cbor V} `{HE : !Cose V S EC} `{HP : !Pk PK EC} `{HM : MbedtlsErrors}.
Context (reference_device : bool).
Context (inet_ntop4 inet_ntop6 : ByteArray -> option string_t) (inet_pton4 inet_pton6 : string_t -> option ByteArray).
Context (channel0 : NetworkData.Channel) (panId0 rotation0 delay0 : Z).
Context (env_send registrar_send : nat -> ErrorCode) (fuel : nat).
Abbreviation TokenManager := (TokenManager PK).
Abbreviation run := (ccm_run (V := V) (S := S) (EC := EC) reference_device inet_ntop4 inet_ntop6 inet_pton4 inet_pton6
  channel0 panId0 rotation0 delay0 env_send registrar_send fuel).
Abbreviation step := (ccm_step (V := V) (S := S) (EC := EC) reference_device inet_ntop4 inet_ntop6 inet_pton4 inet_pton6
  channel0 panId0 rotation0 delay0 env_send registrar_send fuel).
Abbreviation commissioner_step := (commissioner_step (V := V) (S := S) (EC := EC) reference_device inet_ntop4 inet_ntop6
  inet_pton4 inet_pton6 channel0 panId0 rotation0 delay0 env_send fuel).
Abbreviation tokens_step := (tokens_step (V := V) (S := S) (EC := EC) reference_device registrar_send fuel).

(** *** Invariants *)

(** A step is made of steps of the commissioner, with the tokens as they are,
    of the token manager, and of telling that there is no token. *)
Lemma run_invariant (I : Ccm PK -> Prop) :
  (forall e s s', commissioner_step e s = Ok s' -> I s -> I s') ->
  (forall e s s', tokens_step e s = Ok s' -> I s -> I s') ->
  (forall s h, I s -> I (with_tokens s (tell (mTokenManager s) (TokHandler h None kInvalidState)))) ->
  forall l s s', I s -> run l s = Ok s' -> I s'.
Proof.
  intros Hc Ht Hn.
  assert (Hcancel : forall s s', I s -> CancelRequests (V := V) (S := S) reference_device inet_ntop4 inet_ntop6 inet_pton4 inet_pton6
    channel0 panId0 rotation0 delay0 env_send registrar_send fuel s = Ok s' -> I s').
  { intros s s' Hs (s1 & H1 & H2)%bind_ok. apply Hc in H1; [|done]. case_if; [by eapply Ht|by injection H2 as <-]. }
  assert (Hset : forall s t s', I s -> ccm_step (V := V) (S := S) reference_device inet_ntop4 inet_ntop6 inet_pton4 inet_pton6
    channel0 panId0 rotation0 delay0 env_send registrar_send fuel (CcmSetToken t) s = Ok s' -> I s').
  { intros s t s' Hs ([e s1] & H1 & [= <-])%bind_ok. unfold SetToken in H1. case_if; [|by injection H1 as _ <-].
    apply (Ht (TokApiSetToken t true) s); [|done]. unfold Ccm.tokens_step. cbn [token_step].
    destruct (TokenManager.SetToken _ _ _ _) as [m| |]; [by injection H1 as _ <-| |done]. injection H1 as _ <-. by destruct s. }
  induction l as [|e l IH]; intros s s' Hs H; cbn [ccm_run] in H; [by injection H as <-|].
  apply bind_ok in H as (s1 & H1 & H). eapply IH; [|exact H]. destruct e as [e| |h socket|t| |e|i r e].
  - cbn [ccm_step] in H1. destruct e as [a| | | | |]; try (by eapply Hc). destruct a; (by eapply Hcancel) || (by eapply Hc).
  - by eapply Hcancel.
  - cbn [ccm_step] in H1. unfold RequestToken in H1. case_if; [injection H1 as <-; by apply Hn|by eapply Ht].
  - by eapply Hset.
  - by eapply Ht.
  - by eapply Ht.
  - by eapply Ht.
Qed.

(** *** Signatures *)

(** In the run [l] from [s0], [m] asks for data, or was signed at a moment of the run with the token manager of that
    moment, whose keys are those it had at the start and whose token validated. *)
Definition accounted (l : list CcmEvent) (s0 : Ccm PK) (m : Message) : Prop :=
  asks_for_data m \/
  exists l1 l2 s1 r b tokens', l = l1 ++ l2 /\ run l1 s0 = Ok s1 /\
    Client.same_identity (mTokenManager s0) (mTokenManager s1) /\
    CheckToken (V := V) (S := S) (mTokenManager s1) (mSignedToken (mTokenManager s1)) (mDomainCAPublicKey (mTokenManager s1)) = Ok tt /\
    SignRequest (V := V) (S := S) reference_device (mTokenManager s1) r kMeshCoP b = Ok (m, tokens').

Lemma signed_with_valid_token m r b r' m' : reference_device = false ->
  SignRequest (V := V) (S := S) reference_device m r kMeshCoP b = Ok (r', m') ->
  CheckToken (V := V) (S := S) m (mSignedToken m) (mDomainCAPublicKey m) = Ok tt.
Proof.
  intros -> (sig & H & _)%Signing.SignRequest_inv. revert H. unfold SignMessage.
  intros (d & _ & (s0 & _ & (sa & _ & (kid & Hk & _)%bind_ok)%bind_ok)%bind_ok)%bind_ok.
  unfold signing_key_id, GetKeyId in Hk. apply bind_ok in Hk as (token & H1 & H2).
  unfold CheckToken. rewrite H1. cbn [mbind outcome_bind]. by rewrite H2.
Qed.

(** The commissioner takes at most one step of its own in an event, with the tokens of its beginning. *)
Lemma step_pieces e s s' : step e s = Ok s' ->
  mCommissioner s' = mCommissioner s \/ exists e' s1, commissioner_step e' s = Ok s1 /\ mCommissioner s' = mCommissioner s1.
Proof.
  assert (Hcancel : CancelRequests (V := V) (S := S) reference_device inet_ntop4 inet_ntop6 inet_pton4 inet_pton6
    channel0 panId0 rotation0 delay0 env_send registrar_send fuel s = Ok s' ->
    exists e' s1, commissioner_step e' s = Ok s1 /\ mCommissioner s' = mCommissioner s1).
  { intros (s1 & H1 & H2)%bind_ok. exists (EvtApi ApiCancelRequests), s1. split; [done|]. case_if; [|by injection H2 as <-].
    by apply bind_ok in H2 as (t & _ & [= <-]). }
  assert (Htok : forall e, tokens_step e s = Ok s' -> mCommissioner s' = mCommissioner s) by (by intros e' (t & _ & [= <-])%bind_ok).
  destruct e as [e'| |h socket|t| |e'|i r e']; cbn [ccm_step]; intros H; eauto.
  - destruct e' as [a| | | | |]; eauto. destruct a; eauto.
  - unfold RequestToken in H. case_if; [by injection H as <-; left|eauto].
  - left. apply bind_ok in H as ([e1 s1] & H & [= <-]). unfold SetToken in H. case_if; [|by injection H as _ <-].
    destruct (TokenManager.SetToken _ _ _ _); [| |done]; by injection H as _ <-.
Qed.

Lemma identity_run l s s' : run l s = Ok s' -> Client.same_identity (mTokenManager s) (mTokenManager s').
Proof.
  eapply (run_invariant (fun s' => Client.same_identity (mTokenManager s) (mTokenManager s'))); [| | |done].
  - by intros e s1 s2 (c & _ & [= <-])%bind_ok.
  - intros e s1 s2 (t & Ht & [= <-])%bind_ok Hid. etrans; [exact Hid|]. by eapply Client.step_identity.
  - done.
Qed.

Lemma accounted_run l s0 : reference_device = false -> forall l2 l1 s1 s, l = l1 ++ l2 -> run l1 s0 = Ok s1 ->
  all_signed (accounted l s0) (mCommissioner s1) -> run l2 s1 = Ok s -> all_signed (accounted l s0) (mCommissioner s).
Proof.
  intros Hr. induction l2 as [|e l2 IH]; intros l1 s1 s Hl H1 Ha H; cbn [ccm_run] in H; [by injection H as <-|].
  apply bind_ok in H as (s2 & H2 & H). assert (H12 : run (l1 ++ [e]) s0 = Ok s2).
  { clear -H1 H2. revert s0 H1. induction l1 as [|e1 l1 IH1]; intros s0 H1; cbn [ccm_run app] in *.
    - injection H1 as ->. by rewrite H2.
    - apply bind_ok in H1 as (s3 & H3 & H1). rewrite H3. by apply IH1. }
  eapply (IH (l1 ++ [e])); [by rewrite <- app_assoc|exact H12| |exact H].
  apply step_pieces in H2 as [->|(e' & s3 & (c & Hc & [= <-])%bind_ok & ->)]; [done|].
  eapply signed_step; [| |exact Ha|exact Hc]; [|by left].
  intros r b m ([r1 t1] & Hs & [= <-])%bind_ok. right. exists l1, (e :: l2), s1, r, b, t1.
  split_and!; [done|done|by eapply identity_run|by eapply signed_with_valid_token|done].
Qed.


(** *** The other promises, together *)

(** what is proved of the commissioner and of the token manager alone holds of the two together, while each
    request is signed with the token of its moment: the commissioner petitions exactly when one petition
    is pending, knows a prefix only while it is active, and its keep-alive timer runs while it is active; the
    handlers of the token manager wait only while its session connects; and the token at hand, like each token
    handed to the user, validates. *)
Theorem ccm_invariant br_init registrar_init cfg now s0 l s :
  reference_device = false -> Init br_init registrar_init cfg now = Ok s0 -> run l s0 = Ok s ->
  let c := mCommissioner s in let t := mTokenManager s in
  (mState c = kPetitioning <-> petitions (brPending c) = 1%nat) /\ (mMeshLocalPrefix c <> [] -> mState c = kActive) /\
  (mState c = kActive -> exists d, mKeepAliveTimer c = Some d /\ d <= clock c + GetKeepAliveInterval c) /\
  Client.on_ok t /\ Client.tokens_ok (V := V) (S := S) (EC := EC) t.
Proof.
  intros Hr Hi Hrun c t.
  assert (Hs : Inv [] c /\ Client.on_ok t /\ Client.tokens_ok (V := V) (S := S) (EC := EC) t).
  { eapply (run_invariant (fun s => Inv [] (mCommissioner s) /\ Client.on_ok (mTokenManager s) /\
      Client.tokens_ok (V := V) (S := S) (EC := EC) (mTokenManager s))); [| | | |exact Hrun].
    - intros e s1 s2 (c1 & Hc & [= <-])%bind_ok [Ha Hb]. split; [|done].
      by eapply (step_strong (HLaws := Signing.signer_laws reference_device inet_ntop4 inet_ntop6 (mTokenManager s1))).
    - intros e s1 s2 (t1 & Ht & [= <-])%bind_ok (Ha & Hb & Hc). split; [done|].
      split; [by eapply Client.on_ok_step|by eapply Client.tokens_ok_step].
    - intros s1 h (Ha & Hb & Hc). split; [done|]. split; [done|]. by apply Client.tokens_ok_tell.
    - revert Hi. unfold Init. intros (? & _ & H)%bind_ok. case_if; [|done]. apply bind_ok in H as (t0 & Ht & [= <-]).
      split; [apply reachable_init|]. cbn [mTokenManager]. case_if; [|injection Ht as <-; (split; [by intros ?|split; [by left|constructor]])].
      unfold TokenManager.Init in Ht. apply bind_ok in Ht as (k1 & _ & (k2 & _ & (k3 & _ & Ht)%bind_ok)%bind_ok).
      case_if; [|done]. injection Ht as <-. (split; [by intros ?|split; [by left|constructor]]). }
  destruct Hs as ((_ & (Hp & _ & Hm) & Ht) & Ho & Htok). cbn [app] in Hp. split_and!; try done.
  rewrite Hp. case_bool_decide; split; intros ?; done.
Qed.
End Network.
End Network.
