(* ===== verification/CcmScript.v ===== *)
(** * Runs of a commercial network

    Concrete runs over the libraries of [CoseFacts.Sample]: a token is set, a
    petition is signed, a token is requested of the registrar; and what goes
    wrong. *)

From S2P Require Import Prelude Outcome Common Tlv NetworkData CoapMessage Dataset DatasetCodec Dtls Cose CoseFacts.
From S2P Require Import TokenManager TokenManagerFacts Commissioner CommissionerInvariant CommissionerControl CommissionerSigned Ccm CcmFacts.
Import Addr Tlv TlvFacts Message Dataset CommonFacts Sample Signatures.

Definition channel : Channel := mkChannel 0 0.
Definition ccm_cfg : Config := mkConfig true 30 (str "Thread") (str "commissioner") [] [1; 7] [1; 7] [1; 99].
Definition all_sent (n : nat) : ErrorCode := kNone.
Definition no_text (b : ByteArray) : option string_t := None.

Abbreviation play_from l s := (ccm_run (V := tree) (S := sign0) (EC := Z) false no_text no_text sample_pton4 sample_pton6
  channel 0 0 0 all_sent all_sent 10 l s).
Definition fresh : Ccm (option (option Z)) :=
  match Init kNone kNone ccm_cfg 0 with Ok s => s | _ => mkCcm (Commissioner_init ccm_cfg 0) TokenManager_new end.
Abbreviation play l := (play_from l fresh).
Definition ending (l : list CcmEvent) : Ccm (option (option Z)) := match play l with Ok s => s | _ => fresh end.

(** ** Runs *)

Definition answer_with (payload : ByteArray) : Message :=
  Append (Message_new CoapMessage.kAcknowledgment Code.kChanged) payload.
Definition accepted : Message := answer_with (petition_answer 1 4660 []).
Definition the_prefix : Message := answer_with (encoding (Tlv_bytes kNetworkMeshLocalPrefix [253; 0; 0; 0; 0; 0; 0; 1])).

(** A petition under a token of the user. *)
Definition petitioned : list CcmEvent :=
  [CcmSetToken sample_token; CcmCommissioner (EvtApi (ApiPetition 1 true)); CcmCommissioner EvtHandshakeOver].
Definition joined : list CcmEvent := petitioned ++ [CcmCommissioner (EvtResponse BrClient 0 (Some accepted) kNone)].

(** The registrar answers a request for a token. *)
Definition token_answer (token : ByteArray) : Message :=
  match SetContentFormat (Message_new CoapMessage.kAcknowledgment Code.kChanged) ContentFormat.kCoseSign1 with
  | Ok m => Append m token
  | _ => Message_init
  end.
Definition requested : list CcmEvent :=
  [CcmRequestToken 5 true; CcmRegistrarConnected; CcmRegistrarResponse 0 (Some (token_answer sample_token)) kNone].

Definition sent (s : Ccm (option (option Z))) : list Message :=
  flat_map (fun o => match o with OutRequest _ _ m => [m] | _ => [] end) (outputs (mCommissioner s)).
Definition tokens_told (h : nat) (o : outcome (Ccm (option (option Z)))) : option (list ErrorCode) :=
  match o with
  | Ok s => Some (flat_map (fun o => match o with
                                     | TokHandler h' _ e => if bool_decide (h' = h) then [e] else []
                                     | _ => []
                                     end) (mTokenOutputs (mTokenManager s)))
  | _ => None
  end.

(** ** The theorems apply *)

Lemma fresh_init : Init kNone kNone ccm_cfg 0 = Ok fresh.
Proof. reflexivity. Qed.

Lemma joined_run : play joined = Ok (ending joined).
Proof. vm_compute. reflexivity. Qed.


Lemma ccm_invariant_witness :
  mState (mCommissioner (ending joined)) = kActive /\
  Client.tokens_ok (V := tree) (S := sign0) (EC := Z) (mTokenManager (ending joined)) /\
  mSignedToken (mTokenManager (ending joined)) = sample_token.
Proof.
  split; [vm_compute; reflexivity|]. split; [|vm_compute; reflexivity].
  apply (Network.ccm_invariant false no_text no_text sample_pton4 sample_pton6 channel 0 0 0 all_sent all_sent 10
    kNone kNone ccm_cfg 0 fresh joined (ending joined) eq_refl fresh_init joined_run).
Defined.

(** The petition with its signature, and the manager that signed it. *)
Definition signed_petition : Message * TokenManager (option (option Z)) :=
  match SignRequest (V := tree) (S := sign0) false sample_manager (sample_petition (str "me")) kMeshCoP true with
  | Ok r => r | _ => (Message_init, sample_manager) end.

Lemma signed_request_validates_witness :
  exists sig, GetTlv kCommissionerSignature (mPayload signed_petition.1) kMeshCoP = Some (Tlv_bytes kCommissionerSignature sig) /\
    ValidateSignature (V := tree) (S := sign0) signed_petition.2 sig signed_petition.1 = Ok tt.
Proof.
  destruct (Signing.signed_request_validates (V := tree) (S := sign0) (EC := Z) false sample_manager (sample_petition (str "me")) true
    signed_petition.1 signed_petition.2) as (_ & sig & Hg & Hv & _);
    [vm_compute; reflexivity|exact sample_keys_match
    |apply (bool_decide_eq_true_1 (bytes _)); vm_compute; reflexivity..|].
  exists sig. exact (conj Hg Hv).
Defined.

(** The token manager alone *)
Abbreviation manager_run := (token_run (V := tree) (S := sign0) (PK := option (option Z)) (EC := Z) false all_sent 10).
Definition manager_requested : list TokenEvent :=
  [TokApiRequest 5 true; TokHandshakeOver; TokResponse 0 (Some (token_answer sample_token)) kNone].
Definition manager_start : TokenManager (option (option Z)) :=
  match TokenManager.Init kNone sample_config TokenManager_new with Ok m => m | _ => TokenManager_new end.
Definition manager_end : TokenManager (option (option Z)) :=
  match manager_run manager_requested manager_start with Ok m => m | _ => manager_start end.
Lemma manager_runs : manager_run manager_requested manager_start = Ok manager_end.
Proof. vm_compute. reflexivity. Qed.

Lemma tokens_validate_witness :
  mSignedToken manager_end = sample_token /\ Client.tokens_ok (V := tree) (S := sign0) (EC := Z) manager_end.
Proof.
  split; [vm_compute; reflexivity|].
  apply (Client.tokens_validate (V := tree) (S := sign0) (EC := Z) false all_sent 10 manager_requested manager_start manager_end eq_refl);
    [split; [left; vm_compute; reflexivity|vm_compute; constructor]|exact manager_runs].
Defined.


Lemma registrar_Disconnect_complete_witness :
  TokenManager.Disconnect (V := tree) (S := sign0) (EC := Z) false all_sent 3 (with_requests manager_start [7%nat] 1)
  = Ok (Client.disconnected (V := tree) (EC := Z) (with_requests manager_start [7%nat] 1)).
Proof.
  apply (Client.registrar_Disconnect_complete (V := tree) (S := sign0) (EC := Z) false all_sent 3 (with_requests manager_start [7%nat] 1));
    [vm_compute; discriminate|apply le_n].
Defined.

(** ** Runs that go wrong *)

(** A pending dataset that says when it takes effect. *)
Definition delayed : PendingDataset.PendingOperationalDataset :=
  PendingDataset.set_DelayTimer
    (PendingDataset.PendingOperationalDataset_new (ActiveDataset.ActiveOperationalDataset_new 0 channel 0 0) 0) 1000.

(** The registration of a multicast address, as it was sent, and one with other addresses and another lifetime. *)
Definition registering (addrs : list string_t) (timeout : Z) : list CcmEvent :=
  joined ++ [CcmCommissioner (EvtApi (ApiRegisterMulticastListener 3 addrs timeout));
             CcmCommissioner (EvtResponse BrClient 0 (Some the_prefix) kNone)].
Definition registration (addrs : list string_t) (timeout : Z) : Message :=
  default Message_init (head (sent (ending (registering addrs timeout)))).

Definition one : string_t := str "ff020000000000000000000000000001".
Definition two : string_t := str "ff020000000000000000000000000002".

(** The registrar client whose first request cannot be sent. *)
Definition first_fails (n : nat) : ErrorCode := match n with O => kIOError | _ => kNone end.
Abbreviation play_failing l := (ccm_run (V := tree) (S := sign0) (EC := Z) false no_text no_text sample_pton4 sample_pton6
  channel 0 0 0 all_sent first_fails 10 l fresh).
(** A certificate without an elliptic curve key, and one that was parsed in part. *)
Definition with_certificate (cert : ByteArray) : Config :=
  mkConfig true 30 (str "Thread") (str "commissioner") [] [1; 7] cert [1; 99].
Definition other_key : Ccm (option (option Z)) :=
  match Init kNone kNone (with_certificate [2]) 0 with Ok s => s | _ => fresh end.

(** The answer of the leader, without a mesh-local prefix, over and over. *)
Definition no_prefix : CcmEvent := CcmCommissioner (EvtResponse BrClient 0 (Some (answer_with [])) kNone).
Definition secure_pending (n : nat) : list CcmEvent :=
  joined ++ CcmCommissioner (EvtApi (ApiSetSecurePendingDataset 4 60 delayed)) :: replicate n no_prefix.

(** Faults of the commissioner in a commercial network, each with a run that shows it. (1) The signature of a
    multicast listener registration covers neither the addresses nor the timeout, so that it validates for any
    other registration of the session. (2) Requesting a token a second time while the session with the
    registrar is being set up ends the process; (3) so does requesting it again after the request could not
    be made, as with a key that is not an elliptic curve key, since the session was left open; (4) and so does
    a certificate that was parsed in part. (5) When the request cannot be sent right after the handshake, its
    handler is called twice. (6) Setting a secure pending dataset asks for the mesh-local prefix again and
    again, once for each answer of the border agent that has none: the handler is never called. *)
Theorem ccm_faults :
  (registration [one] 300 <> registration [two; one] 0 /\
   PrepareSigningContent (registration [one] 300) = PrepareSigningContent (registration [two; one] 0) /\
   is_Some (GetTlv kCommissionerSignature (mPayload (registration [one] 300)) kMeshCoP)) /\
  play [CcmRequestToken 1 true; CcmRequestToken 2 true] = Die /\
  (tokens_told 1 (play_from [CcmRequestToken 1 true; CcmRegistrarConnected] other_key) = Some [kInvalidArgs] /\
   play_from [CcmRequestToken 1 true; CcmRegistrarConnected; CcmRequestToken 2 true] other_key = Die) /\
  Init kNone kNone (with_certificate [3]) 0 = Die /\
  tokens_told 1 (play_failing [CcmRequestToken 1 true; CcmRegistrarConnected]) = Some [kInvalidState; kIOError] /\
  (length (sent (ending (secure_pending 0))) = 2%nat /\ length (sent (ending (secure_pending 3))) = 5%nat /\
   brPending (mCommissioner (ending (secure_pending 3))) = [RspFetched 4 60 delayed]).
Proof.
  repeat apply conj; try (vm_compute; reflexivity).
  - vm_compute. discriminate.
  - vm_compute. eexists. reflexivity.
Qed.
