(* ===== verification/CommissionerApp.v ===== *)
(** * The commissioner application

    [CommissionerApp] of [src/app/commissioner_app.{hpp,cpp}]: the joiners that
    are allowed to join, the copies of the network's datasets, and the
    operations of the command line on top of the library.  The library
    ([Commissioner] with its blocking calls, [src/library/commissioner_safe.cpp])
    is an interface, the class [Library]. *)

From stdpp Require Import gmap.
From S2P Require Import Prelude Outcome Common Crypto NetworkData.
Import Endian Addr BloomFilter Ipv6Prefix.

(** ** Data *)

Inductive JoinerType : Type := kMeshCoP | kAE | kNMKP.

#[export] Instance JoinerType_eq_dec : EqDecision JoinerType.
Proof. solve_decision. Defined.
#[export] Instance JoinerType_countable : Countable JoinerType.
Proof.
  refine (inj_countable' (fun t => match t with kMeshCoP => 0 | kAE => 1 | kNMKP => 2 end)
                         (fun n => match n with 0 => kMeshCoP | 1 => kAE | _ => kNMKP end) _).
  by intros [].
Defined.

Record JoinerInfo : Type := mkJoiner {
  mType : JoinerType;
  mEui64 : Z;
  mPSKd : string_t;
  mProvisioningUrl : string_t }.

Record EnergyReport : Type := mkReport { mChannelMask : ChannelMask; mEnergyList : ByteArray }.

(** [std::map<JoinerKey, JoinerInfo>] *)
Abbreviation JoinerKey := (JoinerType * ByteArray)%type.
Abbreviation JoinerMap := (gmap JoinerKey JoinerInfo).

Abbreviation Active := ActiveDataset.ActiveOperationalDataset.
Abbreviation Pending := PendingDataset.PendingOperationalDataset.
Abbreviation Comm := CommissionerDataset.CommissionerDataset.
Abbreviation Bbr := BbrDataset.BbrDataset.

Definition kMinJoinerDeviceCredentialLength : Z := 6.
Definition kMaxJoinerDeviceCredentialLength : Z := 32.
Definition kDefaultJoinerUdpPort : Z := 1000.
Definition kDefaultAeUdpPort : Z := 1001.
Definition kDefaultNmkpUdpPort : Z := 1002.
Definition kMlrStatusSuccess : Z := 0.

(** ** Merging datasets *)

Section MergeActive.
Import ActiveDataset.

Definition MergeActiveDataset (aDst aSrc : Active) : Active :=
  let flags := mPresentFlags aSrc in
  let aDst := if has flags kActiveTimestampBit then set_ActiveTimestamp aDst (mActiveTimestamp aSrc) else aDst in
  let aDst := if has flags kChannelBit then set_Channel aDst (mChannel aSrc) else aDst in
  let aDst := if has flags kChannelMaskBit then set_ChannelMask aDst (mChannelMask aSrc) else aDst in
  let aDst := if has flags kExtendedPanIdBit then set_ExtendedPanId aDst (mExtendedPanId aSrc) else aDst in
  let aDst := if has flags kMeshLocalPrefixBit then set_MeshLocalPrefix aDst (mMeshLocalPrefix aSrc) else aDst in
  let aDst := if has flags kNetworkMasterKeyBit then set_NetworkMasterKey aDst (mNetworkMasterKey aSrc) else aDst in
  let aDst := if has flags kNetworkNameBit then set_NetworkName aDst (mNetworkName aSrc) else aDst in
  let aDst := if has flags kPanIdBit then set_PanId aDst (mPanId aSrc) else aDst in
  let aDst := if has flags kPSKcBit then set_PSKc aDst (mPSKc aSrc) else aDst in
  if has flags kSecurityPolicyBit then set_SecurityPolicy aDst (mSecurityPolicy aSrc) else aDst.
End MergeActive.

Section MergePending.
Import PendingDataset.

Definition MergePendingDataset (aDst aSrc : Pending) : Pending :=
  let flags := ActiveDataset.mPresentFlags (mActive aSrc) in
  let aDst := mkPending (MergeActiveDataset (mActive aDst) (mActive aSrc)) (mDelayTimer aDst) (mPendingTimestamp aDst) in
  let aDst := if has flags kPendingTimestampBit then set_PendingTimestamp aDst (mPendingTimestamp aSrc) else aDst in
  if has flags kDelayTimerBit then set_DelayTimer aDst (mDelayTimer aSrc) else aDst.
End MergePending.

Section MergeBbr.
Import BbrDataset.

Definition MergeBbrDataset (aDst aSrc : Bbr) : Bbr :=
  let flags := mPresentFlags aSrc in
  let aDst := if has flags kTriHostnameBit then set_TriHostname aDst (mTriHostname aSrc) else aDst in
  let aDst := if has flags kRegistrarHostnameBit then set_RegistrarHostname aDst (mRegistrarHostname aSrc) else aDst in
  if has flags kRegistrarIpv6AddrBit then set_RegistrarIpv6Addr aDst (mRegistrarIpv6Addr aSrc) else aDst.
End MergeBbr.

Section MergeComm.
Import CommissionerDataset.

(** [mPresentFlags &= ~bit] *)
Definition clear (d : Comm) (bit : Z) : Comm :=
  let (bl, si, sd, ae, nm, jp, ap, np, f) := d in mkDataset bl si sd ae nm jp ap np (Z.ldiff f bit).

Definition MergeCommDataset (aDst aSrc : Comm) : Comm :=
  let flags := mPresentFlags aSrc in
  let aDst := if has flags kBorderAgentLocatorBit then set_BorderAgentLocator aDst (mBorderAgentLocator aSrc) else aDst in
  let aDst := if has flags kSessionIdBit then set_SessionId aDst (mSessionId aSrc) else aDst in
  let aDst := if has flags kSteeringDataBit then set_SteeringData aDst (mSteeringData aSrc) else clear aDst kSteeringDataBit in
  let aDst := if has flags kAeSteeringDataBit then set_AeSteeringData aDst (mAeSteeringData aSrc) else clear aDst kAeSteeringDataBit in
  let aDst := if has flags kNmkpSteeringDataBit then set_NmkpSteeringData aDst (mNmkpSteeringData aSrc) else clear aDst kNmkpSteeringDataBit in
  let aDst := if has flags kJoinerUdpPortBit then set_JoinerUdpPort aDst (mJoinerUdpPort aSrc) else clear aDst kJoinerUdpPortBit in
  let aDst := if has flags kAeUdpPortBit then set_AeUdpPort aDst (mAeUdpPort aSrc) else clear aDst kAeUdpPortBit in
  if has flags kNmkpUdpPortBit then set_NmkpUdpPort aDst (mNmkpUdpPort aSrc) else clear aDst kNmkpUdpPortBit.

(** [GetSteeringData] and [GetJoinerUdpPort] return a reference into the
    dataset, and raise the flag: reading and writing through the reference. *)
Definition steering (d : Comm) (aJoinerType : JoinerType) : ByteArray :=
  match aJoinerType with
  | kMeshCoP => mSteeringData d | kAE => mAeSteeringData d | kNMKP => mNmkpSteeringData d
  end.
Definition set_steering (d : Comm) (aJoinerType : JoinerType) (v : ByteArray) : Comm :=
  match aJoinerType with
  | kMeshCoP => set_SteeringData d v | kAE => set_AeSteeringData d v | kNMKP => set_NmkpSteeringData d v
  end.
Definition steering_bit (aJoinerType : JoinerType) : Z :=
  match aJoinerType with
  | kMeshCoP => kSteeringDataBit | kAE => kAeSteeringDataBit | kNMKP => kNmkpSteeringDataBit
  end.
Definition udp_port (d : Comm) (aJoinerType : JoinerType) : Z :=
  match aJoinerType with
  | kMeshCoP => mJoinerUdpPort d | kAE => mAeUdpPort d | kNMKP => mNmkpUdpPort d
  end.
Definition set_udp_port (d : Comm) (aJoinerType : JoinerType) (v : Z) : Comm :=
  match aJoinerType with
  | kMeshCoP => set_JoinerUdpPort d v | kAE => set_AeUdpPort d v | kNMKP => set_NmkpUdpPort d v
  end.
Definition udp_port_bit (aJoinerType : JoinerType) : Z :=
  match aJoinerType with
  | kMeshCoP => kJoinerUdpPortBit | kAE => kAeUdpPortBit | kNMKP => kNmkpUdpPortBit
  end.

Definition MakeDefaultCommissionerDataset (ccm : bool) : Comm :=
  let dataset := set_JoinerUdpPort CommissionerDataset_init kDefaultJoinerUdpPort in
  if ccm then set_NmkpUdpPort (set_AeUdpPort dataset kDefaultAeUdpPort) kDefaultNmkpUdpPort else dataset.

(** The copy of the dataset that the operations on joiners edit and send. *)
Definition editable (d : Comm) : Comm := clear (clear d kSessionIdBit) kBorderAgentLocatorBit.
End MergeComm.

(** ** Joiner credentials *)

Definition isdigit (c : Z) : bool := (48 <=? c) && (c <=? 57).
Definition isupper (c : Z) : bool := (65 <=? c) && (c <=? 90).

Fixpoint ValidatePSKd_loop (aPSKd : string_t) : outcome unit :=
  match aPSKd with
  | [] => Ok tt
  | c :: aPSKd =>
      VerifyOrExit isdigit c || isupper c else kInvalidArgs;;
      VerifyOrExit negb (c =? 73) && negb (c =? 79) && negb (c =? 81) && negb (c =? 90) else kInvalidArgs;;
      ValidatePSKd_loop aPSKd
  end.

Definition ValidatePSKd (aPSKd : string_t) : outcome unit :=
  VerifyOrExit (kMinJoinerDeviceCredentialLength <=? zlen aPSKd)
               && (zlen aPSKd <=? kMaxJoinerDeviceCredentialLength) else kInvalidArgs;;
  ValidatePSKd_loop aPSKd.

(** ** The library *)

(** The blocking calls of [Commissioner] that the application makes, on a state
    [S] of the library and the network behind it. *)
Class Library (S : Type) : Type := {
  lib_now : S -> Z;                                   (* the system clock, in microseconds *)
  lib_IsActive : S -> bool;
  lib_IsCcmMode : S -> bool;
  lib_GetSessionId : S -> Z;
  lib_GetDomainName : S -> string_t;
  lib_CancelRequests : S -> S;
  (* the id of the existing commissioner is reported besides the error *)
  lib_Petition : string_t -> Z -> S -> S * option string_t * outcome unit;
  lib_Resign : S -> S * outcome unit;
  lib_GetActiveDataset : Z -> S -> S * outcome Active;
  lib_SetActiveDataset : Active -> S -> S * outcome unit;
  lib_GetPendingDataset : Z -> S -> S * outcome Pending;
  lib_SetPendingDataset : Pending -> S -> S * outcome unit;
  lib_GetCommissionerDataset : Z -> S -> S * outcome Comm;
  lib_SetCommissionerDataset : Comm -> S -> S * outcome unit;
  lib_GetBbrDataset : Z -> S -> S * outcome Bbr;
  lib_SetBbrDataset : Bbr -> S -> S * outcome unit;
  lib_CommandReenroll : string_t -> S -> S * outcome unit;
  lib_CommandDomainReset : string_t -> S -> S * outcome unit;
  lib_CommandMigrate : string_t -> string_t -> S -> S * outcome unit;
  lib_RegisterMulticastListener : list string_t -> Z -> S -> S * outcome Z;
  lib_AnnounceBegin : Z -> Z -> Z -> string_t -> S -> S * outcome unit;
  lib_PanIdQuery : Z -> Z -> string_t -> S -> S * outcome unit;
  lib_EnergyScan : Z -> Z -> Z -> Z -> string_t -> S -> S * outcome unit;
  lib_RequestToken : string_t -> Z -> S -> S * outcome ByteArray;
  lib_SetToken : ByteArray -> S -> S * outcome unit }.

Section App.
Context {S : Type} `{Library S}.
Context (sha256 : ByteArray -> ByteArray).
Context (inet_pton4 inet_pton6 : string_t -> option ByteArray).
Context (inet_ntop4 inet_ntop6 : ByteArray -> option string_t).
(** What the default constructors of the datasets leave uninitialized. *)
Context (channel0 : Channel) (panId0 rotation0 delay0 : Z).

Record App : Type := mkApp {
  mCommissioner : S;
  mSignedToken : ByteArray;
  mJoiners : JoinerMap;
  mPanIdConflicts : gmap Z ChannelMask;
  mEnergyReports : gmap ByteArray EnergyReport;
  mActiveDataset : Active;
  mPendingDataset : Pending;
  mCommDataset : Comm;
  mBbrDataset : Bbr }.

Definition with_lib (a : App) (s : S) : App :=
  mkApp s (mSignedToken a) (mJoiners a) (mPanIdConflicts a) (mEnergyReports a) (mActiveDataset a) (mPendingDataset a)
    (mCommDataset a) (mBbrDataset a).
Definition with_token (a : App) (t : ByteArray) : App :=
  mkApp (mCommissioner a) t (mJoiners a) (mPanIdConflicts a) (mEnergyReports a) (mActiveDataset a) (mPendingDataset a)
    (mCommDataset a) (mBbrDataset a).
Definition with_joiners (a : App) (j : JoinerMap) : App :=
  mkApp (mCommissioner a) (mSignedToken a) j (mPanIdConflicts a) (mEnergyReports a) (mActiveDataset a) (mPendingDataset a)
    (mCommDataset a) (mBbrDataset a).
Definition with_conflicts (a : App) (c : gmap Z ChannelMask) : App :=
  mkApp (mCommissioner a) (mSignedToken a) (mJoiners a) c (mEnergyReports a) (mActiveDataset a) (mPendingDataset a)
    (mCommDataset a) (mBbrDataset a).
Definition with_reports (a : App) (r : gmap ByteArray EnergyReport) : App :=
  mkApp (mCommissioner a) (mSignedToken a) (mJoiners a) (mPanIdConflicts a) r (mActiveDataset a) (mPendingDataset a)
    (mCommDataset a) (mBbrDataset a).
Definition with_active (a : App) (d : Active) : App :=
  mkApp (mCommissioner a) (mSignedToken a) (mJoiners a) (mPanIdConflicts a) (mEnergyReports a) d (mPendingDataset a)
    (mCommDataset a) (mBbrDataset a).
Definition with_pending (a : App) (d : Pending) : App :=
  mkApp (mCommissioner a) (mSignedToken a) (mJoiners a) (mPanIdConflicts a) (mEnergyReports a) (mActiveDataset a) d
    (mCommDataset a) (mBbrDataset a).
Definition with_comm (a : App) (d : Comm) : App :=
  mkApp (mCommissioner a) (mSignedToken a) (mJoiners a) (mPanIdConflicts a) (mEnergyReports a) (mActiveDataset a)
    (mPendingDataset a) d (mBbrDataset a).
Definition with_bbr (a : App) (d : Bbr) : App :=
  mkApp (mCommissioner a) (mSignedToken a) (mJoiners a) (mPanIdConflicts a) (mEnergyReports a) (mActiveDataset a)
    (mPendingDataset a) (mCommDataset a) d.

(** *** Operations as state-passing programs *)

Definition M (A : Type) : Type := App -> App * outcome A.

#[local] Instance M_ret : MRet M := fun A x a => (a, Ok x).
#[local] Instance M_bind : MBind M := fun A B f m a =>
  match m a with
  | (a, Ok x) => f x a
  | (a, Err e) => (a, Err e)
  | (a, Die) => (a, Die)
  end.

Definition throw {A} (e : ErrorCode) : M A := fun a => (a, Err e).
Definition get {A} (f : App -> A) : M A := fun a => (a, Ok (f a)).
Definition put (f : App -> App) : M unit := fun a => (f a, Ok tt).
Definition lift {A} (m : outcome A) : M A := fun a => (a, m).
(** A blocking call of the library. *)
Definition call {A} (f : S -> S * outcome A) : M A := fun a =>
  let '(s, r) := f (mCommissioner a) in (with_lib a s, r).

Definition IsActive (a : App) : bool := lib_IsActive (mCommissioner a).
Definition IsCcmMode (a : App) : bool := lib_IsCcmMode (mCommissioner a).

(** [VerifyOrExit(IsActive(), error = ERROR_INVALID_STATE(...))] *)
Definition check_active : M unit := fun a => (a, if IsActive a then Ok tt else Err kInvalidState).
(** [VerifyOrExit(... & bit, error = ERROR_NOT_FOUND(...))] *)
Definition check_present (flags bit : Z) : M unit := fun a => (a, if has flags bit then Ok tt else Err kNotFound).

(** The default-constructed datasets. *)
Definition new_active (a : App) : Active :=
  ActiveDataset.ActiveOperationalDataset_new (lib_now (mCommissioner a)) channel0 panId0 rotation0.
Definition new_pending (a : App) : Pending := PendingDataset.PendingOperationalDataset_new (new_active a) delay0.

(** *** The session *)

(** [CommissionerApp()] and [Init] *)
Definition App_init (s : S) : App :=
  let a := mkApp s [] ∅ ∅ ∅ (ActiveDataset.ActiveOperationalDataset_new (lib_now s) channel0 panId0 rotation0)
             (PendingDataset.PendingOperationalDataset_new
                (ActiveDataset.ActiveOperationalDataset_new (lib_now s) channel0 panId0 rotation0) delay0)
             CommissionerDataset.CommissionerDataset_init BbrDataset.BbrDataset_init in
  with_comm a (MakeDefaultCommissionerDataset (IsCcmMode a)).

Definition SyncNetworkData : M unit :=
  activeDataset ← call (lib_GetActiveDataset 65535);
  pendingDataset ← call (lib_GetPendingDataset 65535);
  commDataset ← get mCommDataset;
  _ ← call (lib_SetCommissionerDataset commDataset);
  commDataset ← call (lib_GetCommissionerDataset 65535);
  _ ← put (fun a => with_comm a (MergeCommDataset (mCommDataset a) commDataset));
  ccm ← get IsCcmMode;
  _ ← (if ccm : bool then bbrDataset ← call (lib_GetBbrDataset 65535); put (fun a => with_bbr a bbrDataset) else mret tt);
  _ ← put (fun a => with_active a activeDataset);
  put (fun a => with_pending a pendingDataset).

Definition Stop (a : App) : App :=
  let '(s, _) := lib_Resign (mCommissioner a) in
  let a := with_lib a s in
  let a := with_joiners a ∅ in
  let a := with_conflicts a ∅ in
  let a := with_reports a ∅ in
  let a := with_active a (new_active a) in
  let a := with_pending a (new_pending a) in
  let a := with_comm a (MakeDefaultCommissionerDataset (IsCcmMode a)) in
  with_bbr a BbrDataset.BbrDataset_init.

(** The id of an existing commissioner and the result. *)
Definition Start (aBorderAgentAddr : string_t) (aBorderAgentPort : Z) (a : App) : App * option string_t * outcome unit :=
  let '(s, existing, r) := lib_Petition aBorderAgentAddr aBorderAgentPort (mCommissioner a) in
  let a := with_lib a s in
  let '(a, r) := match r with Ok _ => SyncNetworkData a | _ => (a, r) end in
  match r with
  | Err _ => (if IsActive a then Stop a else a, existing, r)
  | _ => (a, existing, r)
  end.

Definition CancelRequests (a : App) : App := with_lib a (lib_CancelRequests (mCommissioner a)).

Definition GetSessionId : M Z := _ ← check_active; get (fun a => lib_GetSessionId (mCommissioner a)).
Definition GetDomainName (a : App) : string_t := lib_GetDomainName (mCommissioner a).

(** *** Joiners *)

Definition GetJoinerInfo (a : App) (aType : JoinerType) (aJoinerId : ByteArray) : outcome (option JoinerInfo) :=
  match mJoiners a !! (aType, aJoinerId) with
  | Some i => Ok (Some i)
  | None => zero ← ComputeJoinerId sha256 0; Ok (mJoiners a !! (aType, zero))
  end.

Definition OnJoinerRequest (a : App) (aJoinerId : ByteArray) : outcome string_t :=
  match mJoiners a !! (kMeshCoP, aJoinerId) with
  | Some i => Ok (mPSKd i)
  | None =>
      zero ← ComputeJoinerId sha256 0;
      Ok (match mJoiners a !! (kMeshCoP, zero) with Some i => mPSKd i | None => [] end)
  end.

(** Only the provisioning URL of the JOIN_FIN.req is looked at. *)
Definition OnJoinerFinalize (a : App) (aJoinerId : ByteArray) (aProvisioningUrl : string_t) : outcome bool :=
  configuredJoinerInfo ← GetJoinerInfo a kMeshCoP aJoinerId;
  Ok (match configuredJoinerInfo with
      | None => false
      | Some i => bool_decide (aProvisioningUrl = mProvisioningUrl i)
      end).

Definition check_pskd (aType : JoinerType) (aPSKd : string_t) : outcome unit :=
  match aType with kMeshCoP => ValidatePSKd aPSKd | _ => Ok tt end.

Definition EnableJoiner (aType : JoinerType) (aEui64 : Z) (aPSKd aProvisioningUrl : string_t) : M unit :=
  joinerId ← lift (ComputeJoinerId sha256 aEui64);
  commDataset ← get (fun a => editable (mCommDataset a));
  _ ← lift (check_pskd aType aPSKd);
  _ ← check_active;
  joiners ← get mJoiners;
  match (joiners : JoinerMap) !! (aType, joinerId) with
  | Some _ => throw kAlreadyExists
  | None =>
      steeringData ← lift (AddJoiner (steering commDataset aType) joinerId);
      let commDataset := set_steering commDataset aType steeringData in
      _ ← call (lib_SetCommissionerDataset commDataset);
      _ ← put (fun a => with_comm a (MergeCommDataset (mCommDataset a) commDataset));
      put (fun a => with_joiners a (<[(aType, joinerId) := mkJoiner aType aEui64 aPSKd aProvisioningUrl]> (mJoiners a)))
  end.

(** The loop of [DisableJoiner] over the enabled joiners.  It adds the id of
    the joiner that is being disabled, not the one of [joiner]. *)
Fixpoint DisableJoiner_loop (aType : JoinerType) (aEui64 : Z) (joiners : list JoinerInfo)
    (steeringData joinerId : ByteArray) : outcome (ByteArray * ByteArray) :=
  match joiners with
  | [] => Ok (steeringData, joinerId)
  | joiner :: joiners =>
      if bool_decide (mType joiner = aType) && (mEui64 joiner =? aEui64)
      then DisableJoiner_loop aType aEui64 joiners steeringData joinerId
      else
        joinerId ← ComputeJoinerId sha256 aEui64;
        steeringData ← AddJoiner steeringData joinerId;
        DisableJoiner_loop aType aEui64 joiners steeringData joinerId
  end.

Definition DisableJoiner (aType : JoinerType) (aEui64 : Z) : M unit :=
  commDataset ← get (fun a => editable (mCommDataset a));
  _ ← check_active;
  joiners ← get (fun a => (map_to_list (mJoiners a)).*2);
  r ← lift (DisableJoiner_loop aType aEui64 joiners [0] []);
  let '(steeringData, joinerId) := (r : ByteArray * ByteArray) in
  let commDataset := set_steering commDataset aType steeringData in
  _ ← call (lib_SetCommissionerDataset commDataset);
  _ ← put (fun a => with_comm a (MergeCommDataset (mCommDataset a) commDataset));
  put (fun a => with_joiners a (delete (aType, joinerId) (mJoiners a))).

Definition EraseAllJoiners (aJoinerType : JoinerType) (j : JoinerMap) : JoinerMap :=
  filter (fun kv => kv.1.1 <> aJoinerType) j.

Definition EnableAllJoiners (aType : JoinerType) (aPSKd aProvisioningUrl : string_t) : M unit :=
  commDataset ← get (fun a => editable (mCommDataset a));
  _ ← lift (check_pskd aType aPSKd);
  _ ← check_active;
  let commDataset := set_steering commDataset aType [255] in
  _ ← call (lib_SetCommissionerDataset commDataset);
  _ ← put (fun a => with_comm a (MergeCommDataset (mCommDataset a) commDataset));
  _ ← put (fun a => with_joiners a (EraseAllJoiners aType (mJoiners a)));
  joinerId ← lift (ComputeJoinerId sha256 0);
  put (fun a => with_joiners a (<[(aType, joinerId) := mkJoiner aType 0 aPSKd aProvisioningUrl]> (mJoiners a))).

Definition DisableAllJoiners (aType : JoinerType) : M unit :=
  commDataset ← get (fun a => editable (mCommDataset a));
  _ ← check_active;
  let commDataset := set_steering commDataset aType [0] in
  _ ← call (lib_SetCommissionerDataset commDataset);
  _ ← put (fun a => with_comm a (MergeCommDataset (mCommDataset a) commDataset));
  put (fun a => with_joiners a (EraseAllJoiners aType (mJoiners a))).

Definition GetSteeringData (aJoinerType : JoinerType) : M ByteArray :=
  _ ← check_active;
  d ← get mCommDataset;
  _ ← check_present (CommissionerDataset.mPresentFlags d) (steering_bit aJoinerType);
  mret (steering d aJoinerType).

Definition GetJoinerUdpPort (aJoinerType : JoinerType) : M Z :=
  _ ← check_active;
  d ← get mCommDataset;
  _ ← check_present (CommissionerDataset.mPresentFlags d) (udp_port_bit aJoinerType);
  mret (udp_port d aJoinerType).

Definition SetJoinerUdpPort (aType : JoinerType) (aUdpPort : Z) : M unit :=
  commDataset ← get (fun a => editable (mCommDataset a));
  _ ← check_active;
  let commDataset := set_udp_port commDataset aType aUdpPort in
  _ ← call (lib_SetCommissionerDataset commDataset);
  put (fun a => with_comm a (MergeCommDataset (mCommDataset a) commDataset)).

(** [VerifyOrDie(... & bit)] *)
Definition demand (flags bit : Z) : M unit := fun a => (a, if has flags bit then Ok tt else Die).

Definition GetBorderAgentLocator : M Z :=
  _ ← check_active;
  d ← get mCommDataset;
  _ ← demand (CommissionerDataset.mPresentFlags d) CommissionerDataset.kBorderAgentLocatorBit;
  mret (CommissionerDataset.mBorderAgentLocator d).

(** *** Datasets *)

(** [SuccessOrExit(error = mCommissioner->Set...(dataset)); MergeDataset(m..., dataset);] *)
Definition commit_active (d : Active) : M unit :=
  _ ← call (lib_SetActiveDataset d);
  put (fun a => with_active a (MergeActiveDataset (mActiveDataset a) d)).
Definition commit_pending (d : Pending) : M unit :=
  _ ← call (lib_SetPendingDataset d);
  put (fun a => with_pending a (MergePendingDataset (mPendingDataset a) d)).

(** [SuccessOrExit(error = mCommissioner->GetActiveDataset(mActiveDataset, 0xFFFF))] *)
Definition refresh_active : M unit :=
  d ← call (lib_GetActiveDataset 65535); put (fun a => with_active a d).

(** Writing a field of the base class, and the delay timer. *)
Definition in_active (f : Active -> Active) (d : Pending) : Pending :=
  PendingDataset.mkPending (f (PendingDataset.mActive d)) (PendingDataset.mDelayTimer d) (PendingDataset.mPendingTimestamp d).
Definition delayed (f : Active -> Active) (aDelay : Z) (d : Pending) : Pending :=
  PendingDataset.set_DelayTimer (in_active f d) (u32 aDelay).

Definition GetCommissionerDataset (aDatasetFlags : Z) : M Comm := call (lib_GetCommissionerDataset aDatasetFlags).
Definition SetCommissionerDataset (aDataset : Comm) : M unit :=
  _ ← call (lib_SetCommissionerDataset aDataset);
  put (fun a => with_comm a (MergeCommDataset (mCommDataset a) aDataset)).

Definition GetActiveTimestamp : M Timestamp.Timestamp :=
  _ ← check_active;
  d ← get mActiveDataset;
  _ ← demand (ActiveDataset.mPresentFlags d) ActiveDataset.kActiveTimestampBit;
  mret (ActiveDataset.mActiveTimestamp d).

Definition GetChannel : M Channel :=
  _ ← check_active;
  _ ← refresh_active;
  d ← get mActiveDataset;
  _ ← demand (ActiveDataset.mPresentFlags d) ActiveDataset.kChannelBit;
  mret (ActiveDataset.mChannel d).

Definition SetChannel (aChannel : Channel) (aDelay : Z) : M unit :=
  d ← get new_pending;
  _ ← check_active;
  commit_pending (delayed (fun d => ActiveDataset.set_Channel d aChannel) aDelay d).

Definition GetChannelMask : M ChannelMask :=
  _ ← check_active;
  d ← get mActiveDataset;
  _ ← check_present (ActiveDataset.mPresentFlags d) ActiveDataset.kChannelMaskBit;
  mret (ActiveDataset.mChannelMask d).

Definition SetChannelMask (aChannelMask : ChannelMask) : M unit :=
  d ← get new_active;
  _ ← check_active;
  commit_active (ActiveDataset.set_ChannelMask d aChannelMask).

Definition GetExtendedPanId : M ByteArray :=
  _ ← check_active;
  d ← get mActiveDataset;
  _ ← check_present (ActiveDataset.mPresentFlags d) ActiveDataset.kExtendedPanIdBit;
  mret (ActiveDataset.mExtendedPanId d).

Definition SetExtendedPanId (aExtendedPanId : ByteArray) : M unit :=
  d ← get new_active;
  _ ← check_active;
  commit_active (ActiveDataset.set_ExtendedPanId d aExtendedPanId).

Definition GetMeshLocalPrefix : M string_t :=
  _ ← check_active;
  _ ← refresh_active;
  d ← get mActiveDataset;
  _ ← check_present (ActiveDataset.mPresentFlags d) ActiveDataset.kMeshLocalPrefixBit;
  lift (Ipv6PrefixToString inet_ntop4 inet_ntop6 (ActiveDataset.mMeshLocalPrefix d)).

Definition SetMeshLocalPrefix (aPrefix : string_t) (aDelay : Z) : M unit :=
  d ← get new_pending;
  _ ← check_active;
  prefix ← lift (Ipv6PrefixFromString inet_pton4 inet_pton6 aPrefix);
  commit_pending (delayed (fun d => ActiveDataset.set_MeshLocalPrefix d prefix) aDelay d).

Definition GetNetworkMasterKey : M ByteArray :=
  _ ← check_active;
  _ ← refresh_active;
  d ← get mActiveDataset;
  _ ← check_present (ActiveDataset.mPresentFlags d) ActiveDataset.kNetworkMasterKeyBit;
  mret (ActiveDataset.mNetworkMasterKey d).

Definition SetNetworkMasterKey (aMasterKey : ByteArray) (aDelay : Z) : M unit :=
  d ← get new_pending;
  _ ← check_active;
  commit_pending (delayed (fun d => ActiveDataset.set_NetworkMasterKey d aMasterKey) aDelay d).

Definition GetNetworkName : M string_t :=
  _ ← check_active;
  d ← get mActiveDataset;
  _ ← check_present (ActiveDataset.mPresentFlags d) ActiveDataset.kNetworkNameBit;
  mret (ActiveDataset.mNetworkName d).

Definition SetNetworkName (aNetworkName : string_t) : M unit :=
  d ← get new_active;
  _ ← check_active;
  commit_active (ActiveDataset.set_NetworkName d aNetworkName).

Definition GetPanId : M Z :=
  _ ← check_active;
  _ ← refresh_active;
  d ← get mActiveDataset;
  _ ← check_present (ActiveDataset.mPresentFlags d) ActiveDataset.kPanIdBit;
  mret (ActiveDataset.mPanId d).

Definition SetPanId (aPanId aDelay : Z) : M unit :=
  d ← get new_pending;
  _ ← check_active;
  commit_pending (delayed (fun d => ActiveDataset.set_PanId d aPanId) aDelay d).

Definition GetPSKc : M ByteArray :=
  _ ← check_active;
  d ← get mActiveDataset;
  _ ← check_present (ActiveDataset.mPresentFlags d) ActiveDataset.kPSKcBit;
  mret (ActiveDataset.mPSKc d).

Definition SetPSKc (aPSKc : ByteArray) : M unit :=
  d ← get new_active;
  _ ← check_active;
  commit_active (ActiveDataset.set_PSKc d aPSKc).

Definition GetSecurityPolicy : M SecurityPolicy :=
  _ ← check_active;
  d ← get mActiveDataset;
  _ ← check_present (ActiveDataset.mPresentFlags d) ActiveDataset.kSecurityPolicyBit;
  mret (ActiveDataset.mSecurityPolicy d).

Definition SetSecurityPolicy (aSecurityPolicy : SecurityPolicy) : M unit :=
  d ← get new_active;
  _ ← check_active;
  commit_active (ActiveDataset.set_SecurityPolicy d aSecurityPolicy).

Definition GetActiveDataset (aDatasetFlags : Z) : M Active :=
  d ← call (lib_GetActiveDataset aDatasetFlags);
  _ ← put (fun a => with_active a (MergeActiveDataset (mActiveDataset a) d));
  mret d.
Definition SetActiveDataset (aDataset : Active) : M unit := commit_active aDataset.

Definition GetPendingDataset (aDatasetFlags : Z) : M Pending :=
  d ← call (lib_GetPendingDataset aDatasetFlags);
  _ ← put (fun a => with_pending a (MergePendingDataset (mPendingDataset a) d));
  mret d.
Definition SetPendingDataset (aDataset : Pending) : M unit := commit_pending aDataset.

Definition commit_bbr (d : Bbr) : M unit :=
  _ ← call (lib_SetBbrDataset d);
  put (fun a => with_bbr a (MergeBbrDataset (mBbrDataset a) d)).

Definition GetTriHostname : M string_t :=
  d ← get mBbrDataset;
  _ ← check_present (BbrDataset.mPresentFlags d) BbrDataset.kTriHostnameBit;
  mret (BbrDataset.mTriHostname d).

Definition SetTriHostname (aHostname : string_t) : M unit :=
  commit_bbr (BbrDataset.set_TriHostname BbrDataset.BbrDataset_init aHostname).

Definition GetRegistrarHostname : M string_t :=
  d ← get mBbrDataset;
  _ ← check_present (BbrDataset.mPresentFlags d) BbrDataset.kRegistrarHostnameBit;
  mret (BbrDataset.mRegistrarHostname d).

Definition SetRegistrarHostname (aHostname : string_t) : M unit :=
  let bbrDataset := BbrDataset.set_RegistrarHostname BbrDataset.BbrDataset_init aHostname in
  _ ← call (lib_SetBbrDataset bbrDataset);
  withRegAddr ← call (lib_GetBbrDataset BbrDataset.kRegistrarIpv6AddrBit);
  _ ← (if has (BbrDataset.mPresentFlags withRegAddr) BbrDataset.kRegistrarIpv6AddrBit then mret tt else throw kBadFormat);
  _ ← put (fun a => with_bbr a (MergeBbrDataset (mBbrDataset a) bbrDataset));
  put (fun a => with_bbr a (MergeBbrDataset (mBbrDataset a) withRegAddr)).

Definition GetRegistrarIpv6Addr : M string_t :=
  d ← get mBbrDataset;
  _ ← check_present (BbrDataset.mPresentFlags d) BbrDataset.kRegistrarIpv6AddrBit;
  mret (BbrDataset.mRegistrarIpv6Addr d).

Definition GetBbrDataset (aDatasetFlags : Z) : M Bbr :=
  d ← call (lib_GetBbrDataset aDatasetFlags);
  _ ← put (fun a => with_bbr a (MergeBbrDataset (mBbrDataset a) d));
  mret d.
Definition SetBbrDataset (aDataset : Bbr) : M unit := commit_bbr aDataset.

(** *** Commands and notifications *)

Definition Reenroll (aDstAddr : string_t) : M unit := call (lib_CommandReenroll aDstAddr).
Definition DomainReset (aDstAddr : string_t) : M unit := call (lib_CommandDomainReset aDstAddr).
Definition Migrate (aDstAddr aDesignatedNetwork : string_t) : M unit :=
  call (lib_CommandMigrate aDstAddr aDesignatedNetwork).

Definition RegisterMulticastListener (aMulticastAddrList : list string_t) (aTimeout : Z) : M unit :=
  _ ← check_active;
  status ← call (lib_RegisterMulticastListener aMulticastAddrList (u32 aTimeout));
  if (status : Z) =? kMlrStatusSuccess then mret tt else throw kRejected.

Definition AnnounceBegin (aChannelMask aCount aPeriod : Z) (aDtsAddr : string_t) : M unit :=
  _ ← check_active; call (lib_AnnounceBegin aChannelMask aCount (u16 aPeriod) aDtsAddr).
Definition PanIdQuery (aChannelMask aPanId : Z) (aDstAddr : string_t) : M unit :=
  _ ← check_active; call (lib_PanIdQuery aChannelMask aPanId aDstAddr).
Definition EnergyScan (aChannelMask aCount aPeriod aScanDuration : Z) (aDstAddr : string_t) : M unit :=
  _ ← check_active; call (lib_EnergyScan aChannelMask aCount aPeriod aScanDuration aDstAddr).

Definition HasPanIdConflict (a : App) (aPanId : Z) : bool := bool_decide (is_Some (mPanIdConflicts a !! aPanId)).
Definition GetEnergyReport (a : App) (aDstAddr : Address) : option EnergyReport := mEnergyReports a !! aDstAddr.

Definition OnPanIdConflict (aChannelMask : ChannelMask) (aPanId : Z) (a : App) : App :=
  with_conflicts a (<[aPanId := aChannelMask]> (mPanIdConflicts a)).

Definition OnEnergyReport (aPeerAddr : string_t) (aChannelMask : ChannelMask) (aEnergyList : ByteArray) (a : App) : outcome App :=
  match SetString inet_pton4 inet_pton6 aPeerAddr with
  | Ok addr => Ok (with_reports a (<[addr := mkReport aChannelMask aEnergyList]> (mEnergyReports a)))
  | _ => Die
  end.

(** The two responses that [OnDatasetChanged] waits for. *)
Definition OnDatasetChanged_active (r : outcome Active) (a : App) : App :=
  match r with Ok d => with_active a d | _ => a end.
Definition OnDatasetChanged_pending (r : outcome Pending) (a : App) : App :=
  match r with Ok d => with_pending a d | _ => a end.

Definition RequestToken (aAddr : string_t) (aPort : Z) : M unit :=
  t ← call (lib_RequestToken aAddr aPort); put (fun a => with_token a t).
Definition SetToken (aSignedToken : ByteArray) : M unit :=
  _ ← call (lib_SetToken aSignedToken); put (fun a => with_token a aSignedToken).
Definition GetToken (a : App) : ByteArray := mSignedToken a.

End App.
