(* ===== verification/CommissionerAppFacts.v ===== *)
(** * Properties of the commissioner application

    Merging of datasets, the joiners that may join, and the steering data that
    is to announce them. *)

From stdpp Require Import gmap.
From S2P Require Import Prelude Outcome Common Crypto NetworkData Dataset DatasetCodec CommissionerApp.
Import Endian Addr BloomFilter SteeringFacts DatasetFacts.

(** ** Presence flags *)

Lemma has_union f g b : has (Z.lor f g) b = has f b || has g b.
Proof.
  unfold has. rewrite Z.land_lor_distr_l. apply eq_iff_eq_true. rewrite orb_true_iff, !negb_true_iff, !Z.eqb_neq.
  rewrite Z.lor_eq_0_iff. destruct (decide (Z.land f b = 0)), (decide (Z.land g b = 0)); tauto.
Qed.

Lemma has_if (c : bool) f g b : has (if c then Z.lor f g else f) b = has f b || (c && has g b).
Proof. destruct c; [apply has_union|by rewrite orb_false_r]. Qed.

(** Tests of one bit against another. *)
Lemma has_bits i j : 0 <= i -> 0 <= j -> has (Z.shiftl 1 i) (Z.shiftl 1 j) = (i =? j).
Proof. intros Hi Hj. rewrite has_testbit by done. rewrite Z.shiftl_1_l. by apply Z.pow2_bits_eqb. Qed.

Lemma has_minus_bit f i j : 0 <= i -> 0 <= j ->
  has (Z.ldiff f (Z.shiftl 1 j)) (Z.shiftl 1 i) = if i =? j then false else has f (Z.shiftl 1 i).
Proof.
  intros Hi Hj. rewrite !has_testbit, Z.ldiff_spec, Z.shiftl_1_l, Z.pow2_bits_eqb by done.
  rewrite Z.eqb_sym. by destruct (i =? j); rewrite ?andb_false_r, ?andb_true_r.
Qed.

Ltac bit_numbers :=
  unfold ActiveDataset.kActiveTimestampBit, ActiveDataset.kChannelBit, ActiveDataset.kChannelMaskBit,
    ActiveDataset.kExtendedPanIdBit, ActiveDataset.kMeshLocalPrefixBit, ActiveDataset.kNetworkMasterKeyBit,
    ActiveDataset.kNetworkNameBit, ActiveDataset.kPanIdBit, ActiveDataset.kPSKcBit, ActiveDataset.kSecurityPolicyBit,
    PendingDataset.kDelayTimerBit, PendingDataset.kPendingTimestampBit,
    BbrDataset.kTriHostnameBit, BbrDataset.kRegistrarHostnameBit, BbrDataset.kRegistrarIpv6AddrBit,
    CommissionerDataset.kBorderAgentLocatorBit, CommissionerDataset.kSessionIdBit, CommissionerDataset.kSteeringDataBit,
    CommissionerDataset.kAeSteeringDataBit, CommissionerDataset.kNmkpSteeringDataBit,
    CommissionerDataset.kJoinerUdpPortBit, CommissionerDataset.kAeUdpPortBit, CommissionerDataset.kNmkpUdpPortBit in *.
Ltac flags :=
  bit_numbers; rewrite ?has_minus_bit by lia; rewrite ?has_bits by lia; cbn [Z.eqb Pos.eqb];
  rewrite ?andb_true_r, ?andb_false_r, ?orb_false_r, ?orb_true_r.

(** ** Merging *)

(** The present fields of a dataset. *)
Definition present {A} (flags bit : Z) (v : A) : option A := if has flags bit then Some v else None.

Section ActiveView.
Import ActiveDataset.
Definition active_view (d : Active) :=
  let f := mPresentFlags d in
  (present f kActiveTimestampBit (mActiveTimestamp d), present f kChannelBit (mChannel d),
   present f kChannelMaskBit (mChannelMask d), present f kExtendedPanIdBit (mExtendedPanId d),
   present f kMeshLocalPrefixBit (mMeshLocalPrefix d), present f kNetworkMasterKeyBit (mNetworkMasterKey d),
   present f kNetworkNameBit (mNetworkName d), present f kPanIdBit (mPanId d),
   present f kPSKcBit (mPSKc d), present f kSecurityPolicyBit (mSecurityPolicy d)).

Lemma if_active (b : bool) t ch cm xp ml nk nn pi pk sp f t' ch' cm' xp' ml' nk' nn' pi' pk' sp' f' :
  (if b then mkDataset t ch cm xp ml nk nn pi pk sp f else mkDataset t' ch' cm' xp' ml' nk' nn' pi' pk' sp' f')
  = mkDataset (if b then t else t') (if b then ch else ch') (if b then cm else cm') (if b then xp else xp')
      (if b then ml else ml') (if b then nk else nk') (if b then nn else nn') (if b then pi else pi')
      (if b then pk else pk') (if b then sp else sp') (if b then f else f').
Proof. by destruct b. Qed.

(** What merging computes. *)
Lemma MergeActive_fields dst src :
  let fs := mPresentFlags src in
  exists f, MergeActiveDataset dst src = mkDataset
    (if has fs kActiveTimestampBit then mActiveTimestamp src else mActiveTimestamp dst)
    (if has fs kChannelBit then mChannel src else mChannel dst)
    (if has fs kChannelMaskBit then mChannelMask src else mChannelMask dst)
    (if has fs kExtendedPanIdBit then mExtendedPanId src else mExtendedPanId dst)
    (if has fs kMeshLocalPrefixBit then mMeshLocalPrefix src else mMeshLocalPrefix dst)
    (if has fs kNetworkMasterKeyBit then mNetworkMasterKey src else mNetworkMasterKey dst)
    (if has fs kNetworkNameBit then mNetworkName src else mNetworkName dst)
    (if has fs kPanIdBit then mPanId src else mPanId dst)
    (if has fs kPSKcBit then mPSKc src else mPSKc dst)
    (if has fs kSecurityPolicyBit then mSecurityPolicy src else mSecurityPolicy dst) f /\
  (forall b, has f b = has (mPresentFlags dst) b
    || (has fs kActiveTimestampBit && has kActiveTimestampBit b) || (has fs kChannelBit && has kChannelBit b)
    || (has fs kChannelMaskBit && has kChannelMaskBit b) || (has fs kExtendedPanIdBit && has kExtendedPanIdBit b)
    || (has fs kMeshLocalPrefixBit && has kMeshLocalPrefixBit b)
    || (has fs kNetworkMasterKeyBit && has kNetworkMasterKeyBit b)
    || (has fs kNetworkNameBit && has kNetworkNameBit b) || (has fs kPanIdBit && has kPanIdBit b)
    || (has fs kPSKcBit && has kPSKcBit b) || (has fs kSecurityPolicyBit && has kSecurityPolicyBit b)).
Proof.
  intros fs. unfold MergeActiveDataset. fold fs. destruct dst as [t ch cm xp ml nk nn pi pk sp f].
  unfold set_ActiveTimestamp, set_Channel, set_ChannelMask, set_ExtendedPanId, set_MeshLocalPrefix, set_NetworkMasterKey,
    set_NetworkName, set_PanId, set_PSKc, set_SecurityPolicy.
  repeat (rewrite if_active, ?if_same; cbv beta iota). eexists. split; [reflexivity|]. intros b.
  by rewrite !has_if.
Qed.
End ActiveView.

(** *** Every kind of dataset *)

Section Views.

Definition pending_view (d : Pending) :=
  let f := ActiveDataset.mPresentFlags (PendingDataset.mActive d) in
  (active_view (PendingDataset.mActive d), present f PendingDataset.kPendingTimestampBit (PendingDataset.mPendingTimestamp d),
   present f PendingDataset.kDelayTimerBit (PendingDataset.mDelayTimer d)).

Definition bbr_view (d : Bbr) :=
  let f := BbrDataset.mPresentFlags d in
  (present f BbrDataset.kTriHostnameBit (BbrDataset.mTriHostname d),
   present f BbrDataset.kRegistrarHostnameBit (BbrDataset.mRegistrarHostname d),
   present f BbrDataset.kRegistrarIpv6AddrBit (BbrDataset.mRegistrarIpv6Addr d)).

(** The fields the network owns, and the fields the commissioner owns. *)
Definition network_view (d : Comm) :=
  let f := CommissionerDataset.mPresentFlags d in
  (present f CommissionerDataset.kBorderAgentLocatorBit (CommissionerDataset.mBorderAgentLocator d),
   present f CommissionerDataset.kSessionIdBit (CommissionerDataset.mSessionId d)).
Definition steering_view (d : Comm) (t : JoinerType) :=
  (present (CommissionerDataset.mPresentFlags d) (steering_bit t) (steering d t),
   present (CommissionerDataset.mPresentFlags d) (udp_port_bit t) (udp_port d t)).

End Views.

(** Right-biased union of what is present. *)
Class Merge (A : Type) := merge : A -> A -> A.
#[export] Instance merge_option {A} : Merge (option A) := fun new old => match new with Some v => Some v | None => old end.
#[export] Instance merge_prod {A B} `{Merge A, Merge B} : Merge (A * B) :=
  fun new old => (merge new.1 old.1, merge new.2 old.2).

(** The laws of the union. *)
Class MergeLaws A `{Merge A} : Prop := {
  merge_idem (x : A) : merge x x = x;
  merge_assoc (x y z : A) : merge x (merge y z) = merge (merge x y) z }.
#[export] Instance merge_option_laws {A} : MergeLaws (option A).
Proof. split; [by intros []|by intros [] [] []]. Qed.
#[export] Instance merge_prod_laws {A B} `{MergeLaws A, MergeLaws B} : MergeLaws (A * B).
Proof.
  split; [intros []|intros [] [] []]; unfold merge, merge_prod; cbn; f_equal; apply merge_idem || apply merge_assoc.
Qed.

Lemma present_merge {A} fs fd f b (s d : A) :
  has f b = has fd b || has fs b ->
  present f b (if has fs b then s else d) = merge (present fs b s) (present fd b d).
Proof. unfold present. intros ->. destruct (has fs b), (has fd b); done. Qed.

Lemma merge_pair {A B} `{Merge A, Merge B} (a c : A) (b d : B) : merge (a, b) (c, d) = (merge a c, merge b d).
Proof. done. Qed.

Ltac bits H := rewrite H; flags; done.

Lemma active_merge dst src : active_view (MergeActiveDataset dst src) = merge (active_view src) (active_view dst).
Proof.
  destruct (MergeActive_fields dst src) as (f & -> & Hf). unfold active_view. cbv zeta.
  cbn [ActiveDataset.mPresentFlags ActiveDataset.mActiveTimestamp ActiveDataset.mChannel ActiveDataset.mChannelMask
       ActiveDataset.mExtendedPanId ActiveDataset.mMeshLocalPrefix ActiveDataset.mNetworkMasterKey
       ActiveDataset.mNetworkName ActiveDataset.mPanId ActiveDataset.mPSKc ActiveDataset.mSecurityPolicy].
  rewrite !merge_pair. repeat (apply pair_equal_spec; split); (apply present_merge; bits Hf).
Qed.


(** Flags that only a subclass uses do not matter to the base class. *)
Lemma active_view_flags d f :
  (forall i, 6 <= i -> has f (Z.shiftl 1 i) = has (ActiveDataset.mPresentFlags d) (Z.shiftl 1 i)) ->
  active_view (ActiveDataset.with_flags d f) = active_view d.
Proof. intros H. destruct d. unfold active_view, present. cbn -[has] in *. bit_numbers. by rewrite !H by lia. Qed.

Lemma pending_view_delay d v :
  pending_view (PendingDataset.set_DelayTimer d v) = (active_view (PendingDataset.mActive d), (pending_view d).1.2, Some v).
Proof.
  destruct d as [a dt pt]. unfold pending_view, PendingDataset.set_DelayTimer.
  cbn [PendingDataset.mActive PendingDataset.mDelayTimer PendingDataset.mPendingTimestamp fst snd].
  rewrite active_view_flags.
  - destruct a. cbn [ActiveDataset.with_flags ActiveDataset.mPresentFlags]. unfold present. rewrite !has_union. by flags.
  - intros i Hi. rewrite has_union. bit_numbers. rewrite has_bits by lia.
    by rewrite (proj2 (Z.eqb_neq 5 i)), orb_false_r by lia.
Qed.

Lemma pending_view_timestamp d v :
  pending_view (PendingDataset.set_PendingTimestamp d v) = (active_view (PendingDataset.mActive d), Some v, (pending_view d).2).
Proof.
  destruct d as [a dt pt]. unfold pending_view, PendingDataset.set_PendingTimestamp.
  cbn [PendingDataset.mActive PendingDataset.mDelayTimer PendingDataset.mPendingTimestamp fst snd].
  rewrite active_view_flags.
  - destruct a. cbn [ActiveDataset.with_flags ActiveDataset.mPresentFlags]. unfold present. rewrite !has_union. by flags.
  - intros i Hi. rewrite has_union. bit_numbers. rewrite has_bits by lia.
    by rewrite (proj2 (Z.eqb_neq 4 i)), orb_false_r by lia.
Qed.

Lemma pending_view_active d v :
  active_view (PendingDataset.mActive (PendingDataset.set_PendingTimestamp d v)) = active_view (PendingDataset.mActive d).
Proof. exact (f_equal (fun x => x.1.1) (pending_view_timestamp d v)). Qed.

Lemma pending_merge dst src : pending_view (MergePendingDataset dst src) = merge (pending_view src) (pending_view dst).
Proof.
  unfold MergePendingDataset. cbv zeta. set (base := PendingDataset.mkPending _ _ _).
  set (fs := ActiveDataset.mPresentFlags (PendingDataset.mActive src)).
  assert (Hb : pending_view base = merge (active_view (PendingDataset.mActive src), None, None) (pending_view dst)).
  { unfold pending_view. cbv zeta. rewrite !merge_pair, <- active_merge. unfold base. cbn [PendingDataset.mActive].
    destruct (MergeActive_fields (PendingDataset.mActive dst) (PendingDataset.mActive src)) as (f & -> & Hf).
    cbn [ActiveDataset.mPresentFlags PendingDataset.mDelayTimer PendingDataset.mPendingTimestamp].
    unfold present. rewrite !Hf. by flags. }
  assert (Hs : pending_view src = (active_view (PendingDataset.mActive src),
     present fs PendingDataset.kPendingTimestampBit (PendingDataset.mPendingTimestamp src),
     present fs PendingDataset.kDelayTimerBit (PendingDataset.mDelayTimer src))) by done.
  rewrite Hs. unfold present.
  assert (Ha : active_view (PendingDataset.mActive base) = merge (active_view (PendingDataset.mActive src)) (active_view (PendingDataset.mActive dst)))
    by apply active_merge.
  destruct (has fs PendingDataset.kPendingTimestampBit), (has fs PendingDataset.kDelayTimerBit);
    rewrite ?pending_view_delay, ?pending_view_timestamp, ?pending_view_active, ?Hb.
  all: unfold pending_view at 1; rewrite ?Ha; done.
Qed.

Lemma bbr_merge dst src : bbr_view (MergeBbrDataset dst src) = merge (bbr_view src) (bbr_view dst).
Proof.
  unfold bbr_view, MergeBbrDataset. destruct dst as [t h a f]. set (fs := BbrDataset.mPresentFlags src).
  unfold BbrDataset.set_TriHostname, BbrDataset.set_RegistrarHostname, BbrDataset.set_RegistrarIpv6Addr.
  repeat (rewrite BbrCodec.if_bbr, ?if_same; cbv beta iota). cbv zeta.
  cbn [BbrDataset.mPresentFlags BbrDataset.mTriHostname BbrDataset.mRegistrarHostname BbrDataset.mRegistrarIpv6Addr].
  rewrite !merge_pair. repeat (apply pair_equal_spec; split); (apply present_merge; rewrite !has_if; flags; done).
Qed.

Lemma has_set_clear (c : bool) f i j : 0 <= i -> 0 <= j ->
  has (if c then Z.lor f (Z.shiftl 1 j) else Z.ldiff f (Z.shiftl 1 j)) (Z.shiftl 1 i)
  = if i =? j then c else has f (Z.shiftl 1 i).
Proof.
  intros Hi Hj. destruct c; [rewrite has_union, has_bits by done|by rewrite has_minus_bit by done].
  rewrite Z.eqb_sym. destruct (i =? j); by rewrite ?orb_true_r, ?orb_false_r.
Qed.

Lemma comm_merge dst src :
  network_view (MergeCommDataset dst src) = merge (network_view src) (network_view dst) /\
  forall t, steering_view (MergeCommDataset dst src) t = steering_view src t.
Proof.
  unfold network_view, steering_view, MergeCommDataset. destruct dst as [bl si sd ae nm jp ap np f].
  set (fs := CommissionerDataset.mPresentFlags src). cbv zeta.
  unfold CommissionerDataset.set_BorderAgentLocator, CommissionerDataset.set_SessionId, CommissionerDataset.set_SteeringData,
    CommissionerDataset.set_AeSteeringData, CommissionerDataset.set_NmkpSteeringData, CommissionerDataset.set_JoinerUdpPort,
    CommissionerDataset.set_AeUdpPort, CommissionerDataset.set_NmkpUdpPort, clear.
  repeat (rewrite CommissionerCodec.if_com, ?if_same; cbv beta iota).
  cbn [CommissionerDataset.mPresentFlags CommissionerDataset.mBorderAgentLocator CommissionerDataset.mSessionId].
  bit_numbers. split.
  - rewrite merge_pair. apply pair_equal_spec; split; (apply present_merge; rewrite !has_set_clear by lia; cbn [Z.eqb Pos.eqb];
      rewrite !has_if, !has_bits by lia; cbn [Z.eqb Pos.eqb]; by rewrite ?andb_true_r, ?andb_false_r, ?orb_false_r).
  - intros t. unfold steering, udp_port, steering_bit, udp_port_bit, present.
    cbn [CommissionerDataset.mSteeringData CommissionerDataset.mAeSteeringData CommissionerDataset.mNmkpSteeringData
         CommissionerDataset.mJoinerUdpPort CommissionerDataset.mAeUdpPort CommissionerDataset.mNmkpUdpPort].
    bit_numbers. destruct t; rewrite !has_set_clear by lia; cbn [Z.eqb Pos.eqb]; apply pair_equal_spec; split; by case_if.
Qed.

(** Merging is the right-biased union of the present fields: a field of the result is the new one if it is
    present, else the old one, whatever the absent fields hold; so merging again changes nothing, and merging
    two datasets one after the other is merging their merge.  Commissioner Datasets are different: only the
    border agent locator and the session id are kept when they are missing; steering data and ports become
    exactly those of the new dataset, and are dropped when they are missing there. *)
Theorem merge_datasets :
  (forall dst src, active_view (MergeActiveDataset dst src) = merge (active_view src) (active_view dst)) /\
  (forall dst src, pending_view (MergePendingDataset dst src) = merge (pending_view src) (pending_view dst)) /\
  (forall dst src, bbr_view (MergeBbrDataset dst src) = merge (bbr_view src) (bbr_view dst)) /\
  (forall dst src, network_view (MergeCommDataset dst src) = merge (network_view src) (network_view dst) /\
     forall t, steering_view (MergeCommDataset dst src) t = steering_view src t) /\
  (forall dst s1 s2,
     active_view (MergeActiveDataset (MergeActiveDataset dst s1) s1) = active_view (MergeActiveDataset dst s1) /\
     active_view (MergeActiveDataset (MergeActiveDataset dst s1) s2)
     = active_view (MergeActiveDataset dst (MergeActiveDataset s1 s2))).
Proof.
  split_and!; [apply active_merge|apply pending_merge|apply bbr_merge|apply comm_merge|].
  intros dst s1 s2. rewrite !active_merge. by rewrite !merge_assoc, merge_idem.
Qed.

(** ** Joiner credentials *)

(** A character of a joining device credential. *)
Definition pskd_char (c : Z) : Prop := (48 <= c <= 57 \/ 65 <= c <= 90) /\ c <> 73 /\ c <> 79 /\ c <> 81 /\ c <> 90.

Lemma ValidatePSKd_loop_spec p :
  ValidatePSKd_loop p = Ok tt /\ Forall pskd_char p \/ ValidatePSKd_loop p = Err kInvalidArgs /\ ~ Forall pskd_char p.
Proof.
  induction p as [|c p IH]; cbn [ValidatePSKd_loop]; [by left|].
  destruct (isdigit c || isupper c) eqn:E1; [|right; split; [done|]].
  2: { unfold isdigit, isupper in E1. bool_to_prop. rewrite Forall_cons. unfold pskd_char. lia. }
  destruct (negb (c =? 73) && negb (c =? 79) && negb (c =? 81) && negb (c =? 90)) eqn:E2; [|right; split; [done|]].
  2: { bool_to_prop. rewrite Forall_cons. unfold pskd_char. lia. }
  unfold isdigit, isupper in E1. bool_to_prop. rewrite Forall_cons. unfold pskd_char in *. intuition lia.
Qed.

Lemma ValidatePSKd_spec p :
  ValidatePSKd p = Ok tt /\ 6 <= zlen p <= 32 /\ Forall pskd_char p
  \/ ValidatePSKd p = Err kInvalidArgs /\ ~ (6 <= zlen p <= 32 /\ Forall pskd_char p).
Proof.
  unfold ValidatePSKd, kMinJoinerDeviceCredentialLength, kMaxJoinerDeviceCredentialLength.
  destruct ((6 <=? zlen p) && (zlen p <=? 32)) eqn:E; bool_to_prop.
  - destruct (ValidatePSKd_loop_spec p) as [[-> ?]|[-> ?]]; [left|right]; intuition lia.
  - right. split; [done|]. lia.
Qed.

(** ** The operations of the application *)

Inductive Op : Type :=
| OpStart (addr : string_t) (port : Z) | OpStop | OpCancelRequests | OpSyncNetworkData
| OpEnableJoiner (t : JoinerType) (eui64 : Z) (pskd url : string_t) | OpDisableJoiner (t : JoinerType) (eui64 : Z)
| OpEnableAllJoiners (t : JoinerType) (pskd url : string_t) | OpDisableAllJoiners (t : JoinerType)
| OpSetJoinerUdpPort (t : JoinerType) (port : Z)
| OpGetCommissionerDataset (flags : Z) | OpSetCommissionerDataset (d : Comm)
| OpGetChannel | OpSetChannel (c : Channel) (delay : Z) | OpSetChannelMask (m : ChannelMask)
| OpSetExtendedPanId (b : ByteArray) | OpGetMeshLocalPrefix | OpSetMeshLocalPrefix (p : string_t) (delay : Z)
| OpGetNetworkMasterKey | OpSetNetworkMasterKey (k : ByteArray) (delay : Z) | OpSetNetworkName (n : string_t)
| OpGetPanId | OpSetPanId (p delay : Z) | OpSetPSKc (k : ByteArray) | OpSetSecurityPolicy (p : SecurityPolicy)
| OpGetActiveDataset (flags : Z) | OpSetActiveDataset (d : Active)
| OpGetPendingDataset (flags : Z) | OpSetPendingDataset (d : Pending)
| OpSetTriHostname (n : string_t) | OpSetRegistrarHostname (n : string_t)
| OpGetBbrDataset (flags : Z) | OpSetBbrDataset (d : Bbr)
| OpReenroll (dst : string_t) | OpDomainReset (dst : string_t) | OpMigrate (dst net : string_t)
| OpRegisterMulticastListener (addrs : list string_t) (timeout : Z)
| OpAnnounceBegin (mask count period : Z) (dst : string_t) | OpPanIdQuery (mask panId : Z) (dst : string_t)
| OpEnergyScan (mask count period duration : Z) (dst : string_t)
| OpOnPanIdConflict (m : ChannelMask) (panId : Z) | OpOnEnergyReport (peer : string_t) (m : ChannelMask) (l : ByteArray)
| OpOnActiveChanged (r : outcome Active) | OpOnPendingChanged (r : outcome Pending)
| OpRequestToken (addr : string_t) (port : Z) | OpSetToken (t : ByteArray).

Section App.
Context {S : Type} `{Library S}.
Context (sha256 : ByteArray -> ByteArray).
Context (inet_pton4 inet_pton6 : string_t -> option ByteArray).
Context (inet_ntop4 inet_ntop6 : ByteArray -> option string_t).
Context (channel0 : Channel) (panId0 rotation0 delay0 : Z).
Abbreviation App := (@App S).

(** The state behind a blocking operation; the caller gets the result. *)
Definition after {A} (r : App * outcome A) : outcome App := match r with (a, Die) => Die | (a, _) => Ok a end.

Definition perform (o : Op) (a : App) : outcome App :=
  match o with
  | OpStart addr port =>
      let '(a, _, r) := Start channel0 panId0 rotation0 delay0 addr port a in after (a, r)
  | OpStop => Ok (Stop channel0 panId0 rotation0 delay0 a)
  | OpCancelRequests => Ok (CancelRequests a)
  | OpSyncNetworkData => after (SyncNetworkData a)
  | OpEnableJoiner t e p u => after (EnableJoiner sha256 t e p u a)
  | OpDisableJoiner t e => after (DisableJoiner sha256 t e a)
  | OpEnableAllJoiners t p u => after (EnableAllJoiners sha256 t p u a)
  | OpDisableAllJoiners t => after (DisableAllJoiners t a)
  | OpSetJoinerUdpPort t p => after (SetJoinerUdpPort t p a)
  | OpGetCommissionerDataset f => after (GetCommissionerDataset f a)
  | OpSetCommissionerDataset d => after (SetCommissionerDataset d a)
  | OpGetChannel => after (GetChannel a)
  | OpSetChannel c d => after (SetChannel channel0 panId0 rotation0 delay0 c d a)
  | OpSetChannelMask m => after (SetChannelMask channel0 panId0 rotation0 m a)
  | OpSetExtendedPanId b => after (SetExtendedPanId channel0 panId0 rotation0 b a)
  | OpGetMeshLocalPrefix => after (GetMeshLocalPrefix inet_ntop4 inet_ntop6 a)
  | OpSetMeshLocalPrefix p d => after (SetMeshLocalPrefix inet_pton4 inet_pton6 channel0 panId0 rotation0 delay0 p d a)
  | OpGetNetworkMasterKey => after (GetNetworkMasterKey a)
  | OpSetNetworkMasterKey k d => after (SetNetworkMasterKey channel0 panId0 rotation0 delay0 k d a)
  | OpSetNetworkName n => after (SetNetworkName channel0 panId0 rotation0 n a)
  | OpGetPanId => after (GetPanId a)
  | OpSetPanId p d => after (SetPanId channel0 panId0 rotation0 delay0 p d a)
  | OpSetPSKc k => after (SetPSKc channel0 panId0 rotation0 k a)
  | OpSetSecurityPolicy p => after (SetSecurityPolicy channel0 panId0 rotation0 p a)
  | OpGetActiveDataset f => after (GetActiveDataset f a)
  | OpSetActiveDataset d => after (SetActiveDataset d a)
  | OpGetPendingDataset f => after (GetPendingDataset f a)
  | OpSetPendingDataset d => after (SetPendingDataset d a)
  | OpSetTriHostname n => after (SetTriHostname n a)
  | OpSetRegistrarHostname n => after (SetRegistrarHostname n a)
  | OpGetBbrDataset f => after (GetBbrDataset f a)
  | OpSetBbrDataset d => after (SetBbrDataset d a)
  | OpReenroll d => after (Reenroll d a)
  | OpDomainReset d => after (DomainReset d a)
  | OpMigrate d n => after (Migrate d n a)
  | OpRegisterMulticastListener l t => after (RegisterMulticastListener l t a)
  | OpAnnounceBegin m c p d => after (AnnounceBegin m c p d a)
  | OpPanIdQuery m p d => after (PanIdQuery m p d a)
  | OpEnergyScan m c p u d => after (EnergyScan m c p u d a)
  | OpOnPanIdConflict m p => Ok (OnPanIdConflict m p a)
  | OpOnEnergyReport p m l => OnEnergyReport inet_pton4 inet_pton6 p m l a
  | OpOnActiveChanged r => Ok (OnDatasetChanged_active r a)
  | OpOnPendingChanged r => Ok (OnDatasetChanged_pending r a)
  | OpRequestToken ad p => after (RequestToken ad p a)
  | OpSetToken t => after (SetToken t a)
  end.

Fixpoint perform_all (l : list Op) (a : App) : outcome App :=
  match l with [] => Ok a | o :: l => a ← perform o a; perform_all l a end.

(** *** Operations that leave the joiners and the Commissioner Dataset alone *)

Definition keeps {A} (m : App -> App * outcome A) : Prop :=
  forall a, mJoiners (m a).1 = mJoiners a /\ mCommDataset (m a).1 = mCommDataset a.

Lemma keeps_bind {A B} (m : App -> App * outcome A) (f : A -> App -> App * outcome B) :
  keeps m -> (forall x, keeps (f x)) -> keeps (M_bind _ _ f m).
Proof.
  intros Hm Hf a. unfold M_bind. specialize (Hm a). destruct (m a) as [a' [x|e|]]; cbn in *; [|done|done].
  destruct (Hf x a') as [-> ->]. done.
Qed.

Lemma keeps_call {A} (f : S -> S * outcome A) : keeps (call f).
Proof. intros a. unfold call. by destruct (f (mCommissioner a)). Qed.
Lemma keeps_throw {A} e : keeps (@throw S A e).
Proof. done. Qed.
Lemma keeps_get {A} (f : App -> A) : keeps (get f).
Proof. done. Qed.
Lemma keeps_ret {A} (x : A) : keeps (M_ret A x).
Proof. done. Qed.
Lemma keeps_lift {A} (m : outcome A) : keeps (lift m).
Proof. done. Qed.
Lemma keeps_put (f : App -> App) : (forall a, mJoiners (f a) = mJoiners a /\ mCommDataset (f a) = mCommDataset a) -> keeps (put f).
Proof. done. Qed.
Lemma keeps_check_active : keeps check_active.
Proof. done. Qed.
Lemma keeps_check_present f b : keeps (@check_present S f b).
Proof. done. Qed.
Lemma keeps_demand f b : keeps (@demand S f b).
Proof. done. Qed.

Lemma keeps_if {A} (b : bool) (m m' : App -> App * outcome A) : keeps m -> keeps m' -> keeps (if b then m else m').
Proof. by destruct b. Qed.

Lemma after_keeps {A} (m : App -> App * outcome A) a a' :
  keeps m -> after (m a) = Ok a' -> mJoiners a' = mJoiners a /\ mCommDataset a' = mCommDataset a.
Proof. intros Hm E. specialize (Hm a). destruct (m a) as [a'' [?|?|]]; cbn in *; by simplify_eq. Qed.

Ltac keep :=
  repeat first
    [ intros ?
    | apply keeps_call | apply keeps_get | apply keeps_throw | apply keeps_ret | apply keeps_lift
    | apply keeps_check_active | apply keeps_check_present | apply keeps_demand
    | apply keeps_put; intros; split; reflexivity
    | apply keeps_if
    | apply keeps_bind ].

(** The operations on joiners, and those that replace the Commissioner Dataset. *)
Definition about_joiners (o : Op) : bool :=
  match o with
  | OpStart _ _ | OpStop | OpSyncNetworkData | OpEnableJoiner _ _ _ _ | OpDisableJoiner _ _ | OpEnableAllJoiners _ _ _
  | OpDisableAllJoiners _ | OpSetJoinerUdpPort _ _ | OpSetCommissionerDataset _ => true
  | _ => false
  end.

Lemma perform_keeps o a a' : about_joiners o = false -> perform o a = Ok a' ->
  mJoiners a' = mJoiners a /\ mCommDataset a' = mCommDataset a.
Proof.
  intros Ho E. destruct o; try discriminate Ho; cbn [perform] in E.
  all: try (eapply after_keeps; [|exact E]; keep; fail).
  - by injection E as <-.
  - by injection E as <-.
  - unfold OnEnergyReport in E. destruct (SetString _ _ _); by simplify_eq.
  - injection E as <-. by destruct r.
  - injection E as <-. by destruct r.
Qed.

(** *** The steering data announces the joiners *)

(** The steering data for a type of joiners, when it is present. *)
Definition announced (a : App) (t : JoinerType) : option ByteArray := (steering_view (mCommDataset a) t).1.

Definition covers (a : App) : Prop := forall t id i, mJoiners a !! (t, id) = Some i ->
  exists f, announced a t = Some f /\ zlen f = kMaxSteeringDataLength /\ admits f id = true.

Definition steering_ok (a : App) : Prop := covers a /\ forall t, bytes (steering (mCommDataset a) t).

Lemma steering_set d t t' v : steering (set_steering d t v) t' = if bool_decide (t = t') then v else steering d t'.
Proof. by destruct t, t', d. Qed.

Lemma steering_editable d t : steering (editable d) t = steering d t.
Proof. by destruct t, d. Qed.

Lemma steering_set_port d t t' v : steering (set_udp_port d t v) t' = steering d t'.
Proof. by destruct t, t', d. Qed.

Lemma view_set d t t' v :
  (steering_view (set_steering (editable d) t v) t').1 = if bool_decide (t = t') then Some v else (steering_view d t').1.
Proof.
  destruct d. unfold steering_view, present, editable, clear. cbn -[has].
  destruct t, t'; cbn -[has Z.lor Z.ldiff Z.shiftl]; bit_numbers; rewrite ?has_union; rewrite ?has_minus_bit by lia;
    cbn [Z.eqb Pos.eqb]; rewrite ?has_bits by lia; cbn [Z.eqb Pos.eqb]; by rewrite ?orb_true_r, ?orb_false_r.
Qed.

Lemma view_set_port d t t' v :
  (steering_view (set_udp_port (editable d) t v) t').1 = (steering_view d t').1.
Proof.
  destruct d. unfold steering_view, present, editable, clear. cbn -[has].
  destruct t, t'; cbn -[has Z.lor Z.ldiff Z.shiftl]; bit_numbers; rewrite ?has_union; rewrite ?has_minus_bit by lia;
    cbn [Z.eqb Pos.eqb]; rewrite ?has_bits by lia; cbn [Z.eqb Pos.eqb]; by rewrite ?orb_true_r, ?orb_false_r.
Qed.

(** The steering data of a merge, present or not, is one of the two. *)
Lemma steering_merge d s t : steering (MergeCommDataset d s) t = steering s t \/ steering (MergeCommDataset d s) t = steering d t.
Proof.
  destruct d as [bl si sd ae nm jp ap np f]. unfold MergeCommDataset.
  unfold CommissionerDataset.set_BorderAgentLocator, CommissionerDataset.set_SessionId, CommissionerDataset.set_SteeringData,
    CommissionerDataset.set_AeSteeringData, CommissionerDataset.set_NmkpSteeringData, CommissionerDataset.set_JoinerUdpPort,
    CommissionerDataset.set_AeUdpPort, CommissionerDataset.set_NmkpUdpPort, clear. cbv zeta.
  repeat (rewrite CommissionerCodec.if_com, ?if_same; cbv beta iota).
  destruct t; cbn [steering CommissionerDataset.mSteeringData CommissionerDataset.mAeSteeringData
    CommissionerDataset.mNmkpSteeringData]; case_if; auto.
Qed.

Lemma AddJoiner_spec s id : bytes s ->
  exists f, AddJoiner s id = Ok f /\ bytes f /\ zlen f = kMaxSteeringDataLength /\ admits f id = true /\
    (zlen s = kMaxSteeringDataLength -> forall id', admits s id' = true -> admits f id' = true).
Proof.
  intros Hb. unfold AddJoiner.
  match goal with |- context [ComputeBloomFilter ?x id] => set (s' := x) end.
  assert (Hs : filter_ok 16 s' /\ (zlen s = kMaxSteeringDataLength -> s' = s)).
  { unfold s'. case_if; bool_to_prop; [|by split].
    split; [|done]. split; [|done]. by apply Forall_replicate. }
  destruct Hs as [Hs Hsame].
  destruct (ComputeBloomFilter_admits 16 s' id Hs) as (f & E & Hf & Ha & Hmono); [lia|].
  exists f. split; [done|]. split; [apply Hf|]. split; [apply Hf|]. split; [done|].
  intros Hl. by rewrite (Hsame Hl) in Hmono.
Qed.

(** What happens to the Commissioner Dataset when a joiner operation has sent its copy [d]. *)
Lemma covers_erase a a' t :
  covers a -> (forall t', t' <> t -> announced a' t' = announced a t') ->
  mJoiners a' = EraseAllJoiners t (mJoiners a) -> covers a'.
Proof.
  intros Hc Ha Hj t' id i Hi. rewrite Hj in Hi. unfold EraseAllJoiners in Hi.
  apply map_lookup_filter_Some in Hi as [Hi Hne]. rewrite Ha by done. by eapply Hc.
Qed.

Lemma covers_insert a a' t id i f :
  covers a -> mJoiners a' = <[(t, id) := i]> (mJoiners a) ->
  announced a' t = Some f -> zlen f = kMaxSteeringDataLength -> admits f id = true ->
  (forall f0, announced a t = Some f0 -> zlen f0 = kMaxSteeringDataLength -> forall id', admits f0 id' = true -> admits f id' = true) ->
  (forall t', t' <> t -> announced a' t' = announced a t') -> covers a'.
Proof.
  intros Hc Hj Hf Hl Hid Hmono Hother t' id' i' Hi. rewrite Hj in Hi.
  destruct (decide (t' = t)) as [->|Hne].
  - exists f. split; [done|]. split; [done|]. apply lookup_insert_Some in Hi as [[[= <-] _]|[_ Hi]]; [done|].
    destruct (Hc t id' i' Hi) as (f0 & H0 & Hl0 & Ha). by eapply Hmono.
  - rewrite Hother by done. apply lookup_insert_Some in Hi as [[[= <- <-] _]|[_ Hi]]; [done|]. by eapply Hc.
Qed.

Lemma announced_merge (a : App) x d t : mCommDataset a = MergeCommDataset x d -> announced a t = (steering_view d t).1.
Proof. unfold announced. intros ->. by rewrite (proj2 (comm_merge _ _)). Qed.

Lemma bytes_merge (a : App) d :
  (forall t, bytes (steering (mCommDataset a) t)) -> (forall t, bytes (steering d t)) ->
  forall t, bytes (steering (MergeCommDataset (mCommDataset a) d) t).
Proof. intros Ha Hd t. by destruct (steering_merge (mCommDataset a) d t) as [->| ->]. Qed.

Lemma bytes_set d t v :
  (forall t, bytes (steering d t)) -> bytes v -> forall t', bytes (steering (set_steering (editable d) t v) t').
Proof. intros Hd Hv t'. rewrite steering_set, steering_editable. by case_bool_decide. Qed.

Lemma EnableJoiner_steering t e p u a a' :
  steering_ok a -> after (EnableJoiner sha256 t e p u a) = Ok a' -> steering_ok a'.
Proof.
  intros [Hc Hb] E. unfold EnableJoiner, lift, get, check_active, throw, put, call in E.
  unfold mbind in E at 1. cbv [M_bind mbind] in E.
  destruct (ComputeJoinerId sha256 e) as [id|?|]; [|by simplify_eq/=..].
  destruct (check_pskd t p) as [[]|?|]; [|by simplify_eq/=..].
  destruct (IsActive a); [|by simplify_eq/=].
  destruct (mJoiners a !! (t, id)) eqn:Hn; [by simplify_eq/=|].
  rewrite steering_editable in E. destruct (AddJoiner_spec (steering (mCommDataset a) t) id) as (f & Ef & Hbf & Hl & Hid & Hmono); [done|].
  rewrite Ef in E. destruct (lib_SetCommissionerDataset _ _) as [s' [[]|?|]]; cbn in E; [|by simplify_eq..].
  injection E as <-. split.
  - eapply (covers_insert a _ t id _ f); [done|reflexivity|..]; try done.
    + erewrite announced_merge by reflexivity. rewrite view_set. by rewrite bool_decide_eq_true_2.
    + intros f0 H0 Hl0. unfold announced, steering_view, present in H0. cbn in H0. case_if; [|done]. injection H0 as <-. by apply Hmono.
    + intros t' Hne. erewrite announced_merge by reflexivity. rewrite view_set. by rewrite bool_decide_eq_false_2.
  - cbn. apply bytes_merge; [done|]. by apply bytes_set.
Qed.

Lemma DisableAllJoiners_steering t a a' :
  steering_ok a -> after (DisableAllJoiners t a) = Ok a' -> steering_ok a'.
Proof.
  intros [Hc Hb] E. unfold DisableAllJoiners, get, check_active, put, call in E. cbv [M_bind mbind] in E.
  destruct (IsActive a); [|by simplify_eq/=].
  destruct (lib_SetCommissionerDataset _ _) as [s' [[]|?|]]; cbn in E; [|by simplify_eq..].
  injection E as <-. split.
  - eapply (covers_erase a _ t); [done| |reflexivity].
    intros t' Hne. erewrite announced_merge by reflexivity. rewrite view_set. by rewrite bool_decide_eq_false_2.
  - cbn. apply bytes_merge; [done|]. apply bytes_set; [done|closed].
Qed.

Lemma SetJoinerUdpPort_steering t v a a' :
  steering_ok a -> after (SetJoinerUdpPort t v a) = Ok a' -> steering_ok a'.
Proof.
  intros [Hc Hb] E. unfold SetJoinerUdpPort, get, check_active, put, call in E. cbv [M_bind mbind] in E.
  destruct (IsActive a); [|by simplify_eq/=].
  destruct (lib_SetCommissionerDataset _ _) as [s' [[]|?|]]; cbn in E; [|by simplify_eq..].
  injection E as <-. split.
  - intros t' id i Hi. erewrite announced_merge by reflexivity. rewrite view_set_port. by apply (Hc t' id i).
  - cbn. apply bytes_merge; [done|]. intros t'. by rewrite steering_set_port, steering_editable.
Qed.

(** The operations after which the steering data may no longer announce the enabled joiners: those that
    replace the Commissioner Dataset by one of the network or of the user, and the two faulty ones. *)
Definition disturbs (o : Op) : bool :=
  match o with
  | OpStart _ _ | OpSyncNetworkData | OpDisableJoiner _ _ | OpEnableAllJoiners _ _ _ | OpSetCommissionerDataset _ => true
  | _ => false
  end.

Lemma steering_ok_eq a a' : mJoiners a' = mJoiners a -> mCommDataset a' = mCommDataset a -> steering_ok a -> steering_ok a'.
Proof. unfold steering_ok, covers, announced. intros -> ->. done. Qed.

Lemma default_steering c t : steering (MakeDefaultCommissionerDataset c) t = [].
Proof. by destruct c, t. Qed.

Lemma perform_steering o a a' : disturbs o = false -> steering_ok a -> perform o a = Ok a' -> steering_ok a'.
Proof.
  intros Ho Hok E. destruct (about_joiners o) eqn:Hj.
  - destruct o; try discriminate Hj; try discriminate Ho.
    + injection E as <-. split; [|intros t]; unfold Stop; destruct (lib_Resign _); cbn; [done|].
      rewrite default_steering. constructor.
    + by eapply EnableJoiner_steering.
    + by eapply DisableAllJoiners_steering.
    + by eapply SetJoinerUdpPort_steering.
  - destruct (perform_keeps o a a' Hj E). by eapply steering_ok_eq.
Qed.

Lemma init_steering s : steering_ok (App_init channel0 panId0 rotation0 delay0 s).
Proof. split; [done|]. intros t. cbn. rewrite default_steering. constructor. Qed.

(** C31: The steering data announces every joiner that may join.  From the start of the application, through
    any sequence of operations other than those of [disturbs], every enabled joiner of a type is admitted by
    the 16-byte Bloom filter that the Commissioner Dataset carries for that type, whatever the library and the
    network answer. *)
Theorem steering_announces_joiners ops s a t id i :
  Forall (fun o => disturbs o = false) ops ->
  perform_all ops (App_init channel0 panId0 rotation0 delay0 s) = Ok a ->
  mJoiners a !! (t, id) = Some i ->
  exists f, announced a t = Some f /\ zlen f = kMaxSteeringDataLength /\ admits f id = true.
Proof.
  intros Hops E Hi. assert (Hok : steering_ok a); [|by apply (proj1 Hok t id i)]. clear Hi.
  revert E. generalize (init_steering s). generalize (App_init channel0 panId0 rotation0 delay0 s).
  induction Hops as [|o ops Ho _ IH]; intros a0 H0 E; [by injection E as <-|].
  apply bind_ok in E as (a1 & E1 & E). eapply IH; [|exact E]. by eapply perform_steering.
Qed.

(** *** The credentials of the joiners *)

(** The joiners are filed under their type and the id of their EUI-64, with a well-formed credential. *)
Definition entry_ok (k : JoinerKey) (i : JoinerInfo) : Prop :=
  mType i = k.1 /\ ComputeJoinerId sha256 (mEui64 i) = Ok k.2 /\ check_pskd k.1 (mPSKd i) = Ok tt.
Definition joiners_ok (a : App) : Prop := map_Forall entry_ok (mJoiners a).

Lemma joiners_ok_erase a a' t : joiners_ok a -> mJoiners a' = EraseAllJoiners t (mJoiners a) -> joiners_ok a'.
Proof. unfold joiners_ok. intros H0 -> k i [Hk _]%map_lookup_filter_Some. by apply H0. Qed.

(** Operations that leave the joiners as they were, or with fewer. *)
Definition shrinks {A} (m : App -> App * outcome A) : Prop := forall a, joiners_ok a -> joiners_ok (m a).1.

Lemma keeps_shrinks {A} (m : App -> App * outcome A) : keeps m -> shrinks m.
Proof. intros Hm a H0. unfold joiners_ok in *. by rewrite (proj1 (Hm a)). Qed.

Lemma shrinks_bind {A B} (m : App -> App * outcome A) (f : A -> App -> App * outcome B) :
  shrinks m -> (forall x, shrinks (f x)) -> shrinks (M_bind _ _ f m).
Proof.
  intros Hm Hf a H0. unfold M_bind. specialize (Hm a H0). destruct (m a) as [a' [x|e|]]; cbn in *; [|done|done].
  by apply Hf.
Qed.

Lemma shrinks_put (f : App -> App) : (forall a, joiners_ok a -> joiners_ok (f a)) -> shrinks (put f).
Proof. intros Hf a H0. by apply Hf. Qed.
Lemma shrinks_comm f : shrinks (put (fun a => with_comm a (f a))).
Proof. by intros a H0. Qed.
Lemma shrinks_active f : shrinks (put (fun a => with_active a (f a))).
Proof. by intros a H0. Qed.
Lemma shrinks_pending f : shrinks (put (fun a => with_pending a (f a))).
Proof. by intros a H0. Qed.
Lemma shrinks_bbr f : shrinks (put (fun a => with_bbr a (f a))).
Proof. by intros a H0. Qed.
Lemma shrinks_erase t : shrinks (put (fun a => with_joiners a (EraseAllJoiners t (mJoiners a)))).
Proof. intros a H0. by eapply joiners_ok_erase. Qed.
Lemma shrinks_delete k : shrinks (put (fun a => with_joiners a (delete k (mJoiners a)))).
Proof. intros a H0. unfold joiners_ok in *. by apply map_Forall_delete. Qed.

Lemma shrinks_if {A} (b : bool) (m m' : App -> App * outcome A) : shrinks m -> shrinks m' -> shrinks (if b then m else m').
Proof. by destruct b. Qed.

Ltac shrink :=
  repeat first
    [ match goal with |- forall _, _ => intros ? end
    | apply shrinks_comm | apply shrinks_active | apply shrinks_pending | apply shrinks_bbr
    | apply shrinks_erase | apply shrinks_delete
    | apply keeps_shrinks, keeps_call | apply keeps_shrinks, keeps_get | apply keeps_shrinks, keeps_throw
    | apply keeps_shrinks, keeps_ret | apply keeps_shrinks, keeps_lift | apply keeps_shrinks, keeps_check_active
    | match goal with |- context [match ?x with pair _ _ => _ end] => destruct x end
    | apply shrinks_if | apply shrinks_bind ].

Lemma enabled_ok a t e p u id :
  joiners_ok a -> ComputeJoinerId sha256 e = Ok id -> check_pskd t p = Ok tt ->
  joiners_ok (with_joiners a (<[(t, id) := mkJoiner t e p u]> (mJoiners a))).
Proof. unfold joiners_ok. intros H0 Hid Hp. by apply map_Forall_insert_2. Qed.

Lemma EnableJoiner_joiners t e p u : shrinks (EnableJoiner sha256 t e p u).
Proof.
  intros a H0. unfold EnableJoiner, lift, get, check_active, throw, put, call. cbv [M_bind mbind].
  destruct (ComputeJoinerId sha256 e) as [id|?|] eqn:Hid; [|done..].
  destruct (check_pskd t p) as [[]|?|] eqn:Hp; [|done..].
  destruct (IsActive a); [|done]. destruct (mJoiners a !! (t, id)) eqn:Hn; [done|].
  destruct (AddJoiner _ _) as [f|?|]; [|done..].
  destruct (lib_SetCommissionerDataset _ _) as [s' [[]|?|]]; [|done..]. by apply enabled_ok.
Qed.

Lemma EnableAllJoiners_joiners t p u : shrinks (EnableAllJoiners sha256 t p u).
Proof.
  intros a H0. unfold EnableAllJoiners, lift, get, check_active, throw, put, call. cbv [M_bind mbind].
  destruct (check_pskd t p) as [[]|?|] eqn:Hp; [|done..]. destruct (IsActive a); [|done].
  destruct (lib_SetCommissionerDataset _ _) as [s' [[]|?|]]; [|done..].
  destruct (ComputeJoinerId sha256 0) as [id|?|] eqn:Hid; [|by apply (shrinks_erase t)..].
  apply (enabled_ok (with_joiners _ (EraseAllJoiners t _))); [|done..]. by apply (shrinks_erase t).
Qed.

Lemma Start_joiners addr port a : joiners_ok a ->
  joiners_ok (Start channel0 panId0 rotation0 delay0 addr port a).1.1.
Proof.
  intros H0. unfold Start. destruct (lib_Petition _ _ _) as [[s ex] r].
  assert (Hsync : forall r, joiners_ok (match r with Ok _ => SyncNetworkData (with_lib a s) | _ => (with_lib a s, r) end).1).
  { intros []; [|done..]. assert (shrinks SyncNetworkData) as Hs; [|by apply Hs]. unfold SyncNetworkData. shrink. }
  specialize (Hsync r). destruct (match r with Ok _ => _ | _ => _ end) as [a' [[]|e|]]; [done| |done].
  cbn. case_if; [|done]. unfold Stop, joiners_ok. by destruct (lib_Resign _).
Qed.

Lemma after_shrinks {A} (m : App -> App * outcome A) a a' : shrinks m -> joiners_ok a -> after (m a) = Ok a' -> joiners_ok a'.
Proof. intros Hm H0 E. specialize (Hm a H0). destruct (m a) as [a'' [?|?|]]; cbn in *; by simplify_eq. Qed.

Lemma perform_joiners o a a' : joiners_ok a -> perform o a = Ok a' -> joiners_ok a'.
Proof.
  intros H0 E. destruct (about_joiners o) eqn:Hj.
  - destruct o; try discriminate Hj; cbn [perform] in E.
    + pose proof (Start_joiners addr port a H0) as H1.
      destruct (Start _ _ _ _ _ _ _) as [[a'' ex] [[]|?|]]; cbn in *; by simplify_eq.
    + injection E as <-. unfold Stop, joiners_ok. by destruct (lib_Resign _).
    + eapply after_shrinks; [|done|exact E]. unfold SyncNetworkData. shrink.
    + eapply after_shrinks; [|done|exact E]. apply EnableJoiner_joiners.
    + eapply after_shrinks; [|done|exact E]. unfold DisableJoiner. shrink.
    + eapply after_shrinks; [|done|exact E]. apply EnableAllJoiners_joiners.
    + eapply after_shrinks; [|done|exact E]. unfold DisableAllJoiners. shrink.
    + eapply after_shrinks; [|done|exact E]. unfold SetJoinerUdpPort. shrink.
    + eapply after_shrinks; [|done|exact E]. unfold SetCommissionerDataset. shrink.
  - unfold joiners_ok. by rewrite (proj1 (perform_keeps o a a' Hj E)).
Qed.

Lemma perform_all_joiners ops : forall a a', joiners_ok a -> perform_all ops a = Ok a' -> joiners_ok a'.
Proof.
  induction ops as [|o ops IH]; intros a a' H0 E; [by injection E as <-|].
  apply bind_ok in E as (a1 & E1 & E). eapply IH; [|exact E]. by eapply perform_joiners.
Qed.

(** The enabled joiner that the credential [pskd] was given to: the one of the id, or all of them. *)
Definition authorised (a : App) (id : ByteArray) (i : JoinerInfo) : Prop :=
  exists key, mJoiners a !! (kMeshCoP, key) = Some i /\ mType i = kMeshCoP /\ ComputeJoinerId sha256 (mEui64 i) = Ok key /\
    (key = id \/ ComputeJoinerId sha256 0 = Ok key).

Lemma joiners_ok_authorised a id key i : joiners_ok a -> mJoiners a !! (kMeshCoP, key) = Some i ->
  key = id \/ ComputeJoinerId sha256 0 = Ok key -> authorised a id i /\ ValidatePSKd (mPSKd i) = Ok tt.
Proof. intros H0 Hi Hk. destruct (H0 _ _ Hi) as (? & ? & ?). split; [|done]. by exists key. Qed.

(** What a joiner is given, in a state whose joiners are in order. *)
Lemma credential_given a id pskd : joiners_ok a -> OnJoinerRequest sha256 a id = Ok pskd -> pskd <> [] ->
  (6 <= zlen pskd <= 32 /\ Forall pskd_char pskd) /\ exists i, authorised a id i /\ pskd = mPSKd i.
Proof.
  intros H0 Hr Hne.
  assert (Hv : forall i, ValidatePSKd (mPSKd i) = Ok tt -> 6 <= zlen (mPSKd i) <= 32 /\ Forall pskd_char (mPSKd i)).
  { intros i Hi. destruct (ValidatePSKd_spec (mPSKd i)) as [[_ ?]|[E' _]]; [done|by rewrite E' in Hi]. }
  unfold OnJoinerRequest in Hr. destruct (mJoiners a !! (kMeshCoP, id)) as [i|] eqn:Hi.
  - destruct (joiners_ok_authorised a id id i H0 Hi) as [Ha Hp]; [by left|]. injection Hr as <-. eauto.
  - destruct (ComputeJoinerId sha256 0) as [zero|?|] eqn:Hz; [|done..].
    cbn in Hr. destruct (mJoiners a !! (kMeshCoP, zero)) as [i|] eqn:Hi0; injection Hr as <-; [|done].
    destruct (joiners_ok_authorised a id zero i H0 Hi0) as [Ha Hp]; [by right|]. eauto.
Qed.

Lemma url_given a id url : joiners_ok a -> OnJoinerFinalize sha256 a id url = Ok true ->
  exists i, authorised a id i /\ url = mProvisioningUrl i.
Proof.
  intros H0 Hr. unfold OnJoinerFinalize, GetJoinerInfo in Hr. destruct (mJoiners a !! (kMeshCoP, id)) as [i|] eqn:Hi.
  - destruct (joiners_ok_authorised a id id i H0 Hi) as [Ha _]; [by left|].
    injection Hr as Hr. apply bool_decide_eq_true in Hr. eauto.
  - destruct (ComputeJoinerId sha256 0) as [zero|?|] eqn:Hz; [|done..].
    cbn in Hr. destruct (mJoiners a !! (kMeshCoP, zero)) as [i|] eqn:Hi0; [|done].
    destruct (joiners_ok_authorised a id zero i H0 Hi0) as [Ha _]; [by right|].
    injection Hr as Hr. apply bool_decide_eq_true in Hr. eauto.
Qed.

Lemma reachable_joiners ops s a : perform_all ops (App_init channel0 panId0 rotation0 delay0 s) = Ok a -> joiners_ok a.
Proof. intros E. eapply perform_all_joiners; [|exact E]. apply map_Forall_empty. Qed.

(** Whatever sequence of operations ran and whatever the network answered, a joiner that asks for its
    credential is given the empty one, which refuses it, or the well-formed PSKd (6 to 32 digits and upper case
    letters, none of I, O, Q and Z) of a joiner that was enabled under the id of its EUI-64, or of the entry that
    stands for all joiners; and a joiner is only finalized with the provisioning URL of such an entry. *)
Theorem joiner_credentials ops s a id :
  perform_all ops (App_init channel0 panId0 rotation0 delay0 s) = Ok a ->
  (forall pskd, OnJoinerRequest sha256 a id = Ok pskd -> pskd <> [] ->
     (6 <= zlen pskd <= 32 /\ Forall pskd_char pskd) /\ exists i, authorised a id i /\ pskd = mPSKd i) /\
  (forall url, OnJoinerFinalize sha256 a id url = Ok true -> exists i, authorised a id i /\ url = mProvisioningUrl i).
Proof.
  intros E. apply reachable_joiners in E. split; intros; [by apply credential_given|by apply url_given].
Qed.
End App.
