(* ===== verification/CommissionerAppScript.v ===== *)
(** * Runs of the commissioner application

    A library that accepts every request, runs of the application on it: the
    witnesses of the properties of CommissionerAppFacts, and the behaviours of
    the code that its comments do not mean. *)

From stdpp Require Import gmap.
From S2P Require Import Prelude Outcome Common Crypto NetworkData Dataset DatasetCodec CommissionerApp CommissionerAppFacts.
Import Endian Addr BloomFilter SteeringFacts DatasetFacts.

(** The library: the state of the session, the datasets of the network, and the Commissioner Datasets it was sent. *)
Record Sample : Type := mkSample {
  sample_active : bool;
  sample_dataset : Active;
  sample_sent : list Comm }.

Definition sample_hash (b : ByteArray) : ByteArray := b ++ replicate 24 0.
Definition sample_addr (s : string_t) : option ByteArray := if decide (zlen s = 16) then Some s else None.
Definition sample_no_addr {A B : Type} (s : A) : option B := None.

Definition sample_activate (active : bool) (s : Sample) : Sample := mkSample active (sample_dataset s) (sample_sent s).
Definition sample_send (d : Comm) (s : Sample) : Sample := mkSample (sample_active s) (sample_dataset s) (sample_sent s ++ [d]).

#[export] Instance Sample_library : Library Sample := {|
  lib_now := fun _ => 0;
  lib_IsActive := sample_active;
  lib_IsCcmMode := fun _ => false;
  lib_GetSessionId := fun _ => 7;
  lib_GetDomainName := fun _ => str "Thread";
  lib_CancelRequests := fun s => s;
  lib_Petition := fun _ _ s => (sample_activate true s, None, Ok tt);
  lib_Resign := fun s => (sample_activate false s, Ok tt);
  lib_GetActiveDataset := fun _ s => (s, Ok (sample_dataset s));
  lib_SetActiveDataset := fun _ s => (s, Ok tt);
  lib_GetPendingDataset := fun _ s => (s, Ok (PendingDataset.PendingOperationalDataset_new (sample_dataset s) 0));
  lib_SetPendingDataset := fun _ s => (s, Ok tt);
  lib_GetCommissionerDataset := fun _ s => (s, Ok (default CommissionerDataset.CommissionerDataset_init (last (sample_sent s))));
  lib_SetCommissionerDataset := fun d s => (sample_send d s, Ok tt);
  lib_GetBbrDataset := fun _ s => (s, Ok BbrDataset.BbrDataset_init);
  lib_SetBbrDataset := fun _ s => (s, Ok tt);
  lib_CommandReenroll := fun _ s => (s, Ok tt);
  lib_CommandDomainReset := fun _ s => (s, Ok tt);
  lib_CommandMigrate := fun _ _ s => (s, Ok tt);
  lib_RegisterMulticastListener := fun _ _ s => (s, Ok 0);
  lib_AnnounceBegin := fun _ _ _ _ s => (s, Ok tt);
  lib_PanIdQuery := fun _ _ _ s => (s, Ok tt);
  lib_EnergyScan := fun _ _ _ _ _ s => (s, Ok tt);
  lib_RequestToken := fun _ _ s => (s, Ok []);
  lib_SetToken := fun _ s => (s, Ok tt) |}.

Definition channel_any : Channel := mkChannel 0 0.
Definition sample_start (active : bool) : Sample :=
  mkSample active (ActiveDataset.ActiveOperationalDataset_new 0 channel_any 0 0) [].

(** The application on the sample library, active or not. *)
Abbreviation sample_app active := (App_init channel_any 0 0 0 (sample_start active)).
Abbreviation sample_run ops a :=
  (perform_all sample_hash sample_addr sample_addr sample_no_addr sample_no_addr channel_any 0 0 0 ops a).

Definition pskd_a : string_t := str "JKLM01".
Definition joiner_a : Z := 72623859790382856.
Definition joiner_b : Z := 1311768467463790320.
Definition id_a : ByteArray := [3; 2; 3; 4; 5; 6; 7; 8].
Definition id_b : ByteArray := [18; 52; 86; 120; 154; 188; 222; 240].

Example ids : ComputeJoinerId sample_hash joiner_a = Ok id_a /\ ComputeJoinerId sample_hash joiner_b = Ok id_b.
Proof. split; vm_compute; reflexivity. Qed.

(** The application at the end of a run, and whether its steering data for MeshCoP joiners announces a joiner. *)
Definition sample_end (a0 : @App Sample) (ops : list Op) : App :=
  match sample_run ops a0 with Ok a => a | _ => a0 end.
Definition announces (a : @App Sample) (id : ByteArray) : bool :=
  match announced a kMeshCoP with Some f => admits f id | None => false end.
Definition enabled (a : @App Sample) (id : ByteArray) : bool := bool_decide (is_Some (mJoiners a !! (kMeshCoP, id))).

Definition enabling : list Op :=
  [OpEnableJoiner kMeshCoP joiner_a pskd_a (str "url"); OpSetPanId 4660 30; OpEnableJoiner kMeshCoP joiner_b pskd_a []].

(** ** The theorems apply *)

Lemma steering_announces_joiners_witness :
  sample_run enabling (sample_app true) = Ok (sample_end (sample_app true) enabling) /\
  exists f, announced (sample_end (sample_app true) enabling) kMeshCoP = Some f /\ zlen f = kMaxSteeringDataLength /\
    admits f id_a = true.
Proof.
  assert (E : sample_run enabling (sample_app true) = Ok (sample_end (sample_app true) enabling)) by (vm_compute; reflexivity).
  split; [exact E|].
  apply (steering_announces_joiners sample_hash sample_addr sample_addr sample_no_addr sample_no_addr channel_any 0 0 0
    enabling (sample_start true) _ kMeshCoP id_a (mkJoiner kMeshCoP joiner_a pskd_a (str "url"))); [|exact E|].
  - repeat constructor.
  - vm_compute. reflexivity.
Defined.

Lemma joiner_credentials_witness :
  OnJoinerRequest sample_hash (sample_end (sample_app true) enabling) id_a = Ok pskd_a /\
  exists i, authorised sample_hash (sample_end (sample_app true) enabling) id_a i /\ pskd_a = mPSKd i.
Proof.
  assert (E : sample_run enabling (sample_app true) = Ok (sample_end (sample_app true) enabling)) by (vm_compute; reflexivity).
  assert (Er : OnJoinerRequest sample_hash (sample_end (sample_app true) enabling) id_a = Ok pskd_a) by (vm_compute; reflexivity).
  split; [exact Er|].
  apply (proj1 (joiner_credentials sample_hash sample_addr sample_addr sample_no_addr sample_no_addr channel_any 0 0 0
    enabling (sample_start true) _ id_a E) pskd_a Er). discriminate.
Defined.

(** ** Runs that go wrong *)

(** Faults of the application, each with a run that shows it. (1) Disabling one of two joiners announces
    the disabled joiner instead of the one that stays enabled. (2) Disabling the only joiner leaves it enabled, with
    steering data that does not announce it. (3) Enabling one joiner after enabling all of them: every joiner is
    still given the credential, but the steering data only announces the one. (4) Asking for the channel ends the
    process when the active dataset of the network has none. (5) So does asking for the border agent locator
    after a start whose Commissioner Dataset has none. *)
Theorem app_faults :
  (let a := sample_end (sample_app true)
     [OpEnableJoiner kMeshCoP joiner_a pskd_a []; OpEnableJoiner kMeshCoP joiner_b pskd_a []; OpDisableJoiner kMeshCoP joiner_a] in
   enabled a id_a = false /\ announces a id_a = true /\ enabled a id_b = true /\ announces a id_b = false) /\
  (let a := sample_end (sample_app true) [OpEnableJoiner kMeshCoP joiner_a pskd_a []; OpDisableJoiner kMeshCoP joiner_a] in
   enabled a id_a = true /\ announces a id_a = false) /\
  (let a := sample_end (sample_app true) [OpEnableAllJoiners kMeshCoP pskd_a []; OpEnableJoiner kMeshCoP joiner_b pskd_a []] in
   OnJoinerRequest sample_hash a id_a = Ok pskd_a /\ announces a id_a = false /\ announces a id_b = true) /\
  sample_run [OpGetChannel] (sample_app true) = Die /\
  (GetBorderAgentLocator (sample_end (sample_app false) [OpStart (str "addr") 49191])).2 = Die.
Proof. vm_compute. repeat split. Qed.
