(* ===== verification/Joiner.v ===== *)
(** * Commissioning of joiners

    [JoinerSession] of [src/library/joiner_session.{hpp,cpp}] and the sessions
    that [CommissionerImpl] keeps ([HandleRlyRx], [HandleJoinerSessionTimer] of
    [src/library/commissioner_impl.cpp]).

    A joiner session is a DTLS session ([Dtls]) whose socket is the
    [RelaySocket]: what the session sends becomes a RLY_TX.ntf to the border
    agent, what RLY_RX.ntf carries is what the session receives.  On top of the
    session is a CoAP object ([Coap]) with one resource, JOIN_FIN.req.  The
    relay socket refers to its joiner session, so the state behind the socket is
    the record [JoinerSession]: the whole session but for its [DtlsSession]. *)

From stdpp Require Import gmap.
From S2P Require Import Prelude Outcome Common Crypto Tlv CoapMessage Dataset Coap Commissioner Dtls.
Import Endian Addr Tlv Message Dataset BloomFilter.

Module JoinerUri.
Definition kRelayRx : string_t := str "/c/rx".
Definition kRelayTx : string_t := str "/c/tx".
Definition kJoinFin : string_t := str "/c/jf".
End JoinerUri.

Definition kListeningJoinerPort : Z := 9527.
Definition kJoinerTimeout : Z := 20.

(** ** The session without its DTLS session *)

Record JoinerSession : Type := mkJoinerSession {
  mJoinerId : ByteArray;
  mJoinerPSKd : string_t;
  mJoinerUdpPort : Z;
  mJoinerRouterLocator : Z;
  mPeerAddr : Address;
  mPeerPort : Z;
  mLocalAddr : Address;
  mLocalPort : Z;
  mRecvBuf : ByteArray;
  mReadable : bool;                     (* the event of the socket is active *)
  mCoap : Coap.Coap;
  mExpirationTime : Z;
  mRlyTx : list (Message * bool) }.     (* requests sent to the border agent, and whether with the KEK; latest first *)

Definition with_buffer (s : JoinerSession) (b : ByteArray) (r : bool) : JoinerSession :=
  mkJoinerSession (mJoinerId s) (mJoinerPSKd s) (mJoinerUdpPort s) (mJoinerRouterLocator s) (mPeerAddr s) (mPeerPort s)
    (mLocalAddr s) (mLocalPort s) b r (mCoap s) (mExpirationTime s) (mRlyTx s).
Definition with_rly_tx (s : JoinerSession) (l : list (Message * bool)) : JoinerSession :=
  mkJoinerSession (mJoinerId s) (mJoinerPSKd s) (mJoinerUdpPort s) (mJoinerRouterLocator s) (mPeerAddr s) (mPeerPort s)
    (mLocalAddr s) (mLocalPort s) (mRecvBuf s) (mReadable s) (mCoap s) (mExpirationTime s) l.
Definition with_coap (s : JoinerSession) (c : Coap.Coap) : JoinerSession :=
  mkJoinerSession (mJoinerId s) (mJoinerPSKd s) (mJoinerUdpPort s) (mJoinerRouterLocator s) (mPeerAddr s) (mPeerPort s)
    (mLocalAddr s) (mLocalPort s) (mRecvBuf s) (mReadable s) c (mExpirationTime s) (mRlyTx s).
Definition with_expiration (s : JoinerSession) (t : Z) : JoinerSession :=
  mkJoinerSession (mJoinerId s) (mJoinerPSKd s) (mJoinerUdpPort s) (mJoinerRouterLocator s) (mPeerAddr s) (mPeerPort s)
    (mLocalAddr s) (mLocalPort s) (mRecvBuf s) (mReadable s) (mCoap s) t (mRlyTx s).

Definition GetJoinerIid (s : JoinerSession) : outcome ByteArray := flip_local_bit (mJoinerId s).

(** *** The relay socket *)

(** The request that [SendRlyTx] sends, or the error it returns. *)
Definition SendRlyTx (s : JoinerSession) (kek : ByteArray) (aDtlsMessage : ByteArray) (aIncludeKek : bool) : outcome Message :=
  rlyTx ← SetUriPath (Message_new CoapMessage.kNonConfirmable Code.kPost) JoinerUri.kRelayTx;
  rlyTx ← AppendTlv rlyTx (Tlv_u16 kJoinerUdpPort (mJoinerUdpPort s));
  rlyTx ← AppendTlv rlyTx (Tlv_u16 kJoinerRouterLocator (mJoinerRouterLocator s));
  iid ← GetJoinerIid s;
  rlyTx ← AppendTlv rlyTx (Tlv_bytes kJoinerIID iid);
  rlyTx ← AppendTlv rlyTx (Tlv_bytes kJoinerDtlsEncapsulation aDtlsMessage);
  if aIncludeKek then
    VerifyOrExit negb (is_nil kek) else kInvalidState;;
    AppendTlv rlyTx (Tlv_bytes kJoinerRouterKEK kek)
  else Ok rlyTx.

Section Relay.
Context `{MbedtlsErrors}.

Definition RelaySocket_Send (aSubType : MessageSubType) (kek aBuf : ByteArray) (s : JoinerSession) :
    outcome (JoinerSession * Z) :=
  let includeKek := bool_decide (aSubType = kJoinFinResponse) in
  match SendRlyTx s kek aBuf includeKek with
  | Ok rlyTx => Ok (with_rly_tx s ((rlyTx, includeKek) :: mRlyTx s), zlen aBuf)
  | Err _ => Ok (s, ERR_NET_SEND_FAILED)
  | Die => Die
  end.

Definition RelaySocket_Receive (aMaxLen : Z) (s : JoinerSession) : outcome (JoinerSession * (Z + ByteArray)) :=
  if is_nil (mRecvBuf s) then Ok (s, inl ERR_SSL_WANT_READ)
  else
    let rval := Z.min aMaxLen (zlen (mRecvBuf s)) in
    Ok (with_buffer s (zdrop (mRecvBuf s) rval) (mReadable s), inr (zsub (mRecvBuf s) 0 rval)).

Definition RecvJoinerDtlsRecords (aRecords : ByteArray) (s : JoinerSession) : JoinerSession :=
  with_buffer s (mRecvBuf s ++ aRecords) true.

#[export] Instance RelaySocket : Socket JoinerSession := {|
  sock_send := RelaySocket_Send;
  sock_receive := RelaySocket_Receive;
  sock_peer := fun s => Ok (mPeerAddr s);
  sock_arrive := RecvJoinerDtlsRecords |}.
End Relay.

(** *** JOIN_FIN *)

(** What [HandleJoinFin] tells the user. *)
Record JoinFin : Type := mkJoinFin {
  mVendorName : string_t;
  mVendorModel : string_t;
  mVendorSwVersion : string_t;
  mVendorStackVersion : ByteArray;
  mProvisioningUrl : string_t;
  mVendorData : ByteArray }.

Definition need {A} (o : option A) : outcome A := match o with Some a => Ok a | None => Err kBadFormat end.

Definition parse_join_fin (aPayload : ByteArray) : outcome JoinFin :=
  tlvSet ← ParseTlvs aPayload kMeshCoP;
  stateTlv ← need (tlvSet !! kState);
  vendorNameTlv ← need (tlvSet !! kVendorName);
  vendorModelTlv ← need (tlvSet !! kVendorModel);
  vendorSwVersionTlv ← need (tlvSet !! kVendorSWVersion);
  vendorStackVersionTlv ← need (tlvSet !! kVendorStackVersion);
  '(provisioningUrl, vendorData) ←
    match tlvSet !! kProvisioningURL with
    | Some provisioningUrlTlv =>
        vendorDataTlv ← need (tlvSet !! kVendorData);
        Ok (mValue provisioningUrlTlv, mValue vendorDataTlv)
    | None => Ok ([], [])
    end;
  Ok (mkJoinFin (mValue vendorNameTlv) (mValue vendorModelTlv) (mValue vendorSwVersionTlv) (mValue vendorStackVersionTlv)
        provisioningUrl vendorData).

(** The response of [SendJoinFinResponse]. *)
Definition join_fin_response (aAccept : bool) : outcome Message :=
  joinFin ← AppendTlv (Message_new CoapMessage.kAcknowledgment Code.kChanged)
              (Tlv_u8 kState (if aAccept then kStateAccept else kStateReject));
  Ok (SetSubType joinFin kJoinFinResponse).

(** ** Sessions *)

(** The user's handlers, which may answer differently as time goes by. *)
Record Handler : Type := mkHandler {
  OnJoinerRequest : Z -> ByteArray -> string_t;
  OnJoinerFinalize : Z -> ByteArray -> JoinFin -> bool }.

Section Joiner.
Context {T : Type} `{MbedtlsErrors} `{Ssl T}.
Context (sha256 : ByteArray -> ByteArray).
Context (handler : Handler).
(** A fresh mbedtls context, and [GetDtlsConfig] of the commissioner's configuration. *)
Context (ssl_new : T) (config : DtlsConfig).
(** A bound on the records read in one event. *)
Context (reads : nat).
Abbreviation Session := (DtlsSession JoinerSession T).

(** [HandleJoinFin]: what the user decides, and the response to send. *)
Definition join_fin_accepted (now : Z) (id : ByteArray) (aJoinFin : Message) : outcome bool :=
  match parse_join_fin (mPayload aJoinFin) with
  | Ok info => Ok (OnJoinerFinalize handler now id info)
  | Err _ => Ok false
  | Die => Die
  end.

(** The CoAP object of a session uses no response handlers and the results of
    its sends do not matter to it. *)
Definition coap_response (c : Coap.Coap) (aRequest aResponse : Message) : outcome (Coap.Coap * ErrorCode) :=
  Coap.SendResponse (fun _ _ => kNone) c aRequest aResponse.

Definition HandleJoinFin (now : Z) (id : ByteArray) (aJoinFin : Message) (c : Coap.Coap) : outcome Coap.Coap :=
  accepted ← join_fin_accepted now id aJoinFin;
  match join_fin_response accepted with
  | Ok joinFin => '(c, _) ← coap_response c aJoinFin joinFin; Ok c
  | Err _ => Ok c
  | Die => Die
  end.

Definition coap_receive (now : Z) (id : ByteArray) (c : Coap.Coap) (aBuf : ByteArray) : outcome Coap.Coap :=
  Coap.Receive (fun _ _ _ c => Ok c) (fun _ request c => HandleJoinFin now id request c) (fun _ _ => kNone) c 0 aBuf.

(** The datagrams that a CoAP object sent since its trace was [old], oldest first. *)
Definition sent_since (old new : list CoapEvent) : list (ByteArray * MessageSubType) :=
  flat_map (fun e => match e with EvSend _ data subType => [(data, subType)] | _ => [] end)
    (rev (take (length new - length old) new)).

Fixpoint send_all (l : list (ByteArray * MessageSubType)) (d : Session) : outcome Session :=
  match l with
  | [] => Ok d
  | (data, subType) :: l => '(d, _) ← Dtls.Send sha256 data subType d; send_all l d
  end.

(** The receiver of the DTLS session: [Coap::Receive]. *)
Definition receive (aBuf : ByteArray) (d : Session) : outcome Session :=
  let s := mSocket d in
  c ← coap_receive (mNow d) (mJoinerId s) (mCoap s) aBuf;
  send_all (sent_since (trace (mCoap s)) (trace c)) (with_socket d (with_coap s c) (mSocketSubType d)).

(** [HandleConnect]: the label [LConnected] of the session is the call of [OnJoinerConnected]. *)
Definition HandleConnect (h : nat) (aError : ErrorCode) (d : Session) : outcome Session := Ok d.

Definition JoinerSession_init (now : Z) (aJoinerId : ByteArray) (aJoinerPSkd : string_t) (aJoinerUdpPort aJoinerRouterLocator : Z)
    (aJoinerAddr : Address) (aJoinerPort : Z) (aLocalAddr : Address) (aLocalPort : Z) : outcome Session :=
  coap ← Coap.AddResource (Coap.Coap_init 0 now) JoinerUri.kJoinFin (Some 0%nat);
  Ok (DtlsSession_init true
        (mkJoinerSession aJoinerId aJoinerPSkd aJoinerUdpPort aJoinerRouterLocator aJoinerAddr aJoinerPort aLocalAddr aLocalPort
           [] false coap 0 []) ssl_new now).

(** [JoinerSession::Connect] *)
Definition Connect (d : Session) : outcome Session :=
  let dtlsConfig := mkDtlsConfig (mEnableDebugLogging config) (mJoinerPSKd (mSocket d)) (mOwnKey config) (mOwnCert config)
                      (mCaChain config) in
  let d := with_socket d (with_expiration (mSocket d) (mNow d + (kDtlsHandshakeTimeoutMax * 1000 + kJoinerTimeout * 1000)))
             (mSocketSubType d) in
  '(d, error) ← Init dtlsConfig d;
  if bool_decide (error = kNone) then Dtls.Connect (Some 0%nat) (label d (LConnect 0))
  else HandleConnect 0 error (label (label d (LConnect 0)) (LConnected 0 error)).

Definition Disabled (d : Session) : bool := bool_decide (mSessionState d = kOpen).
Definition GetExpirationTime (d : Session) : Z := mExpirationTime (mSocket d).

(** ** The sessions of the commissioner *)

Record Joiners : Type := mkJoiners {
  mJoinerSessions : gmap ByteArray Session;
  mJoinerSessionTimer : option Z;       (* fire time, when it is running *)
  jclock : Z }.

Definition Joiners_init (now : Z) : Joiners := mkJoiners ∅ None now.
Definition with_sessions (j : Joiners) (m : gmap ByteArray Session) : Joiners := mkJoiners m (mJoinerSessionTimer j) (jclock j).

Record RlyRx : Type := mkRlyRx {
  rxUdpPort : Z; rxRouterLocator : Z; rxIid : ByteArray; rxRecords : ByteArray }.

Definition parse_rly_rx (aPayload : ByteArray) : outcome RlyRx :=
  tlvSet ← ParseTlvs aPayload kMeshCoP;
  tlv ← need (tlvSet !! kJoinerUdpPort);
  joinerUdpPort ← GetValueAsUint16 tlv;
  tlv ← need (tlvSet !! kJoinerRouterLocator);
  joinerRouterLocator ← GetValueAsUint16 tlv;
  tlv ← need (tlvSet !! kJoinerIID);
  let joinerIid := mValue tlv in
  tlv ← need (tlvSet !! kJoinerDtlsEncapsulation);
  Ok (mkRlyRx joinerUdpPort joinerRouterLocator joinerIid (mValue tlv)).

(** The commissioner's address in the session with the border agent, and where the RLY_RX.ntf comes from. *)
Context (GetLocalAddr : outcome Address) (rx_addr : Address) (rx_port : Z).

(** A new session for a joiner, filed and connecting, with the timer set to its expiration. *)
Definition start_session (j : Joiners) (joinerId : ByteArray) (joinerPSKd : string_t) (rx : RlyRx) (localAddr : Address) :
    outcome Joiners :=
  session ← JoinerSession_init (jclock j) joinerId joinerPSKd (rxUdpPort rx) (rxRouterLocator rx) rx_addr rx_port localAddr
              kListeningJoinerPort;
  session ← Connect session;
  Ok (mkJoiners (<[joinerId := session]> (mJoinerSessions j)) (Some (GetExpirationTime session)) (jclock j)).

(** The session of a joiner gets the records. *)
Definition feed_session (j : Joiners) (joinerId records : ByteArray) : outcome Joiners :=
  match mJoinerSessions j !! joinerId with
  | Some d => Ok (with_sessions j (<[joinerId := with_socket d (RecvJoinerDtlsRecords records (mSocket d)) (mSocketSubType d)]>
                                     (mJoinerSessions j)))
  | None => Die
  end.

(** [HandleRlyRx]; errors are logged. *)
Definition HandleRlyRx (aRlyRx : ByteArray) (j : Joiners) : outcome Joiners :=
  match parse_rly_rx aRlyRx with
  | Die => Die
  | Err _ => Ok j
  | Ok rx =>
      joinerId ← flip_local_bit (rxIid rx);
      let j := match mJoinerSessions j !! joinerId with
               | Some d => if Disabled d then with_sessions j (delete joinerId (mJoinerSessions j)) else j
               | None => j
               end in
      match mJoinerSessions j !! joinerId with
      | Some _ => feed_session j joinerId (rxRecords rx)
      | None =>
          match OnJoinerRequest handler (jclock j) joinerId with
          | [] => Ok j
          | joinerPSKd =>
              match GetLocalAddr with
              | Die => Die
              | Err _ => Ok j
              | Ok localAddr =>
                  j ← start_session j joinerId joinerPSKd rx localAddr;
                  feed_session j joinerId (rxRecords rx)
              end
          end
      end
  end.

(** The earliest expiration of the sessions. *)
Definition next_shot (l : list Session) : option Z :=
  foldr (fun d shot => match shot with
                       | None => Some (GetExpirationTime d)
                       | Some t => Some (if GetExpirationTime d <? t then GetExpirationTime d else t)
                       end) None l.

(** [HandleJoinerSessionTimer]; the timer is not running when its action is called. *)
Definition HandleJoinerSessionTimer (j : Joiners) : Joiners :=
  let now := jclock j in
  let left := filter (fun kv => now < GetExpirationTime kv.2) (mJoinerSessions j) in
  mkJoiners left (next_shot (map_to_list left).*2) now.

(** *** Events *)

Inductive JoinerEvent : Type :=
| JEvtRlyRx (payload : ByteArray)
| JEvtReadable (id : ByteArray)         (* the active event of the relay socket *)
| JEvtHandshakeTimer (id : ByteArray)
| JEvtTime (now : Z)
| JEvtSessionTimer.

Definition on_session (id : ByteArray) (f : Session -> outcome Session) (j : Joiners) : outcome Joiners :=
  match mJoinerSessions j !! id with
  | Some d => d ← f d; Ok (with_sessions j (<[id := d]> (mJoinerSessions j)))
  | None => Ok j
  end.

Definition readable (d : Session) : outcome Session :=
  if mReadable (mSocket d) then
    HandleEvent sha256 HandleConnect receive reads true false
      (with_socket d (with_buffer (mSocket d) (mRecvBuf (mSocket d)) false) (mSocketSubType d))
  else Ok d.

Definition handshake_timer (d : Session) : outcome Session :=
  match mFireTime (mHandshakeTimer d) with
  | Some t => if t <=? mNow d then HandshakeTimerCallback sha256 HandleConnect d else Ok d
  | None => Ok d
  end.

(** The clock that the parts of a session read. *)
Definition session_time (now : Z) (d : Session) : Session :=
  with_time (with_socket d (with_coap (mSocket d) (Coap.with_clock (mCoap (mSocket d)) now)) (mSocketSubType d))
    (mHandshakeTimer d) now.

Definition joiner_step (ev : JoinerEvent) (j : Joiners) : outcome Joiners :=
  match ev with
  | JEvtRlyRx payload => HandleRlyRx payload j
  | JEvtReadable id => on_session id readable j
  | JEvtHandshakeTimer id => on_session id handshake_timer j
  | JEvtTime now =>
      let now := Z.max now (jclock j) in
      Ok (mkJoiners (session_time now <$> mJoinerSessions j) (mJoinerSessionTimer j) now)
  | JEvtSessionTimer =>
      match mJoinerSessionTimer j with
      | Some t => if t <=? jclock j then Ok (HandleJoinerSessionTimer j) else Ok j
      | None => Ok j
      end
  end.

Fixpoint joiner_run (l : list JoinerEvent) (j : Joiners) : outcome Joiners :=
  match l with [] => Ok j | ev :: l => j ← joiner_step ev j; joiner_run l j end.
End Joiner.
