(* ===== verification/JoinerFacts.v ===== *)
(** * Properties of joiner sessions

    The relayed messages, the relay socket as a stream of bytes, the key of
    the joiner router, and the sessions that the commissioner keeps. *)

From stdpp Require Import gmap.
From S2P Require Import Prelude Outcome Common Crypto Tlv CoapMessage Dataset DatasetCodec Coap Commissioner CommissionerControl.
From S2P Require Import Dtls DtlsFacts Joiner.
Import Endian CommonFacts Addr Message Tlv TlvFacts Dataset DatasetFacts BloomFilter SteeringFacts.

(** ** Relayed messages *)

Lemma flip_local_bit_spec id : bytes id -> id <> [] ->
  exists iid, flip_local_bit id = Ok iid /\ zlen iid = zlen id /\ bytes iid /\ flip_local_bit iid = Ok id.
Proof.
  intros Hb Hn. destruct id as [|b l]; [done|]. apply Forall_cons in Hb as [Hb Hl].
  assert (E : forall x, is_byte x -> flip_local_bit (x :: l) = Ok (u8 (Z.lxor x 2) :: l)).
  { intros x Hx. unfold flip_local_bit. rewrite rd_cons_0. cbn [mbind outcome_bind]. unfold wr.
    assert (E1 : (0 <? zlen (x :: l)) = true) by (apply Z.ltb_lt; rewrite zlen_cons; pose proof (zlen_nonneg l); lia).
    by rewrite E1. }
  exists (u8 (Z.lxor b 2) :: l). rewrite !E by (done || apply u8_byte). split; [done|]. split; [by rewrite !zlen_cons|].
  split; [constructor; [apply u8_byte|done]|]. do 2 f_equal.
  assert (Hx : is_byte (Z.lxor b 2)) by (apply (CrcFacts.lxor_fits 8); [lia|exact Hb|done]).
  rewrite (u8_id (Z.lxor b 2)) by done. rewrite Z.lxor_assoc, Z.lxor_nilpotent, Z.lxor_0_r. by rewrite u8_id.
Qed.

(** The TLVs of a relayed message. *)
Definition relay_tlvs (port locator : Z) (iid records : ByteArray) (kek : option ByteArray) : list Tlv.Tlv :=
  [Tlv_u16 kJoinerUdpPort port; Tlv_u16 kJoinerRouterLocator locator; Tlv_bytes kJoinerIID iid;
   Tlv_bytes kJoinerDtlsEncapsulation records] ++
  match kek with Some kek => [Tlv_bytes kJoinerRouterKEK kek] | None => [] end.

Lemma relay_tlvs_ok port locator iid records kek :
  bytes iid -> zlen iid = 8 -> bytes records -> zlen records < 65536 ->
  (forall k, kek = Some k -> bytes k /\ zlen k = 16) ->
  Forall (wire_ok kMeshCoP) (relay_tlvs port locator iid records kek).
Proof.
  intros Hi Hil Hr Hrl Hk.
  unfold relay_tlvs. apply Forall_app. split.
  - repeat (apply Forall_cons_2); [..|done].
    + apply (wire_value kJoinerUdpPort (Encode_loop 2 port)); [by apply IsValid_u16|apply bytes_Encode_loop|done|done].
    + apply (wire_value kJoinerRouterLocator (Encode_loop 2 locator)); [by apply IsValid_u16|apply bytes_Encode_loop|done|done].
    + apply wire_value; [|done..]. by apply (IsValid_exact _ _ 8).
    + apply wire_value; [|done..]. pose proof (zlen_nonneg records). by apply (IsValid_exact _ _ (zlen records)).
  - destruct kek as [k|]; [|done]. destruct (Hk k eq_refl) as [Hkb Hkl]. apply Forall_cons_2; [|done].
    apply wire_value; [|done..]. by apply (IsValid_exact _ _ 16).
Qed.

(** Parsing what a session relays, as the border agent and the joiner router read it. *)
Lemma parse_relay port locator iid records kek :
  fits 16 port -> fits 16 locator -> bytes iid -> zlen iid = 8 -> bytes records -> zlen records < 65536 ->
  (forall k, kek = Some k -> bytes k /\ zlen k = 16) ->
  let payload := concat (map encoding (relay_tlvs port locator iid records kek)) in
  parse_rly_rx payload = Ok (mkRlyRx port locator iid records) /\
  exists s, ParseTlvs payload kMeshCoP = Ok s /\ s !! kJoinerRouterKEK = Tlv_bytes kJoinerRouterKEK <$> kek.
Proof.
  intros Hp Hl Hi Hil Hr Hrl Hk payload. unfold payload, parse_rly_rx.
  rewrite ParseTlvs_encodings by by apply relay_tlvs_ok. cbn [mbind outcome_bind].
  unfold relay_tlvs. destruct kek as [k|]; cbn [app].
  all: set (ts := _ :: _);
    change (last_wins ts ∅ !! kJoinerUdpPort) with (Some (Tlv_u16 kJoinerUdpPort port));
    change (last_wins ts ∅ !! kJoinerRouterLocator) with (Some (Tlv_u16 kJoinerRouterLocator locator));
    change (last_wins ts ∅ !! kJoinerIID) with (Some (Tlv_bytes kJoinerIID iid));
    change (last_wins ts ∅ !! kJoinerDtlsEncapsulation) with (Some (Tlv_bytes kJoinerDtlsEncapsulation records)).
  all: cbn [need mbind outcome_bind]; rewrite !CommissionerCodec.GetValueAsUint16_u16 by done; cbn [mbind outcome_bind need].
  all: split; [done|]; eexists; split; [done|]; done.
Qed.

(** The id of a session is that of a joiner, and its port and locator are 16-bit integers. *)
Definition session_wf (s : JoinerSession) : Prop :=
  bytes (mJoinerId s) /\ zlen (mJoinerId s) = 8 /\ fits 16 (mJoinerUdpPort s) /\ fits 16 (mJoinerRouterLocator s).

#[export] Instance session_wf_dec s : Decision (session_wf s).
Proof. unfold session_wf, fits. apply _. Defined.

(** C7: What a session sends is relayed faithfully.  For a record of less than 2^16 bytes, [SendRlyTx] makes a
    non-confirmable request; reading it as the other side does gives back the joiner's UDP port, the locator of its
    router, an interface identifier that stands for the id of the joiner (also in [HandleRlyRx]), and the record;
    and the key of the joiner router is in it exactly when it was asked for. *)
Theorem relay_roundtrip s kek record (include : bool) :
  session_wf s -> bytes record -> zlen record < 65536 -> (include = true -> bytes kek /\ zlen kek = kJoinerRouterKekLength) ->
  exists rlyTx iid, SendRlyTx s kek record include = Ok rlyTx /\ IsNonConfirmable rlyTx = true /\
    parse_rly_rx (mPayload rlyTx) = Ok (mkRlyRx (mJoinerUdpPort s) (mJoinerRouterLocator s) iid record) /\
    flip_local_bit iid = Ok (mJoinerId s) /\
    exists tlvs, ParseTlvs (mPayload rlyTx) kMeshCoP = Ok tlvs /\
      mValue <$> tlvs !! kJoinerRouterKEK = if include then Some kek else None.
Proof.
  intros (Hib & Hil & Hp & Hl) Hr Hrl Hk.
  destruct (flip_local_bit_spec (mJoinerId s) Hib) as (iid & Ei & Hl' & Hb' & Ei'); [by intros E; rewrite E in Hil|].
  rewrite Hil in Hl'. set (k := if include then Some kek else None).
  assert (Hk' : forall k', k = Some k' -> bytes k' /\ zlen k' = 16) by (intros k' E; unfold k in E; destruct include; simplify_eq; by apply Hk).
  pose proof (relay_tlvs_ok (mJoinerUdpPort s) (mJoinerRouterLocator s) iid record k Hb' Hl' Hr Hrl Hk') as Hok.
  destruct (parse_relay _ _ iid record k Hp Hl Hb' Hl' Hr Hrl Hk') as (Hparse & tlvs & Htlvs & Hkek).
  destruct (SetUriPath (Message_new kNonConfirmable Code.kPost) JoinerUri.kRelayTx) as [m0|?|] eqn:Em; [|by vm_compute in Em..].
  assert (Hm0 : mPayload m0 = [] /\ IsNonConfirmable m0 = true) by (vm_compute in Em; injection Em as <-; done).
  exists (Append m0 (concat (map encoding (relay_tlvs (mJoinerUdpPort s) (mJoinerRouterLocator s) iid record k)))), iid.
  split; [|split; [apply Hm0|]].
  - unfold SendRlyTx, GetJoinerIid. rewrite Em. cbn [mbind outcome_bind]. rewrite Ei.
    unfold relay_tlvs in *. repeat (apply Forall_app in Hok as [Hok Hok'] || idtac). clear Hparse Htlvs.
    repeat (match goal with H : Forall _ (_ :: _) |- _ => apply Forall_cons in H as [[] H] end).
    rewrite !AppendTlv_valid by done. cbn [mbind outcome_bind]. rewrite !AppendTlv_valid by done. cbn [mbind outcome_bind].
    rewrite AppendTlv_valid by done. cbn [mbind outcome_bind]. rewrite AppendTlv_valid by done. cbn [mbind outcome_bind].
    unfold k in *. destruct include.
    + destruct (Hk eq_refl) as [_ Hkl]. destruct kek as [|b kek]; [done|]. cbn [is_nil negb].
      apply Forall_cons in Hok' as [[] _]. rewrite AppendTlv_valid by done. rewrite !Append_app. cbn [map concat app]. by rewrite <- ?app_assoc, ?app_nil_r.
    + rewrite !Append_app. cbn [map concat app]. by rewrite <- ?app_assoc, ?app_nil_r.
  - cbn [Append mPayload]. rewrite (proj1 Hm0). cbn [app]. split; [exact Hparse|]. split; [done|].
    exists tlvs. split; [exact Htlvs|]. rewrite Hkek. unfold k. by destruct include.
Qed.

(** ** The relay socket is a stream of bytes *)

Inductive RelayOp : Type := RecvRecords (b : ByteArray) | Receive (aMaxLen : Z).

Section Stream.
Context `{MbedtlsErrors}.

(** A sequence of operations: the socket, and all the bytes that were received. *)
Fixpoint relay_ops (l : list RelayOp) (s : JoinerSession) : outcome (JoinerSession * ByteArray) :=
  match l with
  | [] => Ok (s, [])
  | RecvRecords b :: l => relay_ops l (RecvJoinerDtlsRecords b s)
  | Receive aMaxLen :: l =>
      '(s, r) ← RelaySocket_Receive aMaxLen s;
      '(s, out) ← relay_ops l s;
      Ok (s, match r with inr b => b ++ out | inl _ => out end)
  end.
Definition arrivals (l : list RelayOp) : ByteArray :=
  concat (map (fun o => match o with RecvRecords b => b | Receive _ => [] end) l).

Lemma zsub_zdrop_whole (l : ByteArray) n : 0 <= n <= zlen l -> zsub l 0 n ++ zdrop l n = l.
Proof.
  intros Hn. unfold zsub, zdrop. change (Z.to_nat 0) with 0%nat. rewrite drop_0. apply take_drop.
Qed.

(** The relay socket delivers what it is given, in order, as a stream of bytes: after any sequence of arriving
    records and of receiving calls, the bytes that were received and those that are left are, together, the bytes
    that were there and those that arrived; a call receives at least one byte and at most as many as it asks for,
    unless there is nothing to receive, and then it says so. *)
Theorem relay_socket_stream ops s :
  Forall (fun o => match o with Receive n => 0 < n | RecvRecords _ => True end) ops ->
  (exists s' out, relay_ops ops s = Ok (s', out) /\ mRecvBuf s ++ arrivals ops = out ++ mRecvBuf s') /\
  (forall n, 0 < n -> (mRecvBuf s = [] /\ RelaySocket_Receive n s = Ok (s, inl ERR_SSL_WANT_READ)) \/
     exists s' b, RelaySocket_Receive n s = Ok (s', inr b) /\ 0 < zlen b <= n /\ mRecvBuf s = b ++ mRecvBuf s').
Proof.
  assert (Hone : forall s n, 0 < n -> (mRecvBuf s = [] /\ RelaySocket_Receive n s = Ok (s, inl ERR_SSL_WANT_READ)) \/
     exists s' b, RelaySocket_Receive n s = Ok (s', inr b) /\ 0 < zlen b <= n /\ mRecvBuf s = b ++ mRecvBuf s').
  { intros s0 n Hn. unfold RelaySocket_Receive. destruct (mRecvBuf s0) as [|x l] eqn:E; [by left|]. right.
    cbn [is_nil]. set (r := Z.min n (zlen (x :: l))). pose proof (zlen_nonneg l). pose proof (zlen_cons x l).
    assert (Hr : 0 < r <= zlen (x :: l)) by lia.
    eexists _, _. split; [done|]. split; [rewrite zlen_zsub by lia; lia|]. cbn [mRecvBuf with_buffer].
    by rewrite zsub_zdrop_whole by lia. }
  intros Hops. split; [|by apply Hone].
  revert s. induction Hops as [|o ops Ho _ IH]; intros s; cbn [relay_ops arrivals map concat].
  - exists s, []. split; [done|]. by rewrite app_nil_r.
  - destruct o as [b|n].
    + destruct (IH (RecvJoinerDtlsRecords b s)) as (s' & out & -> & E). exists s', out. split; [done|].
      cbn [mRecvBuf RecvJoinerDtlsRecords with_buffer] in E. by rewrite app_assoc.
    + destruct (Hone s n Ho) as [[E0 ->]|(s1 & b & -> & _ & E0)]; cbn [mbind outcome_bind app].
      * destruct (IH s) as (s' & out & -> & E). exists s', out. by split.
      * destruct (IH s1) as (s' & out & -> & E). exists s', (b ++ out). split; [done|].
        rewrite E0, <- !app_assoc. f_equal. exact E.
Qed.
End Stream.

(** ** A session over time *)

Section Session.
Context {T : Type} `{HM : MbedtlsErrors} `{HS : Ssl T}.
Context (sha256 : ByteArray -> ByteArray) (handler : Handler) (ssl_new : T) (config : DtlsConfig) (reads : nat).
Abbreviation D := (DtlsSession JoinerSession T).

(** A JOIN_FIN.rsp was passed to mbedtls. *)
Definition finalizing (d : D) : Prop := exists b, LWriting (b, kJoinFinResponse) ∈ mTrace d.
(** The key of the joiner router only leaves with it. *)
Definition confined (d : D) : Prop :=
  (mSocketSubType d = kJoinFinResponse -> finalizing d) /\ (forall m, (m, true) ∈ mRlyTx (mSocket d) -> finalizing d).

(** What a session never changes. *)
Definition identity (s : JoinerSession) :=
  (mJoinerId s, mJoinerPSKd s, mJoinerUdpPort s, mJoinerRouterLocator s, mPeerAddr s, mPeerPort s, mExpirationTime s).

Record grows (d d' : D) : Prop := {
  grows_identity : identity (mSocket d') = identity (mSocket d);
  grows_finalizing : finalizing d -> finalizing d';
  grows_confined : confined d -> confined d' }.

#[local] Instance grows_preorder : PreOrder grows.
Proof. split; [by intros d|]. intros d1 d2 d3 [] []. split; [congruence|auto..]. Qed.

Lemma finalizing_app d d' l : mTrace d' = l ++ mTrace d -> finalizing d -> finalizing d'.
Proof. intros E [b Hb]. exists b. rewrite E. apply elem_of_app. by right. Qed.

Lemma admin_grows d d' : administrative d d' -> grows d d'.
Proof.
  intros [Hs Ht _ (l & _ & El)]. split; [by rewrite Hs|by eapply finalizing_app|].
  intros [H1 H2]. unfold confined. rewrite Hs, Ht. split; intros; eapply finalizing_app; eauto.
Qed.

Lemma same_grows (d d' : D) : identity (mSocket d') = identity (mSocket d) -> mRlyTx (mSocket d') = mRlyTx (mSocket d) ->
  mSocketSubType d' = mSocketSubType d -> mTrace d' = mTrace d -> grows d d'.
Proof. unfold confined, finalizing. intros Hi Hr Ht Htr. split; unfold confined, finalizing; by rewrite ?Hr, ?Ht, ?Htr. Qed.

Lemma relay_send_grows t kek b s s' n d :
  mSocket d = s -> mSocketSubType d = t -> RelaySocket_Send t kek b s = Ok (s', n) -> grows d (with_socket d s' t).
Proof.
  intros Hs Ht E. unfold RelaySocket_Send in E. destruct (SendRlyTx _ _ _ _) as [m|?|]; [|injection E as <- <-|done].
  - injection E as <- <-. subst s. split; [done|done|]. intros [H1 H2]. split; cbn; [by subst t|].
    intros m' [[= -> Hm]|Hm]%elem_of_cons; [|by eapply H2].
    symmetry in Hm. apply bool_decide_eq_true in Hm. apply H1. by rewrite Ht.
  - subst s. split; [done|done|]. intros [H1 H2]. split; cbn; [by subst t|done].
Qed.

Lemma run_io_grows {A} (p : Io A) : forall d d' r, run_io sha256 p d = Ok (d', r) -> grows d d'.
Proof.
  induction p as [r|b k IH|m k IH|i f k IH|k IH|b m y v k IH]; intros d d' r' E; cbn [run_io] in E.
  - by injection E as <- <-.
  - apply bind_ok in E as ([s n] & E1 & E). apply IH in E. etransitivity; [|exact E]. exact (relay_send_grows _ _ _ _ _ _ d eq_refl eq_refl E1).
  - apply bind_ok in E as ([s n] & E1 & E). apply IH in E. etransitivity; [|exact E].
    cbn in E1. unfold RelaySocket_Receive in E1. destruct (is_nil _); injection E1 as <- <-; by apply same_grows.
  - apply IH in E. etransitivity; [|exact E]. by apply same_grows.
  - by apply IH in E.
  - apply IH in E. etransitivity; [|exact E]. by apply same_grows.
Qed.

Lemma Write_grows b t d d' e : Write sha256 b t d = Ok (d', e) -> grows d d'.
Proof.
  unfold Write. case_bool_decide; [|by intros [= <- <-]]. intros E.
  apply bind_ok in E as ([d1 [t1 rval]] & E1 & E). apply run_io_grows in E1.
  set (d0 := with_socket (label d (LWriting (b, t))) (mSocket d) t) in *.
  assert (H0 : grows d d0).
  { split; [done|apply (finalizing_app d d0 [LWriting (b, t)]); done|]. intros [H1 H2]. split.
    - cbn. intros ->. exists b. apply elem_of_cons. by left.
    - intros m Hm. apply (finalizing_app d d0 [LWriting (b, t)]); [done|]. by eapply H2. }
  transitivity d0; [exact H0|]. transitivity d1; [exact E1|]. clear H0 E1.
  set (d2 := with_socket (with_ssl d1 t1 (mIsClientIdSet d1)) _ kSubTypeNone) in *.
  assert (H2 : grows d1 d2) by (split; [done|done|]; intros [H1 H2]; split; [done|exact H2]).
  destruct (0 <=? rval).
  - destruct (rval =? zlen b); injection E as <- <-; [|exact H2]. transitivity d2; [exact H2|].
    split; [done|apply (finalizing_app d2 _ [LWritten (b, t)]); done|]. intros [_ H3]. split; [done|].
    intros m Hm. apply (finalizing_app d2 _ [LWritten (b, t)]); [done|]. by eapply H3.
  - apply bind_ok in E as (e' & _ & E). by injection E as <- <-.
Qed.

Lemma queue_grows d q : grows d (with_queue d q).
Proof. by apply same_grows. Qed.

Lemma TryWrite_grows q : forall d d' e, mSendQueue d = q -> TryWrite_loop sha256 q d = Ok (d', e) -> grows d d'.
Proof.
  induction q as [|[b t] q IH]; intros d d' e Hq E; cbn [TryWrite_loop] in E; [by injection E as <- <-|].
  apply bind_ok in E as ([d1 e1] & E1 & E). apply Write_grows in E1. transitivity d1; [done|].
  case_bool_decide; [|by injection E as <- <-]. transitivity (with_queue d1 q); [apply queue_grows|]. by eapply IH; [|exact E].
Qed.

Lemma Send_grows b t d d' e : Dtls.Send sha256 b t d = Ok (d', e) -> grows d d'.
Proof.
  unfold Send. case_bool_decide; [|by intros [= <- <-]].
  assert (Hacc : forall d, grows d (label d (LAccepted (b, t)))).
  { intros d0. split; [done|apply (finalizing_app d0 _ [LAccepted (b, t)]); done|]. intros [H1 H2].
    split; intros; apply (finalizing_app d0 _ [LAccepted (b, t)]); eauto. }
  destruct (is_nil _); intros E; [|injection E as <- <-; etransitivity; [apply queue_grows|apply Hacc]].
  apply bind_ok in E as ([d1 e1] & E1 & E). apply Write_grows in E1. transitivity d1; [done|].
  case_bool_decide; [injection E as <- <-; apply Hacc|]. destruct (ShouldStop e1); injection E as <- <-; [done|].
  etransitivity; [apply queue_grows|apply Hacc].
Qed.

Lemma receive_grows b d d' : receive sha256 handler b d = Ok d' -> grows d d'.
Proof.
  unfold receive. intros E. apply bind_ok in E as (c & _ & E).
  set (d1 := with_socket d (with_coap (mSocket d) c) (mSocketSubType d)) in *. transitivity d1; [by apply same_grows|].
  clearbody d1. revert E. generalize (sent_since (trace (mCoap (mSocket d))) (trace c)). intros l. revert d1.
  induction l as [|[data t] l IH]; intros d1 E; cbn [send_all] in E; [by injection E as <-|].
  apply bind_ok in E as ([d2 e] & E1 & E). apply Send_grows in E1. transitivity d2; [done|]. by apply IH.
Qed.

Lemma HandleConnect_grows h e d d' : HandleConnect (T := T) h e d = Ok d' -> grows d d'.
Proof. by intros [= <-]. Qed.

Lemma readable_grows d d' : readable sha256 handler reads d = Ok d' -> grows d d'.
Proof.
  unfold readable. destruct (mReadable (mSocket d)); [|by intros [= <-]]. intros E.
  eapply (HandleEvent_stable sha256 grows (@run_io_grows) admin_grows TryWrite_grows) in E;
    [|apply HandleConnect_grows|apply receive_grows]. etransitivity; [|exact E]. by apply same_grows.
Qed.

Lemma handshake_timer_grows d d' : handshake_timer sha256 d = Ok d' -> grows d d'.
Proof.
  unfold handshake_timer. destruct (mFireTime _) as [t|]; [|by intros [= <-]]. destruct (t <=? mNow d); [|by intros [= <-]].
  intros E. by eapply (HandshakeTimerCallback_stable sha256 grows (@run_io_grows) admin_grows) in E; [|apply HandleConnect_grows].
Qed.

(** Configuring a session leaves its socket, its state and its messages alone. *)
Record configured (d d' : D) : Prop := {
  conf_socket : mSocket d' = mSocket d;
  conf_subtype : mSocketSubType d' = mSocketSubType d;
  conf_trace : mTrace d' = mTrace d;
  conf_state : mSessionState d' = mSessionState d }.
#[local] Instance configured_preorder : PreOrder configured.
Proof. split; [by intros d|]. intros d1 d2 d3 [] []. split; congruence. Qed.

Definition configures (k : D -> outcome (D * ErrorCode)) : Prop := forall d d' e, k d = Ok (d', e) -> configured d d'.

Lemma ssl_do_configured c (d : D) : configured d (ssl_do c d).1.
Proof. unfold ssl_do. by destruct (ssl_call _ _). Qed.
Lemma configures_try c e k : configures k -> configures (try_call c e k).
Proof.
  intros Hk d d' e' E. unfold try_call in E. pose proof (ssl_do_configured c d). destruct (ssl_do c d) as [d1 f].
  destruct (f =? 0); [transitivity d1; [done|by eapply Hk]|]. apply bind_ok in E as (? & _ & E). by injection E as <- _.
Qed.
Lemma configures_do c k : configures k -> configures (do_call c k).
Proof. intros Hk d d' e E. transitivity (ssl_do c d).1; [apply ssl_do_configured|by eapply Hk]. Qed.
Lemma configures_psk (b : bool) kek psk k : configures k -> configures (fun d => k (if b then with_keys d (kek d) psk else d)).
Proof. intros Hk d d' e E. transitivity (if b then with_keys d (kek d) psk else d); [by destruct b|by eapply Hk]. Qed.

Lemma Init_configured cfg : configures (Init cfg).
Proof.
  intros d d' e E. unfold Init in E. cbv zeta in E. revert E. generalize (mIsServer d). intros server E.
  match type of E with ?k d = _ => assert (Hk : configures k); [|by eapply Hk] end. clear.
  repeat first
    [ apply configures_try | apply configures_do | apply (configures_psk _ mKek)
    | match goal with |- configures (if ?b then _ else _) => destruct b end
    | match goal with |- configures ((if ?b then _ else _) _) => destruct b end
    | match goal with |- configures (fun d => Ok (d, kNone)) => by intros ? ? ? [= <- _] end ].
Qed.

(** *** The sessions of the commissioner *)

Context (GetLocalAddr : outcome Address) (rx_addr : Address) (rx_port : Z).
Abbreviation J := (@Joiners T).
Abbreviation step_j := (joiner_step sha256 handler ssl_new config reads GetLocalAddr rx_addr rx_port).
Abbreviation run_j := (joiner_run sha256 handler ssl_new config reads GetLocalAddr rx_addr rx_port).

Definition kSessionTime : Z := kDtlsHandshakeTimeoutMax * 1000 + kJoinerTimeout * 1000.

(** A session was admitted: the user gave its credential for its joiner. *)
Definition admitted (now : Z) (id : ByteArray) (d : D) : Prop :=
  mJoinerId (mSocket d) = id /\ mJoinerPSKd (mSocket d) <> [] /\
  exists t, t <= now /\ OnJoinerRequest handler t id = mJoinerPSKd (mSocket d) /\ GetExpirationTime d = t + kSessionTime.

Record sessions_ok (j : J) : Prop := {
  ok_admitted id d : mJoinerSessions j !! id = Some d -> admitted (jclock j) id d;
  ok_confined id d : mJoinerSessions j !! id = Some d -> confined d;
  ok_timer : mJoinerSessions j <> ∅ -> is_Some (mJoinerSessionTimer j) }.

Lemma admitted_same now id d d' : identity (mSocket d') = identity (mSocket d) -> admitted now id d -> admitted now id d'.
Proof. unfold identity, admitted, GetExpirationTime. intros [= -> -> _ _ _ _ ->]. done. Qed.

Lemma Connect_spec d d' : Connect config d = Ok d' ->
  mJoinerId (mSocket d') = mJoinerId (mSocket d) /\ mJoinerPSKd (mSocket d') = mJoinerPSKd (mSocket d) /\
  GetExpirationTime d' = mNow d + kSessionTime /\ mRlyTx (mSocket d') = mRlyTx (mSocket d) /\
  mSocketSubType d' = mSocketSubType d.
Proof.
  unfold Connect. intros E. apply bind_ok in E as ([d1 e] & E1 & E). apply Init_configured in E1 as [Hs Ht _ _].
  unfold Dtls.Connect, HandleConnect, GetExpirationTime in *.
  repeat case_bool_decide; try done; injection E as <-; cbn; rewrite Hs, ?Ht; by cbn.
Qed.

Lemma sessions_ok_update j id d :
  sessions_ok j -> admitted (jclock j) id d -> confined d -> is_Some (mJoinerSessionTimer j) ->
  sessions_ok (with_sessions j (<[id := d]> (mJoinerSessions j))).
Proof.
  intros [Ha Hc Ht] Had Hcon Htm. split; cbn; [| |done].
  - intros id' d' [[-> ->]|[_ H]]%lookup_insert_Some; [done|by apply Ha].
  - intros id' d' [[-> ->]|[_ H]]%lookup_insert_Some; [done|by eapply Hc].
Qed.

Lemma sessions_ok_sub j m t : sessions_ok j -> m ⊆ mJoinerSessions j -> (m <> ∅ -> is_Some t) ->
  sessions_ok (mkJoiners m t (jclock j)).
Proof. intros [Ha Hc Ht] Hm Htm. split; cbn; [|intros id d H; by eapply Hc, lookup_weaken|done]. intros id d H. by eapply Ha, lookup_weaken. Qed.

Lemma ok_timer_lookup j id d : sessions_ok j -> mJoinerSessions j !! id = Some d -> is_Some (mJoinerSessionTimer j).
Proof. intros [_ _ Ht] H. apply Ht. intros E. by rewrite E, lookup_empty in H. Qed.

Lemma on_session_ok id f j j' : (forall d d', f d = Ok d' -> grows d d') ->
  sessions_ok j -> on_session id f j = Ok j' -> sessions_ok j'.
Proof.
  intros Hf Hok E. unfold on_session in E. destruct (mJoinerSessions j !! id) as [d|] eqn:Hd; [|by injection E as <-].
  apply bind_ok in E as (d1 & E1 & E). injection E as <-. apply Hf in E1 as [Hi _ Hc].
  apply sessions_ok_update; [done| | |by eapply ok_timer_lookup].
  - eapply admitted_same; [exact Hi|by apply (ok_admitted j Hok)].
  - apply Hc. by eapply (ok_confined j Hok).
Qed.

Lemma feed_ok j id records j' : sessions_ok j -> feed_session j id records = Ok j' -> sessions_ok j'.
Proof.
  intros Hok E. unfold feed_session in E. destruct (mJoinerSessions j !! id) as [d|] eqn:Hd; [|done]. injection E as <-.
  apply sessions_ok_update; [done| | |by eapply ok_timer_lookup].
  - eapply admitted_same; [|by apply (ok_admitted j Hok)]. done.
  - pose proof (ok_confined j Hok id d Hd) as [H1 H2]. by split.
Qed.

Lemma start_ok j id psk rx a j' : sessions_ok j -> OnJoinerRequest handler (jclock j) id = psk -> psk <> [] ->
  start_session ssl_new config rx_addr rx_port j id psk rx a = Ok j' -> sessions_ok j'.
Proof.
  intros Hok Hpsk Hne E. unfold start_session in E. apply bind_ok in E as (d0 & E0 & E). apply bind_ok in E as (d & E1 & E).
  injection E as <-. unfold JoinerSession_init in E0. cbn [mbind outcome_bind] in E0. apply bind_ok in E0 as (c & _ & E0). injection E0 as <-.
  apply Connect_spec in E1 as (Hi & Hp & He & Hr & Ht). cbn in Hi, Hp, He, Hr, Ht.
  apply (sessions_ok_update (mkJoiners (mJoinerSessions j) (Some (GetExpirationTime d)) (jclock j)) id d); [|split_and!|split|done].
  - destruct Hok as [Ha Hc _]. by split.
  - done.
  - by rewrite Hp.
  - exists (jclock j). cbn. by rewrite Hp.
  - by rewrite Ht.
  - rewrite Hr. intros m Hm. by apply elem_of_nil in Hm.
Qed.

(** What [HandleRlyRx] does, once the RLY_RX.ntf is understood: the sessions but the one of the joiner stay. *)
Lemma HandleRlyRx_cases payload j j' : HandleRlyRx handler ssl_new config GetLocalAddr rx_addr rx_port payload j = Ok j' ->
  j' = j \/ exists rx id, parse_rly_rx payload = Ok rx /\ flip_local_bit (rxIid rx) = Ok id /\
    exists m, m ⊆ mJoinerSessions j /\ (forall id', id' <> id -> m !! id' = mJoinerSessions j !! id') /\
      let j0 := with_sessions j m in
      (j' = j0 \/ feed_session j0 id (rxRecords rx) = Ok j' \/
       exists psk a j1, OnJoinerRequest handler (jclock j) id = psk /\ psk <> [] /\
         start_session ssl_new config rx_addr rx_port j0 id psk rx a = Ok j1 /\ feed_session j1 id (rxRecords rx) = Ok j').
Proof.
  unfold HandleRlyRx. destruct (parse_rly_rx payload) as [rx|?|]; [|intros [= <-]; by left|done]. intros E.
  apply bind_ok in E as (id & Hid & E). right. exists rx, id. split; [done|]. split; [done|].
  set (m := match mJoinerSessions j !! id with Some d => if Disabled d then delete id (mJoinerSessions j) else mJoinerSessions j | None => mJoinerSessions j end).
  exists m. assert (Ej : match mJoinerSessions j !! id with
               | Some d => if Disabled d then with_sessions j (delete id (mJoinerSessions j)) else j
               | None => j end = with_sessions j m).
  { unfold m. destruct (mJoinerSessions j !! id) as [d|]; [destruct (Disabled d)|]; by destruct j. }
  rewrite Ej in E. split; [|split].
  - unfold m. destruct (mJoinerSessions j !! id) as [d|]; [destruct (Disabled d)|]; [apply delete_subseteq|done..].
  - intros id' Hne. unfold m. destruct (mJoinerSessions j !! id) as [d|]; [destruct (Disabled d)|]; [by rewrite lookup_delete_ne|done..].
  - cbv zeta in *. destruct (mJoinerSessions (with_sessions j m) !! id) as [d|]; [by right; left|].
    cbn [jclock with_sessions] in E. destruct (OnJoinerRequest handler (jclock j) id) as [|b psk] eqn:Hpsk; [injection E as <-; by left|].
    destruct GetLocalAddr as [a|?|]; [|injection E as <-; by left|done].
    apply bind_ok in E as (j1 & E1 & E). right; right. by exists (b :: psk), a, j1.
Qed.

Lemma HandleRlyRx_ok payload j j' : sessions_ok j ->
  HandleRlyRx handler ssl_new config GetLocalAddr rx_addr rx_port payload j = Ok j' -> sessions_ok j'.
Proof.
  intros Hok E. apply HandleRlyRx_cases in E as [->|(rx & id & _ & _ & m & Hm & _ & H)]; [done|]. cbv zeta in H.
  assert (H0 : sessions_ok (with_sessions j m)).
  { apply sessions_ok_sub; [done..|]. intros Hne. apply (ok_timer j Hok). intros E. rewrite E in Hm. apply Hne, map_empty. intros k.
    destruct (m !! k) as [d|] eqn:Hk; [|done]. by pose proof (lookup_weaken _ _ _ _ Hk Hm). }
  destruct H as [->|[E|(psk & a & j1 & Hpsk & Hne & E1 & E)]]; [done|by eapply feed_ok|].
  eapply feed_ok; [|exact E]. by eapply start_ok in E1.
Qed.

Lemma next_shot_some l : l <> [] -> is_Some (next_shot (T := T) l).
Proof. destruct l as [|d l]; [done|]. intros _. cbn. case_match; by eexists. Qed.

Lemma next_shot_spec l t : next_shot (T := T) l = Some t -> exists d, d ∈ l /\ GetExpirationTime d = t.
Proof.
  revert t. induction l as [|d l IH]; intros t E; [done|]. cbn in E. fold (next_shot l) in E.
  destruct (next_shot l) as [t'|] eqn:El.
  - destruct (IH t' eq_refl) as (d' & Hd' & Ht'). destruct (GetExpirationTime d <? t'); injection E as <-.
    + exists d. split; [by left|done].
    + exists d'. split; [by right|done].
  - injection E as <-. exists d. split; [by left|done].
Qed.

Lemma timer_ok j : sessions_ok j -> sessions_ok (HandleJoinerSessionTimer j).
Proof.
  intros Hok. apply sessions_ok_sub; [done|apply map_filter_subseteq|]. intros Hne. apply next_shot_some.
  intros E. apply fmap_nil_inv in E. by apply map_to_list_empty_iff in E.
Qed.

Lemma joiner_step_ok ev j j' : sessions_ok j -> step_j ev j = Ok j' -> sessions_ok j'.
Proof.
  intros Hok E. destruct ev as [payload|id|id|now|]; cbn [joiner_step] in E.
  - by eapply HandleRlyRx_ok.
  - eapply on_session_ok; [|exact Hok|exact E]. intros d d'. apply readable_grows.
  - eapply on_session_ok; [|exact Hok|exact E]. intros d d'. apply handshake_timer_grows.
  - injection E as <-. destruct Hok as [Ha Hc Ht]. split; cbn.
    + intros id d [d0 [<- H]]%lookup_fmap_Some. apply Ha in H as (H1 & H2 & t & H3 & H4). split_and!; [done..|].
      exists t. split; [lia|done].
    + intros id d [d0 [<- H]]%lookup_fmap_Some. by apply Hc in H.
    + intros Hne. apply Ht. intros E. apply Hne. by rewrite E, fmap_empty.
  - destruct (mJoinerSessionTimer j) as [t|]; [|by injection E as <-].
    destruct (t <=? jclock j); injection E as <-; [by apply timer_ok|done].
Qed.

Lemma joiner_run_ok evs : forall j j', sessions_ok j -> run_j evs j = Ok j' -> sessions_ok j'.
Proof.
  induction evs as [|ev evs IH]; intros j j' Hok E; [by injection E as <-|]. apply bind_ok in E as (j1 & E1 & E).
  apply joiner_step_ok in E1; [|done]. by eapply IH.
Qed.

Lemma init_ok now : sessions_ok (Joiners_init now).
Proof. by split. Qed.

(** C2: Only admitted joiners have a session.  In every reachable state a session is filed under the id of its
    joiner, it is protected by the credential that the user gave for this id, which was not empty, and it expires
    80 seconds after it was given; and a RLY_RX.ntf concerns no session but the one of the joiner that it names. *)
Theorem joiner_admission evs now j :
  run_j evs (Joiners_init now) = Ok j ->
  (forall id d, mJoinerSessions j !! id = Some d ->
     mJoinerId (mSocket d) = id /\ mJoinerPSKd (mSocket d) <> [] /\
     exists t, t <= jclock j /\ OnJoinerRequest handler t id = mJoinerPSKd (mSocket d) /\
       GetExpirationTime d = t + (60 + 20) * 1000) /\
  (forall payload j' rx id, step_j (JEvtRlyRx payload) j = Ok j' ->
     parse_rly_rx payload = Ok rx -> flip_local_bit (rxIid rx) = Ok id ->
     forall id', id' <> id -> mJoinerSessions j' !! id' = mJoinerSessions j !! id').
Proof.
  intros E. split; [exact (ok_admitted j (joiner_run_ok evs _ _ (init_ok now) E))|]. clear E.
  intros payload j' rx id E Hrx Hid id' Hne. cbn [joiner_step] in E.
  apply HandleRlyRx_cases in E as [->|(rx' & id'' & Hrx' & Hid' & m & _ & Hm & H)]; [done|]. rewrite Hrx in Hrx'. injection Hrx' as <-. rewrite Hid in Hid'. injection Hid' as <-.
  rewrite <- (Hm id' Hne).
  assert (Hfeed : forall j0 r, feed_session j0 id r = Ok j' -> mJoinerSessions j' !! id' = mJoinerSessions j0 !! id').
  { intros j0 r E. unfold feed_session in E. destruct (mJoinerSessions j0 !! id); [|done]. injection E as <-. cbn.
    by rewrite lookup_insert_ne. }
  cbv zeta in H. destruct H as [->|[E|(psk & a & j1 & _ & _ & E1 & E)]]; [done|by apply Hfeed in E|].
  rewrite (Hfeed _ _ E). unfold start_session in E1. apply bind_ok in E1 as (d0 & _ & E1). apply bind_ok in E1 as (d & _ & E1).
  injection E1 as <-. cbn. by rewrite lookup_insert_ne.
Qed.

(** C4: The key of the joiner router stays secret.  In every reachable state of every session, whatever mbedtls
    sends and when, a RLY_TX.ntf that carries the key was only sent after a JOIN_FIN.rsp had been passed to the
    session to be written. *)
Theorem router_key_confined evs now j id d m :
  run_j evs (Joiners_init now) = Ok j -> mJoinerSessions j !! id = Some d ->
  (m, true) ∈ mRlyTx (mSocket d) -> exists b, LWriting (b, kJoinFinResponse) ∈ mTrace d.
Proof. intros E Hd. exact (proj2 (ok_confined j (joiner_run_ok evs _ _ (init_ok now) E) id d Hd) m). Qed.

(** *** Sessions end *)

(** Waiting for the timer, and firing it. *)
Definition wait_and_fire (t : Z) : list JoinerEvent := [JEvtTime t; JEvtSessionTimer].

(** The next firing ends a session. *)
Definition prompt (j : J) : Prop := forall t, mJoinerSessionTimer j = Some t ->
  exists id d, mJoinerSessions j !! id = Some d /\ GetExpirationTime d <= t.

Lemma run_app_j l1 : forall l2 j j1 j2, run_j l1 j = Ok j1 -> run_j l2 j1 = Ok j2 -> run_j (l1 ++ l2) j = Ok j2.
Proof.
  induction l1 as [|e l1 IH]; intros l2 j j1 j2 E1 E2; cbn in *; [by injection E1 as ->|].
  apply bind_ok in E1 as (j3 & -> & E1). cbn. by eapply IH.
Qed.

Lemma round j t : sessions_ok j -> mJoinerSessionTimer j = Some t ->
  exists j', run_j (wait_and_fire t) j = Ok j' /\ sessions_ok j' /\ prompt j' /\
    (size (mJoinerSessions j') <= size (mJoinerSessions j))%nat /\
    (prompt j -> (size (mJoinerSessions j') < size (mJoinerSessions j))%nat).
Proof.
  intros Hok Ht. set (now := Z.max t (jclock j)). set (m := session_time now <$> mJoinerSessions j).
  set (j1 := mkJoiners m (Some t) now).
  assert (E1 : step_j (JEvtTime t) j = Ok j1) by (unfold j1; cbn [joiner_step]; by rewrite Ht).
  pose proof (joiner_step_ok _ _ _ Hok E1) as Hok1.
  exists (HandleJoinerSessionTimer j1). split; [|split; [by apply timer_ok|split; [|split]]].
  - unfold wait_and_fire. cbn [joiner_run]. rewrite E1. cbn [mbind outcome_bind joiner_step j1 mJoinerSessionTimer jclock].
    by rewrite (proj2 (Z.leb_le t now)) by lia.
  - intros t' Ht'. cbn in Ht'. apply next_shot_spec in Ht' as (d & Hd & He). apply list_elem_of_fmap in Hd as ([id d'] & -> & Hd).
    apply elem_of_map_to_list in Hd. exists id, d'. split; [done|]. cbn in He. lia.
  - cbn. rewrite <- (map_size_fmap (session_time now) (mJoinerSessions j)). apply map_subseteq_size, map_filter_subseteq.
  - intros Hp. destruct (Hp t Ht) as (id & d & Hd & He). cbn. rewrite <- (map_size_fmap (session_time now) (mJoinerSessions j)).
    apply map_subset_size, map_subset_alt. split; [apply map_filter_subseteq|]. exists id.
    assert (Hid : m !! id = Some (session_time now d)) by (unfold m; by rewrite lookup_fmap, Hd).
    split; [|exists (session_time now d); exact Hid]. apply map_lookup_filter_None. right. intros d' Hd'. rewrite Hid in Hd'. injection Hd' as <-.
    unfold GetExpirationTime in *. cbn. lia.
Qed.

Lemma drain n : forall j, sessions_ok j -> prompt j -> (size (mJoinerSessions j) <= n)%nat ->
  exists l j', (forall ev, ev ∈ l -> ev = JEvtSessionTimer \/ exists t, ev = JEvtTime t) /\ (length l <= 2 * n)%nat /\
    run_j l j = Ok j' /\ mJoinerSessions j' = ∅.
Proof.
  induction n as [|n IH]; intros j Hok Hp Hn.
  - exists [], j. split; [by intros ev ?%elem_of_nil|]. split; [done|]. split; [done|]. apply map_size_empty_iff. lia.
  - destruct (decide (mJoinerSessions j = ∅)) as [E|Hne].
    { exists [], j. split; [by intros ev ?%elem_of_nil|]. split; [cbn; lia|]. by split. }
    destruct (ok_timer j Hok Hne) as [t Ht]. destruct (round j t Hok Ht) as (j1 & E1 & Hok1 & Hp1 & _ & Hlt).
    destruct (IH j1 Hok1 Hp1) as (l & j' & Hl & Hlen & E & Hj'); [specialize (Hlt Hp); lia|].
    exists (wait_and_fire t ++ l), j'. split; [|split; [rewrite length_app; cbn; lia|split; [by eapply run_app_j|done]]].
    intros ev [Hev|Hev]%elem_of_app; [|by apply Hl]. unfold wait_and_fire in Hev. rewrite !elem_of_cons in Hev.
    destruct Hev as [->|[->|Hev]]; [right; by exists t|by left|by apply elem_of_nil in Hev].
Qed.

(** C5: Sessions end.  From every reachable state, if the relay stays silent then the commissioner drops every
    session by itself: waiting for its timer and letting it fire, once more than there are sessions at most, leaves
    none.  In particular the timer runs whenever there is a session. *)
Theorem joiner_sessions_end evs now j :
  run_j evs (Joiners_init now) = Ok j ->
  (mJoinerSessions j <> ∅ -> is_Some (mJoinerSessionTimer j)) /\
  exists l j', (forall ev, ev ∈ l -> ev = JEvtSessionTimer \/ exists t, ev = JEvtTime t) /\
    (length l <= 2 * S (size (mJoinerSessions j)))%nat /\ run_j l j = Ok j' /\ mJoinerSessions j' = ∅.
Proof.
  intros E. pose proof (joiner_run_ok evs _ _ (init_ok now) E) as Hok. split; [apply (ok_timer j Hok)|].
  destruct (decide (mJoinerSessions j = ∅)) as [He|Hne].
  { exists [], j. split; [by intros ev ?%elem_of_nil|]. split; [cbn; lia|]. by split. }
  destruct (ok_timer j Hok Hne) as [t Ht]. destruct (round j t Hok Ht) as (j1 & E1 & Hok1 & Hp1 & Hle & _).
  destruct (drain _ j1 Hok1 Hp1 Hle) as (l & j' & Hl & Hlen & E' & Hj').
  exists (wait_and_fire t ++ l), j'. split; [|split; [rewrite length_app; cbn; lia|split; [by eapply run_app_j|done]]].
  intros ev [Hev|Hev]%elem_of_app; [|by apply Hl]. unfold wait_and_fire in Hev. rewrite !elem_of_cons in Hev.
  destruct Hev as [->|[->|Hev]]; [right; by exists t|by left|by apply elem_of_nil in Hev].
Qed.

(** *** JOIN_FIN *)

(** The TLVs of a JOIN_FIN.req, with its optional part or without. *)
Definition join_fin_tlvs (state : Z) (info : JoinFin) (url : bool) : list Tlv.Tlv :=
  [Tlv_u8 kState state; Tlv_bytes kVendorName (mVendorName info); Tlv_bytes kVendorModel (mVendorModel info);
   Tlv_bytes kVendorSWVersion (mVendorSwVersion info); Tlv_bytes kVendorStackVersion (mVendorStackVersion info)] ++
  if url then [Tlv_bytes kProvisioningURL (mProvisioningUrl info); Tlv_bytes kVendorData (mVendorData info)] else [].

(** The lengths of the specification. *)
Definition join_fin_wf (info : JoinFin) : Prop :=
  bytes (mVendorName info) /\ bytes (mVendorModel info) /\ bytes (mVendorSwVersion info) /\ bytes (mVendorStackVersion info) /\
  bytes (mProvisioningUrl info) /\ bytes (mVendorData info) /\
  zlen (mVendorName info) <= 32 /\ zlen (mVendorModel info) <= 32 /\ zlen (mVendorSwVersion info) <= 16 /\
  zlen (mVendorStackVersion info) < 255 /\ zlen (mProvisioningUrl info) <= 64 /\ zlen (mVendorData info) <= 64.

Lemma IsValid_at_most t v n : (forall l, 0 <= l -> switch mesh_cop_rules (fun _ => false) t l = (l <=? n)) -> zlen v <= n -> n < 65536 ->
  IsValid (Tlv_bytes t v) = true.
Proof.
  intros Hs Hl Hn. pose proof (zlen_nonneg v). rewrite IsValid_bytes, u16_id, Z.eqb_refl, Hs by (unfold fits; lia).
  by apply Z.leb_le.
Qed.

Lemma parse_join_fin_tlvs state info (url : bool) : join_fin_wf info ->
  (url = false -> mProvisioningUrl info = [] /\ mVendorData info = []) ->
  parse_join_fin (concat (map encoding (join_fin_tlvs state info url))) = Ok info.
Proof.
  intros (B1 & B2 & B3 & B4 & B5 & B6 & L1 & L2 & L3 & L4 & L5 & L6) Hurl. unfold parse_join_fin.
  rewrite ParseTlvs_encodings.
  2: { unfold join_fin_tlvs. apply Forall_app. split; [repeat (apply Forall_cons_2); [..|done]|destruct url; [|done];
         repeat (apply Forall_cons_2); [..|done]].
       - apply (wire_value kState [u8 state]); [by apply (IsValid_exact _ _ 1)|repeat constructor; apply u8_byte|done|done].
       - apply wire_value; [by apply (IsValid_at_most _ _ 32)|done..].
       - apply wire_value; [by apply (IsValid_at_most _ _ 32)|done..].
       - apply wire_value; [by apply (IsValid_at_most _ _ 16)|done..].
       - apply wire_value; [|done..]. pose proof (zlen_nonneg (mVendorStackVersion info)).
         apply (IsValid_exact _ _ (zlen (mVendorStackVersion info))); [|done|unfold fits; lia]. cbn. by apply Z.ltb_lt.
       - apply wire_value; [by apply (IsValid_at_most _ _ 64)|done..].
       - apply wire_value; [by apply (IsValid_at_most _ _ 64)|done..]. }
  cbn [mbind outcome_bind]. unfold join_fin_tlvs. destruct url; cbn [app]; set (ts := _ :: _).
  - change (last_wins ts ∅ !! kState) with (Some (Tlv_u8 kState state)).
    change (last_wins ts ∅ !! kVendorName) with (Some (Tlv_bytes kVendorName (mVendorName info))).
    change (last_wins ts ∅ !! kVendorModel) with (Some (Tlv_bytes kVendorModel (mVendorModel info))).
    change (last_wins ts ∅ !! kVendorSWVersion) with (Some (Tlv_bytes kVendorSWVersion (mVendorSwVersion info))).
    change (last_wins ts ∅ !! kVendorStackVersion) with (Some (Tlv_bytes kVendorStackVersion (mVendorStackVersion info))).
    change (last_wins ts ∅ !! kProvisioningURL) with (Some (Tlv_bytes kProvisioningURL (mProvisioningUrl info))).
    change (last_wins ts ∅ !! kVendorData) with (Some (Tlv_bytes kVendorData (mVendorData info))). by destruct info.
  - change (last_wins ts ∅ !! kState) with (Some (Tlv_u8 kState state)).
    change (last_wins ts ∅ !! kVendorName) with (Some (Tlv_bytes kVendorName (mVendorName info))).
    change (last_wins ts ∅ !! kVendorModel) with (Some (Tlv_bytes kVendorModel (mVendorModel info))).
    change (last_wins ts ∅ !! kVendorSWVersion) with (Some (Tlv_bytes kVendorSWVersion (mVendorSwVersion info))).
    change (last_wins ts ∅ !! kVendorStackVersion) with (Some (Tlv_bytes kVendorStackVersion (mVendorStackVersion info))).
    change (last_wins ts ∅ !! kProvisioningURL) with (@None Tlv.Tlv).
    destruct (Hurl eq_refl) as [Hu Hd]. cbn. rewrite <- Hu at 1. rewrite <- Hd. by destruct info.
Qed.

Lemma parse_join_fin_total payload : bytes payload -> parse_join_fin payload <> Die.
Proof.
  intros Hb. unfold parse_join_fin. pose proof (ParseTlvs_total payload Hb) as Hs.
  destruct (ParseTlvs payload kMeshCoP) as [s|?|]; [|done|done].
  cbn [mbind outcome_bind].
  destruct (s !! kState), (s !! kVendorName), (s !! kVendorModel), (s !! kVendorSWVersion), (s !! kVendorStackVersion),
    (s !! kProvisioningURL), (s !! kVendorData); done.
Qed.

Lemma join_fin_response_spec (accept : bool) : exists joinFin, join_fin_response accept = Ok joinFin /\
  mSubType joinFin = kJoinFinResponse /\ IsAck joinFin = true /\ GetCode joinFin = Code.kChanged /\
  (tlvs ← ParseTlvs (mPayload joinFin) kMeshCoP; state ← need (tlvs !! kState); GetValueAsInt8 state)
  = Ok (if accept then kStateAccept else kStateReject).
Proof. destruct accept; eexists; (split; [vm_compute; reflexivity|]); split_and!; vm_compute; reflexivity. Qed.

(** C6: JOIN_FIN decides a joiner.  A JOIN_FIN.req is always answered, with a response that carries the sub-type
    for which the key of the joiner router is relayed: it accepts exactly when the request can be read (all its
    mandatory TLVs, and the vendor data if there is a provisioning URL) and the user agrees; otherwise it
    rejects.  Reading gives the user the vendor's data as the joiner encoded them. *)
Theorem join_fin_decision now id request c :
  bytes (mPayload request) ->
  (exists joinFin (accept : bool),
     HandleJoinFin handler now id request c = ('(c, _) ← coap_response c request joinFin; Ok c) /\
     mSubType joinFin = kJoinFinResponse /\ IsAck joinFin = true /\
     (tlvs ← ParseTlvs (mPayload joinFin) kMeshCoP; state ← need (tlvs !! kState); GetValueAsInt8 state)
     = Ok (if accept then kStateAccept else kStateReject) /\
     (accept = true <-> exists info, parse_join_fin (mPayload request) = Ok info /\ OnJoinerFinalize handler now id info = true)) /\
  (forall state info (url : bool), join_fin_wf info ->
     (url = false -> mProvisioningUrl info = [] /\ mVendorData info = []) ->
     mPayload request = concat (map encoding (join_fin_tlvs state info url)) ->
     parse_join_fin (mPayload request) = Ok info).
Proof.
  intros Hb. split; [|intros state info url Hwf Hurl ->; by apply parse_join_fin_tlvs].
  unfold HandleJoinFin, join_fin_accepted. pose proof (parse_join_fin_total _ Hb).
  destruct (parse_join_fin (mPayload request)) as [info|e|]; [| |done]; cbn [mbind outcome_bind].
  - destruct (join_fin_response_spec (OnJoinerFinalize handler now id info)) as (m & -> & H1 & H2 & _ & H4).
    exists m, (OnJoinerFinalize handler now id info). split_and!; [done..|]. split; [intros; by exists info|].
    by intros (info' & [= <-] & ?).
  - destruct (join_fin_response_spec false) as (m & -> & H1 & H2 & _ & H4).
    exists m, false. split_and!; [done..|]. split; [done|]. by intros (info' & ? & ?).
Qed.
End Session.
