(* ===== verification/Commissioning.v ===== *)
(** * Commissioning: the application behind the joiner sessions

    [CommissionerApp] is the handler that the sessions of the joiners ask for
    credentials ([src/app/commissioner_app.cpp] implements
    [CommissionerHandler], which [src/library/commissioner_impl.cpp] and
    [joiner_session.cpp] call).  The user operates the application while the
    sessions run, so the handler is the application as it is at each time. *)

From stdpp Require Import gmap.
From S2P Require Import Prelude Outcome Common Crypto NetworkData CoapMessage Dataset Dtls.
From S2P Require Import CommissionerApp CommissionerAppFacts Joiner JoinerFacts.
Import Addr Message.

Section Commissioning.
Context {L : Type} `{Library L}.
Context (sha256 : ByteArray -> ByteArray).

(** The handler that the application is, when it is [app now] at the time [now]. *)
Definition app_handler (app : Z -> @App L) : Handler := {|
  Joiner.OnJoinerRequest := fun now id =>
    match CommissionerApp.OnJoinerRequest sha256 (app now) id with Ok pskd => pskd | _ => [] end;
  Joiner.OnJoinerFinalize := fun now id info =>
    match CommissionerApp.OnJoinerFinalize sha256 (app now) id (Joiner.mProvisioningUrl info) with Ok b => b | _ => false end |}.

Context {T : Type} `{HM : MbedtlsErrors} `{HS : Ssl T}.
Context (inet_pton4 inet_pton6 : string_t -> option ByteArray) (inet_ntop4 inet_ntop6 : ByteArray -> option string_t).
Context (channel0 : NetworkData.Channel) (panId0 rotation0 delay0 : Z).
Context (ssl_new : T) (config : DtlsConfig) (reads : nat).
Context (GetLocalAddr : outcome Address) (rx_addr : Address) (rx_port : Z).

(** An application that its user may have brought about. *)
Definition operated (a : @App L) : Prop := exists ops s,
  perform_all sha256 inet_pton4 inet_pton6 inet_ntop4 inet_ntop6 channel0 panId0 rotation0 delay0 ops
    (App_init channel0 panId0 rotation0 delay0 s) = Ok a.

(** C1: Only enabled joiners are commissioned.  Whatever the user did with the application until each moment, every
    session of every reachable state is protected by the well-formed PSKd of a joiner that the user had enabled,
    under the id of this session or for all joiners, when the session was started; and a JOIN_FIN.req is
    accepted only if it can be read and names the provisioning URL of a joiner that is enabled at that moment. *)
Theorem only_enabled_joiners (app : Z -> @App L) evs now j :
  (forall t, operated (app t)) ->
  joiner_run sha256 (app_handler app) ssl_new config reads GetLocalAddr rx_addr rx_port evs (Joiners_init now) = Ok j ->
  (forall id d, mJoinerSessions j !! id = Some d -> exists t i,
     t <= jclock j /\ authorised sha256 (app t) id i /\ mJoinerPSKd (mSocket d) = mPSKd i /\
     6 <= zlen (mPSKd i) <= 32 /\ Forall pskd_char (mPSKd i)) /\
  (forall t id request, join_fin_accepted (app_handler app) t id request = Ok true ->
     exists info i, parse_join_fin (mPayload request) = Ok info /\ authorised sha256 (app t) id i /\
       Joiner.mProvisioningUrl info = CommissionerApp.mProvisioningUrl i).
Proof.
  intros Hops E. assert (H0 : forall t, joiners_ok sha256 (app t)).
  { intros t. destruct (Hops t) as (ops & s & E'). by eapply reachable_joiners. }
  split.
  - intros id d Hd. apply joiner_run_ok in E as [Ha _ _]; [|apply init_ok].
    destruct (Ha id d Hd) as (_ & Hne & t & Ht & Hr & _). cbn in Hr.
    destruct (CommissionerApp.OnJoinerRequest sha256 (app t) id) as [pskd|?|] eqn:Ep; [|congruence..].
    destruct (credential_given sha256 (app t) id pskd (H0 t) Ep) as (Hwf & i & Hi & ->); [congruence|].
    exists t, i. by rewrite <- Hr.
  - intros t id request. unfold join_fin_accepted. destruct (parse_join_fin (mPayload request)) as [info|?|]; [|done..].
    cbn. destruct (CommissionerApp.OnJoinerFinalize _ _ _ _) as [[]|?|] eqn:Ef; try discriminate. intros _.
    destruct (url_given sha256 (app t) id _ (H0 t) Ef) as (i & Hi & Hu). by exists info, i.
Qed.
End Commissioning.
