(* ===== verification/JoinerScript.v ===== *)
(** * Runs of joiner sessions

    The commissioner application of CommissionerAppScript admits two joiners;
    a border agent relays their records.  The witnesses of the properties of
    JoinerFacts, and the behaviours of the code that are not meant. *)

From stdpp Require Import gmap.
From S2P Require Import Prelude Outcome Common Crypto Tlv CoapMessage Dataset DatasetCodec Coap Commissioner CommissionerControl.
From S2P Require Import Dtls DtlsScript CommissionerApp CommissionerAppFacts CommissionerAppScript Joiner JoinerFacts Commissioning.
Import Endian Addr Message Tlv TlvFacts BloomFilter.

(** The application, once it enabled two joiners, and the handler that it is. *)
Definition app : @App Sample := sample_end (sample_app true) enabling.
Definition app_handler : Handler := Commissioning.app_handler sample_hash (fun _ => app).

(** mbedtls, whose handshake takes what there is to read, answers, and exports the key of the joiner router. *)
Definition joiner_ssl : Ssl SampleSsl := {|
  ssl_call := fun _ t => (t, 0);
  ssl_handshake := fun t =>
    IoReceive 16384 (fun _ =>
      IoSend [2] (fun _ =>
        match sample_handshakes t with
        | [] => IoExportKeys [42] 0 0 1 (IoSetDelay 0 0 (IoRet (mkSampleSsl true [], 0)))
        | e :: l => IoSetDelay 1000 2000 (IoRet (mkSampleSsl false l, e))
        end));
  ssl_handshake_over := sample_over;
  ssl_read := fun t => IoReceive 16384 (fun r => match r with inr b => IoRet (t, inr b) | inl e => IoRet (t, inl e) end);
  ssl_write := fun t b => IoSend b (fun n => IoRet (t, n));
  ssl_close_notify := fun t => IoSend [21] (fun _ => IoRet t);
  ssl_session_reset := fun t => IoSetDelay 0 0 (IoRet (mkSampleSsl false [])) |}.

Definition dtls_config : DtlsConfig := mkDtlsConfig false [] [] [] [].
Definition border_agent : Address := repeat 1 16.

Abbreviation relayed evs :=
  (joiner_run (H := sample_errors) (H0 := joiner_ssl) sample_hash app_handler (mkSampleSsl false []) dtls_config 10
     (Ok border_agent) border_agent 61631 evs (Joiners_init 0)).
Definition relayed_end (evs : list JoinerEvent) : Joiners :=
  match relayed evs with Ok j => j | _ => Joiners_init 0 end.
Definition session_of (evs : list JoinerEvent) (id : ByteArray) : option (DtlsSession JoinerSession SampleSsl) :=
  mJoinerSessions (relayed_end evs) !! id.

(** A RLY_RX.ntf with records of a joiner. *)
Definition rly_rx (id records : ByteArray) : JoinerEvent :=
  JEvtRlyRx (match flip_local_bit id with
             | Ok iid => concat (map encoding (relay_tlvs 1000 4096 iid records None))
             | _ => []
             end).

(** A JOIN_FIN.req for a provisioning URL. *)
Definition vendor : JoinFin := mkJoinFin (str "Vendor") (str "Model") (str "1.0") [0; 0; 0; 0; 0; 1] (str "url") [7; 7].
Definition join_fin_request (info : JoinFin) : ByteArray :=
  match SetUriPath (Message_new CoapMessage.kConfirmable Code.kPost) JoinerUri.kJoinFin with
  | Ok m => match Message.Serialize (Append m (concat (map encoding (join_fin_tlvs kStateAccept info true)))) [] with
            | Ok b => b | _ => [] end
  | _ => []
  end.

(** A joiner connects, and finishes. *)
Definition joining : list JoinerEvent :=
  [rly_rx id_a [1]; JEvtReadable id_a; rly_rx id_a (join_fin_request vendor); JEvtReadable id_a].

(** ** The theorems apply *)

Abbreviation alice := (mSocket (default (DtlsSession_init true
  (mkJoinerSession id_a pskd_a 1000 4096 border_agent 61631 border_agent 9527 [] false (Coap.Coap_init 0 0) 0 [])
  (mkSampleSsl false []) 0) (session_of joining id_a))).
Definition sample_kek : ByteArray := repeat 42 16.

Lemma relay_roundtrip_witness :
  session_wf alice /\
  exists rlyTx iid, SendRlyTx alice sample_kek [1; 2; 3] true = Ok rlyTx /\ IsNonConfirmable rlyTx = true /\
    parse_rly_rx (mPayload rlyTx) = Ok (mkRlyRx (mJoinerUdpPort alice) (mJoinerRouterLocator alice) iid [1; 2; 3]) /\
    flip_local_bit iid = Ok (mJoinerId alice) /\
    exists tlvs, ParseTlvs (mPayload rlyTx) kMeshCoP = Ok tlvs /\ mValue <$> tlvs !! kJoinerRouterKEK = Some sample_kek.
Proof.
  assert (Hwf : session_wf alice) by (apply (bool_decide_unpack _); vm_compute; exact I).
  split; [exact Hwf|].
  apply (relay_roundtrip alice sample_kek [1; 2; 3] true Hwf); [|reflexivity|intros _; split; [|reflexivity]].
  - repeat constructor; lia.
  - apply (bool_decide_unpack _). vm_compute. exact I.
Defined.

Definition traffic : list RelayOp := [RecvRecords [1; 2; 3]; Receive 2; RecvRecords [4]; Receive 5; Receive 1].

Lemma relay_socket_stream_witness :
  relay_ops traffic (with_buffer alice [] false) = Ok (with_buffer alice [] true, [1; 2; 3; 4]) /\
  exists s' out, relay_ops traffic (with_buffer alice [] false) = Ok (s', out) /\
    mRecvBuf (with_buffer alice [] false) ++ arrivals traffic = out ++ mRecvBuf s'.
Proof.
  split; [vm_compute; reflexivity|].
  apply (proj1 (relay_socket_stream traffic (with_buffer alice [] false) ltac:(repeat constructor; lia))).
Defined.

Lemma joiner_admission_witness :
  relayed joining = Ok (relayed_end joining) /\ bool_decide (is_Some (session_of joining id_a)) = true /\
  forall id d, mJoinerSessions (relayed_end joining) !! id = Some d ->
    mJoinerId (mSocket d) = id /\ mJoinerPSKd (mSocket d) <> [] /\
    exists t, t <= jclock (relayed_end joining) /\ Joiner.OnJoinerRequest app_handler t id = mJoinerPSKd (mSocket d) /\
      GetExpirationTime d = t + (60 + 20) * 1000.
Proof.
  assert (E : relayed joining = Ok (relayed_end joining)) by (vm_compute; reflexivity).
  split; [exact E|]. split; [vm_compute; reflexivity|].
  exact (proj1 (joiner_admission (HM := sample_errors) (HS := joiner_ssl) sample_hash app_handler (mkSampleSsl false [])
    dtls_config 10 (Ok border_agent) border_agent 61631 joining 0 _ E)).
Defined.

(** The last message to the border agent carries the key. *)
Definition last_relayed (evs : list JoinerEvent) (id : ByteArray) : option (Message * bool) :=
  d ← session_of evs id; head (mRlyTx (mSocket d)).

Lemma router_key_confined_witness : exists d m,
  session_of joining id_a = Some d /\ (m, true) ∈ mRlyTx (mSocket d) /\
  exists b, LWriting (b, kJoinFinResponse) ∈ mTrace d.
Proof.
  assert (E : relayed joining = Ok (relayed_end joining)) by (vm_compute; reflexivity).
  assert (Hd : exists d m, session_of joining id_a = Some d /\ head (mRlyTx (mSocket d)) = Some (m, true))
    by (eexists _, _; split; vm_compute; reflexivity).
  destruct Hd as (d & m & Hd & Hm). exists d, m. split; [exact Hd|].
  assert (Hin : (m, true) ∈ mRlyTx (mSocket d)) by by apply head_Some_elem_of.
  split; [exact Hin|].
  exact (router_key_confined (HM := sample_errors) (HS := joiner_ssl) sample_hash app_handler (mkSampleSsl false [])
    dtls_config 10 (Ok border_agent) border_agent 61631 joining 0 _ id_a d m E Hd Hin).
Defined.

Lemma joiner_sessions_end_witness :
  relayed joining = Ok (relayed_end joining) /\
  exists l j', (length l <= 4)%nat /\ relayed (joining ++ l) = Ok j' /\ mJoinerSessions j' = ∅.
Proof.
  assert (E : relayed joining = Ok (relayed_end joining)) by (vm_compute; reflexivity).
  split; [exact E|].
  destruct (proj2 (joiner_sessions_end (HM := sample_errors) (HS := joiner_ssl) sample_hash app_handler (mkSampleSsl false [])
    dtls_config 10 (Ok border_agent) border_agent 61631 joining 0 _ E)) as (l & j' & _ & Hl & E' & He).
  exists l, j'. split; [exact Hl|]. split; [by eapply run_app_j|done].
Defined.

Definition join_fin (info : JoinFin) : Message :=
  Append (Message_new CoapMessage.kConfirmable Code.kPost) (concat (map encoding (join_fin_tlvs kStateAccept info true))).

Lemma join_fin_decision_witness :
  parse_join_fin (mPayload (join_fin vendor)) = Ok vendor /\
  Joiner.OnJoinerFinalize app_handler 5 id_a vendor = true /\
  forall c, exists joinFin (accept : bool),
    Joiner.HandleJoinFin app_handler 5 id_a (join_fin vendor) c = ('(c, _) ← coap_response c (join_fin vendor) joinFin; Ok c) /\
    accept = true.
Proof.
  assert (Hb : bytes (mPayload (join_fin vendor))) by (apply (bool_decide_unpack _); vm_compute; exact I).
  assert (Hf : Joiner.OnJoinerFinalize app_handler 5 id_a vendor = true) by (vm_compute; reflexivity).
  pose proof (fun c => join_fin_decision app_handler 5 id_a (join_fin vendor) c Hb) as H.
  assert (Hp : parse_join_fin (mPayload (join_fin vendor)) = Ok vendor).
  { apply (proj2 (H (Coap.Coap_init 0 0)) kStateAccept vendor true); [|discriminate|reflexivity].
    split_and!; (apply (bool_decide_unpack _); vm_compute; exact I). }
  split; [exact Hp|]. split; [exact Hf|]. intros c.
  destruct (proj1 (H c)) as (m & accept & E & _ & _ & _ & Ha). exists m, accept. split; [exact E|].
  apply Ha. exists vendor. exact (conj Hp Hf).
Defined.

Lemma only_enabled_joiners_witness :
  relayed joining = Ok (relayed_end joining) /\
  forall id d, mJoinerSessions (relayed_end joining) !! id = Some d -> exists t i,
    t <= jclock (relayed_end joining) /\ authorised sample_hash app id i /\ mJoinerPSKd (mSocket d) = mPSKd i /\
    6 <= zlen (mPSKd i) <= 32 /\ Forall pskd_char (mPSKd i).
Proof.
  assert (E : relayed joining = Ok (relayed_end joining)) by (vm_compute; reflexivity).
  split; [exact E|].
  refine (proj1 (only_enabled_joiners (HM := sample_errors) (HS := joiner_ssl) sample_hash sample_addr sample_addr
    sample_no_addr sample_no_addr channel_any 0 0 0 (mkSampleSsl false []) dtls_config 10 (Ok border_agent) border_agent
    61631 (fun _ => app) joining 0 _ _ E)).
  intros t. exists enabling, (sample_start true). vm_compute. reflexivity.
Defined.

(** ** Runs that go wrong *)

(** A session ends much too late. *)
Definition crowded : list JoinerEvent :=
  [rly_rx id_a [1]; JEvtTime 79999; rly_rx id_b [1]; JEvtTime 159998; JEvtSessionTimer].
Definition rejected : JoinFin := mkJoinFin (str "Vendor") (str "Model") (str "1.0") [0; 0; 0; 0; 0; 1] (str "other") [7; 7].
Definition rejecting : list JoinerEvent :=
  [rly_rx id_a [1]; JEvtReadable id_a; rly_rx id_a (join_fin_request rejected); JEvtReadable id_a].

(** Faults of the joiner sessions, each with a run that shows it.  (1) A new session sets the timer that all of
    them share to its own expiration: the session of a joiner that should end after 80 seconds is still there when
    twice the time has passed, and it is not removed when its timer is handled late either.  (2) The key of the
    joiner router is also sent for a joiner whose JOIN_FIN.req is rejected. *)
Theorem joiner_faults :
  match session_of crowded id_a with
  | Some d => (GetExpirationTime d, mJoinerSessionTimer (relayed_end crowded), jclock (relayed_end crowded))
              = (80000, Some 159999, 159998)
  | None => False
  end /\
  match session_of rejecting id_a, last_relayed rejecting id_a with
  | Some d, Some (m, include) =>
      Joiner.OnJoinerFinalize app_handler 0 id_a rejected = false /\ include = true /\
      (tlvs ← ParseTlvs (mPayload m) kMeshCoP; Ok (mValue <$> tlvs !! kJoinerRouterKEK)) = Ok (Some (mKek d))
  | _, _ => False
  end.
Proof. vm_compute. repeat split. Qed.
