(* ===== verification/BorderAgent.v ===== *)
(** * Border agents found by mDNS

    [src/app/border_agent.{hpp,cpp}]: what the records of an answer say about a
    border agent.  The library mdns takes the records apart: a record is given
    as what its parsing functions return.  Sockets and the clock of the
    discovery are not modelled. *)

From S2P Require Import Prelude Outcome Common NetworkData.
Import Endian Addr.

(** The bit fields of [BorderAgent::State]. *)
Record State : Type := mkState {
  mConnectionMode : Z;
  mThreadIfStatus : Z;
  mAvailability : Z;
  mBbrIsActive : Z;
  mBbrIsPrimary : Z }.

Record BorderAgent : Type := mkAgent {
  mAddr : string_t;
  mPort : Z;
  mDiscriminator : ByteArray;
  mThreadVersion : string_t;
  mState : State;
  mNetworkName : string_t;
  mExtendedPanId : Z;
  mVendorName : string_t;
  mModelName : string_t;
  mActiveTimestamp : Timestamp.Timestamp;
  mPartitionId : Z;
  mVendorData : string_t;
  mVendorOui : ByteArray;
  mDomainName : string_t;
  mBbrSeqNumber : Z;
  mBbrPort : Z;
  mPresentFlags : Z }.

#[export] Instance State_eq_dec : EqDecision State.
Proof. solve_decision. Defined.
#[export] Instance BorderAgent_eq_dec : EqDecision BorderAgent.
Proof. solve_decision. Defined.

Definition kAddrBit : Z := Z.shiftl 1 0.
Definition kPortBit : Z := Z.shiftl 1 1.
Definition kThreadVersionBit : Z := Z.shiftl 1 2.
Definition kStateBit : Z := Z.shiftl 1 3.
Definition kNetworkNameBit : Z := Z.shiftl 1 4.
Definition kExtendedPanIdBit : Z := Z.shiftl 1 5.
Definition kVendorNameBit : Z := Z.shiftl 1 6.
Definition kModelNameBit : Z := Z.shiftl 1 7.
Definition kActiveTimestampBit : Z := Z.shiftl 1 8.
Definition kPartitionIdBit : Z := Z.shiftl 1 9.
Definition kVendorDataBit : Z := Z.shiftl 1 10.
Definition kVendorOuiBit : Z := Z.shiftl 1 11.
Definition kDomainNameBit : Z := Z.shiftl 1 12.
Definition kBbrSeqNumberBit : Z := Z.shiftl 1 13.
Definition kBbrPortBit : Z := Z.shiftl 1 14.
Definition kDiscriminatorBit : Z := Z.shiftl 1 15.

(** Writing a field and raising its flag. *)
Definition set_Addr (b : BorderAgent) v :=
  let (_, po, di, tv, st, nn, xp, vn, mn, ts, pt, vd, vo, dn, sq, bp, f) := b in mkAgent v po di tv st nn xp vn mn ts pt vd vo dn sq bp (Z.lor f kAddrBit).
Definition set_Port (b : BorderAgent) v :=
  let (ad, _, di, tv, st, nn, xp, vn, mn, ts, pt, vd, vo, dn, sq, bp, f) := b in mkAgent ad v di tv st nn xp vn mn ts pt vd vo dn sq bp (Z.lor f kPortBit).
Definition set_Discriminator (b : BorderAgent) v :=
  let (ad, po, _, tv, st, nn, xp, vn, mn, ts, pt, vd, vo, dn, sq, bp, f) := b in mkAgent ad po v tv st nn xp vn mn ts pt vd vo dn sq bp (Z.lor f kDiscriminatorBit).
Definition set_ThreadVersion (b : BorderAgent) v :=
  let (ad, po, di, _, st, nn, xp, vn, mn, ts, pt, vd, vo, dn, sq, bp, f) := b in mkAgent ad po di v st nn xp vn mn ts pt vd vo dn sq bp (Z.lor f kThreadVersionBit).
Definition set_State (b : BorderAgent) v :=
  let (ad, po, di, tv, _, nn, xp, vn, mn, ts, pt, vd, vo, dn, sq, bp, f) := b in mkAgent ad po di tv v nn xp vn mn ts pt vd vo dn sq bp (Z.lor f kStateBit).
Definition set_NetworkName (b : BorderAgent) v :=
  let (ad, po, di, tv, st, _, xp, vn, mn, ts, pt, vd, vo, dn, sq, bp, f) := b in mkAgent ad po di tv st v xp vn mn ts pt vd vo dn sq bp (Z.lor f kNetworkNameBit).
Definition set_ExtendedPanId (b : BorderAgent) v :=
  let (ad, po, di, tv, st, nn, _, vn, mn, ts, pt, vd, vo, dn, sq, bp, f) := b in mkAgent ad po di tv st nn v vn mn ts pt vd vo dn sq bp (Z.lor f kExtendedPanIdBit).
Definition set_VendorName (b : BorderAgent) v :=
  let (ad, po, di, tv, st, nn, xp, _, mn, ts, pt, vd, vo, dn, sq, bp, f) := b in mkAgent ad po di tv st nn xp v mn ts pt vd vo dn sq bp (Z.lor f kVendorNameBit).
Definition set_ModelName (b : BorderAgent) v :=
  let (ad, po, di, tv, st, nn, xp, vn, _, ts, pt, vd, vo, dn, sq, bp, f) := b in mkAgent ad po di tv st nn xp vn v ts pt vd vo dn sq bp (Z.lor f kModelNameBit).
Definition set_ActiveTimestamp (b : BorderAgent) v :=
  let (ad, po, di, tv, st, nn, xp, vn, mn, _, pt, vd, vo, dn, sq, bp, f) := b in mkAgent ad po di tv st nn xp vn mn v pt vd vo dn sq bp (Z.lor f kActiveTimestampBit).
Definition set_PartitionId (b : BorderAgent) v :=
  let (ad, po, di, tv, st, nn, xp, vn, mn, ts, _, vd, vo, dn, sq, bp, f) := b in mkAgent ad po di tv st nn xp vn mn ts v vd vo dn sq bp (Z.lor f kPartitionIdBit).
Definition set_VendorData (b : BorderAgent) v :=
  let (ad, po, di, tv, st, nn, xp, vn, mn, ts, pt, _, vo, dn, sq, bp, f) := b in mkAgent ad po di tv st nn xp vn mn ts pt v vo dn sq bp (Z.lor f kVendorDataBit).
Definition set_VendorOui (b : BorderAgent) v :=
  let (ad, po, di, tv, st, nn, xp, vn, mn, ts, pt, vd, _, dn, sq, bp, f) := b in mkAgent ad po di tv st nn xp vn mn ts pt vd v dn sq bp (Z.lor f kVendorOuiBit).
Definition set_DomainName (b : BorderAgent) v :=
  let (ad, po, di, tv, st, nn, xp, vn, mn, ts, pt, vd, vo, _, sq, bp, f) := b in mkAgent ad po di tv st nn xp vn mn ts pt vd vo v sq bp (Z.lor f kDomainNameBit).
Definition set_BbrSeqNumber (b : BorderAgent) v :=
  let (ad, po, di, tv, st, nn, xp, vn, mn, ts, pt, vd, vo, dn, _, bp, f) := b in mkAgent ad po di tv st nn xp vn mn ts pt vd vo dn v bp (Z.lor f kBbrSeqNumberBit).
Definition set_BbrPort (b : BorderAgent) v :=
  let (ad, po, di, tv, st, nn, xp, vn, mn, ts, pt, vd, vo, dn, sq, _, f) := b in mkAgent ad po di tv st nn xp vn mn ts pt vd vo dn sq v (Z.lor f kBbrPortBit).

(** ** Records *)

(** A socket address, and [Address::Set] for it. *)
Inductive SockAddr : Type := AfInet (raw : ByteArray) | AfInet6 (raw : ByteArray) | AfOther.
Definition SetSockAddr (a : SockAddr) : outcome Address :=
  match a with AfInet raw => Ok raw | AfInet6 raw => Ok raw | AfOther => Err kInvalidArgs end.

(** A record as the library parses it: [mdns_record_parse_srv], [_a], [_txt]. *)
Inductive MdnsRecord : Type :=
| RecPtr
| RecSrv (port : Z)
| RecA (addr : SockAddr)
| RecTxt (txtBuffer : list (string_t * string_t))
| RecOther.

(** *** The entries of a TXT record *)

Definition state_of_bitmap (bitmap : ByteArray) : outcome State :=
  b3 ← rd bitmap 3; b2 ← rd bitmap 2;
  Ok (mkState (Z.land b3 7) (Z.shiftr (Z.land b3 24) 3) (Z.shiftr (Z.land b3 96) 5) (Z.shiftr (Z.land b3 128) 7) (Z.land b2 1)).

(** [key == name] *)
Definition is_key (key : string_t) (name : String.string) : bool := bool_decide (key = str name).

Definition txt_entry (key value : string_t) (b : BorderAgent) : outcome BorderAgent :=
  if is_key key "rv" then VerifyOrExit bool_decide (value = str "1") else kBadFormat;; Ok b
  else if is_key key "dd" then VerifyOrExit zlen value =? 8 else kBadFormat;; Ok (set_Discriminator b value)
  else if is_key key "tv" then Ok (set_ThreadVersion b value)
  else if is_key key "sb" then VerifyOrExit zlen value =? 4 else kBadFormat;; s ← state_of_bitmap value; Ok (set_State b s)
  else if is_key key "nn" then Ok (set_NetworkName b value)
  else if is_key key "xp" then VerifyOrExit zlen value =? 8 else kBadFormat;; v ← Decode 8 value; Ok (set_ExtendedPanId b v)
  else if is_key key "vn" then Ok (set_VendorName b value)
  else if is_key key "mn" then Ok (set_ModelName b value)
  else if is_key key "at" then
    VerifyOrExit zlen value =? 8 else kBadFormat;; v ← Decode 8 value; Ok (set_ActiveTimestamp b (Timestamp.Decode v))
  else if is_key key "pt" then VerifyOrExit zlen value =? 4 else kBadFormat;; v ← Decode 4 value; Ok (set_PartitionId b v)
  else if is_key key "vd" then Ok (set_VendorData b value)
  else if is_key key "vo" then VerifyOrExit zlen value =? 3 else kBadFormat;; Ok (set_VendorOui b value)
  else if is_key key "dn" then Ok (set_DomainName b value)
  else if is_key key "sq" then VerifyOrExit zlen value =? 1 else kBadFormat;; v ← Decode 1 value; Ok (set_BbrSeqNumber b v)
  else if is_key key "bb" then VerifyOrExit zlen value =? 2 else kBadFormat;; v ← Decode 2 value; Ok (set_BbrPort b v)
  else Ok b.

(** The loop over the entries.  It stops at the first error, and keeps the fields of the entries before it. *)
Fixpoint txt_loop (l : list (string_t * string_t)) (b : BorderAgent) : outcome (BorderAgent * ErrorCode) :=
  match l with
  | [] => Ok (b, kNone)
  | (key, value) :: l =>
      match txt_entry key value b with Ok b => txt_loop l b | Err e => Ok (b, e) | Die => Die end
  end.

Section Discover.
Context (inet_ntop4 inet_ntop6 : ByteArray -> option string_t).

(** [BorderAgentOrErrorMsg]; a callback without error leaves the error of an earlier one. *)
Record BorderAgentOrErrorMsg : Type := mkMsg { mBorderAgent : BorderAgent; mError : ErrorCode }.

(** The first [parsed] entries fit into the buffer. *)
Definition kTxtBufferSize : Z := 128.

Definition HandleRecord (from : SockAddr) (r : MdnsRecord) (m : BorderAgentOrErrorMsg) : outcome BorderAgentOrErrorMsg :=
  match SetSockAddr from with
  | Die => Die
  | Err _ => Ok (mkMsg (mBorderAgent m) kBadFormat)
  | Ok _ =>
      match r with
      | RecPtr | RecOther => Ok m
      | RecSrv port => Ok (mkMsg (set_Port (mBorderAgent m) port) (mError m))
      | RecA addr =>
          match SetSockAddr addr with
          | Ok a => Ok (mkMsg (set_Addr (mBorderAgent m) (ToString inet_ntop4 inet_ntop6 a)) (mError m))
          | _ => Ok (mkMsg (mBorderAgent m) kBadFormat)
          end
      | RecTxt l =>
          r ← txt_loop (take (Z.to_nat kTxtBufferSize) l) (mBorderAgent m);
          Ok (mkMsg r.1 (if bool_decide (r.2 = kNone) then mError m else r.2))
      end
  end.

(** The records of one answer. *)
Fixpoint handle_records (from : SockAddr) (l : list MdnsRecord) (m : BorderAgentOrErrorMsg) : outcome BorderAgentOrErrorMsg :=
  match l with [] => Ok m | r :: l => m ← HandleRecord from r m; handle_records from l m end.

(** What one poll of [DiscoverBorderAgent] tells its handler. *)
Definition report (m : BorderAgentOrErrorMsg) : option (BorderAgent + ErrorCode) :=
  let flags := mPresentFlags (mBorderAgent m) in
  if negb (bool_decide (mError m = kNone)) then Some (inr (mError m))
  else if (Z.land flags kAddrBit =? 0) || (Z.land flags kPortBit =? 0) then Some (inr kBadFormat)
  else if negb (flags =? 0) then Some (inl (mBorderAgent m)) else None.

Definition poll (initial : BorderAgent) (from : SockAddr) (l : list MdnsRecord) : outcome (option (BorderAgent + ErrorCode)) :=
  m ← handle_records from l (mkMsg initial kNone); Ok (report m).
End Discover.
