(* ===== verification/BorderAgentFacts.v ===== *)
(** * Properties of the border agent discovery *)

From S2P Require Import Prelude Outcome Common NetworkData BorderAgent.
Import Endian CommonFacts Addr NetworkDataFacts.

(** ** The state bitmap *)

Definition state_typed (s : State) : Prop :=
  0 <= mConnectionMode s < 8 /\ 0 <= mThreadIfStatus s < 4 /\ 0 <= mAvailability s < 4 /\
  0 <= mBbrIsActive s < 2 /\ 0 <= mBbrIsPrimary s < 2.

(** The low byte of the bitmap of a state. *)
Definition low_byte (s : State) : Z :=
  mConnectionMode s + 8 * mThreadIfStatus s + 32 * mAvailability s + 128 * mBbrIsActive s.

Lemma bitmap_fields b : is_byte b ->
  Z.land b 7 = b mod 8 /\ Z.shiftr (Z.land b 24) 3 = b / 8 mod 4 /\ Z.shiftr (Z.land b 96) 5 = b / 32 mod 4 /\
  Z.shiftr (Z.land b 128) 7 = b / 128 /\ Z.land b 1 = b mod 2.
Proof.
  intros Hb.
  assert (E : (Z.land b 7 =? b mod 8) && (Z.shiftr (Z.land b 24) 3 =? b / 8 mod 4) && (Z.shiftr (Z.land b 96) 5 =? b / 32 mod 4) &&
    (Z.shiftr (Z.land b 128) 7 =? b / 128) && (Z.land b 1 =? b mod 2) = true).
  { revert b Hb. by apply forallb_seqZ. }
  bool_to_prop. done.
Qed.

Lemma state_of_bytes b0 b1 b2 b3 :
  state_of_bitmap [b0; b1; b2; b3] =
    Ok (mkState (Z.land b3 7) (Z.shiftr (Z.land b3 24) 3) (Z.shiftr (Z.land b3 96) 5) (Z.shiftr (Z.land b3 128) 7) (Z.land b2 1)).
Proof. reflexivity. Qed.

Lemma state_of_bitmap_typed b0 b1 b2 b3 : is_byte b2 -> is_byte b3 ->
  exists s, state_of_bitmap [b0; b1; b2; b3] = Ok s /\ state_typed s /\ low_byte s = b3 /\ mBbrIsPrimary s = b2 mod 2.
Proof.
  intros H2 H3. rewrite state_of_bytes. destruct (bitmap_fields b3 H3) as (-> & -> & -> & -> & _).
  destruct (bitmap_fields b2 H2) as (_ & _ & _ & _ & ->). eexists. split; [done|].
  unfold is_byte, fits in *. change (2 ^ 8) with 256 in *. unfold state_typed, low_byte. cbn.
  Z.to_euclidean_division_equations. lia.
Qed.

Lemma state_of_state s b0 b1 r : state_typed s -> 0 <= r < 128 -> state_of_bitmap [b0; b1; 2 * r + mBbrIsPrimary s; low_byte s] = Ok s.
Proof.
  destruct s as [cm ti av ac pr]. intros (H1 & H2 & H3 & H4 & H5) Hr. cbn in *. rewrite state_of_bytes. unfold low_byte. cbn.
  assert (B3 : is_byte (cm + 8 * ti + 32 * av + 128 * ac)) by (unfold is_byte, fits; change (2 ^ 8) with 256; lia).
  assert (B2 : is_byte (2 * r + pr)) by (unfold is_byte, fits; change (2 ^ 8) with 256; lia).
  destruct (bitmap_fields _ B3) as (-> & -> & -> & -> & _). destruct (bitmap_fields _ B2) as (_ & _ & _ & _ & ->).
  do 2 f_equal; Z.to_euclidean_division_equations; lia.
Qed.

(** The state bitmap of a border agent and the state that is read from it determine each other: every four bytes
    give a state within its bit fields, whose low byte is theirs; and every state is read from the bitmap that has
    its low byte and its primary bit, whatever the other bits are. *)
Theorem state_bitmap_roundtrip :
  (forall b0 b1 b2 b3, is_byte b2 -> is_byte b3 -> exists s, state_of_bitmap [b0; b1; b2; b3] = Ok s /\ state_typed s /\
     low_byte s = b3 /\ mBbrIsPrimary s = b2 mod 2) /\
  (forall s b0 b1 r, state_typed s -> 0 <= r < 128 -> state_of_bitmap [b0; b1; 2 * r + mBbrIsPrimary s; low_byte s] = Ok s).
Proof.
  split.
  - intros b0 b1 b2 b3. apply state_of_bitmap_typed.
  - intros s b0 b1 r. apply state_of_state.
Qed.

(** ** The entries of a TXT record *)

(** What an entry writes. *)
Inductive TxtUpdate : Type :=
| UNone
| UDiscriminator (v : ByteArray) | UThreadVersion (v : string_t) | UState (v : State) | UNetworkName (v : string_t)
| UExtendedPanId (v : Z) | UVendorName (v : string_t) | UModelName (v : string_t) | UActiveTimestamp (v : Timestamp.Timestamp)
| UPartitionId (v : Z) | UVendorData (v : string_t) | UVendorOui (v : ByteArray) | UDomainName (v : string_t)
| UBbrSeqNumber (v : Z) | UBbrPort (v : Z).

Definition update (u : TxtUpdate) (b : BorderAgent) : BorderAgent :=
  match u with
  | UNone => b
  | UDiscriminator v => set_Discriminator b v | UThreadVersion v => set_ThreadVersion b v | UState v => set_State b v
  | UNetworkName v => set_NetworkName b v | UExtendedPanId v => set_ExtendedPanId b v | UVendorName v => set_VendorName b v
  | UModelName v => set_ModelName b v | UActiveTimestamp v => set_ActiveTimestamp b v | UPartitionId v => set_PartitionId b v
  | UVendorData v => set_VendorData b v | UVendorOui v => set_VendorOui b v | UDomainName v => set_DomainName b v
  | UBbrSeqNumber v => set_BbrSeqNumber b v | UBbrPort v => set_BbrPort b v
  end.

(** The key that writes it. *)
Definition slot (u : TxtUpdate) : option string_t :=
  match u with
  | UNone => None
  | UDiscriminator _ => Some (str "dd") | UThreadVersion _ => Some (str "tv") | UState _ => Some (str "sb")
  | UNetworkName _ => Some (str "nn") | UExtendedPanId _ => Some (str "xp") | UVendorName _ => Some (str "vn")
  | UModelName _ => Some (str "mn") | UActiveTimestamp _ => Some (str "at") | UPartitionId _ => Some (str "pt")
  | UVendorData _ => Some (str "vd") | UVendorOui _ => Some (str "vo") | UDomainName _ => Some (str "dn")
  | UBbrSeqNumber _ => Some (str "sq") | UBbrPort _ => Some (str "bb")
  end.

(** The values of the types of the fields. *)
Definition update_typed (u : TxtUpdate) : Prop :=
  match u with
  | UNone => True
  | UDiscriminator v => bytes v /\ zlen v = 8
  | UThreadVersion v | UNetworkName v | UVendorName v | UModelName v | UVendorData v | UDomainName v => bytes v
  | UState v => state_typed v
  | UExtendedPanId v => fits 64 v
  | UActiveTimestamp v => Timestamp.timestamp_ok v
  | UPartitionId v => fits 32 v
  | UVendorOui v => bytes v /\ zlen v = 3
  | UBbrSeqNumber v => fits 8 v
  | UBbrPort v => fits 16 v
  end.

Lemma Decode_sized n v : bytes v -> zlen v = Z.of_nat n -> exists x, Decode n v = Ok x /\ fits (8 * Z.of_nat n) x.
Proof.
  intros Hb Hl. destruct (proj2 (integer_codec_bijective n) v Hb) as (x & Hx & E & _); [unfold zlen in Hl; lia|]. by exists x.
Qed.

Lemma bitmap_sized v : bytes v -> zlen v = 4 -> exists s, state_of_bitmap v = Ok s /\ state_typed s.
Proof.
  intros Hb Hl. destruct v as [|b0 [|b1 [|b2 [|b3 [|]]]]]; try (unfold zlen in Hl; cbn in Hl; lia).
  rewrite !Forall_cons in Hb. destruct Hb as (_ & _ & H2 & H3 & _).
  destruct (state_of_bitmap_typed b0 b1 b2 b3 H2 H3) as (s & E & Hs & _). by exists s.
Qed.

(** An entry is refused, or writes the field of its key. *)
Lemma txt_entry_update k v : bytes v ->
  (forall b, txt_entry k v b = Err kBadFormat) \/
  exists u, (forall b, txt_entry k v b = Ok (update u b)) /\ update_typed u /\ (slot u = None \/ slot u = Some k).
Proof.
  intros Hv.
  (* an entry without condition, with a condition on its size, and with a number *)
  assert (Plain : forall e u, (forall b, e b = Ok (update u b)) -> update_typed u -> slot u = None \/ slot u = Some k ->
    (forall b : BorderAgent, e b = Err kBadFormat) \/
    exists u, (forall b, e b = Ok (update u b)) /\ update_typed u /\ (slot u = None \/ slot u = Some k)) by (intros; right; eauto).
  assert (Number : forall n f, (forall x, slot (f x) = Some k) -> (forall x, fits (8 * Z.of_nat n) x -> update_typed (f x)) ->
    forall c, c = (zlen v =? Z.of_nat n) ->
    (forall b : BorderAgent, (VerifyOrExit c else kBadFormat;; x ← Decode n v; Ok (update (f x) b)) = Err kBadFormat) \/
    exists u, (forall b, (VerifyOrExit c else kBadFormat;; x ← Decode n v; Ok (update (f x) b)) = Ok (update u b)) /\
      update_typed u /\ (slot u = None \/ slot u = Some k)).
  { intros n f Hs Ht c ->. case_if; [|by left]. bool_to_prop. destruct (Decode_sized n v Hv E) as (x & -> & Hx).
    right. exists (f x). split_and!; [done|by apply Ht|by right]. }
  unfold txt_entry, is_key.
  case_bool_decide as K; [case_bool_decide; [by apply (Plain _ UNone); [..|left]|by left]|clear K].
  case_bool_decide as K; [subst k; case_if; [bool_to_prop; by apply (Plain _ (UDiscriminator v)); [..|right]|by left]|clear K].
  case_bool_decide as K; [subst k; by apply (Plain _ (UThreadVersion v)); [..|right]|clear K].
  case_bool_decide as K; [subst k; case_if; [|by left]|clear K].
  { bool_to_prop. destruct (bitmap_sized v Hv E) as (s & -> & Hs). by apply (Plain _ (UState s)); [..|right]. }
  case_bool_decide as K; [subst k; by apply (Plain _ (UNetworkName v)); [..|right]|clear K].
  case_bool_decide as K; [subst k; by apply (Number 8%nat UExtendedPanId)|clear K].
  case_bool_decide as K; [subst k; by apply (Plain _ (UVendorName v)); [..|right]|clear K].
  case_bool_decide as K; [subst k; by apply (Plain _ (UModelName v)); [..|right]|clear K].
  case_bool_decide as K; [subst k; apply (Number 8%nat (fun x => UActiveTimestamp (Timestamp.Decode x))); [done| |done]|clear K].
  { intros x _. apply Timestamp_Decode_ok. }
  case_bool_decide as K; [subst k; by apply (Number 4%nat UPartitionId)|clear K].
  case_bool_decide as K; [subst k; by apply (Plain _ (UVendorData v)); [..|right]|clear K].
  case_bool_decide as K; [subst k; case_if; [bool_to_prop; by apply (Plain _ (UVendorOui v)); [..|right]|by left]|clear K].
  case_bool_decide as K; [subst k; by apply (Plain _ (UDomainName v)); [..|right]|clear K].
  case_bool_decide as K; [subst k; by apply (Number 1%nat UBbrSeqNumber)|clear K].
  case_bool_decide as K; [subst k; by apply (Number 2%nat UBbrPort)|clear K].
  by apply (Plain _ UNone); [..|left].
Qed.

(** Entries with different keys can change places. *)
Lemma update_comm u1 u2 b : slot u1 <> slot u2 \/ slot u1 = None -> update u2 (update u1 b) = update u1 (update u2 b).
Proof.
  destruct b as [ad po di tv st nn xp vn mn ts pt vd vo dn sq bp f].
  destruct u1, u2; intros H; try reflexivity; try (by destruct H as [[]|[=]]); cbn; f_equal;
    rewrite <- !Z.lor_assoc; f_equal; apply Z.lor_comm.
Qed.

Lemma txt_loop_cons k v l b : bytes v ->
  txt_loop ((k, v) :: l) b = Ok (b, kBadFormat) \/
  exists u, txt_loop ((k, v) :: l) b = txt_loop l (update u b) /\ update_typed u /\ (slot u = None \/ slot u = Some k) /\
    forall b', txt_entry k v b' = Ok (update u b').
Proof.
  intros Hv. cbn [txt_loop]. destruct (txt_entry_update k v Hv) as [E|(u & E & Ht & Hs)]; rewrite E; [by left|right]. by exists u.
Qed.

(** The entries of a record that are all accepted. *)
Lemma txt_loop_perm l l' : l ≡ₚ l' -> NoDup (map fst l) -> Forall (fun e => bytes e.2) l -> forall b b',
  txt_loop l b = Ok (b', kNone) -> txt_loop l' b = Ok (b', kNone).
Proof.
  induction 1 as [|[k v] l l' Hp IH|[k2 v2] [k1 v1] l|l1 l2 l3 Hp1 IH1 Hp2 IH2]; intros Hn Hb b b' E; [done| | |].
  - cbn [map fst] in Hn. apply NoDup_cons in Hn as [_ Hn]. apply Forall_cons in Hb as [Hv Hb]. cbn [txt_loop] in *.
    destruct (txt_entry k v b); [by apply IH|done..].
  - cbn [map fst] in Hn. apply NoDup_cons in Hn as [Hk _]. apply not_elem_of_cons in Hk as [Hk _].
    rewrite !Forall_cons in Hb. destruct Hb as (Hv1 & Hv2 & _). cbn [txt_loop snd] in *.
    destruct (txt_entry_update k1 v1 Hv1) as [E1|(u1 & E1 & _ & S1)]; rewrite E1 in E; [done|].
    destruct (txt_entry_update k2 v2 Hv2) as [E2|(u2 & E2 & _ & S2)]; rewrite E2 in E; [done|].
    rewrite E2, E1. rewrite update_comm; [done|]. destruct S1 as [S1|S1], S2 as [S2|S2]; rewrite ?S1, ?S2; auto; left; congruence.
  - apply IH2; [by rewrite <- Hp1|by rewrite <- Hp1|]. by apply IH1.
Qed.

(** The entries of the fields of an agent, as agents publish them (Thread specification, table 8-4). *)
Definition entry_of (u : TxtUpdate) : string_t * ByteArray :=
  match u with
  | UNone => (str "rv", str "1")
  | UDiscriminator v => (str "dd", v)
  | UThreadVersion v => (str "tv", v)
  | UState s => (str "sb", [0; 0; mBbrIsPrimary s; low_byte s])
  | UNetworkName v => (str "nn", v)
  | UExtendedPanId v => (str "xp", Encode 8 [] v)
  | UVendorName v => (str "vn", v)
  | UModelName v => (str "mn", v)
  | UActiveTimestamp t => (str "at", Encode 8 [] (Timestamp.Encode t))
  | UPartitionId v => (str "pt", Encode 4 [] v)
  | UVendorData v => (str "vd", v)
  | UVendorOui v => (str "vo", v)
  | UDomainName v => (str "dn", v)
  | UBbrSeqNumber v => (str "sq", Encode 1 [] v)
  | UBbrPort v => (str "bb", Encode 2 [] v)
  end.

Definition field_updates (b : BorderAgent) : list TxtUpdate :=
  let f := mPresentFlags b in
  let row bit u := if has f bit then [u] else [] in
  row kDiscriminatorBit (UDiscriminator (mDiscriminator b)) ++ row kThreadVersionBit (UThreadVersion (mThreadVersion b))
  ++ row kStateBit (UState (mState b)) ++ row kNetworkNameBit (UNetworkName (mNetworkName b))
  ++ row kExtendedPanIdBit (UExtendedPanId (mExtendedPanId b)) ++ row kVendorNameBit (UVendorName (mVendorName b))
  ++ row kModelNameBit (UModelName (mModelName b)) ++ row kActiveTimestampBit (UActiveTimestamp (mActiveTimestamp b))
  ++ row kPartitionIdBit (UPartitionId (mPartitionId b)) ++ row kVendorDataBit (UVendorData (mVendorData b))
  ++ row kVendorOuiBit (UVendorOui (mVendorOui b)) ++ row kDomainNameBit (UDomainName (mDomainName b))
  ++ row kBbrSeqNumberBit (UBbrSeqNumber (mBbrSeqNumber b)) ++ row kBbrPortBit (UBbrPort (mBbrPort b)).
Definition updates_of (b : BorderAgent) : list TxtUpdate := UNone :: field_updates b.

Lemma entry_read u b : update_typed u -> txt_entry (entry_of u).1 (entry_of u).2 b = Ok (update u b).
Proof.
  assert (L : forall n v, zlen (Encode n [] v) = Z.of_nat n) by (intros; by rewrite zlen_Encode).
  destruct u as [|v|v|s|v|v|v|v|t|v|v|v|v|v|v]; intros Ht; cbn [entry_of fst snd update_typed update] in *; unfold txt_entry;
    repeat match goal with |- context [is_key ?k ?n] => let x := eval vm_compute in (is_key k n) in change (is_key k n) with x; cbv iota end.
  all: try reflexivity.
  all: try (destruct Ht as [_ ->]; reflexivity).
  all: try (rewrite L; cbn [Z.of_nat Z.eqb Pos.eqb Pos.of_succ_nat Pos.succ]; unfold Encode; cbn [app]; rewrite Decode_exact by done; reflexivity).
  - pose proof (state_of_state s 0 0 0 Ht ltac:(lia)) as E. rewrite Z.add_0_l in E. by rewrite E.
  - rewrite L. cbn [Z.of_nat Z.eqb Pos.eqb Pos.of_succ_nat Pos.succ]. unfold Encode; cbn [app].
    rewrite Decode_exact by by apply Timestamp_Encode_fits. cbn. by rewrite Timestamp_Decode_Encode.
Qed.

Lemma entry_bytes u : update_typed u -> bytes (entry_of u).2.
Proof.
  destruct u as [| | |s| | | | | | | | | | |]; cbn -[Encode_loop low_byte]; intros Ht; try tauto; try (by apply bytes_Encode_loop).
  { by repeat constructor. }
  destruct Ht as (? & ? & ? & ? & ?). repeat constructor; unfold is_byte, fits, low_byte; change (2 ^ 8) with 256; lia.
Qed.

Definition field_keys : list string_t :=
  [str "dd"] ++ [str "tv"] ++ [str "sb"] ++ [str "nn"] ++ [str "xp"] ++ [str "vn"] ++ [str "mn"] ++ [str "at"] ++
  [str "pt"] ++ [str "vd"] ++ [str "vo"] ++ [str "dn"] ++ [str "sq"] ++ [str "bb"].
Definition keys : list string_t := str "rv" :: field_keys.
Lemma keys_distinct : NoDup keys.
Proof. by apply (bool_decide_eq_true_1 (NoDup keys)). Qed.
Lemma updates_keys b : map (fun u => (entry_of u).1) (updates_of b) `sublist_of` keys.
Proof.
  change (str "rv" :: map (fun u => (entry_of u).1) (field_updates b) `sublist_of` str "rv" :: field_keys). apply sublist_skip.
  unfold field_updates, field_keys. cbv zeta. rewrite !map_app.
  assert (R : forall (c : bool) u k, (entry_of u).1 = k -> map (fun u => (entry_of u).1) (if c then [u] else []) `sublist_of` [k]).
  { intros [] u k <-; cbn; [reflexivity|apply sublist_nil_l]. }
  repeat (apply sublist_app; [by apply R|]). by apply R.
Qed.

Lemma txt_loop_entries us : forall b, Forall update_typed us -> txt_loop (map entry_of us) b = Ok (fold_left (fun b u => update u b) us b, kNone).
Proof.
  induction us as [|u us IH]; intros b Hu; [done|]. apply Forall_cons in Hu as [Hu Hus]. cbn [map].
  pose proof (entry_read u b Hu) as E. destruct (entry_of u) as [k v]. cbn [txt_loop fst snd] in *. rewrite E. by apply IH.
Qed.

(** The agent [b0] with the fields of the TXT record that [b] has. *)
Definition overlay (b0 b : BorderAgent) : BorderAgent :=
  let pick {A} bit (field : BorderAgent -> A) := if has (mPresentFlags b) bit then field b else field b0 in
  mkAgent (mAddr b0) (mPort b0)
    (pick kDiscriminatorBit mDiscriminator)
    (pick kThreadVersionBit mThreadVersion)
    (pick kStateBit mState)
    (pick kNetworkNameBit mNetworkName)
    (pick kExtendedPanIdBit mExtendedPanId)
    (pick kVendorNameBit mVendorName)
    (pick kModelNameBit mModelName)
    (pick kActiveTimestampBit mActiveTimestamp)
    (pick kPartitionIdBit mPartitionId)
    (pick kVendorDataBit mVendorData)
    (pick kVendorOuiBit mVendorOui)
    (pick kDomainNameBit mDomainName)
    (pick kBbrSeqNumberBit mBbrSeqNumber)
    (pick kBbrPortBit mBbrPort)
    (Z.lor (mPresentFlags b0) (Z.land (mPresentFlags b) 65532)).

Definition put (c : bool) (u : TxtUpdate) (b : BorderAgent) : BorderAgent := if c then update u b else b.
Lemma fold_row (c : bool) u us b : fold_left (fun b u => update u b) ((if c then [u] else []) ++ us) b = fold_left (fun b u => update u b) us (put c u b).
Proof. by destruct c. Qed.

Lemma has_bit f n : 0 <= n -> (if has f (2 ^ n) then 2 ^ n else 0) = Z.land f (2 ^ n).
Proof.
  intros Hn. unfold has. assert (E : Z.land f (2 ^ n) = if Z.testbit f n then 2 ^ n else 0).
  { apply Z.bits_inj'. intros i Hi. rewrite Z.land_spec, Z.pow2_bits_eqb by done. destruct (Z.eqb_spec n i) as [<-|Hne].
    - rewrite andb_true_r. destruct (Z.testbit f n); [|by rewrite Z.bits_0]. by rewrite Z.pow2_bits_true.
    - rewrite andb_false_r. destruct (Z.testbit f n); [|by rewrite Z.bits_0]. by rewrite Z.pow2_bits_false. }
  rewrite E. destruct (Z.testbit f n); [|done]. assert (0 < 2 ^ n) by (apply Z.pow_pos_nonneg; lia).
  destruct (Z.eqb_spec (2 ^ n) 0); [lia|done].
Qed.

Lemma put_update c u ad po di tv st nn xp vn mn ts pt vd vo dn sq bp f : put c u (mkAgent ad po di tv st nn xp vn mn ts pt vd vo dn sq bp f) =
  match u with
  | UNone => mkAgent ad po di tv st nn xp vn mn ts pt vd vo dn sq bp f
  | UDiscriminator v => mkAgent ad po (if c then v else di) tv st nn xp vn mn ts pt vd vo dn sq bp (Z.lor f (if c then kDiscriminatorBit else 0))
  | UThreadVersion v => mkAgent ad po di (if c then v else tv) st nn xp vn mn ts pt vd vo dn sq bp (Z.lor f (if c then kThreadVersionBit else 0))
  | UState v => mkAgent ad po di tv (if c then v else st) nn xp vn mn ts pt vd vo dn sq bp (Z.lor f (if c then kStateBit else 0))
  | UNetworkName v => mkAgent ad po di tv st (if c then v else nn) xp vn mn ts pt vd vo dn sq bp (Z.lor f (if c then kNetworkNameBit else 0))
  | UExtendedPanId v => mkAgent ad po di tv st nn (if c then v else xp) vn mn ts pt vd vo dn sq bp (Z.lor f (if c then kExtendedPanIdBit else 0))
  | UVendorName v => mkAgent ad po di tv st nn xp (if c then v else vn) mn ts pt vd vo dn sq bp (Z.lor f (if c then kVendorNameBit else 0))
  | UModelName v => mkAgent ad po di tv st nn xp vn (if c then v else mn) ts pt vd vo dn sq bp (Z.lor f (if c then kModelNameBit else 0))
  | UActiveTimestamp v => mkAgent ad po di tv st nn xp vn mn (if c then v else ts) pt vd vo dn sq bp (Z.lor f (if c then kActiveTimestampBit else 0))
  | UPartitionId v => mkAgent ad po di tv st nn xp vn mn ts (if c then v else pt) vd vo dn sq bp (Z.lor f (if c then kPartitionIdBit else 0))
  | UVendorData v => mkAgent ad po di tv st nn xp vn mn ts pt (if c then v else vd) vo dn sq bp (Z.lor f (if c then kVendorDataBit else 0))
  | UVendorOui v => mkAgent ad po di tv st nn xp vn mn ts pt vd (if c then v else vo) dn sq bp (Z.lor f (if c then kVendorOuiBit else 0))
  | UDomainName v => mkAgent ad po di tv st nn xp vn mn ts pt vd vo (if c then v else dn) sq bp (Z.lor f (if c then kDomainNameBit else 0))
  | UBbrSeqNumber v => mkAgent ad po di tv st nn xp vn mn ts pt vd vo dn (if c then v else sq) bp (Z.lor f (if c then kBbrSeqNumberBit else 0))
  | UBbrPort v => mkAgent ad po di tv st nn xp vn mn ts pt vd vo dn sq (if c then v else bp) (Z.lor f (if c then kBbrPortBit else 0))
  end.
Proof. destruct c, u; cbn; by rewrite ?Z.lor_0_r. Qed.

Lemma fold_overlay b b0 : fold_left (fun b u => update u b) (updates_of b) b0 = overlay b0 b.
Proof.
  unfold updates_of. cbn [fold_left update]. unfold field_updates. cbv zeta. rewrite <- (app_nil_r (_ ++ _)). rewrite <- !app_assoc.
  repeat rewrite fold_row. cbn [fold_left]. destruct b0 as [ad po di tv st nn xp vn mn ts pt vd vo dn sq bp f].
  repeat (rewrite put_update; cbv iota beta). unfold overlay. cbn [mAddr mPort mDiscriminator mThreadVersion mState mNetworkName
    mExtendedPanId mVendorName mModelName mActiveTimestamp mPartitionId mVendorData mVendorOui mDomainName mBbrSeqNumber mBbrPort mPresentFlags].
  f_equal. change 65532 with (Z.lor (2 ^ 15) (Z.lor (2 ^ 2) (Z.lor (2 ^ 3) (Z.lor (2 ^ 4) (Z.lor (2 ^ 5) (Z.lor (2 ^ 6) (Z.lor (2 ^ 7)
    (Z.lor (2 ^ 8) (Z.lor (2 ^ 9) (Z.lor (2 ^ 10) (Z.lor (2 ^ 11) (Z.lor (2 ^ 12) (Z.lor (2 ^ 13) (2 ^ 14)))))))))))))).
  rewrite !Z.land_lor_distr_r, <- !has_bit by done. by rewrite <- !Z.lor_assoc.
Qed.

(** C28: The entries that a border agent publishes for its fields, in any order, are all accepted, and reading them
    writes exactly these fields, with their values, and raises exactly their flags; the address and the port, which
    come with other records, and the fields the agent does not publish stay what they were. *)
Theorem txt_record_roundtrip b b0 l :
  Forall update_typed (updates_of b) -> l ≡ₚ map entry_of (updates_of b) -> txt_loop l b0 = Ok (overlay b0 b, kNone).
Proof.
  intros Hu Hl. rewrite <- fold_overlay.
  apply (txt_loop_perm (map entry_of (updates_of b)) l); [by symmetry| | |by apply txt_loop_entries].
  - rewrite map_map. eapply sublist_NoDup; [apply keys_distinct|]. apply updates_keys.
  - apply Forall_fmap. eapply Forall_impl; [exact Hu|]. intros u. apply entry_bytes.
Qed.

(** ** Polls *)

(** The values of the types of the fields. *)
Definition agent_typed (b : BorderAgent) : Prop :=
  (bytes (mDiscriminator b) /\ (mDiscriminator b = [] \/ zlen (mDiscriminator b) = 8)) /\ bytes (mThreadVersion b) /\
  state_typed (mState b) /\ bytes (mNetworkName b) /\ fits 64 (mExtendedPanId b) /\ bytes (mVendorName b) /\ bytes (mModelName b) /\
  Timestamp.timestamp_ok (mActiveTimestamp b) /\ fits 32 (mPartitionId b) /\ bytes (mVendorData b) /\
  (bytes (mVendorOui b) /\ (mVendorOui b = [] \/ zlen (mVendorOui b) = 3)) /\ bytes (mDomainName b) /\ fits 8 (mBbrSeqNumber b) /\
  fits 16 (mBbrPort b) /\ fits 16 (mPort b).

Definition record_typed (r : MdnsRecord) : Prop :=
  match r with RecTxt l => Forall (fun e => bytes e.2) l | RecSrv p => fits 16 p | _ => True end.

Lemma update_keeps u b : update_typed u -> agent_typed b -> agent_typed (update u b).
Proof. destruct b, u; unfold agent_typed; cbn; tauto. Qed.

Lemma txt_loop_safe l : forall b, Forall (fun e => bytes e.2) l -> agent_typed b ->
  exists b' e, txt_loop l b = Ok (b', e) /\ agent_typed b' /\ (e = kNone \/ e = kBadFormat).
Proof.
  induction l as [|[k v] l IH]; intros b Hl Hb; [exists b, kNone; auto|]. apply Forall_cons in Hl as [Hv Hl].
  destruct (txt_loop_cons k v l b Hv) as [->|(u & -> & Hu & _)]; [exists b, kBadFormat; auto|]. apply IH; [done|]. by apply update_keeps.
Qed.

Section Poll.
Context (inet_ntop4 inet_ntop6 : ByteArray -> option string_t).

(** What holds of a message while records are handled. *)
Definition msg_ok (m : BorderAgentOrErrorMsg) : Prop := agent_typed (mBorderAgent m) /\ (mError m = kNone \/ mError m = kBadFormat).

Lemma HandleRecord_safe from r m : record_typed r -> msg_ok m ->
  exists m', HandleRecord inet_ntop4 inet_ntop6 from r m = Ok m' /\ msg_ok m'.
Proof.
  intros Hr [Ha He]. unfold HandleRecord. destruct (SetSockAddr from) as [a|e|] eqn:Ef; [|by eexists; split; [done|split; auto]|by destruct from].
  destruct r as [|p|addr|l|]; cbn in Hr; try (by eexists; split; [done|split]).
  - eexists. split; [done|]. split; [|done]. destruct m as [[] e]. unfold agent_typed in *. cbn in *. tauto.
  - destruct (SetSockAddr addr); [|by eexists; split; [done|split; auto]..]. eexists. split; [done|]. split; [|done].
    destruct m as [[] ?]. unfold agent_typed in *. cbn in *. tauto.
  - destruct (txt_loop_safe (take (Z.to_nat kTxtBufferSize) l) (mBorderAgent m)) as (b' & e & -> & Hb & Hx); [by apply Forall_take|done|].
    eexists; split; [done|]. split; [done|]. cbn. by case_bool_decide; auto.
Qed.

Lemma handle_records_safe from l : forall m, Forall record_typed l -> msg_ok m ->
  exists m', handle_records inet_ntop4 inet_ntop6 from l m = Ok m' /\ msg_ok m'.
Proof.
  induction l as [|r l IH]; intros m Hl Hm; [by exists m|]. apply Forall_cons in Hl as [Hr Hl].
  destruct (HandleRecord_safe from r m Hr Hm) as (m1 & E & Hm1). cbn [handle_records]. rewrite E. by apply IH.
Qed.

(** Whatever answer is received, handling it ends, and the poll tells the handler exactly one thing: an agent that has
    an address and a port and whose fields have the values of their types, or [kBadFormat].  In particular a poll
    without answer also reports the error. *)
Theorem poll_reports initial from l :
  agent_typed initial -> Forall record_typed l ->
  (exists b, poll inet_ntop4 inet_ntop6 initial from l = Ok (Some (inl b)) /\ agent_typed b /\
     has (mPresentFlags b) kAddrBit = true /\ has (mPresentFlags b) kPortBit = true) \/
  poll inet_ntop4 inet_ntop6 initial from l = Ok (Some (inr kBadFormat)).
Proof.
  intros Hi Hl. destruct (handle_records_safe from l (mkMsg initial kNone) Hl) as (m & E & Ha & He); [by split; [|left]|].
  unfold poll. rewrite E. cbn [mbind outcome_bind]. unfold report. destruct He as [-> | ->]; cbn [bool_decide negb]; [|by right].
  rewrite bool_decide_true by done. cbn [negb]. destruct (Z.land _ kAddrBit =? 0) eqn:E1; [by right|].
  destruct (Z.land _ kPortBit =? 0) eqn:E2; [by right|]. left. exists (mBorderAgent m). cbn [orb]. unfold has. rewrite E1, E2.
  destruct (mPresentFlags (mBorderAgent m) =? 0) eqn:E0; [|by split_and!]. apply Z.eqb_eq in E0. rewrite E0 in E1. done.
Qed.

Lemma silent_poll initial from : mPresentFlags initial = 0 -> poll inet_ntop4 inet_ntop6 initial from [] = Ok (Some (inr kBadFormat)).
Proof. intros E. unfold poll. cbn. unfold report. cbn. by rewrite E. Qed.
End Poll.
