(* ===== verification/BorderAgentScript.v ===== *)
(** * A border agent discovered: concrete records *)

From S2P Require Import Prelude Outcome Common NetworkData BorderAgent BorderAgentFacts.
Import Endian.

(** Converting an address to text is a service of the system. *)
Definition ntop (b : ByteArray) : option string_t := Some (str "192.168.1.2").

(** An agent as it is before the first record. *)
Definition fresh : BorderAgent :=
  mkAgent [] 0 [] [] (mkState 0 0 0 0 0) [] 0 [] [] (Timestamp.mkTimestamp 0 0 0) 0 [] [] [] 0 0 0.

(** A border agent of Thread 1.2 with a state, a network name, an extended PAN identifier and a vendor. *)
Definition agent : BorderAgent :=
  mkAgent (str "192.168.1.2") 49191 [] (str "1.2.0") (mkState 1 2 1 1 0) (str "OpenThread-1") 2401053089206453570 (str "OpenThread") []
    (Timestamp.mkTimestamp 7 2 1) 0 [] [24; 179; 48] [] 5 61631
    (Z.lor kThreadVersionBit (Z.lor kStateBit (Z.lor kNetworkNameBit (Z.lor kExtendedPanIdBit (Z.lor kVendorNameBit
      (Z.lor kActiveTimestampBit (Z.lor kVendorOuiBit (Z.lor kBbrSeqNumberBit kBbrPortBit)))))))).
Definition entries : list (string_t * string_t) := rev (map entry_of (updates_of agent)).

Definition records : list MdnsRecord :=
  [RecPtr; RecTxt entries; RecSrv 49191; RecA (AfInet [192; 168; 1; 2]); RecOther].

Ltac typed := repeat constructor; unfold is_byte, fits; cbn; lia.

Lemma state_bitmap_witness : (exists s, state_of_bitmap [0; 0; 1; 177] = Ok s /\ state_typed s /\ low_byte s = 177 /\ mBbrIsPrimary s = 1)
  /\ state_of_bitmap [9; 9; 2 * 3 + 1; 177] = Ok (mkState 1 2 1 1 1).
Proof.
  split; [apply (proj1 state_bitmap_roundtrip 0 0 1 177); typed|].
  apply (proj2 state_bitmap_roundtrip (mkState 1 2 1 1 1) 9 9 3); [|lia]. unfold state_typed. cbn. lia.
Defined.

Lemma updates_agent : Forall update_typed (updates_of agent).
Proof.
  change (updates_of agent) with [UNone; UThreadVersion (str "1.2.0"); UState (mkState 1 2 1 1 0); UNetworkName (str "OpenThread-1");
    UExtendedPanId 2401053089206453570; UVendorName (str "OpenThread"); UActiveTimestamp (Timestamp.mkTimestamp 7 2 1);
    UVendorOui [24; 179; 48]; UBbrSeqNumber 5; UBbrPort 61631].
  repeat (apply Forall_cons; split); cbn; unfold state_typed, Timestamp.timestamp_ok, fits; cbn; try lia; try typed.
Qed.

Lemma txt_record_witness : txt_loop entries fresh = Ok (overlay fresh agent, kNone).
Proof. apply txt_record_roundtrip; [exact updates_agent|]. unfold entries. apply Permutation_sym, Permutation_rev. Defined.

Lemma fresh_typed : agent_typed fresh.
Proof.
  unfold agent_typed, state_typed, Timestamp.timestamp_ok, fits. cbn.
  split_and!; try lia; try (apply Forall_nil_2); left; reflexivity.
Qed.

Lemma records_typed : Forall record_typed records.
Proof.
  assert (E : record_typed (RecTxt entries)); [|apply Forall_cons; split; [exact I|]; apply Forall_cons; split; [exact E|]; repeat constructor; cbn; lia].
  apply Forall_rev, Forall_fmap. eapply Forall_impl; [exact updates_agent|]. intros u. apply entry_bytes.
Qed.

(** What the handler is told. *)
Definition found : BorderAgent := set_Addr (set_Port (overlay fresh agent) 49191) (str "192.168.1.2").

Lemma poll_witness :
  poll ntop ntop fresh (AfInet [192; 168; 1; 1]) records = Ok (Some (inl found)) /\ agent_typed found.
Proof.
  destruct (poll_reports ntop ntop fresh (AfInet [192; 168; 1; 1]) records fresh_typed records_typed) as [(b & E & Hb & _)|E]; [|by vm_compute in E].
  split; [by vm_compute|]. vm_compute in E. injection E as <-. exact Hb.
Defined.
