(* ===== verification/CliText.v ===== *)
(** * The texts of the command line

    The parts of [src/app/cli/interpreter.cpp] that work on text only: numbers
    and quoted words of a command, the texts of values, the table of usages.
    A line holds no NUL character, as [readline] returns C strings. *)

From S2P Require Import Prelude Outcome Common NetworkData CommissionerApp BorderAgent.
Import Endian HexString Ipv6Prefix.

(** [std::map], as the list of its entries in the order of the keys, which is
    lexicographic. *)
Fixpoint lex_lt (a b : list Z) : bool :=
  match a, b with
  | _, [] => false
  | [], _ :: _ => true
  | x :: a, y :: b => (x <? y) || ((x =? y) && lex_lt a b)
  end.

Section Map.
Context {V : Type}.
Definition std_map : Type := list (list Z * V).

(** [emplace]: an entry with the key stays. *)
Fixpoint map_emplace (k : list Z) (v : V) (m : std_map) : std_map :=
  match m with
  | [] => [(k, v)]
  | (k', v') :: m' => if lex_lt k k' then (k, v) :: m else if lex_lt k' k then (k', v') :: map_emplace k v m' else m
  end.
Definition map_of (l : list (list Z * V)) : std_map := fold_left (fun m kv => map_emplace kv.1 kv.2 m) l [].
Fixpoint map_find (k : list Z) (m : std_map) : option V :=
  match m with [] => None | (k', v) :: m => if bool_decide (k = k') then Some v else map_find k m end.
End Map.
Arguments std_map V : clear implicits.

(** ** Words *)

(** [tolower] in the C locale. *)
Definition tolower (c : Z) : Z := if isupper c then c + 32 else c.
Definition ToLower (aStr : string_t) : string_t := map tolower aStr.
Definition CaseInsensitiveEqual (aLhs aRhs : string_t) : bool := bool_decide (ToLower aLhs = ToLower aRhs).

(** [ParseInteger<T>], for a type of [w] bits. *)
Definition ParseInteger (w : Z) (aStr : string_t) : outcome Z :=
  match strtoull0 aStr with
  | None => Err kInvalidArgs
  | Some integer => Ok (integer mod 2 ^ w)
  end.

(** [ParseHex]: [utils::Hex(bytes, s)] on an empty buffer. *)
Definition ParseHex (s : string_t) : outcome ByteArray :=
  r ← FromHex [] s; match r with (b, kNone) => Ok b | (_, e) => Err e end.

(** An iterator is a position; [end()] is the length of the line. *)
Definition slice (aLiteral : string_t) (from to : nat) : string_t := take (to - from) (drop from aLiteral).

(** The loop of [ParseExpression] at position [c], with [rest] still to read. *)
Fixpoint ParseExpression_loop (aLiteral rest : string_t) (c : nat) (inSingleQuotes : bool) (begin : nat) (expr : list string_t)
    : outcome (list string_t) :=
  let end_ := length aLiteral in
  match rest with
  | [] => Ok (if bool_decide (begin = end_) then expr else expr ++ [slice aLiteral begin end_])
  | x :: rest =>
      let next := ParseExpression_loop aLiteral rest (Datatypes.S c) in
      if inSingleQuotes then
        if x =? 39 then VerifyOrDie negb (bool_decide (begin = end_));; next false end_ (expr ++ [slice aLiteral begin c])
        else next true begin expr
      else if isspace x then
        if negb (bool_decide (begin = end_)) then next false end_ (expr ++ [slice aLiteral begin c]) else next false begin expr
      else if x =? 39 then next true (Datatypes.S c) expr
      else if bool_decide (begin = end_) then next false c expr
      else next false begin expr
  end.
Definition ParseExpression (aLiteral : string_t) : outcome (list string_t) :=
  ParseExpression_loop aLiteral aLiteral 0 false (length aLiteral) [].

(** ** The texts of values *)

Definition number (v : Z) : string_t := to_string 20 v.
(** [ToHex<T>], for a type of [n] bytes. *)
Definition ToHex (n : nat) (aInteger : Z) : string_t := str "0x" ++ Hex (Encode n [] aInteger).
Definition newline : string_t := [10].

Definition Timestamp_ToString (aTimestamp : Timestamp.Timestamp) : string_t :=
  str "seconds=" ++ number (Timestamp.mSeconds aTimestamp) ++ newline ++ str "ticks=" ++ number (Timestamp.mTicks aTimestamp) ++ newline ++
  str "u=" ++ number (Timestamp.mU aTimestamp).
Definition Channel_ToString (aChannel : Channel) : string_t :=
  str "page=" ++ number (mPage aChannel) ++ newline ++ str "channel=" ++ number (mNumber aChannel).

(** [std::string::pop_back] of a string that is not empty. *)
Definition pop_back (s : string_t) : string_t := match s with [] => [] | _ => removelast s end.
Definition ChannelMask_ToString (aChannelMask : ChannelMask) : string_t :=
  pop_back (flat_map (fun entry => str "page=" ++ number (mMaskPage entry) ++ newline ++ str "masks=" ++ Hex (mMasks entry) ++ newline) aChannelMask).
Definition SecurityPolicy_ToString (aSecurityPolicy : SecurityPolicy) : string_t :=
  str "rotationTime=" ++ number (mRotationTime aSecurityPolicy) ++ newline ++ str "flags=" ++ Hex (mFlags aSecurityPolicy).
Definition EnergyReport_ToString (aReport : EnergyReport) : string_t :=
  ChannelMask_ToString (mChannelMask aReport) ++ newline ++ str "energyList=" ++ Hex (mEnergyList aReport).

Definition BaConnModeToString (aConnMode : Z) : string_t :=
  match aConnMode with
  | 0 => str "disallowed" | 1 => str "PSKc" | 2 => str "PSKd" | 3 => str "vendor" | 4 => str "X.509" | _ => str "reserved"
  end.
Definition BaThreadIfStatusToString (aIfStatus : Z) : string_t :=
  match aIfStatus with 0 => str "uninitialized" | 1 => str "inactive" | 2 => str "active" | _ => str "reserved" end.
Definition BaAvailabilityToString (aAvailability : Z) : string_t :=
  match aAvailability with 0 => str "low" | 1 => str "high" | _ => str "reserved" end.
Definition State_ToString (aState : State) : string_t :=
  str "State.ConnectionMode=" ++ number (mConnectionMode aState) ++ str "(" ++ BaConnModeToString (mConnectionMode aState) ++ str ")" ++ newline ++
  str "State.ThreadIfStatus=" ++ number (mThreadIfStatus aState) ++ str "(" ++ BaThreadIfStatusToString (mThreadIfStatus aState) ++ str ")" ++ newline ++
  str "State.Availability=" ++ number (mAvailability aState) ++ str "(" ++ BaAvailabilityToString (mAvailability aState) ++ str ")" ++ newline ++
  str "State.BbrIsActive=" ++ number (mBbrIsActive aState) ++ newline ++
  str "State.BbrIsPrimary=" ++ number (mBbrIsPrimary aState).

(** [BUILD_STRING(name, nameStr)] *)
Definition BUILD_STRING (b : BorderAgent) (bit : Z) (name : String.string) (text : string_t) : string_t :=
  if has (mPresentFlags b) bit then str name ++ str "=" ++ text ++ newline else [].
Definition BorderAgent_ToString (b : BorderAgent) : string_t :=
  BUILD_STRING b kAddrBit "Addr" (mAddr b) ++ BUILD_STRING b kPortBit "Port" (number (mPort b)) ++
  BUILD_STRING b kDiscriminatorBit "Discriminator" (Hex (mDiscriminator b)) ++ BUILD_STRING b kThreadVersionBit "ThreadVersion" (mThreadVersion b) ++
  (if has (mPresentFlags b) kStateBit then State_ToString (mState b) ++ newline else []) ++
  BUILD_STRING b kNetworkNameBit "NetworkName" (mNetworkName b) ++ BUILD_STRING b kExtendedPanIdBit "ExtendedPanId" (ToHex 8 (mExtendedPanId b)) ++
  BUILD_STRING b kVendorNameBit "VendorName" (mVendorName b) ++ BUILD_STRING b kModelNameBit "ModelName" (mModelName b).

(** ** Arguments of commands *)

Definition Expression : Type := list string_t.

(** [aExpr[n]] *)
Definition arg (aExpr : Expression) (n : nat) : outcome string_t := match aExpr !! n with Some s => Ok s | None => Die end.

Definition GetJoinerType (aStr : string_t) : outcome JoinerType :=
  if CaseInsensitiveEqual aStr (str "meshcop") then Ok kMeshCoP
  else if CaseInsensitiveEqual aStr (str "ae") then Ok kAE
  else if CaseInsensitiveEqual aStr (str "nmkp") then Ok kNMKP
  else Err kInvalidArgs.

(** The loop of [ParseChannelMask] over the pairs from [aIndex] on. *)
Fixpoint ParseChannelMask_loop (l : Expression) : outcome ChannelMask :=
  match l with
  | [] => Ok []
  | [_] => Die
  | page :: masks :: l =>
      page ← ParseInteger 8 page; masks ← ParseHex masks; rest ← ParseChannelMask_loop l; Ok (mkEntry page masks :: rest)
  end.
Definition ParseChannelMask (aExpr : Expression) (aIndex : nat) : outcome ChannelMask :=
  VerifyOrExit (Z.of_nat aIndex <=? zlen aExpr) && ((zlen aExpr - Z.of_nat aIndex) mod 2 =? 0) else kInvalidArgs;;
  ParseChannelMask_loop (drop aIndex aExpr).

(** ** Usages *)

(** Lines joined by newlines. *)
Fixpoint lines (l : list String.string) : string_t :=
  match l with [] => [] | [s] => str s | s :: l => str s ++ newline ++ lines l end.

Definition mUsageMap : std_map string_t := map_of [
  (str "config", lines ["config get pskc";
    "config set pskc <pskc-hex-string>"]);
  (str "start", lines ["start <border-agent-addr> <border-agent-port>"]);
  (str "stop", lines ["stop"]);
  (str "active", lines ["active"]);
  (str "token", lines ["token request <registrar-addr> <registrar-port>";
    "token print";
    "token set <signed-token-hex-string-file>"]);
  (str "network", lines ["network save <network-data-file>";
    "network sync"]);
  (str "sessionid", lines ["sessionid"]);
  (str "borderagent", lines ["borderagent discover [<timeout-in-milliseconds>]";
    "borderagent get locator"]);
  (str "joiner", lines ["joiner enable (meshcop|ae|nmkp) <joiner-eui64> [<joiner-password>] [<provisioning-url>]";
    "joiner enableall (meshcop|ae|nmkp) [<joiner-password>] [<provisioning-url>]";
    "joiner disable (meshcop|ae|nmkp) <joiner-eui64>";
    "joiner disableall (meshcop|ae|nmkp)";
    "joiner getport (meshcop|ae|nmkp)";
    "joiner setport (meshcop|ae|nmkp) <joiner-udp-port>"]);
  (str "commdataset", lines ["commdataset get";
    "commdataset set '<commissioner-dataset-in-json-string>'"]);
  (str "opdataset", lines ["opdataset get activetimestamp";
    "opdataset get channel";
    "opdataset set channel <page> <channel> <delay-in-milliseconds>";
    "opdataset get channelmask";
    "opdataset set channelmask (<page> <channel-mask>)...";
    "opdataset get xpanid";
    "opdataset set xpanid <extended-pan-id>";
    "opdataset get meshlocalprefix";
    "opdataset set meshlocalprefix <prefix> <delay-in-milliseconds>";
    "opdataset get networkmasterkey";
    "opdataset set networkmasterkey <network-master-key> <delay-in-milliseconds>";
    "opdataset get networkname";
    "opdataset set networkname <network-name>";
    "opdataset get panid";
    "opdataset set panid <panid> <delay-in-milliseconds>";
    "opdataset get pskc";
    "opdataset set pskc <PSKc>";
    "opdataset get securitypolicy";
    "opdataset set securitypolicy <rotation-timer> <flags-hex>";
    "opdataset get active";
    "opdataset set active '<active-dataset-in-json-string>'";
    "opdataset get pending";
    "opdataset set pending '<pending-dataset-in-json-string>'"]);
  (str "bbrdataset", lines ["bbrdataset get trihostname";
    "bbrdataset set trihostname <TRI-hostname>";
    "bbrdataset get reghostname";
    "bbrdataset set reghostname <registrar-hostname>";
    "bbrdataset get regaddr";
    "bbrdataset get";
    "bbrdataset set '<bbr-dataset-in-json-string>'"]);
  (str "reenroll", lines ["reenroll <device-addr>"]);
  (str "domainreset", lines ["domainreset <device-addr>"]);
  (str "migrate", lines ["migrate <device-addr> <designated-network-name>"]);
  (str "mlr", lines ["mlr (<multicast-addr>)+ <timeout-in-seconds>"]);
  (str "announce", lines ["announce <channel-mask> <count> <period> <dst-addr>"]);
  (str "panid", lines ["panid query <channel-mask> <panid> <dst-addr>";
    "panid conflict <panid>"]);
  (str "energy", lines ["energy scan <channel-mask> <count> <period> <scan-duration> <dst-addr>";
    "energy report [<dst-addr>]"]);
  (str "help", lines ["help [<command>]"])].

Definition Usage (aExpr : Expression) : outcome string_t :=
  command ← arg aExpr 0; Ok (default [] (map_find command mUsageMap)).
