(* ===== verification/CliTextFacts.v ===== *)
(** * Properties of the texts of the command line *)

From S2P Require Import Prelude Outcome Common NetworkData CommissionerApp BorderAgent CliText.
Import Endian HexString CommonFacts Ipv6Prefix.

(** ** Words *)

(** What [ParseExpression] is in: between words, in a word, between quotes. *)
Inductive Mode : Type := MBetween | MWord (w : string_t) | MQuoted (w : string_t).

(** The words of a line. *)
Fixpoint tokens (m : Mode) (s : string_t) : list string_t :=
  match s with
  | [] => match m with MBetween => [] | MWord w => [w] | MQuoted w => if bool_decide (w = []) then [] else [w] end
  | x :: s =>
      match m with
      | MBetween => if isspace x then tokens MBetween s else if x =? 39 then tokens (MQuoted []) s else tokens (MWord [x]) s
      | MWord w => if isspace x then w :: tokens MBetween s else if x =? 39 then tokens (MQuoted []) s else tokens (MWord (w ++ [x])) s
      | MQuoted w => if x =? 39 then w :: tokens MBetween s else tokens (MQuoted (w ++ [x])) s
      end
  end.

(** The word so far starts at [begin] and ends before [c]. *)
Definition represents (m : Mode) (lit : string_t) (c : nat) (inq : bool) (begin : nat) : Prop :=
  match m with
  | MBetween => inq = false /\ begin = length lit
  | MWord w => inq = false /\ (begin < c)%nat /\ slice lit begin c = w
  | MQuoted w => inq = true /\ (begin <= c)%nat /\ slice lit begin c = w
  end.

Lemma slice_snoc lit b c x : (b <= c)%nat -> lit !! c = Some x -> slice lit b (Datatypes.S c) = slice lit b c ++ [x].
Proof.
  intros Hb Hx. unfold slice. replace (Datatypes.S c - b)%nat with (Datatypes.S (c - b)) by lia.
  apply take_S_r. rewrite lookup_drop. by replace (b + (c - b))%nat with c by lia.
Qed.
Lemma slice_empty lit c : slice lit c c = [].
Proof. unfold slice. by rewrite Nat.sub_diag. Qed.
Lemma slice_nil lit b c : (b <= c)%nat -> (c <= length lit)%nat -> slice lit b c = [] -> b = c.
Proof. intros Hb Hc E. apply (f_equal length) in E. unfold slice in E. rewrite length_take, length_drop in E. cbn in E. lia. Qed.

Lemma ParseExpression_loop_tokens lit rest : forall c m inq begin expr,
  drop c lit = rest -> (c <= length lit)%nat -> represents m lit c inq begin ->
  ParseExpression_loop lit rest c inq begin expr = Ok (expr ++ tokens m rest).
Proof.
  induction rest as [|x rest IH]; intros c m inq begin expr Hd Hc Hm.
  - assert (c = length lit) as -> by (apply (f_equal length) in Hd; rewrite length_drop in Hd; cbn in Hd; lia).
    cbn [ParseExpression_loop]. destruct m as [|w|w]; cbn [represents] in Hm.
    + destruct Hm as [-> ->]. rewrite bool_decide_true by done. cbn. by rewrite app_nil_r.
    + destruct Hm as (-> & Hb & <-). by rewrite bool_decide_false by lia.
    + destruct Hm as (-> & Hb & <-). cbn [tokens]. case_bool_decide as E1.
      * subst begin. rewrite slice_empty, bool_decide_true by done. by rewrite app_nil_r.
      * rewrite bool_decide_false; [done|]. intros E. apply slice_nil in E; lia.
  - assert (Hx : lit !! c = Some x) by (rewrite <- (Nat.add_0_r c), <- lookup_drop, Hd; done).
    assert (Hlt : (c < length lit)%nat) by by apply lookup_lt_Some in Hx.
    assert (Hd' : drop (Datatypes.S c) lit = rest).
    { replace (Datatypes.S c) with (c + 1)%nat by lia. by rewrite <- drop_drop, Hd. }
    cbn [ParseExpression_loop tokens]. destruct m as [|w|w]; cbn [represents] in Hm.
    + destruct Hm as [-> ->]. rewrite bool_decide_true by done. cbn [negb].
      destruct (isspace x); [by apply (IH _ MBetween)|]. destruct (x =? 39).
      * apply (IH _ (MQuoted [])); [done|lia|]. cbn [represents]. by rewrite slice_empty.
      * apply (IH _ (MWord [x])); [done|lia|]. cbn [represents]. split_and!; [done|lia|]. rewrite (slice_snoc _ _ _ x) by done. by rewrite slice_empty.
    + destruct Hm as (-> & Hb & Hw). rewrite bool_decide_false by lia. cbn [negb]. rewrite Hw.
      destruct (isspace x); [rewrite (IH _ MBetween) by done; by rewrite <- app_assoc|]. destruct (x =? 39).
      * apply (IH _ (MQuoted [])); [done|lia|]. cbn [represents]. by rewrite slice_empty.
      * apply (IH _ (MWord (w ++ [x]))); [done|lia|]. cbn [represents]. split_and!; [done|lia|]. rewrite (slice_snoc _ _ _ x) by (done || lia). by rewrite Hw.
    + destruct Hm as (-> & Hb & Hw). destruct (x =? 39).
      * rewrite bool_decide_false by lia. cbn [negb]. rewrite Hw, (IH _ MBetween) by done. by rewrite <- app_assoc.
      * apply (IH _ (MQuoted (w ++ [x]))); [done|lia|]. cbn [represents]. split_and!; [done|lia|]. rewrite (slice_snoc _ _ _ x) by (done || lia). by rewrite Hw.
Qed.

Lemma ParseExpression_tokens s : ParseExpression s = Ok (tokens MBetween s).
Proof. unfold ParseExpression. by rewrite (ParseExpression_loop_tokens s s 0 MBetween) by (done || lia). Qed.

(** *** Writing words *)

Definition plain_char (c : Z) : Prop := isspace c = false /\ c <> 39.

(** The ways to type a word: as it is, or between quotes. *)
Inductive typed_as (w : string_t) : string_t -> Prop :=
| AsPlain : w <> [] -> Forall plain_char w -> typed_as w w
| AsQuoted : Forall (fun c => c <> 39) w -> typed_as w ([39] ++ w ++ [39]).

Definition blank (s : string_t) : Prop := s <> [] /\ Forall (fun c => isspace c = true) s.

(** A line: texts with blanks between them. *)
Fixpoint line_of (l : list (string_t * string_t)) : string_t := match l with [] => [] | (sep, t) :: l => sep ++ t ++ line_of l end.

Lemma tokens_blank s rest : Forall (fun c => isspace c = true) s -> tokens MBetween (s ++ rest) = tokens MBetween rest.
Proof. induction 1 as [|x s Hx _ IH]; [done|]. cbn [app tokens]. by rewrite Hx. Qed.

Lemma tokens_word u : forall w rest, Forall plain_char u -> tokens (MWord w) (u ++ rest) = tokens (MWord (w ++ u)) rest.
Proof.
  induction u as [|x u IH]; intros w rest Hu; [by rewrite app_nil_r|]. apply Forall_cons in Hu as [[Hx Hq] Hu].
  cbn [app tokens]. apply Z.eqb_neq in Hq. rewrite Hx, Hq, IH by done. by rewrite <- app_assoc.
Qed.
Lemma tokens_quoted u : forall w rest, Forall (fun c => c <> 39) u -> tokens (MQuoted w) (u ++ rest) = tokens (MQuoted (w ++ u)) rest.
Proof.
  induction u as [|x u IH]; intros w rest Hu; [by rewrite app_nil_r|]. apply Forall_cons in Hu as [Hq Hu].
  cbn [app tokens]. apply Z.eqb_neq in Hq. rewrite Hq, IH by done. by rewrite <- app_assoc.
Qed.

(** What is behind a word: nothing, or a blank. *)
Definition ends_word (rest : string_t) : Prop := match rest with [] => True | c :: _ => isspace c = true end.

Lemma tokens_typed w t rest : typed_as w t -> ends_word rest -> tokens MBetween (t ++ rest) = w :: tokens MBetween rest.
Proof.
  intros Ht Hr. destruct Ht as [Hne Hw|Hw].
  - destruct w as [|x w]; [done|]. apply Forall_cons in Hw as [[Hx Hq] Hw]. cbn [app tokens]. apply Z.eqb_neq in Hq. rewrite Hx, Hq.
    rewrite tokens_word by done. destruct rest as [|c rest]; [done|]. cbn in Hr. cbn [tokens app]. by rewrite Hr.
  - rewrite <- !app_assoc. cbn [app tokens]. rewrite tokens_quoted by done. reflexivity.
Qed.

(** C26: Every line is taken apart without failing, and what is typed is what the commands get: words without
    quotes, typed as they are when they are not empty and hold no blank, or between quotes, with blanks between them
    and possibly before the first and behind the last, are read back as these words. *)
Theorem ParseExpression_words :
  (forall s, exists words, ParseExpression s = Ok words) /\
  forall w t words texts first last, typed_as w t ->
    Forall2 (fun w t => typed_as w t.2 /\ blank t.1) words texts ->
    Forall (fun c => isspace c = true) first -> Forall (fun c => isspace c = true) last ->
    ParseExpression (first ++ t ++ line_of texts ++ last) = Ok (w :: words).
Proof.
  split; [intros s; exists (tokens MBetween s); apply ParseExpression_tokens|].
  intros w t words texts first last Ht Hw Hf Hl. rewrite ParseExpression_tokens, tokens_blank by done. f_equal.
  assert (E : ends_word (line_of texts ++ last) /\ tokens MBetween (line_of texts ++ last) = words).
  { clear - Hl Hw. induction Hw as [|w [sep u] words texts [Ht [Hne Hb]] _ [IHe IH]]; cbn [line_of app fst snd] in *.
    - split; [by destruct Hl|]. rewrite <- (app_nil_r last). by rewrite tokens_blank.
    - rewrite <- !app_assoc. split.
      + destruct sep; [done|]. by apply Forall_cons in Hb as [? _].
      + rewrite tokens_blank by done. rewrite (tokens_typed w) by done. by rewrite IH. }
  destruct E as [He <-]. by apply tokens_typed.
Qed.

(** ** Numbers *)

Definition all_digits (base : Z) (s : string_t) : Prop := Forall (fun c => digit c < base) s.

Lemma digits_app base s rest : forall acc, all_digits base s -> digits base acc (s ++ rest) = digits base (digits base acc s) rest.
Proof.
  induction s as [|c s IH]; intros acc Hs; [done|]. apply Forall_cons in Hs as [Hc Hs]. cbn [app digits].
  rewrite (proj2 (Z.ltb_lt _ _) Hc). by apply IH.
Qed.
Lemma digits_stop base acc rest : starts_digit base rest = false -> digits base acc rest = acc.
Proof. destruct rest as [|c rest]; [done|]. cbn. by intros ->. Qed.

Lemma digit_of_decimal d : 0 <= d < 10 -> digit (48 + d) = d.
Proof. intros H. unfold digit. rewrite (proj2 (Z.leb_le 48 (48 + d))), (proj2 (Z.leb_le (48 + d) 57)) by lia. cbn. lia. Qed.

Lemma to_string_digits n : forall v, 0 <= v -> all_digits 10 (to_string n v).
Proof.
  induction n as [|n IH]; intros v Hv; [constructor|]. cbn [to_string]. apply Forall_app. split.
  - destruct (v <? 10); [constructor|]. apply IH. by apply Z.div_pos.
  - constructor; [|constructor]. pose proof (Z.mod_pos_bound v 10). rewrite digit_of_decimal; lia.
Qed.
Lemma digits_to_string n : forall v, 0 <= v < 10 ^ Z.of_nat n -> digits 10 0 (to_string n v) = v.
Proof.
  induction n as [|n IH]; intros v Hv; [change (10 ^ Z.of_nat 0) with 1 in Hv; cbn; lia|].
  pose proof (Z.mod_pos_bound v 10 ltac:(lia)) as Hm. pose proof (Z.div_mod v 10 ltac:(lia)) as Hd. cbn [to_string].
  rewrite digits_app by (destruct (v <? 10); [constructor|by apply to_string_digits, Z.div_pos; lia]).
  assert (E : digits 10 0 (if v <? 10 then [] else to_string n (v / 10)) = v / 10).
  { destruct (Z.ltb_spec v 10); [cbn; rewrite Z.div_small; lia|]. apply IH. split; [apply Z.div_pos; lia|].
    apply Z.div_lt_upper_bound; [lia|]. rewrite Nat2Z.inj_succ, Z.pow_succ_r in Hv; lia. }
  rewrite E. cbn [digits]. rewrite digit_of_decimal by done. destruct (Z.ltb_spec (v mod 10) 10); lia.
Qed.

(** The first digit of a positive number is one of 1 to 9. *)
Lemma to_string_first n : forall v, 0 < v < 10 ^ Z.of_nat n -> exists c s, to_string n v = c :: s /\ 49 <= c <= 57.
Proof.
  induction n as [|n IH]; intros v Hv; [change (10 ^ Z.of_nat 0) with 1 in Hv; lia|]. cbn [to_string].
  destruct (Z.ltb_spec v 10).
  - exists (48 + v mod 10), []. rewrite Z.mod_small by lia. split; [done|lia].
  - destruct (IH (v / 10)) as (c & s & -> & Hc); [|by exists c, (s ++ [48 + v mod 10])].
    split; [apply Z.div_str_pos; lia|]. apply Z.div_lt_upper_bound; [lia|]. rewrite Nat2Z.inj_succ, Z.pow_succ_r in Hv; lia.
Qed.

Definition cap (v : Z) : Z := if ULLONG_MAX <? v then ULLONG_MAX else v.

(** A number that does not start with 0, with and without a minus sign. *)
Lemma strtoull0_decimal c s : 49 <= c <= 57 ->
  strtoull0 (c :: s) = Some (cap (digits 10 0 (c :: s))) /\
  strtoull0 (45 :: c :: s) = Some (if ULLONG_MAX <? digits 10 0 (c :: s) then ULLONG_MAX else u64 (- digits 10 0 (c :: s))).
Proof.
  intros Hc. assert (D : c = 49 \/ c = 50 \/ c = 51 \/ c = 52 \/ c = 53 \/ c = 54 \/ c = 55 \/ c = 56 \/ c = 57) by lia.
  clear Hc. repeat (destruct D as [->|D]; [by split|]). subst c. by split.
Qed.

Lemma number_zero : number 0 = [48].
Proof. reflexivity. Qed.

(** The text of a positive number, and what is behind it. *)
Lemma number_text v rest : 0 < v < 10 ^ 20 -> starts_digit 10 rest = false ->
  exists c s, number v ++ rest = c :: s /\ 49 <= c <= 57 /\ digits 10 0 (c :: s) = v.
Proof.
  intros Hv Hr. unfold number. destruct (to_string_first 20 v Hv) as (c & s & E & Hc). exists c, (s ++ rest).
  rewrite E. split_and!; [done|lia|lia|]. change (c :: s ++ rest) with ((c :: s) ++ rest). rewrite <- E.
  rewrite digits_app by (apply to_string_digits; lia). rewrite digits_to_string by (change (Z.of_nat 20) with 20; lia).
  by apply digits_stop.
Qed.

(** *** Hexadecimal texts *)

Lemma Hex_app a b : Hex (a ++ b) = Hex a ++ Hex b.
Proof. induction a as [|x a IH]; [done|]. cbn [app Hex]. by rewrite IH. Qed.

Lemma hex_digits b : is_byte b -> digit (nibble (Z.shiftr (Z.land b 240) 4)) = b / 16 /\ digit (nibble (Z.land b 15)) = b mod 16.
Proof.
  intros Hb.
  assert (E : (digit (nibble (Z.shiftr (Z.land b 240) 4)) =? b / 16) && (digit (nibble (Z.land b 15)) =? b mod 16) = true).
  { revert b Hb. by apply forallb_seqZ. }
  by bool_to_prop.
Qed.

Lemma Hex_digits l : bytes l -> all_digits 16 (Hex l).
Proof.
  induction 1 as [|b l Hb _ IH]; [constructor|]. cbn [Hex]. destruct (hex_digits b Hb) as [E1 E2].
  unfold is_byte, fits in Hb. change (2 ^ 8) with 256 in Hb.
  constructor; [rewrite E1; apply Z.div_lt_upper_bound; lia|]. constructor; [rewrite E2; apply Z.mod_pos_bound; lia|done].
Qed.

Lemma digits_Hex_Encode n : forall v, digits 16 0 (Hex (Encode_loop n v)) = v mod 2 ^ (8 * Z.of_nat n).
Proof.
  induction n as [|n IH]; intros v; [by rewrite Z.mod_1_r|]. cbn [Encode_loop]. rewrite Hex_app.
  rewrite digits_app by (apply Hex_digits, bytes_Encode_loop). rewrite IH.
  assert (Hb : is_byte (Z.land v 255)).
  { change 255 with (Z.ones 8). rewrite Z.land_ones by lia. by apply Z.mod_pos_bound. }
  destruct (hex_digits _ Hb) as [E1 E2]. cbn [Hex digits]. rewrite E1, E2. unfold is_byte, fits in Hb. change (2 ^ 8) with 256 in Hb.
  pose proof (Z.mod_pos_bound (Z.land v 255) 16 ltac:(lia)). pose proof (Z.div_mod (Z.land v 255) 16 ltac:(lia)).
  rewrite (proj2 (Z.ltb_lt (Z.land v 255 / 16) 16)) by (apply Z.div_lt_upper_bound; lia).
  rewrite (proj2 (Z.ltb_lt (Z.land v 255 mod 16) 16)) by lia.
  change 255 with (Z.ones 8) in *. rewrite Z.land_ones in * by lia. change (2 ^ 8) with 256 in *.
  rewrite Z.shiftr_div_pow2 by lia. change (2 ^ 8) with 256. replace (8 * Z.of_nat (Datatypes.S n)) with (8 * Z.of_nat n + 8) by lia.
  rewrite Z.pow_add_r by lia. change (2 ^ 8) with 256. rewrite (Z.mul_comm (2 ^ _) 256), Z.rem_mul_r; lia.
Qed.

Lemma ToHex_text n v : (0 < n)%nat -> strtoull0 (ToHex n v) = Some (cap (v mod 2 ^ (8 * Z.of_nat n))).
Proof.
  intros Hn. unfold ToHex, Encode. cbn [app]. rewrite <- digits_Hex_Encode.
  assert (E : starts_digit 16 (Hex (Encode_loop n v)) = true).
  { pose proof (Hex_digits (Encode_loop n v) (bytes_Encode_loop n v)) as Hd.
    destruct (Hex (Encode_loop n v)) as [|c s] eqn:E; [|apply Forall_cons in Hd as [Hd _]; by apply Z.ltb_lt].
    destruct n; [lia|]. cbn [Encode_loop] in E. rewrite Hex_app in E. by destruct (Hex (Encode_loop n (Z.shiftr v 8))). }
  change (str "0x" ++ Hex (Encode_loop n v)) with (48 :: 120 :: Hex (Encode_loop n v)). unfold strtoull0.
  change (skip_space (48 :: 120 :: Hex (Encode_loop n v))) with (48 :: 120 :: Hex (Encode_loop n v)). cbv beta iota zeta.
  change (120 =? 120) with true. by rewrite E.
Qed.

(** C27: A number is read into a type of [w] bits without complaint, whatever its size.  The result always fits. The
    decimal text of a number of 64 bits, and the hexadecimal text that commands print, give that number modulo
    [2 ^ w], so that it comes back exactly when it fits; what stands behind a decimal number is ignored, and a
    negative number is read as its complement.  Numbers of more than 64 bits give the largest value of the type. *)
Theorem ParseInteger_bounds w : 0 < w <= 64 ->
  (forall s, ParseInteger w s = Err kInvalidArgs \/ exists v, ParseInteger w s = Ok v /\ fits w v) /\
  (forall v rest, 0 < v < 2 ^ 64 -> starts_digit 10 rest = false ->
     ParseInteger w (number v ++ rest) = Ok (v mod 2 ^ w) /\ ParseInteger w (str "-" ++ number v ++ rest) = Ok (- v mod 2 ^ w)) /\
  (forall v rest, 2 ^ 64 <= v < 10 ^ 20 -> starts_digit 10 rest = false -> ParseInteger w (number v ++ rest) = Ok (2 ^ w - 1)) /\
  ParseInteger w (number 0) = Ok 0 /\
  (forall n v, (0 < n <= 8)%nat -> fits (8 * Z.of_nat n) v -> ParseInteger w (ToHex n v) = Ok (v mod 2 ^ w)).
Proof.
  intros Hw. assert (Hp : 0 < 2 ^ w) by (apply Z.pow_pos_nonneg; lia). unfold ParseInteger.
  assert (Hmax : ULLONG_MAX mod 2 ^ w = 2 ^ w - 1).
  { unfold ULLONG_MAX. replace (2 ^ 64 - 1) with (2 ^ w - 1 + (2 ^ (64 - w) - 1) * 2 ^ w).
    - rewrite Z_mod_plus_full. apply Z.mod_small. lia.
    - replace (2 ^ 64) with (2 ^ (64 - w) * 2 ^ w) by (rewrite <- Z.pow_add_r by lia; f_equal; lia). lia. }
  split_and!.
  - intros s. destruct (strtoull0 s) as [v|]; [right|by left]. eexists. split; [done|]. by apply Z.mod_pos_bound.
  - intros v rest Hv Hr. destruct (number_text v rest) as (c & s & -> & Hc & E); [lia|done|].
    change (str "-" ++ c :: s) with (45 :: c :: s). destruct (strtoull0_decimal c s Hc) as [-> ->]. rewrite E. unfold cap, ULLONG_MAX.
    destruct (Z.ltb_spec (2 ^ 64 - 1) v); [lia|]. split; [done|]. f_equal. unfold u64.
    apply Z.mod_mod_divide. exists (2 ^ (64 - w)). rewrite <- Z.pow_add_r by lia. f_equal. lia.
  - intros v rest Hv Hr. destruct (number_text v rest) as (c & s & -> & Hc & E); [lia|done|].
    rewrite (proj1 (strtoull0_decimal c s Hc)), E. unfold cap. destruct (Z.ltb_spec ULLONG_MAX v); [by rewrite Hmax|].
    unfold ULLONG_MAX in *. lia.
  - rewrite number_zero. change (strtoull0 [48]) with (Some 0). cbv beta iota. by rewrite Z.mod_0_l by lia.
  - intros n v Hn Hv. rewrite ToHex_text by lia. unfold fits in Hv. rewrite (Z.mod_small v (2 ^ (8 * Z.of_nat n))) by done. unfold cap.
    assert (2 ^ (8 * Z.of_nat n) <= 2 ^ 64) by (apply Z.pow_le_mono_r; lia).
    destruct (Z.ltb_spec ULLONG_MAX v); [unfold ULLONG_MAX in *; lia|done].
Qed.
