(* ===== verification/Json.v ===== *)
(** * JSON texts of network data and of the configuration

    [src/app/json.cpp].  The library nlohmann::json is the class [JsonLibrary]
    and its documented behaviour the class [JsonLaws]; its exceptions are
    errors: [FromJson] catches all of them, those of the application with
    their own code and the others as [kInvalidArgs].  [dump] throws when a
    string is not UTF-8, and nothing catches that: it ends the process. *)

From S2P Require Import Prelude Outcome Common NetworkData.
From S2P Require Import CommissionerApp.
Import HexString Addr Ipv6Prefix.

(** ** The library *)

Class JsonLibrary (J : Type) : Type := {
  j_null : J;
  j_of_unsigned : Z -> J;
  j_of_string : string_t -> J;
  j_of_array : list J -> J;
  j_set : J -> string_t -> J -> J;                  (* operator[] and an assignment, on an object or null *)
  j_contains : J -> string_t -> bool;
  j_at : J -> string_t -> option J;                 (* at, or operator[] of a constant *)
  j_get_unsigned : Z -> J -> option Z;              (* get<uint8_t>, ..., by the number of bits *)
  j_get_bool : J -> option bool;
  j_get_string : J -> option string_t;
  j_get_array : J -> option (list J);
  j_parse : string_t -> option J;
  j_dump : Z -> J -> option string_t }.

Class JsonLaws (J : Type) `{JsonLibrary J} : Type := {
  j_object : J -> Prop;                             (* is_object() or is_null() *)
  object_null : j_object j_null;
  object_set j k v : j_object j -> j_object (j_set j k v);
  contains_null k : j_contains j_null k = false;
  contains_set j k v k' : j_object j -> j_contains (j_set j k v) k' = bool_decide (k = k') || j_contains j k';
  at_set j k v k' : j_object j -> j_at (j_set j k v) k' = if decide (k = k') then Some v else j_at j k';
  get_unsigned_of w z : fits w z -> j_get_unsigned w (j_of_unsigned z) = Some z;
  get_unsigned_fits w j z : 0 < w -> j_get_unsigned w j = Some z -> fits w z;
  get_string_of s : bytes s -> j_get_string (j_of_string s) = Some s;
  get_string_bytes j s : j_get_string j = Some s -> bytes s;
  get_array_of l : j_get_array (j_of_array l) = Some l;
  parse_dump i j s : j_dump i j = Some s -> j_parse s = Some j }.

(** ** Comments *)

(** The loop of [StripComments]: its two flags, and the result so far in front. *)
Inductive CommentState : Type := kCode | kInline | kBlock.

Fixpoint StripComments_loop (st : CommentState) (aStr : string_t) : string_t :=
  match aStr with
  | [] => []
  | c :: s =>
      match st, s with
      | kBlock, n :: s' => if (c =? 42) && (n =? 47) then StripComments_loop kCode s' else StripComments_loop kBlock s
      | kBlock, [] => []
      | kInline, n :: s' =>
          if (c =? 13) && (n =? 10) then StripComments_loop kCode s'
          else if c =? 10 then StripComments_loop kCode s else StripComments_loop kInline s
      | kInline, [] => []
      | kCode, n :: s' =>
          if (c =? 47) && (n =? 42) then StripComments_loop kBlock s'
          else if (c =? 47) && (n =? 47) then StripComments_loop kInline s'
          else c :: StripComments_loop kCode s
      | kCode, [] => [c]
      end
  end.

Definition StripComments (aStr : string_t) : string_t := StripComments_loop kCode aStr.

(** ** Serializers *)

Section Json.
Context {J : Type} `{JsonLibrary J}.
Context (inet_pton4 inet_pton6 : string_t -> option ByteArray).
Context (inet_ntop4 inet_ntop6 : ByteArray -> option string_t).

(** An exception of the library. *)
Definition thrown {A} (o : option A) : outcome A := match o with Some a => Ok a | None => Err kInvalidArgs end.

(** [adl_serializer<T>]: [to_json] and [from_json] of a type.  [to_json] can end the process. *)
Record Serializer (T : Type) : Type := mkSerializer { to_json : T -> outcome J; from_json : J -> outcome T }.
Arguments mkSerializer {T}.
Arguments to_json {T}.
Arguments from_json {T}.

(** Of the library: integers, strings, and vectors of a type with a serializer. *)
Definition unsigned (w : Z) : Serializer Z := mkSerializer (fun z => Ok (j_of_unsigned z)) (fun j => thrown (j_get_unsigned w j)).
Definition text : Serializer string_t := mkSerializer (fun s => Ok (j_of_string s)) (fun j => thrown (j_get_string j)).

Section Vector.
Context {T : Type} (s : Serializer T).
Fixpoint to_all (l : list T) : outcome (list J) :=
  match l with [] => Ok [] | x :: l => j ← to_json s x; js ← to_all l; Ok (j :: js) end.
Fixpoint from_all (l : list J) : outcome (list T) :=
  match l with [] => Ok [] | j :: l => x ← from_json s j; xs ← from_all l; Ok (x :: xs) end.
Definition vector : Serializer (list T) :=
  mkSerializer (fun l => js ← to_all l; Ok (j_of_array js)) (fun j => l ← thrown (j_get_array j); from_all l).
End Vector.

(** A byte array is a string of hexadecimal digits. *)
Definition checked_hex (r : outcome (ByteArray * ErrorCode)) : outcome ByteArray :=
  r ← r; match (r : ByteArray * ErrorCode) with (b, kNone) => Ok b | (_, e) => Err e end.
Definition hex : Serializer ByteArray :=
  mkSerializer (fun aBuf => Ok (j_of_string (Hex aBuf)))
    (fun aJson => s ← thrown (j_get_string aJson); checked_hex (FromHex [] s)).

(** The prefix of the mesh is a string. *)
Definition prefix : Serializer ByteArray :=
  mkSerializer (fun p => s ← Ipv6PrefixToString inet_ntop4 inet_ntop6 p; Ok (j_of_string s))
    (fun aJson => s ← thrown (j_get_string aJson); Ipv6PrefixFromString inet_pton4 inet_pton6 s).

(** ** Fields *)

(** [SET(name)] of [to_json], and [SET_IF_PRESENT(name)]. *)
Definition SET {T} (s : Serializer T) (name : String.string) (v : T) (aJson : J) : outcome J :=
  j ← to_json s v; Ok (j_set aJson (str name) j).
Definition SET_IF_PRESENT {T} (s : Serializer T) (name : String.string) (present : bool) (v : T) (aJson : J) : outcome J :=
  if present then SET s name v aJson else Ok aJson.

(** [aJson.at(name)], converted. *)
Definition AT {T} (s : Serializer T) (name : String.string) (aJson : J) : outcome T :=
  j ← thrown (j_at aJson (str name)); from_json s j.
(** [SET_IF_PRESENT(name)] of [from_json]: the field and its flag are set. *)
Definition GET_IF_PRESENT {D T} (s : Serializer T) (name : String.string) (set : D -> T -> D) (aJson : J) (d : D) : outcome D :=
  if j_contains aJson (str name) then x ← AT s name aJson; Ok (set d x) else Ok d.

(** ** The parts of a dataset *)

Definition timestamp : Serializer Timestamp.Timestamp :=
  mkSerializer
    (fun t => j ← SET (unsigned 64) "Seconds" (Timestamp.mSeconds t) j_null;
              j ← SET (unsigned 64) "Ticks" (Timestamp.mTicks t) j;
              SET (unsigned 64) "U" (Timestamp.mU t) j)
    (fun j => s ← AT (unsigned 64) "Seconds" j; t ← AT (unsigned 64) "Ticks" j; u ← AT (unsigned 64) "U" j;
              Ok (Timestamp.mkTimestamp (Timestamp.field 48 s) (Timestamp.field 15 t) (Timestamp.field 1 u))).

Definition channel : Serializer Channel :=
  mkSerializer
    (fun c => j ← SET (unsigned 8) "Page" (mPage c) j_null; SET (unsigned 16) "Number" (mNumber c) j)
    (fun j => p ← AT (unsigned 8) "Page" j; n ← AT (unsigned 16) "Number" j; Ok (mkChannel p n)).

Definition channel_mask_entry : Serializer ChannelMaskEntry :=
  mkSerializer
    (fun e => j ← SET (unsigned 8) "Page" (mMaskPage e) j_null; SET hex "Masks" (mMasks e) j)
    (fun j => p ← AT (unsigned 8) "Page" j; m ← AT hex "Masks" j; Ok (mkEntry p m)).

Definition security_policy : Serializer SecurityPolicy :=
  mkSerializer
    (fun p => j ← SET (unsigned 16) "RotationTime" (mRotationTime p) j_null; SET hex "Flags" (mFlags p) j)
    (fun j => t ← AT (unsigned 16) "RotationTime" j; f ← AT hex "Flags" j; Ok (mkPolicy t f)).
End Json.
Arguments mkSerializer {J T}.
Arguments to_json {J T}.
Arguments from_json {J T}.

(** ** Datasets *)

Section Comm.
Import CommissionerDataset.
Context {J : Type} `{JsonLibrary J}.

Definition commissioner_dataset : Serializer CommissionerDataset :=
  mkSerializer
    (fun d => let f := mPresentFlags d in
       j ← SET_IF_PRESENT (unsigned 16) "BorderAgentLocator" (has f kBorderAgentLocatorBit) (mBorderAgentLocator d) j_null;
       j ← SET_IF_PRESENT (unsigned 16) "SessionId" (has f kSessionIdBit) (mSessionId d) j;
       j ← SET_IF_PRESENT hex "SteeringData" (has f kSteeringDataBit) (mSteeringData d) j;
       j ← SET_IF_PRESENT hex "AeSteeringData" (has f kAeSteeringDataBit) (mAeSteeringData d) j;
       j ← SET_IF_PRESENT hex "NmkpSteeringData" (has f kNmkpSteeringDataBit) (mNmkpSteeringData d) j;
       j ← SET_IF_PRESENT (unsigned 16) "JoinerUdpPort" (has f kJoinerUdpPortBit) (mJoinerUdpPort d) j;
       j ← SET_IF_PRESENT (unsigned 16) "AeUdpPort" (has f kAeUdpPortBit) (mAeUdpPort d) j;
       SET_IF_PRESENT (unsigned 16) "NmkpUdpPort" (has f kNmkpUdpPortBit) (mNmkpUdpPort d) j)
    (fun j =>
       d ← GET_IF_PRESENT hex "SteeringData" set_SteeringData j CommissionerDataset_init;
       d ← GET_IF_PRESENT hex "AeSteeringData" set_AeSteeringData j d;
       d ← GET_IF_PRESENT hex "NmkpSteeringData" set_NmkpSteeringData j d;
       d ← GET_IF_PRESENT (unsigned 16) "JoinerUdpPort" set_JoinerUdpPort j d;
       d ← GET_IF_PRESENT (unsigned 16) "AeUdpPort" set_AeUdpPort j d;
       GET_IF_PRESENT (unsigned 16) "NmkpUdpPort" set_NmkpUdpPort j d).
End Comm.

Section Bbr.
Import BbrDataset.
Context {J : Type} `{JsonLibrary J}.

Definition bbr_dataset : Serializer BbrDataset :=
  mkSerializer
    (fun d => let f := mPresentFlags d in
       j ← SET_IF_PRESENT text "TriHostname" (has f kTriHostnameBit) (mTriHostname d) j_null;
       j ← SET_IF_PRESENT text "RegistrarHostname" (has f kRegistrarHostnameBit) (mRegistrarHostname d) j;
       SET_IF_PRESENT text "RegistrarIpv6Addr" (has f kRegistrarIpv6AddrBit) (mRegistrarIpv6Addr d) j)
    (fun j =>
       d ← GET_IF_PRESENT text "TriHostname" set_TriHostname j BbrDataset_init;
       d ← GET_IF_PRESENT text "RegistrarHostname" set_RegistrarHostname j d;
       GET_IF_PRESENT text "RegistrarIpv6Addr" set_RegistrarIpv6Addr j d).
End Bbr.

Section Operational.
Context {J : Type} `{JsonLibrary J}.
Context (inet_pton4 inet_pton6 : string_t -> option ByteArray).
Context (inet_ntop4 inet_ntop6 : ByteArray -> option string_t).
(** The default-constructed datasets, with the uninitialized values that they hold. *)
Context (active0 : Active) (pending0 : Pending).
Abbreviation prefix_text := (prefix inet_pton4 inet_pton6 inet_ntop4 inet_ntop6).

Section Active.
Import ActiveDataset.

Definition active_to_json (d : Active) (j : J) : outcome J :=
  let f := mPresentFlags d in
  j ← SET_IF_PRESENT timestamp "ActiveTimestamp" (has f kActiveTimestampBit) (mActiveTimestamp d) j;
  j ← SET_IF_PRESENT channel "Channel" (has f kChannelBit) (mChannel d) j;
  j ← SET_IF_PRESENT (vector channel_mask_entry) "ChannelMask" (has f kChannelMaskBit) (mChannelMask d) j;
  j ← SET_IF_PRESENT hex "ExtendedPanId" (has f kExtendedPanIdBit) (mExtendedPanId d) j;
  j ← SET_IF_PRESENT prefix_text "MeshLocalPrefix" (has f kMeshLocalPrefixBit) (mMeshLocalPrefix d) j;
  j ← SET_IF_PRESENT hex "NetworkMasterKey" (has f kNetworkMasterKeyBit) (mNetworkMasterKey d) j;
  j ← SET_IF_PRESENT text "NetworkName" (has f kNetworkNameBit) (mNetworkName d) j;
  j ← SET_IF_PRESENT (unsigned 16) "PanId" (has f kPanIdBit) (mPanId d) j;
  j ← SET_IF_PRESENT hex "PSKc" (has f kPSKcBit) (mPSKc d) j;
  SET_IF_PRESENT security_policy "SecurityPolicy" (has f kSecurityPolicyBit) (mSecurityPolicy d) j.

Definition active_from_json (j : J) (d : Active) : outcome Active :=
  d ← GET_IF_PRESENT timestamp "ActiveTimestamp" set_ActiveTimestamp j d;
  d ← GET_IF_PRESENT channel "Channel" set_Channel j d;
  d ← GET_IF_PRESENT (vector channel_mask_entry) "ChannelMask" set_ChannelMask j d;
  d ← GET_IF_PRESENT hex "ExtendedPanId" set_ExtendedPanId j d;
  d ← GET_IF_PRESENT prefix_text "MeshLocalPrefix" set_MeshLocalPrefix j d;
  d ← GET_IF_PRESENT hex "NetworkMasterKey" set_NetworkMasterKey j d;
  d ← GET_IF_PRESENT text "NetworkName" set_NetworkName j d;
  d ← GET_IF_PRESENT (unsigned 16) "PanId" set_PanId j d;
  d ← GET_IF_PRESENT hex "PSKc" set_PSKc j d;
  GET_IF_PRESENT security_policy "SecurityPolicy" set_SecurityPolicy j d.

Definition active_dataset : Serializer Active :=
  mkSerializer (fun d => active_to_json d j_null) (fun j => active_from_json j active0).
End Active.

Section Pending.
Import PendingDataset.

Definition pending_dataset : Serializer Pending :=
  mkSerializer
    (fun d => let f := ActiveDataset.mPresentFlags (mActive d) in
       j ← active_to_json (mActive d) j_null;
       j ← SET_IF_PRESENT timestamp "PendingTimestamp" (has f kPendingTimestampBit) (mPendingTimestamp d) j;
       SET_IF_PRESENT (unsigned 32) "DelayTimer" (has f kDelayTimerBit) (mDelayTimer d) j)
    (fun j =>
       a ← active_from_json j (mActive pending0);
       d ← GET_IF_PRESENT timestamp "PendingTimestamp" set_PendingTimestamp j
             (mkPending a (mDelayTimer pending0) (mPendingTimestamp pending0));
       GET_IF_PRESENT (unsigned 32) "DelayTimer" set_DelayTimer j d).
End Pending.

(** *** Network data *)

Record NetworkData : Type := mkNetworkData { nActive : Active; nPending : Pending; nComm : Comm; nBbr : Bbr }.

Definition network_data : Serializer NetworkData :=
  mkSerializer
    (fun n =>
       j ← SET active_dataset "ActiveDataset" (nActive n) j_null;
       j ← SET pending_dataset "PendingDataset" (nPending n) j;
       j ← SET commissioner_dataset "CommDataset" (nComm n) j;
       SET bbr_dataset "BbrDataset" (nBbr n) j)
    (fun j =>
       n ← GET_IF_PRESENT active_dataset "ActiveDataset" (fun n v => mkNetworkData v (nPending n) (nComm n) (nBbr n)) j
             (mkNetworkData active0 pending0 CommissionerDataset.CommissionerDataset_init BbrDataset.BbrDataset_init);
       n ← GET_IF_PRESENT pending_dataset "PendingDataset" (fun n v => mkNetworkData (nActive n) v (nComm n) (nBbr n)) j n;
       n ← GET_IF_PRESENT commissioner_dataset "CommDataset" (fun n v => mkNetworkData (nActive n) (nPending n) v (nBbr n)) j n;
       GET_IF_PRESENT bbr_dataset "BbrDataset" (fun n v => mkNetworkData (nActive n) (nPending n) (nComm n) v) j n).

Definition energy_report_to_json (r : EnergyReport) : outcome J :=
  j ← SET (vector channel_mask_entry) "ChannelMask" (CommissionerApp.mChannelMask r) j_null;
  SET hex "EnergyList" (mEnergyList r) j.

(** ** Texts *)

Definition FromJson {T} (s : Serializer T) (aJson : string_t) : outcome T :=
  j ← thrown (j_parse (StripComments aJson)); from_json s j.

Definition dumped (j : J) : outcome string_t := match j_dump 4 j with Some t => Ok t | None => Die end.
Definition ToJson {T} (s : Serializer T) (d : T) : outcome string_t := j ← to_json s d; dumped j.

Definition NetworkDataFromJson := FromJson network_data.
Definition NetworkDataToJson := ToJson network_data.
Definition CommissionerDatasetFromJson := FromJson commissioner_dataset.
Definition CommissionerDatasetToJson := ToJson commissioner_dataset.
Definition BbrDatasetFromJson := FromJson bbr_dataset.
Definition BbrDatasetToJson := ToJson bbr_dataset.
Definition ActiveDatasetFromJson := FromJson active_dataset.
Definition ActiveDatasetToJson := ToJson active_dataset.
Definition PendingDatasetFromJson := FromJson pending_dataset.
Definition PendingDatasetToJson := ToJson pending_dataset.

Definition EnergyReportToJson (r : EnergyReport) : outcome string_t := j ← energy_report_to_json r; dumped j.

(** The map of reports, in the order of its iteration. *)
Fixpoint reports_to_json (l : list (Address * EnergyReport)) (j : J) : outcome J :=
  match l with
  | [] => Ok j
  | (deviceAddr, report) :: l =>
      VerifyOrDie IsValid deviceAddr;;
      v ← energy_report_to_json report;
      reports_to_json l (j_set j (ToString inet_ntop4 inet_ntop6 deviceAddr) v)
  end.
Definition EnergyReportMapToJson (l : list (Address * EnergyReport)) : outcome string_t :=
  j ← reports_to_json l j_null; dumped j.
End Operational.

(** ** The configuration *)

Module FullConfig.

Inductive LogLevel : Type := kOff | kCritical | kError | kWarn | kInfo | kDebug.

(** A [FileLogger] or a [SysLogger]. *)
Inductive Logger : Type := FileLogger (aFilename : string_t) (aLogLevel : LogLevel) | SysLogger (aLogLevel : LogLevel).

(** [struct Config] *)
Record Config : Type := mkConfig {
  mEnableCcm : bool;
  mKeepAliveInterval : Z;
  mMaxConnectionNum : Z;
  mLogger : option Logger;
  mEnableDtlsDebugLogging : bool;
  mDomainName : string_t;
  mId : string_t;
  mPSKc : ByteArray;
  mPrivateKey : ByteArray;
  mCertificate : ByteArray;
  mTrustAnchor : ByteArray }.

Definition Config_init : Config :=
  mkConfig true 40 100 None false (str "Thread") (str "OT-Commissioner") [] [] [] [].

(** Assignments to the fields. *)
Definition set_EnableCcm (c : Config) v := let (_, k, m, l, d, dn, i, p, pk, ce, t) := c in mkConfig v k m l d dn i p pk ce t.
Definition set_KeepAliveInterval (c : Config) v := let (e, _, m, l, d, dn, i, p, pk, ce, t) := c in mkConfig e v m l d dn i p pk ce t.
Definition set_MaxConnectionNum (c : Config) v := let (e, k, _, l, d, dn, i, p, pk, ce, t) := c in mkConfig e k v l d dn i p pk ce t.
Definition set_Logger (c : Config) v := let (e, k, m, _, d, dn, i, p, pk, ce, t) := c in mkConfig e k m v d dn i p pk ce t.
Definition set_EnableDtlsDebugLogging (c : Config) v := let (e, k, m, l, _, dn, i, p, pk, ce, t) := c in mkConfig e k m l v dn i p pk ce t.
Definition set_DomainName (c : Config) v := let (e, k, m, l, d, _, i, p, pk, ce, t) := c in mkConfig e k m l d v i p pk ce t.
Definition set_Id (c : Config) v := let (e, k, m, l, d, dn, _, p, pk, ce, t) := c in mkConfig e k m l d dn v p pk ce t.
Definition set_PSKc (c : Config) v := let (e, k, m, l, d, dn, i, _, pk, ce, t) := c in mkConfig e k m l d dn i v pk ce t.
Definition set_PrivateKey (c : Config) v := let (e, k, m, l, d, dn, i, p, _, ce, t) := c in mkConfig e k m l d dn i p v ce t.
Definition set_Certificate (c : Config) v := let (e, k, m, l, d, dn, i, p, pk, _, t) := c in mkConfig e k m l d dn i p pk v t.
Definition set_TrustAnchor (c : Config) v := let (e, k, m, l, d, dn, i, p, pk, ce, _) := c in mkConfig e k m l d dn i p pk ce v.

Section Config.
Context {J : Type} `{JsonLibrary J}.
(** The files: their contents, and [FileLogger::Create]. *)
Context (ReadFile : string_t -> outcome string_t) (create_log : string_t -> LogLevel -> outcome unit).

Definition ReadPemFile (aFilename : string_t) : outcome ByteArray := s ← ReadFile aFilename; Ok (s ++ [0]).

Definition boolean : Serializer bool := mkSerializer (fun _ => Die) (fun j => thrown (j_get_bool j)).

(** A value that is none of the strings is the first level. *)
Definition log_level : Serializer LogLevel :=
  mkSerializer (fun _ => Die)
    (fun j => Ok match j_get_string j with
                 | Some s => if bool_decide (s = str "critical") then kCritical else if bool_decide (s = str "error") then kError
                             else if bool_decide (s = str "warn") then kWarn else if bool_decide (s = str "info") then kInfo
                             else if bool_decide (s = str "debug") then kDebug else kOff
                 | None => kOff
                 end).

(** [if (aJson.contains(name)) { ... aJson[name] ... }] *)
Definition if_contains {A T} (s : Serializer T) (name : String.string) (f : T -> outcome A) (other : A) (aJson : J) : outcome A :=
  if j_contains aJson (str name) then x ← AT s name aJson; f x else Ok other.

Definition from_json_config (j : J) : outcome Config :=
  c ← GET_IF_PRESENT text "DomainName" set_DomainName j Config_init;
  c ← GET_IF_PRESENT text "Id" set_Id j c;
  c ← GET_IF_PRESENT boolean "EnableCcm" set_EnableCcm j c;
  c ← GET_IF_PRESENT boolean "EnableDtlsDebugLogging" set_EnableDtlsDebugLogging j c;
  c ← GET_IF_PRESENT (unsigned 32) "KeepAliveInterval" set_KeepAliveInterval j c;
  c ← GET_IF_PRESENT (unsigned 32) "MaxConnectionNum" set_MaxConnectionNum j c;
  logLevel ← if_contains log_level "LogLevel" Ok kInfo j;
  c ← if_contains text "LogFile" (fun f => _ ← create_log f logLevel; Ok (set_Logger c (Some (FileLogger f logLevel)))) c j;
  c ← if_contains text "PSKc" (fun s => b ← checked_hex (FromHex (mPSKc c) s); Ok (set_PSKc c b)) c j;
  c ← if_contains text "PrivateKeyFile" (fun f => b ← ReadPemFile f; Ok (set_PrivateKey c b)) c j;
  c ← if_contains text "CertificateFile" (fun f => b ← ReadPemFile f; Ok (set_Certificate c b)) c j;
  if_contains text "TrustAnchorFile" (fun f => b ← ReadPemFile f; Ok (set_TrustAnchor c b)) c j.

Definition ConfigFromJson : string_t -> outcome Config := FromJson (mkSerializer (fun _ => Die) from_json_config).
End Config.
End FullConfig.
