(* ===== verification/JsonFacts.v ===== *)
(** * Properties of the JSON texts

    Reading a text that was written merges the dataset into a new one, comments
    are taken out, and a text of any content gives a dataset whose fields have
    the values of their types, or an error. *)

From S2P Require Import Prelude Outcome Common NetworkData Dataset DatasetCodec CommissionerApp CommissionerAppFacts Json.
Import HexString CommonFacts Addr NetworkDataFacts Ipv6Prefix.

(** ** Comments *)

(** Neither "//" nor "/*" occurs. *)
Fixpoint no_comment (s : string_t) : bool :=
  match s with
  | c :: s' => match s' with n :: _ => negb ((c =? 47) && ((n =? 42) || (n =? 47))) && no_comment s' | [] => true end
  | [] => true
  end.
(** "*/" does not occur. *)
Fixpoint no_end (s : string_t) : bool :=
  match s with
  | c :: s' => match s' with n :: _ => negb ((c =? 42) && (n =? 47)) && no_end s' | [] => true end
  | [] => true
  end.

Lemma no_comment_tail c s : no_comment (c :: s) = true -> no_comment s = true.
Proof. destruct s; [done|]. cbn. intros H. by bool_to_prop. Qed.

Lemma strip_char c s : no_comment (c :: take 1 s) = true -> StripComments_loop kCode (c :: s) = c :: StripComments_loop kCode s.
Proof.
  destruct s as [|n s]; [done|]. cbn [take no_comment StripComments_loop]. rewrite andb_true_r, negb_true_iff.
  destruct (c =? 47); cbn [andb]; [|done]. intros [-> ->]%orb_false_iff. done.
Qed.

Lemma strip_plain p q : no_comment (p ++ take 1 q) = true -> StripComments_loop kCode (p ++ q) = p ++ StripComments_loop kCode q.
Proof.
  induction p as [|c p IH]; intros H; [done|]. cbn [app] in H |- *. rewrite strip_char.
  - f_equal. apply IH. by apply no_comment_tail in H.
  - destruct p as [|n p]; [exact H|]. cbn [app take no_comment] in *. apply andb_true_iff in H as [H _]. by rewrite andb_true_r.
Qed.

Lemma strip_block c r : no_end (c ++ [42]) = true -> StripComments_loop kBlock (c ++ 42 :: 47 :: r) = StripComments_loop kCode r.
Proof.
  induction c as [|x c IH]; intros H; [done|]. cbn [app] in H |- *. destruct c as [|n c]; cbn [app no_end StripComments_loop] in *.
  - rewrite andb_true_r in H. apply negb_true_iff in H. change (42 =? 42) with true in H. rewrite andb_false_r in H || idtac.
    change (42 =? 47) with false. rewrite andb_false_r. by destruct r.
  - apply andb_true_iff in H as [E%negb_true_iff H]. rewrite E. by apply IH.
Qed.

Lemma strip_block_open c : no_end c = true -> StripComments_loop kBlock c = [].
Proof.
  induction c as [|x c IH]; intros H; [done|]. destruct c as [|n c]; [done|]. cbn [no_end StripComments_loop] in *.
  apply andb_true_iff in H as [E%negb_true_iff H]. rewrite E. by apply IH.
Qed.

Lemma line_char x s : x <> 10 -> (x =? 13) && match s with n :: _ => n =? 10 | [] => false end = false ->
  StripComments_loop kInline (x :: s) = StripComments_loop kInline s.
Proof.
  intros Hx Hs. destruct s as [|n s]; [done|].
  transitivity (if (x =? 13) && (n =? 10) then StripComments_loop kCode s
                else if x =? 10 then StripComments_loop kCode (n :: s) else StripComments_loop kInline (n :: s)); [done|].
  by rewrite Hs, (proj2 (Z.eqb_neq x 10)).
Qed.
Lemma line_end r : StripComments_loop kInline (10 :: r) = StripComments_loop kCode r.
Proof. by destruct r. Qed.

Lemma strip_line c r : forallb (fun x => negb (x =? 10)) c = true -> StripComments_loop kInline (c ++ 10 :: r) = StripComments_loop kCode r.
Proof.
  induction c as [|x c IH]; intros H; [apply line_end|]. cbn [app forallb] in *. bool_to_prop. destruct c as [|n c].
  - destruct (x =? 13) eqn:E13; [|rewrite line_char by (done || by rewrite E13); by apply line_end].
    apply Z.eqb_eq in E13 as ->. reflexivity.
  - rewrite line_char; [by apply IH|done|]. cbn [app forallb] in *. bool_to_prop. by rewrite (proj2 (Z.eqb_neq n 10)), andb_false_r.
Qed.

Lemma strip_line_open c : forallb (fun x => negb (x =? 10)) c = true -> StripComments_loop kInline c = [].
Proof.
  induction c as [|x c IH]; intros H; [done|]. cbn [forallb] in *. bool_to_prop. rewrite line_char; [by apply IH|done|].
  destruct c as [|n c]; [by rewrite andb_false_r|]. cbn [forallb] in *. bool_to_prop. by rewrite (proj2 (Z.eqb_neq n 10)), andb_false_r.
Qed.

(** A text without "//" and "/*" is kept.  A comment is taken out, up to "*/" or to the end of the line, and the
    rest of the text is treated alike; a comment that does not end reaches to the end of the text. *)
Theorem comments_stripped p c r :
  (no_comment p = true -> StripComments p = p) /\
  (no_comment (p ++ [47]) = true ->
    (no_end (c ++ [42]) = true -> StripComments (p ++ str "/*" ++ c ++ str "*/" ++ r) = p ++ StripComments r) /\
    (no_end c = true -> StripComments (p ++ str "/*" ++ c) = p) /\
    (forallb (fun x => negb (x =? 10)) c = true ->
       StripComments (p ++ str "//" ++ c ++ [10] ++ r) = p ++ StripComments r /\ StripComments (p ++ str "//" ++ c) = p)).
Proof.
  unfold StripComments. split.
  - intros H. pose proof (strip_plain p []) as E. cbn [take] in E. rewrite !app_nil_r in E. by apply E.
  - intros H. assert (E : forall st k q, (k = 42 /\ st = kBlock \/ k = 47 /\ st = kInline) ->
      StripComments_loop kCode (p ++ 47 :: k :: q) = p ++ StripComments_loop st q).
    { intros st k q Hk. rewrite strip_plain by done. f_equal. by destruct Hk as [[-> ->]|[-> ->]]. }
    split; [intros Hc|split; [intros Hc|intros Hc; split]].
    + transitivity (p ++ StripComments_loop kBlock (c ++ 42 :: 47 :: r)); [apply E; by left|]. f_equal. by apply strip_block.
    + transitivity (p ++ StripComments_loop kBlock c); [apply E; by left|]. rewrite strip_block_open by done. apply app_nil_r.
    + transitivity (p ++ StripComments_loop kInline (c ++ 10 :: r)); [apply E; by right|]. f_equal. by apply strip_line.
    + transitivity (p ++ StripComments_loop kInline c); [apply E; by right|]. rewrite strip_line_open by done. apply app_nil_r.
Qed.

(** ** Serializers *)

Section Serializers.
Context {J : Type} `{JL : JsonLibrary J} `{HL : !JsonLaws J}.

(** What is written is read back. *)
Definition lawful {T} (s : Serializer (J := J) T) (P : T -> Prop) : Prop :=
  forall x, P x -> exists j, to_json s x = Ok j /\ from_json s j = Ok x.
(** A result with a property, or the error of the texts. *)
Definition yields {T} (m : outcome T) (P : T -> Prop) : Prop :=
  match m with Ok x => P x | Err e => e = kInvalidArgs | Die => False end.
(** What is read has the type of the field, and reading does not end the process. *)
Definition reads {T} (s : Serializer (J := J) T) (P : T -> Prop) : Prop := forall j, yields (from_json s j) P.

Lemma yields_bind {A B} (m : outcome A) (f : A -> outcome B) P Q :
  yields m P -> (forall a, P a -> yields (f a) Q) -> yields (m ≫= f) Q.
Proof. destruct m; cbn; auto. Qed.
Lemma yields_thrown {T} (o : option T) (P : T -> Prop) : (forall x, o = Some x -> P x) -> yields (thrown o) P.
Proof. destruct o; cbn; auto. Qed.

Lemma unsigned_lawful w : lawful (unsigned w) (fits w).
Proof using HL. intros z Hz. eexists; split; [done|]. cbn. by rewrite get_unsigned_of. Qed.
Lemma text_lawful : lawful text bytes.
Proof using HL. intros s Hs. eexists; split; [done|]. cbn. by rewrite get_string_of. Qed.

Lemma bytes_Hex b : bytes (Hex b).
Proof.
  assert (E : forall v, 0 <= v < 16 -> is_byte (nibble v)).
  { intros v Hv. apply (bool_decide_eq_true_1 (is_byte (nibble v))). revert v Hv. by apply forallb_seqZ. }
  induction b as [|x b IH]; [constructor|]. cbn [Hex]. apply Forall_cons_2; [apply E|apply Forall_cons_2; [apply E|done]].
  - rewrite Z.shiftr_land. change (Z.shiftr 240 4) with (2 ^ 4 - 1). rewrite land_low_mask by lia. by apply Z.mod_pos_bound.
  - change 15 with (2 ^ 4 - 1). rewrite land_low_mask by lia. by apply Z.mod_pos_bound.
Qed.

Lemma hex_lawful : lawful hex bytes.
Proof using HL.
  intros b Hb. eexists; split; [done|]. cbn. rewrite get_string_of by apply bytes_Hex. cbn.
  unfold checked_hex, FromHex. rewrite length_Hex_even. cbn [negb Z.eqb]. by rewrite FromHex_loop_Hex.
Qed.

Lemma vector_lawful {T} (s : Serializer T) P : lawful s P -> lawful (vector s) (Forall P).
Proof using HL.
  intros Hs l Hl. assert (E : exists js, to_all s l = Ok js /\ from_all s js = Ok l).
  { induction Hl as [|x l Hx _ (js & E1 & E2)]; [by exists []|]. destruct (Hs x Hx) as (j & F1 & F2).
    exists (j :: js). cbn. by rewrite F1, E1; cbn; rewrite F2, E2. }
  destruct E as (js & E1 & E2). exists (j_of_array js). cbn. rewrite E1, get_array_of. done.
Qed.

Section Prefix.
Context (inet_pton4 inet_pton6 : string_t -> option ByteArray).
Context (inet_ntop4 inet_ntop6 : ByteArray -> option string_t).
Context `{IL : !InetLaws inet_pton4 inet_pton6 inet_ntop4 inet_ntop6}.

Lemma addr_text_bytes s : forallb addr_char s = true -> bytes s.
Proof.
  intros Hc. apply Forall_forall. intros c Hin. apply list_elem_of_In in Hin. rewrite forallb_forall in Hc. specialize (Hc _ Hin).
  unfold addr_char, isxdigit in Hc. unfold is_byte, fits. change (2 ^ 8) with 256.
  repeat (bool_to_prop; match goal with H : _ \/ _ |- _ => destruct H | _ => lia end).
Qed.

Lemma to_string_bytes n : forall v, bytes (to_string n v).
Proof.
  induction n as [|n IH]; intros v; cbn; [constructor|]. apply Forall_app_2; [case_if; [constructor|apply IH]|].
  repeat constructor; unfold is_byte, fits; change (2 ^ 8) with 256; pose proof (Z.mod_pos_bound v 10 ltac:(lia)); lia.
Qed.

Lemma Ok_inj {A} (a b : A) : Ok a = Ok b -> a = b.
Proof. congruence. Qed.

Lemma bytes_prefix p s : bytes p -> Ipv6PrefixToString inet_ntop4 inet_ntop6 p = Ok s -> bytes s.
Proof using IL.
  unfold Ipv6PrefixToString. case_if; [|done]. intros Hp. pose proof (zlen_nonneg p). bool_to_prop.
  pose proof (zlen_zresize p 16 ltac:(lia)) as H16. unfold SetRaw. rewrite H16. cbn [Z.eqb negb andb Pos.eqb kIpv4Size kIpv6Size].
  intros Es%Ok_inj. subst s. unfold ToString. rewrite H16. cbn [Z.eqb negb andb Pos.eqb kIpv4Size kIpv6Size].
  destruct (ntop6_text (zresize p 16)) as (s & Hs & Hc & _); [by apply bytes_zresize|done|]. rewrite Hs. cbn [default].
  apply Forall_app_2; [by apply addr_text_bytes|]. apply Forall_cons_2; [done|]. apply (to_string_bytes 20).
Qed.

Lemma prefix_lawful : lawful (prefix inet_pton4 inet_pton6 inet_ntop4 inet_ntop6) (fun p => bytes p /\ zlen p <= 16).
Proof using HL IL.
  intros p [Hp Hl]. destruct (proj1 (ipv6_prefix_roundtrip inet_pton4 inet_pton6 inet_ntop4 inet_ntop6) p Hp Hl) as (s & E1 & E2).
  exists (j_of_string s). cbn. rewrite E1. split; [done|]. rewrite get_string_of by by eapply bytes_prefix. cbn. by rewrite E2.
Qed.
End Prefix.

(** ** Objects *)

(** A field of a JSON object, or its absence. *)
Definition holds {T} (s : Serializer (J := J) T) (name : String.string) (b : bool) (v : T) (j : J) : Prop :=
  if b then exists w, j_contains j (str name) = true /\ j_at j (str name) = Some w /\ from_json s w = Ok v
  else j_contains j (str name) = false.

(** A field to be written: its serializer, name, flag and value, and the value that is read back. *)
Record Row : Type := mkRow {
  row_type : Type; row_s : Serializer (J := J) row_type; row_name : String.string; row_flag : bool; row_value : row_type; row_back : row_type }.
Definition field {T} (s : Serializer T) (name : String.string) (b : bool) (v : T) : Row := mkRow T s name b v v.

Definition row_lawful (r : Row) : Prop :=
  row_flag r = true -> exists j, to_json (row_s r) (row_value r) = Ok j /\ from_json (row_s r) j = Ok (row_back r).
Definition row_holds (j : J) (r : Row) : Prop := holds (row_s r) (row_name r) (row_flag r) (row_back r) j.

Fixpoint write (rows : list Row) (j : J) : outcome J :=
  match rows with
  | [] => Ok j
  | r :: rows => j ← SET_IF_PRESENT (row_s r) (row_name r) (row_flag r) (row_value r) j; write rows j
  end.

Lemma write_row r j : row_lawful r -> j_object j -> j_contains j (str (row_name r)) = false ->
  exists j', SET_IF_PRESENT (row_s r) (row_name r) (row_flag r) (row_value r) j = Ok j' /\ j_object j' /\ row_holds j' r /\
    forall k, k <> str (row_name r) -> j_contains j' k = j_contains j k /\ j_at j' k = j_at j k.
Proof.
  intros Hr Ho Hc. unfold SET_IF_PRESENT, row_holds, holds, SET. destruct (row_flag r) eqn:Ef.
  - destruct (Hr Ef) as (w & E1 & E2). rewrite E1. exists (j_set j (str (row_name r)) w).
    split; [done|]. split; [by apply object_set|]. split.
    + exists w. rewrite contains_set, at_set by done. by rewrite bool_decide_true, decide_True.
    + intros k Hk. rewrite contains_set, at_set by done. by rewrite bool_decide_false, decide_False.
  - exists j. done.
Qed.

Lemma row_kept r j j' : j_contains j' (str (row_name r)) = j_contains j (str (row_name r)) ->
  j_at j' (str (row_name r)) = j_at j (str (row_name r)) -> row_holds j r -> row_holds j' r.
Proof. unfold row_holds, holds. intros -> ->. done. Qed.

Lemma write_rows rows : forall j, Forall row_lawful rows -> NoDup (map (fun r => str (row_name r)) rows) -> j_object j ->
  Forall (fun r => j_contains j (str (row_name r)) = false) rows ->
  exists j', write rows j = Ok j' /\ j_object j' /\ Forall (row_holds j') rows /\
    forall k, k ∉ map (fun r => str (row_name r)) rows -> j_contains j' k = j_contains j k /\ j_at j' k = j_at j k.
Proof.
  induction rows as [|r rows IH]; intros j Hl Hn Ho Hc; [by exists j|]. apply Forall_cons in Hl as [Hr Hl]. cbn [map] in Hn.
  apply NoDup_cons in Hn as [Hx Hn]. apply Forall_cons in Hc as [Hcr Hc].
  destruct (write_row r j Hr Ho Hcr) as (j1 & E1 & Ho1 & Hh1 & Hk1).
  destruct (IH j1 Hl Hn Ho1) as (j2 & E2 & Ho2 & Hh2 & Hk2).
  { rewrite Forall_forall in Hc |- *. intros r' Hr'. specialize (Hc r' Hr').
    destruct (Hk1 (str (row_name r'))) as [-> _]; [|done]. intros E. apply Hx. rewrite <- E. apply list_elem_of_fmap. by exists r'. }
  exists j2. cbn [write]. rewrite E1. cbn. split; [done|]. split; [done|]. split.
  - constructor; [|done]. destruct (Hk2 _ Hx). by eapply row_kept.
  - intros k Hk. cbn [map] in Hk. apply not_elem_of_cons in Hk as [Hk0 Hk]. destruct (Hk1 k Hk0), (Hk2 k Hk). split; congruence.
Qed.

Lemma write_app l k j : write (l ++ k) j = (j ← write l j; write k j).
Proof.
  revert j. induction l as [|r l IH]; intros j; cbn [app write]; [done|]. destruct (SET_IF_PRESENT _ _ _ _ j); [|done..]. apply IH.
Qed.

(** Reading a field. *)
Lemma get_field {D T} (s : Serializer T) name b v (set : D -> T -> D) j d :
  holds s name b v j -> GET_IF_PRESENT s name set j d = Ok (if b then set d v else d).
Proof.
  unfold holds, GET_IF_PRESENT, AT. destruct b; [|by intros ->]. intros (w & -> & -> & E). cbn. by rewrite E.
Qed.
Lemma at_field {T} (s : Serializer T) name v j : holds s name true v j -> AT s name j = Ok v.
Proof. intros (w & _ & E & Ew). unfold AT. rewrite E. exact Ew. Qed.

Lemma lawful_row {T} (s : Serializer T) P name b v : lawful s P -> (b = true -> P v) -> row_lawful (field s name b v).
Proof. intros Hs Hv Hb. apply Hs. by apply Hv. Qed.

End Serializers.

Lemma bind_ext {A B} (m : outcome A) (f g : A -> outcome B) : (forall a, f a = g a) -> m ≫= f = m ≫= g.
Proof. intros E. destruct m; cbn; auto. Qed.
Lemma bind_last {A} (m : outcome A) : m = (a ← m; Ok a).
Proof. by destruct m. Qed.

(** Writing the fields of a serializer, as rows; what the rows say of an object; and reading the fields one after the other. *)
Ltac as_rows := repeat (apply bind_ext; intros ?); apply bind_last.
Ltac fields_of H := unfold row_holds, field in H; cbn [row_type row_s row_name row_flag row_value row_back] in H.
Ltac read_field H := rewrite (get_field _ _ _ _ _ _ _ H); cbn [mbind outcome_bind].
Ltac read_fields := repeat match goal with H : holds _ _ _ _ _ |- _ => read_field H; clear H end; try done.

Section Parts.
Context {J : Type} `{JL : JsonLibrary J} `{HL : !JsonLaws J}.

(** ** The parts of a dataset *)

Lemma names_distinct (l : list string_t) : bool_decide (NoDup l) = true -> NoDup l.
Proof. apply bool_decide_eq_true_1. Qed.

Lemma absent_null rows : Forall (fun r : Row (J := J) => j_contains (J := J) j_null (str (row_name r)) = false) rows.
Proof using HL. apply Forall_forall. intros r _. apply contains_null. Qed.


(** Writing a list of fields into a new object. *)
Lemma write_new (rows : list (Row (J := J))) : Forall row_lawful rows -> NoDup (map (fun r => str (row_name r)) rows) ->
  exists j, write rows j_null = Ok j /\ j_object j /\ Forall (row_holds j) rows /\
    forall k, k ∉ map (fun r => str (row_name r)) rows -> j_contains j k = false.
Proof using HL.
  intros Hl Hn. destruct (write_rows rows j_null Hl Hn object_null (absent_null rows)) as (j & E & Ho & Hh & Hk).
  exists j. split; [done|]. split; [done|]. split; [done|]. intros k Hin. rewrite (proj1 (Hk k Hin)). apply contains_null.
Qed.

Lemma timestamp_lawful : lawful timestamp Timestamp.timestamp_ok.
Proof using HL.
  intros [s t u] (Hs & Ht & Hu). cbn in Hs, Ht, Hu.
  assert (W : forall w v, fits w v -> 0 <= w <= 64 -> fits 64 v).
  { intros w v Hv Hw. unfold fits in *. pose proof (Z.pow_le_mono_r 2 w 64 ltac:(lia) ltac:(lia)). lia. }
  set (rows := [field (unsigned 64) "Seconds" true s; field (unsigned 64) "Ticks" true t; field (unsigned 64) "U" true u]).
  destruct (write_new rows) as (j & E & _ & Hh & _).
  { repeat apply Forall_cons_2; try apply Forall_nil_2; (eapply lawful_row; [apply unsigned_lawful|]; intros _; by eapply W). }
  { by apply names_distinct. }
  exists j. split; [rewrite <- E; unfold rows, timestamp; as_rows|]. unfold rows in Hh. rewrite !Forall_cons in Hh. fields_of Hh. destruct Hh as (H1 & H2 & H3 & _).
  cbn [from_json timestamp]. rewrite (at_field _ _ _ _ H1), (at_field _ _ _ _ H2), (at_field _ _ _ _ H3). cbn.
  unfold Timestamp.field. by rewrite !Z.mod_small by done.
Qed.

Lemma pair_lawful {A B T} (sa : Serializer A) (sb : Serializer B) na nb (fa : T -> A) (fb : T -> B) mk (P : T -> Prop) Pa Pb :
  lawful sa Pa -> lawful sb Pb -> str na <> str nb -> (forall x, P x -> Pa (fa x) /\ Pb (fb x) /\ mk (fa x) (fb x) = x) ->
  lawful (mkSerializer (fun x => j ← SET sa na (fa x) j_null; SET sb nb (fb x) j)
                       (fun j => a ← AT sa na j; b ← AT sb nb j; Ok (mk a b))) P.
Proof using HL.
  intros Ha Hb Hn HP x Hx. destruct (HP x Hx) as (Hxa & Hxb & Ex).
  set (rows := [field sa na true (fa x); field sb nb true (fb x)]).
  destruct (write_new rows) as (j & E & _ & Hh & _).
  { repeat apply Forall_cons_2; try apply Forall_nil_2; by eapply lawful_row. }
  { apply NoDup_cons_2; [|apply NoDup_singleton]. by intros ?%list_elem_of_singleton. }
  exists j. split; [rewrite <- E; unfold rows; as_rows|]. unfold rows in Hh. rewrite !Forall_cons in Hh. fields_of Hh. destruct Hh as (H1 & H2 & _).
  cbn [from_json]. rewrite (at_field _ _ _ _ H1), (at_field _ _ _ _ H2). cbn. by rewrite Ex.
Qed.

Definition channel_typed (c : Channel) : Prop := is_byte (mPage c) /\ fits 16 (mNumber c).
Definition mask_typed (e : ChannelMaskEntry) : Prop := is_byte (mMaskPage e) /\ bytes (mMasks e).
Definition policy_typed (p : SecurityPolicy) : Prop := fits 16 (mRotationTime p) /\ bytes (mFlags p).

Lemma channel_lawful : lawful channel channel_typed.
Proof using HL. eapply pair_lawful; [apply unsigned_lawful|apply unsigned_lawful|done|]. intros [p n] [??]. done. Qed.
Lemma entry_lawful : lawful channel_mask_entry mask_typed.
Proof using HL. eapply pair_lawful; [apply unsigned_lawful|apply hex_lawful|done|]. intros [p n] [??]. done. Qed.
Lemma policy_lawful : lawful security_policy policy_typed.
Proof using HL. eapply pair_lawful; [apply unsigned_lawful|apply hex_lawful|done|]. intros [p n] [??]. done. Qed.

(** *** Reading any JSON value *)

Lemma unsigned_reads w : 0 < w -> reads (unsigned w) (fits w).
Proof using HL. intros Hw j. apply yields_thrown. intros x. by apply get_unsigned_fits. Qed.
Lemma text_reads : reads text bytes.
Proof using HL. intros j. apply yields_thrown. intros x. by apply get_string_bytes. Qed.

Lemma FromHex_loop_bytes n : forall s buf b e, (length s <= n)%nat -> bytes buf -> FromHex_loop buf s = Ok (b, e) -> bytes b.
Proof.
  induction n as [|n IH]; intros [|c0 [|c1 s]] buf b e Hn Hb; cbn in *; try lia; intros H; simplify_eq; try done.
  case_if; [by simplify_eq|]. apply bind_ok in H as (h & _ & H). apply bind_ok in H as (l & _ & H).
  eapply IH; [|..|exact H]; [lia|]. apply Forall_app_2; [done|repeat constructor]; apply u8_byte.
Qed.

Lemma checked_hex_yields buf s : bytes buf -> yields (checked_hex (FromHex buf s)) bytes.
Proof.
  intros Hb. destruct (proj2 (hex_roundtrip buf) s) as (l & e & E & _ & _ & He). unfold checked_hex. rewrite E. cbn.
  destruct e; try (by apply He). cbn. unfold FromHex in E. case_if; [done|]. by eapply FromHex_loop_bytes; [..|exact E].
Qed.

Lemma hex_reads : reads hex bytes.
Proof using HL. intros j. eapply yields_bind; [by apply yields_thrown with (P := fun _ => True)|]. intros s _. by apply checked_hex_yields. Qed.

Lemma vector_reads {T} (s : Serializer T) P : reads s P -> reads (vector s) (Forall P).
Proof.
  intros Hs j. eapply yields_bind; [by apply yields_thrown with (P := fun _ => True)|]. intros l _.
  induction l as [|x l IH]; [by cbn|]. cbn [from_all]. eapply yields_bind; [apply Hs|]. intros y Hy.
  eapply yields_bind; [exact IH|]. intros ys Hys. by constructor.
Qed.

Lemma prefix_reads inet_pton4 inet_pton6 inet_ntop4 inet_ntop6 `{!InetLaws inet_pton4 inet_pton6 inet_ntop4 inet_ntop6} :
  reads (prefix inet_pton4 inet_pton6 inet_ntop4 inet_ntop6) (fun p => bytes p /\ zlen p <= 16).
Proof.
  intros j. eapply yields_bind; [by apply yields_thrown with (P := fun _ => True)|]. intros s _.
  exact (proj2 (ipv6_prefix_roundtrip inet_pton4 inet_pton6 inet_ntop4 inet_ntop6) s).
Qed.

Lemma AT_yields {T} (s : Serializer T) name j P : reads s P -> yields (AT s name j) P.
Proof. intros Hs. eapply yields_bind; [by apply yields_thrown with (P := fun _ => True)|]. intros v _. apply Hs. Qed.

Lemma GET_yields {D T} (s : Serializer T) name (set : D -> T -> D) j d P (Q R : D -> Prop) :
  reads s P -> Q d -> (Q d -> R d) -> (forall x, Q d -> P x -> R (set d x)) -> yields (GET_IF_PRESENT s name set j d) R.
Proof.
  intros Hs Hd Hr Hset. unfold GET_IF_PRESENT. case_if; [|by apply Hr]. eapply yields_bind; [by apply AT_yields|].
  intros x Hx. by apply Hset.
Qed.

Lemma timestamp_reads : reads timestamp Timestamp.timestamp_ok.
Proof using HL.
  intros j. do 3 (eapply yields_bind; [apply AT_yields, (unsigned_reads 64); lia|intros ? _]).
  split_and!; apply Z.mod_pos_bound; lia.
Qed.
Lemma pair_reads {A B T} (sa : Serializer A) (sb : Serializer B) na nb w (mk : A -> B -> T) Pa Pb (P : T -> Prop) :
  reads sa Pa -> reads sb Pb -> (forall a b, Pa a -> Pb b -> P (mk a b)) ->
  reads (mkSerializer w (fun j => a ← AT sa na j; b ← AT sb nb j; Ok (mk a b))) P.
Proof.
  intros Ha Hb HP j. eapply yields_bind; [by apply AT_yields|]. intros a Hpa. eapply yields_bind; [by apply AT_yields|]. intros b Hpb. by apply HP.
Qed.
Lemma channel_reads : reads channel channel_typed.
Proof using HL. eapply pair_reads; [apply (unsigned_reads 8); lia|apply (unsigned_reads 16); lia|]. by split. Qed.
Lemma entry_reads : reads channel_mask_entry mask_typed.
Proof using HL. eapply pair_reads; [apply (unsigned_reads 8); lia|apply hex_reads|]. by split. Qed.
Lemma policy_reads : reads security_policy policy_typed.
Proof using HL. eapply pair_reads; [apply (unsigned_reads 16); lia|apply hex_reads|]. by split. Qed.
End Parts.

(** ** Datasets *)


Section Datasets.
Context {J : Type} `{JL : JsonLibrary J} `{HL : !JsonLaws J}.
Context (inet_pton4 inet_pton6 : string_t -> option ByteArray).
Context (inet_ntop4 inet_ntop6 : ByteArray -> option string_t).
Context `{IL : !InetLaws inet_pton4 inet_pton6 inet_ntop4 inet_ntop6}.
Context (active0 : Active) (pending0 : Pending).
Abbreviation prefix_s := (prefix inet_pton4 inet_pton6 inet_ntop4 inet_ntop6).

Section Active.
Import ActiveDataset.

Definition active_rows (d : Active) : list (Row (J := J)) :=
  let f := mPresentFlags d in
  [field timestamp "ActiveTimestamp" (has f kActiveTimestampBit) (mActiveTimestamp d);
   field channel "Channel" (has f kChannelBit) (mChannel d);
   field (vector channel_mask_entry) "ChannelMask" (has f kChannelMaskBit) (mChannelMask d);
   field hex "ExtendedPanId" (has f kExtendedPanIdBit) (mExtendedPanId d);
   field prefix_s "MeshLocalPrefix" (has f kMeshLocalPrefixBit) (mMeshLocalPrefix d);
   field hex "NetworkMasterKey" (has f kNetworkMasterKeyBit) (mNetworkMasterKey d);
   field text "NetworkName" (has f kNetworkNameBit) (mNetworkName d);
   field (unsigned 16) "PanId" (has f kPanIdBit) (mPanId d);
   field hex "PSKc" (has f kPSKcBit) (mPSKc d);
   field security_policy "SecurityPolicy" (has f kSecurityPolicyBit) (mSecurityPolicy d)].

(** The values of the types, and a prefix that fits into an address. *)
Definition printable (d : Active) : Prop :=
  Timestamp.timestamp_ok (mActiveTimestamp d) /\ channel_typed (mChannel d) /\ Forall mask_typed (mChannelMask d) /\
  bytes (mExtendedPanId d) /\ (bytes (mMeshLocalPrefix d) /\ zlen (mMeshLocalPrefix d) <= 16) /\ bytes (mNetworkMasterKey d) /\
  bytes (mNetworkName d) /\ fits 16 (mPanId d) /\ bytes (mPSKc d) /\ policy_typed (mSecurityPolicy d).

Lemma active_to_rows d j : active_to_json inet_pton4 inet_pton6 inet_ntop4 inet_ntop6 d j = write (active_rows d) j.
Proof. unfold active_to_json, active_rows. as_rows. Qed.

Lemma active_rows_lawful d : printable d -> Forall row_lawful (active_rows d).
Proof using HL IL.
  intros (? & ? & ? & ? & ? & ? & ? & ? & ? & ?). unfold active_rows.
  repeat apply Forall_cons_2; try apply Forall_nil_2.
  all: eapply lawful_row; [|intros _].
  all: first [apply timestamp_lawful|apply channel_lawful|apply vector_lawful, entry_lawful|apply hex_lawful|by apply prefix_lawful
             |apply text_lawful|apply unsigned_lawful|apply policy_lawful|idtac]; done.
Qed.


Lemma active_read d j d0 : Forall (row_holds j) (active_rows d) ->
  active_from_json inet_pton4 inet_pton6 inet_ntop4 inet_ntop6 j d0 = Ok (MergeActiveDataset d0 d).
Proof.
  intros H. unfold active_rows in H. rewrite !Forall_cons in H. fields_of H. destruct H as (H1 & H2 & H3 & H4 & H5 & H6 & H7 & H8 & H9 & H10 & _).
  unfold active_from_json. read_fields.
Qed.

Lemma active_names d : NoDup (map (fun r => str (row_name r)) (active_rows d)).
Proof. by apply names_distinct. Qed.
End Active.

(** What is read back of a value that was written. *)
Definition reads_back {T} (s : Serializer (J := J) T) (P : T -> Prop) (back : T -> T) : Prop :=
  forall x, P x -> exists j, to_json s x = Ok j /\ from_json s j = Ok (back x).

Lemma active_reads_back :
  reads_back (active_dataset inet_pton4 inet_pton6 inet_ntop4 inet_ntop6 active0) printable (MergeActiveDataset active0).
Proof using HL IL.
  intros d Hd. destruct (write_new (active_rows d)) as (j & E & _ & Hh & _); [by apply active_rows_lawful|apply active_names|].
  exists j. cbn [to_json from_json active_dataset]. rewrite active_to_rows. split; [done|]. by apply active_read.
Qed.

Section Pending.
Import PendingDataset.

Definition pending_printable (d : Pending) : Prop :=
  printable (mActive d) /\ Timestamp.timestamp_ok (mPendingTimestamp d) /\ fits 32 (mDelayTimer d).

Lemma pending_reads_back :
  reads_back (pending_dataset inet_pton4 inet_pton6 inet_ntop4 inet_ntop6 pending0) pending_printable (MergePendingDataset pending0).
Proof using HL IL.
  intros d (Ha & Ht & Hd). set (f := ActiveDataset.mPresentFlags (mActive d)).
  set (rows := active_rows (mActive d) ++ [field timestamp "PendingTimestamp" (has f kPendingTimestampBit) (mPendingTimestamp d);
                                           field (unsigned 32) "DelayTimer" (has f kDelayTimerBit) (mDelayTimer d)]).
  destruct (write_new rows) as (j & E & _ & Hh & _).
  { apply Forall_app_2; [by apply active_rows_lawful|]. repeat apply Forall_cons_2; try apply Forall_nil_2.
    - eapply lawful_row; [apply timestamp_lawful|done].
    - eapply lawful_row; [apply unsigned_lawful|done]. }
  { by apply names_distinct. }
  exists j. cbn [to_json from_json pending_dataset]. rewrite active_to_rows. unfold rows in *. rewrite write_app in E.
  apply bind_ok in E as (j1 & E1 & E). rewrite E1. cbn [mbind outcome_bind]. split; [rewrite <- E; as_rows|].
  apply Forall_app in Hh as [Hh Hx]. rewrite !Forall_cons in Hx. fields_of Hx. destruct Hx as (H1 & H2 & _).
  rewrite (active_read _ _ _ Hh). cbn [mbind outcome_bind]. read_fields.
Qed.
End Pending.

Section Comm.
Import CommissionerDataset.

Definition comm_printable (d : Comm) : Prop :=
  fits 16 (mBorderAgentLocator d) /\ fits 16 (mSessionId d) /\ bytes (mSteeringData d) /\ bytes (mAeSteeringData d) /\
  bytes (mNmkpSteeringData d) /\ fits 16 (mJoinerUdpPort d) /\ fits 16 (mAeUdpPort d) /\ fits 16 (mNmkpUdpPort d).

(** The locator and the session id are written, but not read. *)
Definition comm_back (d : Comm) : Comm := MergeCommDataset CommissionerDataset_init (editable d).

Lemma comm_merged d :
  let f := mPresentFlags d in
  let set (b : bool) (g : Comm -> Comm) (x : Comm) := if b then g x else x in
  set (has f kNmkpUdpPortBit) (fun x => set_NmkpUdpPort x (mNmkpUdpPort d))
    (set (has f kAeUdpPortBit) (fun x => set_AeUdpPort x (mAeUdpPort d))
    (set (has f kJoinerUdpPortBit) (fun x => set_JoinerUdpPort x (mJoinerUdpPort d))
    (set (has f kNmkpSteeringDataBit) (fun x => set_NmkpSteeringData x (mNmkpSteeringData d))
    (set (has f kAeSteeringDataBit) (fun x => set_AeSteeringData x (mAeSteeringData d))
    (set (has f kSteeringDataBit) (fun x => set_SteeringData x (mSteeringData d)) CommissionerDataset_init)))))
  = comm_back d.
Proof.
  destruct d as [bl si sd ae nm jp ap np f]. cbn. unfold comm_back, MergeCommDataset, editable, clear. cbn [mPresentFlags
    mBorderAgentLocator mSessionId mSteeringData mAeSteeringData mNmkpSteeringData mJoinerUdpPort mAeUdpPort mNmkpUdpPort].
  unfold kBorderAgentLocatorBit, kSessionIdBit, kSteeringDataBit, kAeSteeringDataBit, kNmkpSteeringDataBit, kJoinerUdpPortBit, kAeUdpPortBit, kNmkpUdpPortBit.
  rewrite !has_minus_bit by lia. cbn [Z.eqb Pos.eqb negb andb]. rewrite ?andb_true_r, ?andb_false_r.
  repeat match goal with |- context [has f ?b] => destruct (has f b) end; reflexivity.
Qed.

Lemma comm_reads_back : reads_back commissioner_dataset comm_printable comm_back.
Proof using HL.
  intros d (? & ? & ? & ? & ? & ? & ? & ?). set (f := mPresentFlags d).
  set (rows := [field (unsigned 16) "BorderAgentLocator" (has f kBorderAgentLocatorBit) (mBorderAgentLocator d);
     field (unsigned 16) "SessionId" (has f kSessionIdBit) (mSessionId d);
     field hex "SteeringData" (has f kSteeringDataBit) (mSteeringData d);
     field hex "AeSteeringData" (has f kAeSteeringDataBit) (mAeSteeringData d);
     field hex "NmkpSteeringData" (has f kNmkpSteeringDataBit) (mNmkpSteeringData d);
     field (unsigned 16) "JoinerUdpPort" (has f kJoinerUdpPortBit) (mJoinerUdpPort d);
     field (unsigned 16) "AeUdpPort" (has f kAeUdpPortBit) (mAeUdpPort d);
     field (unsigned 16) "NmkpUdpPort" (has f kNmkpUdpPortBit) (mNmkpUdpPort d)]).
  destruct (write_new rows) as (j & E & _ & Hh & _).
  { repeat apply Forall_cons_2; try apply Forall_nil_2; (eapply lawful_row; [first [apply unsigned_lawful|apply hex_lawful]|intros _; done]). }
  { by apply names_distinct. }
  exists j. split; [rewrite <- E; unfold rows; cbn [to_json commissioner_dataset]; as_rows|].
  unfold rows in Hh. rewrite !Forall_cons in Hh. fields_of Hh. destruct Hh as (_ & _ & F3 & F4 & F5 & F6 & F7 & F8 & _).
  cbn [from_json commissioner_dataset]. read_field F3. read_field F4. read_field F5. read_field F6. read_field F7.
  rewrite (get_field _ _ _ _ _ _ _ F8). f_equal. by apply comm_merged.
Qed.
End Comm.

Section Bbr.
Import BbrDataset.

Definition bbr_printable (d : Bbr) : Prop := bytes (mTriHostname d) /\ bytes (mRegistrarHostname d) /\ bytes (mRegistrarIpv6Addr d).

Lemma bbr_reads_back : reads_back bbr_dataset bbr_printable (MergeBbrDataset BbrDataset_init).
Proof using HL.
  intros d (? & ? & ?). set (f := mPresentFlags d).
  set (rows := [field text "TriHostname" (has f kTriHostnameBit) (mTriHostname d);
     field text "RegistrarHostname" (has f kRegistrarHostnameBit) (mRegistrarHostname d);
     field text "RegistrarIpv6Addr" (has f kRegistrarIpv6AddrBit) (mRegistrarIpv6Addr d)]).
  destruct (write_new rows) as (j & E & _ & Hh & _).
  { repeat apply Forall_cons_2; try apply Forall_nil_2; (eapply lawful_row; [apply text_lawful|intros _; done]). }
  { by apply names_distinct. }
  exists j. split; [rewrite <- E; unfold rows; cbn [to_json bbr_dataset]; as_rows|].
  unfold rows in Hh. rewrite !Forall_cons in Hh. fields_of Hh. destruct Hh as (F1 & F2 & F3 & _).
  cbn [from_json bbr_dataset]. read_fields.
Qed.
End Bbr.

(** *** Network data *)

Definition network_printable (n : NetworkData) : Prop :=
  printable (nActive n) /\ pending_printable (nPending n) /\ comm_printable (nComm n) /\ bbr_printable (nBbr n).
Definition network_back (n : NetworkData) : NetworkData :=
  mkNetworkData (MergeActiveDataset active0 (nActive n)) (MergePendingDataset pending0 (nPending n)) (comm_back (nComm n))
    (MergeBbrDataset BbrDataset.BbrDataset_init (nBbr n)).

Lemma network_reads_back :
  reads_back (network_data inet_pton4 inet_pton6 inet_ntop4 inet_ntop6 active0 pending0) network_printable network_back.
Proof using HL IL.
  intros n (Ha & Hp & Hc & Hb).
  set (rows := [mkRow _ (active_dataset inet_pton4 inet_pton6 inet_ntop4 inet_ntop6 active0) "ActiveDataset" true (nActive n) (nActive (network_back n));
    mkRow _ (pending_dataset inet_pton4 inet_pton6 inet_ntop4 inet_ntop6 pending0) "PendingDataset" true (nPending n) (nPending (network_back n));
    mkRow _ commissioner_dataset "CommDataset" true (nComm n) (nComm (network_back n));
    mkRow _ bbr_dataset "BbrDataset" true (nBbr n) (nBbr (network_back n))]).
  destruct (write_new rows) as (j & E & _ & Hh & _).
  { apply Forall_cons_2; [intros _; by apply active_reads_back|]. apply Forall_cons_2; [intros _; by apply pending_reads_back|].
    apply Forall_cons_2; [intros _; by apply comm_reads_back|]. apply Forall_cons_2; [intros _; by apply bbr_reads_back|constructor]. }
  { by apply names_distinct. }
  exists j. split; [rewrite <- E; unfold rows; cbn [to_json network_data]; as_rows|].
  unfold rows in Hh. rewrite !Forall_cons in Hh. fields_of Hh. destruct Hh as (H1 & H2 & H3 & H4 & _).
  cbn [from_json network_data]. read_fields.
Qed.

(** *** Texts *)

(** Writing a value as a text, and reading it, when there is nothing in it that looks like a comment.  Writing only
    fails when a string is not UTF-8. *)
Definition text_reads_back {T} (s : Serializer T) (x y : T) : Prop :=
  match ToJson s x with
  | Ok t => no_comment t = true -> FromJson s t = Ok y
  | Err _ => False
  | Die => exists j, to_json s x = Ok j /\ j_dump 4 j = None
  end.

Lemma reads_back_text {T} (s : Serializer T) P back x : reads_back s P back -> P x -> text_reads_back s x (back x).
Proof using HL.
  intros Hs Hx. destruct (Hs x Hx) as (j & E1 & E2). unfold text_reads_back, ToJson, FromJson. rewrite E1. cbn [mbind outcome_bind].
  unfold dumped. destruct (j_dump 4 j) as [t|] eqn:Et; [|by exists j]. intros Hc.
  unfold StripComments. pose proof (strip_plain t []) as Es. cbn [take] in Es. rewrite !app_nil_r in Es. rewrite Es by done.
  cbn. rewrite (parse_dump 4 j t Et). exact E2.
Qed.

(** C29: Network data whose values have the types of their fields, and a mesh-local prefix of at most 16 bytes, is saved
    and loaded again.  Writing it fails exactly when the library cannot write the document (a string that is not
    UTF-8).  If the text that was written has nothing in it that looks like the start of a comment (a slash followed by
    a slash or a star, which a string of the data may have), it is read, and gives the data merged into new datasets:
    that adds the timestamps a new dataset has, and of the Commissioner Dataset the border agent locator and the session
    id, which are written, are not read back. *)
Theorem network_data_roundtrip n :
  network_printable n ->
  text_reads_back (network_data inet_pton4 inet_pton6 inet_ntop4 inet_ntop6 active0 pending0) n
    (mkNetworkData (MergeActiveDataset active0 (nActive n)) (MergePendingDataset pending0 (nPending n))
       (MergeCommDataset CommissionerDataset.CommissionerDataset_init (editable (nComm n)))
       (MergeBbrDataset BbrDataset.BbrDataset_init (nBbr n))).
Proof using HL IL. intros Hn. exact (reads_back_text _ _ _ _ network_reads_back Hn). Qed.

(** *** Any text *)

Lemma prefix_reads' : reads prefix_s (fun p => bytes p /\ zlen p <= 16).
Proof using HL IL. by apply prefix_reads. Qed.
Lemma mask_reads : reads (vector channel_mask_entry) (Forall mask_typed).
Proof using HL. apply vector_reads, entry_reads. Qed.
Lemma u16_reads : reads (unsigned 16) (fits 16).
Proof using HL. by apply unsigned_reads. Qed.
Lemma u32_reads : reads (unsigned 32) (fits 32).
Proof using HL. by apply unsigned_reads. Qed.

(** One field of a dataset with property [Q]. *)
Lemma GET_keeps {D T} (Q : D -> Prop) (s : Serializer T) name (set : D -> T -> D) j d P :
  reads s P -> (forall x, P x -> Q d -> Q (set d x)) -> Q d -> yields (GET_IF_PRESENT s name set j d) Q.
Proof. intros Hs Hset Hd. eapply (GET_yields _ _ _ _ _ P Q); auto. Qed.

Ltac serializer_reads :=
  first [apply timestamp_reads|apply channel_reads|apply mask_reads|apply hex_reads|apply prefix_reads'|apply text_reads
        |apply u16_reads|apply u32_reads|apply policy_reads].
Ltac keeps_field Q unfolded :=
  eapply (GET_keeps Q); [serializer_reads| |eassumption];
  let x := fresh in intros x; match goal with |- _ -> _ ?d -> _ => destruct d; unfolded; cbn; tauto end.
Ltac keeps_fields Q unfolded := repeat (eapply yields_bind; [keeps_field Q unfolded|intros ??]); keeps_field Q unfolded.

Lemma active_yields j d : printable d -> yields (active_from_json inet_pton4 inet_pton6 inet_ntop4 inet_ntop6 j d) printable.
Proof using HL IL. intros Hd. unfold active_from_json. keeps_fields printable ltac:(unfold printable). Qed.

Lemma pending_reads d0 : pending_printable d0 ->
  reads (pending_dataset inet_pton4 inet_pton6 inet_ntop4 inet_ntop6 d0) pending_printable.
Proof using HL IL.
  intros (Ha & Ht & Hd) j. cbn [from_json pending_dataset].
  eapply yields_bind; [by apply active_yields|]. intros a Hpa.
  assert (H0 : pending_printable (PendingDataset.mkPending a (PendingDataset.mDelayTimer d0) (PendingDataset.mPendingTimestamp d0))) by done.
  assert (Hf : forall d f, printable (ActiveDataset.with_flags d f) <-> printable d) by (intros [] ?; done).
  eapply yields_bind.
  - eapply (GET_keeps pending_printable); [serializer_reads| |eassumption]. intros x Hx. destruct a. unfold pending_printable. cbn. tauto.
  - intros d Hpd. eapply (GET_keeps pending_printable); [serializer_reads| |eassumption]. intros x Hx. destruct d as [b ??]. destruct b. unfold pending_printable. cbn. tauto.
Qed.

Lemma comm_reads : reads commissioner_dataset comm_printable.
Proof using HL.
  intros j. cbn [from_json commissioner_dataset].
  assert (H0 : comm_printable CommissionerDataset.CommissionerDataset_init) by (vm_compute; repeat split; repeat constructor; discriminate).
  keeps_fields comm_printable ltac:(unfold comm_printable).
Qed.

Lemma bbr_reads : reads bbr_dataset bbr_printable.
Proof using HL.
  intros j. cbn [from_json bbr_dataset].
  assert (H0 : bbr_printable BbrDataset.BbrDataset_init) by (vm_compute; repeat split; repeat constructor; discriminate).
  keeps_fields bbr_printable ltac:(unfold bbr_printable).
Qed.

(** C30: Any text (a file of the user) is either refused with [kInvalidArgs] or gives network data whose fields have the
    values of their types and a mesh-local prefix that fits into an address: it can be written again, and its
    datasets can be encoded.  Reading never ends the process. *)
Theorem network_texts_safe t :
  printable active0 -> pending_printable pending0 ->
  match NetworkDataFromJson inet_pton4 inet_pton6 inet_ntop4 inet_ntop6 active0 pending0 t with
  | Ok n => network_printable n /\ ActiveCodec.typed (nActive n) /\ PendingCodec.pending_typed (nPending n)
  | Err e => e = kInvalidArgs
  | Die => False
  end.
Proof using HL IL.
  intros H0 H1. apply (yields_bind _ _ (fun _ => True)); [by apply yields_thrown|]. intros j _.
  assert (Hn : yields (from_json (network_data inet_pton4 inet_pton6 inet_ntop4 inet_ntop6 active0 pending0) j) network_printable).
  { assert (R1 : reads (active_dataset inet_pton4 inet_pton6 inet_ntop4 inet_ntop6 active0) printable) by (intros ?; by apply active_yields).
    pose proof (pending_reads _ H1) as R2. pose proof comm_reads as R3. pose proof bbr_reads as R4.
    assert (Hi : network_printable (mkNetworkData active0 pending0 CommissionerDataset.CommissionerDataset_init BbrDataset.BbrDataset_init))
      by (repeat (split; [done|]); vm_compute; repeat split; repeat constructor; discriminate).
    cbn [from_json network_data]. unfold network_printable in *.
    eapply yields_bind; [eapply (GET_keeps network_printable); [exact R1|by intros ? ? (?&?&?&?)|exact Hi]|]. intros n1 N1.
    eapply yields_bind; [eapply (GET_keeps network_printable); [exact R2|by intros ? ? (?&?&?&?)|exact N1]|]. intros n2 N2.
    eapply yields_bind; [eapply (GET_keeps network_printable); [exact R3|by intros ? ? (?&?&?&?)|exact N2]|]. intros n3 N3.
    eapply (GET_keeps network_printable); [exact R4|by intros ? ? (?&?&?&?)|exact N3]. }
  destruct (from_json _ j) as [n| |]; cbn in Hn |- *; [|done..]. split; [done|].
  destruct Hn as (Ha & (Hb & Hpt & Hdt) & _). unfold ActiveCodec.typed, PendingCodec.pending_typed, ActiveCodec.typed.
  unfold printable, channel_typed, policy_typed in Ha, Hb. unfold DatasetFacts.entry_typed, mask_typed in *. tauto.
Qed.
End Datasets.
