(* ===== verification/JsonScript.v ===== *)
(** * JSON texts, concretely

    A library with the laws that the theorems assume: JSON values are trees, and a text is made of the binary digits
    of the number of the tree.  It shows that the theorems can hold. *)

From stdpp Require Import countable.
From S2P Require Import Prelude Outcome Common NetworkData DatasetCodec CommissionerApp Json JsonFacts.
Import CommonFacts Addr.

Abbreviation Tree := (gen_tree (Z + string_t)).

Fixpoint find_key (k : string_t) (l : list Tree) : option Tree :=
  match l with
  | GenLeaf (inr k') :: v :: l => if bool_decide (k' = k) then Some v else find_key k l
  | _ => None
  end.

Fixpoint pos_text (p : positive) : string_t :=
  match p with xH => [] | xO p => 48 :: pos_text p | xI p => 49 :: pos_text p end.
Fixpoint text_pos (s : string_t) : positive :=
  match s with [] => xH | c :: s => if c =? 49 then xI (text_pos s) else xO (text_pos s) end.

#[export] Instance tree_json : JsonLibrary Tree := {
  j_null := GenNode 0 [];
  j_of_unsigned z := GenLeaf (inl z);
  j_of_string s := GenLeaf (inr s);
  j_of_array l := GenNode 1 l;
  j_set j k v := match j with
                 | GenNode 0 _ => GenNode 2 [GenLeaf (inr k); v]
                 | GenNode 2 l => GenNode 2 (GenLeaf (inr k) :: v :: l)
                 | _ => j
                 end;
  j_contains j k := match j with GenNode 2 l => bool_decide (is_Some (find_key k l)) | _ => false end;
  j_at j k := match j with GenNode 2 l => find_key k l | _ => None end;
  j_get_unsigned w j := match j with GenLeaf (inl z) => Some (z mod 2 ^ w) | _ => None end;
  j_get_bool j := None;
  j_get_string j := match j with GenLeaf (inr s) => if bool_decide (bytes s) then Some s else None | _ => None end;
  j_get_array j := match j with GenNode 1 l => Some l | _ => None end;
  j_parse s := decode (text_pos s);
  j_dump _ j := Some (pos_text (encode j)) }.

Lemma text_pos_text p : text_pos (pos_text p) = p.
Proof. induction p; cbn; by rewrite ?IHp. Qed.

Lemma find_first k k' v l : find_key k' (GenLeaf (inr k) :: v :: l) = if decide (k = k') then Some v else find_key k' l.
Proof. cbn [find_key]. by destruct (decide (k = k')); [rewrite bool_decide_true|rewrite bool_decide_false]. Qed.

#[export] Instance tree_laws : JsonLaws Tree.
Proof.
  refine {| j_object := fun j => match j with GenNode 0 _ | GenNode 2 _ => True | _ => False end |}; cbn; try done.
  - by intros [|[|[|[]]] ?] k v.
  - intros [|[|[|[]]] l] k v k' Ho; try done; rewrite find_first; destruct (decide (k = k')) as [->|N];
      rewrite ?(bool_decide_true (k' = k')), ?(bool_decide_false (k = k')) by done; cbn; try done.
  - intros [|[|[|[]]] l] k v k' Ho; try done; by rewrite find_first.
  - intros w z Hz. unfold fits in Hz. by rewrite Z.mod_small.
  - intros w [[z|s]|] x Hw; try done. intros [= <-]. apply Z.mod_pos_bound. lia.
  - intros s Hs. by rewrite bool_decide_true.
  - intros [[z|s]|] x; try done. case_bool_decide; [|done]. by intros [= <-].
  - intros _ j s [= <-]. rewrite text_pos_text. apply decode_encode.
Qed.

(** A dataset of each kind. *)
Definition some_active : Active := ActiveCodec.sample_dataset.
Definition new_active : Active := ActiveDataset.ActiveOperationalDataset_new 0 (mkChannel 0 0) 0 0.
Definition new_pending : Pending := PendingDataset.PendingOperationalDataset_new new_active 0.
Definition some_data : NetworkData :=
  mkNetworkData some_active PendingCodec.sample_pending
    (CommissionerDataset.set_SteeringData (CommissionerDataset.set_SessionId CommissionerDataset.CommissionerDataset_init 7) [1; 2])
    (BbrDataset.set_TriHostname BbrDataset.BbrDataset_init (str "tri")).
Abbreviation to_text := (NetworkDataToJson sample_pton4 sample_pton6 sample_ntop4 sample_ntop6 new_active new_pending).
Abbreviation from_text := (NetworkDataFromJson sample_pton4 sample_pton6 sample_ntop4 sample_ntop6 new_active new_pending).
Definition some_text : string_t := match to_text some_data with Ok t => t | _ => [] end.

Lemma network_data_roundtrip_witness :
  to_text some_data = Ok some_text /\
  from_text some_text = Ok (mkNetworkData (MergeActiveDataset new_active some_active)
    (MergePendingDataset new_pending PendingCodec.sample_pending)
    (CommissionerDataset.set_SteeringData CommissionerDataset.CommissionerDataset_init [1; 2])
    (BbrDataset.set_TriHostname BbrDataset.BbrDataset_init (str "tri"))).
Proof.
  assert (Hp : network_printable some_data).
  { unfold network_printable, pending_printable, printable, comm_printable, bbr_printable, channel_typed, policy_typed.
    repeat split; try (apply (bool_decide_eq_true_1 (bytes _)); vm_compute; reflexivity); repeat constructor; vm_compute; congruence. }
  assert (E : to_text some_data = Ok some_text) by (vm_compute; reflexivity).
  pose proof (network_data_roundtrip sample_pton4 sample_pton6 sample_ntop4 sample_ntop6 new_active new_pending some_data Hp) as H.
  unfold text_reads_back in H. change (ToJson _ some_data) with (to_text some_data) in H. rewrite E in H.
  split; [exact E|]. apply H. vm_compute. reflexivity.
Defined.

Lemma network_texts_safe_witness :
  match from_text (str "/* no digits */") with
  | Ok n => network_printable n /\ ActiveCodec.typed (nActive n) /\ PendingCodec.pending_typed (nPending n)
  | Err e => e = kInvalidArgs
  | Die => False
  end.
Proof.
  apply (network_texts_safe sample_pton4 sample_pton6 sample_ntop4 sample_ntop6 new_active new_pending).
  all: unfold pending_printable, printable, channel_typed, policy_typed; repeat split; repeat constructor; vm_compute; congruence.
Defined.

(** A JSON text with two comments. *)
Definition quote : string_t := [34].
Lemma comments_stripped_witness :
  StripComments (str "{" ++ str "/*" ++ str " an object *" ++ str "*/" ++ str "}") = str "{" ++ StripComments (str "}").
Proof.
  apply (proj1 (proj2 (comments_stripped (str "{") (str " an object *") (str "}")) eq_refl)). reflexivity.
Defined.

(** Comments are also taken out of strings: a name with two slashes does not come back. *)
Theorem comments_in_strings :
  StripComments (str "{" ++ quote ++ str "NetworkName" ++ quote ++ str ": " ++ quote ++ str "a//b" ++ quote ++ str "}") =
  str "{" ++ quote ++ str "NetworkName" ++ quote ++ str ": " ++ quote ++ str "a".
Proof. reflexivity. Qed.
