(* ===== verification/Interpreter.v ===== *)
(** * The command line interpreter

    [Interpreter] of [src/app/cli/interpreter.{hpp,cpp}], on top of the
    application ([CommissionerApp]), the JSON documents ([Json]), the
    discovery of border agents ([BorderAgent]) and the files of
    [src/app/file_util.cpp].  A [Value] is the text of a result or the code
    of an error; the texts of errors are formatted by the library fmt. *)

From stdpp Require Import gmap.
From S2P Require Import Prelude Outcome Common Crypto NetworkData CommissionerApp BorderAgent Json CliText.
Import Endian HexString Addr Ipv6Prefix FullConfig.

Inductive Color : Type := kDefault | kWhite | kRed | kGreen | kBlue.

(** ** Files *)

(** The contents of the files, and what opening a file for writing or reading
    fails with: [Some true] for [ENOENT]. *)
Record Files : Type := mkFiles { contents : gmap (list Z) (list Z); open_error : bool -> list Z -> option bool }.

Definition error_of (enoent : bool) : ErrorCode := if enoent then kNotFound else kIOError.

(** [c_str()] *)
Fixpoint c_str (s : string_t) : string_t := match s with [] => [] | c :: s => if c =? 0 then [] else c :: c_str s end.

Definition ReadFile (fs : Files) (aFilename : string_t) : outcome string_t :=
  match open_error fs false (c_str aFilename), contents fs !! c_str aFilename with
  | Some enoent, _ => Err (error_of enoent)
  | None, None => Err kNotFound
  | None, Some data => Ok data
  end.
Definition WriteFile (aData aFilename : string_t) (fs : Files) : Files * outcome unit :=
  match open_error fs true (c_str aFilename) with
  | Some enoent => (fs, Err (error_of enoent))
  | None => (mkFiles (<[c_str aFilename := c_str aData]> (contents fs)) (open_error fs), Ok tt)
  end.
Definition ReadHexStringFile (fs : Files) (aFilename : string_t) : outcome ByteArray :=
  hexString ← ReadFile fs aFilename; ParseHex (filter (fun c => negb (isspace c)) hexString).

(** ** The interpreter *)

Section Interpreter.
Context {S : Type} `{Library S} {J : Type} `{JsonLibrary J}.
Context (sha256 : ByteArray -> ByteArray).
Context (inet_pton4 inet_pton6 : string_t -> option ByteArray).
Context (inet_ntop4 inet_ntop6 : ByteArray -> option string_t).
(** What the default constructors leave uninitialized. *)
Context (channel0 : Channel) (panId0 rotation0 delay0 : Z) (agent0 : BorderAgent).
(** [Commissioner::Create] and [Init] of the library. *)
Context (create : Config -> outcome S).
(** What the polls of a discovery of a number of milliseconds receive. *)
Context (answers : Z -> outcome (list (SockAddr * list MdnsRecord))).
(** [Error::ToString] of the error that is reported. *)
Context (error_text : ErrorCode -> string_t).

Record Interp : Type := mkInterp {
  mConfig : Config;
  mApp : option (@App S);                  (* [mCommissioner] *)
  mConsole : list (string_t * Color);      (* what was written *)
  mFiles : Files;
  mShouldExit : bool }.

Definition with_config (i : Interp) (c : Config) := mkInterp c (mApp i) (mConsole i) (mFiles i) (mShouldExit i).
Definition with_app (i : Interp) (a : App) := mkInterp (mConfig i) (Some a) (mConsole i) (mFiles i) (mShouldExit i).
Definition with_files (i : Interp) (fs : Files) := mkInterp (mConfig i) (mApp i) (mConsole i) fs (mShouldExit i).
Definition Write (aLine : string_t) (aColor : Color) (i : Interp) : Interp :=
  mkInterp (mConfig i) (mApp i) (mConsole i ++ [(aLine, aColor)]) (mFiles i) (mShouldExit i).

(** *** Handlers as state-passing programs *)

Definition I (A : Type) : Type := Interp -> Interp * outcome A.
#[local] Instance I_ret : MRet I := fun A x i => (i, Ok x).
#[local] Instance I_bind : MBind I := fun A B f m i =>
  match m i with (i, Ok x) => f x i | (i, Err e) => (i, Err e) | (i, Die) => (i, Die) end.

Definition fails {A} (e : ErrorCode) : I A := fun i => (i, Err e).
Definition try_ {A} (m : outcome A) : I A := fun i => (i, m).
(** A call of the application: [mCommissioner->...]. *)
Definition app {A} (m : @M S A) : I A := fun i =>
  match mApp i with None => (i, Die) | Some a => let '(a, r) := m a in (with_app i a, r) end.
Definition ask {A} (f : @App S -> A) : I A := fun i => (i, match mApp i with None => Die | Some a => Ok (f a) end).
(** [VerifyOrExit(aExpr.size() >= n, value = ERROR_INVALID_ARGS(...))] *)
Definition need (aExpr : Expression) (n : Z) : I unit := try_ (VerifyOrExit n <=? zlen aExpr else kInvalidArgs;; Ok tt).
(** A call without a result. *)
Definition done_ (m : I unit) : I string_t := _ ← m; mret [].
(** [CaseInsensitiveEqual(aExpr[n], name)] *)
Definition is_word (w : string_t) (name : String.string) : bool := CaseInsensitiveEqual w (str name).

(** *** Creation *)

Definition CreateApp (aConfig : Config) : outcome (@App S) :=
  s ← create aConfig; Ok (App_init channel0 panId0 rotation0 delay0 s).

Definition kMaxPSKcLength : Z := 16.

Definition Init (aConfigFile : string_t) : I unit := fun i =>
  let r := if negb (zlen aConfigFile =? 0) then
             configJson ← ReadFile (mFiles i) aConfigFile;
             ConfigFromJson (ReadFile (mFiles i)) (fun f _ => match open_error (mFiles i) true (c_str f) with
                                                             | Some enoent => Err (error_of enoent) | None => Ok tt end) configJson
           else Ok (set_Logger (set_PSKc (set_EnableCcm (mConfig i) false) (replicate 16 255)) (Some (SysLogger kDebug))) in
  match r with
  | Err e => (i, Err e)
  | Die => (i, Die)
  | Ok c =>
      let i := with_config i c in
      match CreateApp c with Ok a => (with_app i a, Ok tt) | Err e => (i, Err e) | Die => (i, Die) end
  end.

Definition UpdateConfig (aPSKc : ByteArray) : I unit :=
  _ ← try_ (VerifyOrExit zlen aPSKc <=? kMaxPSKcLength else kInvalidArgs;; Ok tt);
  active ← ask IsActive;
  if active : bool then fails kInvalidState
  else fun i =>
    let i := with_config i (set_PSKc (mConfig i) aPSKc) in
    (match CreateApp (mConfig i) with Ok a => with_app i a | _ => i end, Ok tt).

Definition CancelCommand (i : Interp) : outcome Interp :=
  match mApp i with
  | None => Die
  | Some a => Ok (with_app i (if IsActive a then CancelRequests a else Stop channel0 panId0 rotation0 delay0 a))
  end.

(** *** Commands *)

Definition bad_argument : I string_t := fails kInvalidArgs.
Definition bad_command : I string_t := fails kInvalidCommand.

Definition ProcessConfig (aExpr : Expression) : I string_t :=
  _ ← need aExpr 3;
  property ← try_ (arg aExpr 2); command ← try_ (arg aExpr 1);
  if negb (bool_decide (property = str "pskc")) then bad_argument
  else if bool_decide (command = str "get") then fun i => (i, Ok (Hex (mPSKc (mConfig i))))
  else if bool_decide (command = str "set") then
    _ ← need aExpr 4;
    pskc ← try_ (s ← arg aExpr 3; ParseHex s);
    done_ (UpdateConfig pskc)
  else bad_command.

(** The address and the port of a border agent. *)
Definition start_arguments (aExpr : Expression) : outcome (string_t * Z) :=
  VerifyOrExit 3 <=? zlen aExpr else kInvalidArgs;;
  port ← (s ← arg aExpr 2; ParseInteger 16 s); addr ← arg aExpr 1; Ok (addr, port).

Definition ProcessStart (aExpr : Expression) : I string_t := fun i =>
  let '(i, existingCommissionerId, error) :=
    match start_arguments aExpr, mApp i with
    | Ok (addr, port), Some a =>
        let '(a, existing, r) := Start channel0 panId0 rotation0 delay0 addr port a in (with_app i a, default [] existing, r)
    | Ok _, None => (i, [], Die)
    | Err e, _ => (i, [], Err e)
    | Die, _ => (i, [], Die)
    end in
  match error with
  | Ok _ => (i, if negb (zlen existingCommissionerId =? 0) then Die else Ok [])
  | Err e => (i, Err e)
  | Die => (i, Die)
  end.

(** [Stop] of the application, which returns nothing. *)
Definition StopApp : I unit := app (fun a => (Stop channel0 panId0 rotation0 delay0 a, Ok tt)).

Definition ProcessStop (aExpr : Expression) : I string_t := done_ StopApp.
Definition ProcessActive (aExpr : Expression) : I string_t :=
  active ← ask IsActive; mret (if active : bool then str "true" else str "false").

Definition read_hex (aFilename : string_t) : I ByteArray := fun i => (i, ReadHexStringFile (mFiles i) aFilename).

Definition ProcessToken (aExpr : Expression) : I string_t :=
  _ ← need aExpr 2; command ← try_ (arg aExpr 1);
  if is_word command "request" then
    _ ← need aExpr 4;
    port ← try_ (s ← arg aExpr 3; ParseInteger 16 s); addr ← try_ (arg aExpr 2);
    done_ (app (RequestToken addr port))
  else if is_word command "print" then
    signedToken ← ask GetToken;
    if zlen (signedToken : ByteArray) =? 0 then fails kNotFound else mret (Hex signedToken)
  else if is_word command "set" then
    _ ← need aExpr 3; filename ← try_ (arg aExpr 2);
    signedToken ← read_hex filename;
    done_ (app (SetToken signedToken))
  else bad_command.

(** [CommissionerApp::SaveNetworkData] *)
Definition save (aData aFilename : string_t) : I unit := fun i =>
  let '(fs, r) := WriteFile aData aFilename (mFiles i) in (with_files i fs, r).
Definition network_text (a : @App S) : outcome string_t :=
  NetworkDataToJson inet_pton4 inet_pton6 inet_ntop4 inet_ntop6 (new_active channel0 panId0 rotation0 a)
    (new_pending channel0 panId0 rotation0 delay0 a)
    (mkNetworkData (mActiveDataset a) (mPendingDataset a) (mCommDataset a) (mBbrDataset a)).
Definition SaveNetworkData (aFilename : string_t) : I unit :=
  text ← ask network_text; jsonString ← try_ text; save jsonString aFilename.

Definition ProcessNetwork (aExpr : Expression) : I string_t :=
  _ ← need aExpr 2; command ← try_ (arg aExpr 1);
  if is_word command "save" then _ ← need aExpr 3; filename ← try_ (arg aExpr 2); done_ (SaveNetworkData filename)
  else if is_word command "sync" then done_ (app SyncNetworkData)
  else bad_command.

Definition ProcessSessionId (aExpr : Expression) : I string_t := sessionId ← app GetSessionId; mret (number sessionId).

Definition BorderAgentHandler (r : BorderAgent + ErrorCode) (i : Interp) : Interp :=
  match r with
  | inl b => Write (BorderAgent_ToString b) kGreen i
  | inr e => Write (error_text e) kRed i
  end.
Definition tell (r : option (BorderAgent + ErrorCode)) : I unit := fun i =>
  (match r with Some r => BorderAgentHandler r i | None => i end, Ok tt).
(** The loop of [DiscoverBorderAgent] with this handler, over what its polls receive. *)
Fixpoint discover_loop (l : list (SockAddr * list MdnsRecord)) : I unit :=
  match l with
  | [] => mret tt
  | (from, records) :: l =>
      r ← try_ (poll inet_ntop4 inet_ntop6 agent0 from records);
      _ ← tell r;
      discover_loop l
  end.
Definition DiscoverBorderAgent (aTimeout : Z) : I unit := l ← try_ (answers aTimeout); discover_loop l.

Definition ProcessBorderAgent (aExpr : Expression) : I string_t :=
  _ ← need aExpr 2; command ← try_ (arg aExpr 1);
  if is_word command "discover" then
    timeout ← (if 3 <=? zlen aExpr then try_ (s ← arg aExpr 2; ParseInteger 64 s) else mret 4000);
    done_ (DiscoverBorderAgent timeout)
  else if is_word command "get" then
    _ ← need aExpr 3; field ← try_ (arg aExpr 2);
    if is_word field "locator" then locator ← app GetBorderAgentLocator; mret (ToHex 2 locator)
    else bad_argument
  else bad_command.

Definition ProcessJoiner (aExpr : Expression) : I string_t :=
  _ ← need aExpr 3;
  type ← try_ (s ← arg aExpr 2; GetJoinerType s);
  command ← try_ (arg aExpr 1);
  let eui64 := try_ (s ← arg aExpr 3; ParseInteger 64 s) in
  let optional n := if Z.of_nat n <? zlen aExpr then try_ (arg aExpr n) else mret [] in
  if is_word command "enable" then
    _ ← need aExpr (if bool_decide (type = kMeshCoP) then 5 else 4);
    eui64 ← eui64;
    pskd ← (if bool_decide (type = kMeshCoP) then try_ (arg aExpr 4) else mret []);
    provisioningUrl ← (if bool_decide (type = kMeshCoP) then optional 5%nat else mret []);
    done_ (app (EnableJoiner sha256 type eui64 pskd provisioningUrl))
  else if is_word command "enableall" then
    _ ← (if bool_decide (type = kMeshCoP) then need aExpr 4 else mret tt);
    pskd ← (if bool_decide (type = kMeshCoP) then try_ (arg aExpr 3) else mret []);
    provisioningUrl ← (if bool_decide (type = kMeshCoP) then optional 4%nat else mret []);
    done_ (app (EnableAllJoiners sha256 type pskd provisioningUrl))
  else if is_word command "disable" then
    _ ← need aExpr 4; eui64 ← eui64; done_ (app (DisableJoiner sha256 type eui64))
  else if is_word command "disableall" then done_ (app (DisableAllJoiners type))
  else if is_word command "getport" then port ← app (GetJoinerUdpPort type); mret (number port)
  else if is_word command "setport" then
    _ ← need aExpr 4; port ← try_ (s ← arg aExpr 3; ParseInteger 16 s); done_ (app (SetJoinerUdpPort type port))
  else bad_command.

Definition ProcessCommDataset (aExpr : Expression) : I string_t :=
  _ ← need aExpr 2; command ← try_ (arg aExpr 1);
  if is_word command "get" then dataset ← app (GetCommissionerDataset 65535); try_ (CommissionerDatasetToJson dataset)
  else if is_word command "set" then
    _ ← need aExpr 3;
    dataset ← try_ (s ← arg aExpr 2; CommissionerDatasetFromJson s);
    done_ (app (SetCommissionerDataset dataset))
  else bad_command.

(** The numbers and bytes among the arguments. *)
Definition integer (w : Z) (aExpr : Expression) (n : nat) : I Z := try_ (s ← arg aExpr n; ParseInteger w s).
Definition hex_bytes (aExpr : Expression) (n : nat) : I ByteArray := try_ (s ← arg aExpr n; ParseHex s).
Definition word (aExpr : Expression) (n : nat) : I string_t := try_ (arg aExpr n).

(** [get] or [set], without regard to case. *)
Definition get_or_set (command : string_t) : I bool :=
  if is_word command "get" then mret false else if is_word command "set" then mret true else fails kInvalidCommand.

Definition opdataset_activetimestamp (isSet : bool) (aExpr : Expression) : I string_t :=
  if isSet then bad_argument else activeTimestamp ← app GetActiveTimestamp; mret (Timestamp_ToString activeTimestamp).
Definition opdataset_channel (isSet : bool) (aExpr : Expression) : I string_t :=
  if isSet then
    _ ← need aExpr 6; page ← integer 8 aExpr 3; channel ← integer 16 aExpr 4; delay ← integer 32 aExpr 5;
    done_ (app (SetChannel channel0 panId0 rotation0 delay0 (mkChannel page channel) delay))
  else channel ← app GetChannel; mret (Channel_ToString channel).
Definition opdataset_channelmask (isSet : bool) (aExpr : Expression) : I string_t :=
  if isSet then
    channelMask ← try_ (ParseChannelMask aExpr 3); done_ (app (SetChannelMask channel0 panId0 rotation0 channelMask))
  else channelMask ← app GetChannelMask; mret (ChannelMask_ToString channelMask).
Definition opdataset_xpanid (isSet : bool) (aExpr : Expression) : I string_t :=
  if isSet then
    _ ← need aExpr 4; xpanid ← hex_bytes aExpr 3; done_ (app (SetExtendedPanId channel0 panId0 rotation0 xpanid))
  else xpanid ← app GetExtendedPanId; mret (Hex xpanid).
Definition opdataset_meshlocalprefix (isSet : bool) (aExpr : Expression) : I string_t :=
  if isSet then
    _ ← need aExpr 5; delay ← integer 32 aExpr 4; prefix ← word aExpr 3;
    done_ (app (SetMeshLocalPrefix inet_pton4 inet_pton6 channel0 panId0 rotation0 delay0 prefix delay))
  else app (GetMeshLocalPrefix inet_ntop4 inet_ntop6).
Definition opdataset_networkmasterkey (isSet : bool) (aExpr : Expression) : I string_t :=
  if isSet then
    _ ← need aExpr 5; masterKey ← hex_bytes aExpr 3; delay ← integer 32 aExpr 4;
    done_ (app (SetNetworkMasterKey channel0 panId0 rotation0 delay0 masterKey delay))
  else masterKey ← app GetNetworkMasterKey; mret (Hex masterKey).
Definition opdataset_networkname (isSet : bool) (aExpr : Expression) : I string_t :=
  if isSet then
    _ ← need aExpr 4; networkName ← word aExpr 3; done_ (app (SetNetworkName channel0 panId0 rotation0 networkName))
  else app GetNetworkName.
Definition opdataset_panid (isSet : bool) (aExpr : Expression) : I string_t :=
  if isSet then
    _ ← need aExpr 5; panid ← integer 16 aExpr 3; delay ← integer 32 aExpr 4;
    done_ (app (SetPanId channel0 panId0 rotation0 delay0 panid delay))
  else panid ← app GetPanId; mret (number panid).
Definition opdataset_pskc (isSet : bool) (aExpr : Expression) : I string_t :=
  if isSet then _ ← need aExpr 4; pskc ← hex_bytes aExpr 3; done_ (app (SetPSKc channel0 panId0 rotation0 pskc))
  else pskc ← app GetPSKc; mret (Hex pskc).
Definition opdataset_securitypolicy (isSet : bool) (aExpr : Expression) : I string_t :=
  if isSet then
    _ ← need aExpr 5; rotation ← integer 16 aExpr 3; flags ← hex_bytes aExpr 4;
    done_ (app (SetSecurityPolicy channel0 panId0 rotation0 (mkPolicy rotation flags)))
  else policy ← app GetSecurityPolicy; mret (SecurityPolicy_ToString policy).
Definition active0 : I Active := ask (new_active channel0 panId0 rotation0).
Definition pending0 : I Pending := ask (new_pending channel0 panId0 rotation0 delay0).
Definition opdataset_active (isSet : bool) (aExpr : Expression) : I string_t :=
  dataset0 ← active0;
  if isSet then
    _ ← need aExpr 4; text ← word aExpr 3;
    dataset ← try_ (ActiveDatasetFromJson inet_pton4 inet_pton6 inet_ntop4 inet_ntop6 dataset0 text);
    done_ (app (SetActiveDataset dataset))
  else
    dataset ← app (GetActiveDataset 65535);
    try_ (ActiveDatasetToJson inet_pton4 inet_pton6 inet_ntop4 inet_ntop6 dataset0 dataset).
Definition opdataset_pending (isSet : bool) (aExpr : Expression) : I string_t :=
  dataset0 ← pending0;
  if isSet then
    _ ← need aExpr 4; text ← word aExpr 3;
    dataset ← try_ (PendingDatasetFromJson inet_pton4 inet_pton6 inet_ntop4 inet_ntop6 dataset0 text);
    done_ (app (SetPendingDataset dataset))
  else
    dataset ← app (GetPendingDataset 65535);
    try_ (PendingDatasetToJson inet_pton4 inet_pton6 inet_ntop4 inet_ntop6 dataset0 dataset).

Definition ProcessOpDataset (aExpr : Expression) : I string_t :=
  _ ← need aExpr 3; command ← word aExpr 1;
  isSet ← get_or_set command;
  field ← word aExpr 2;
  if is_word field "activetimestamp" then opdataset_activetimestamp isSet aExpr
  else if is_word field "channel" then opdataset_channel isSet aExpr
  else if is_word field "channelmask" then opdataset_channelmask isSet aExpr
  else if is_word field "xpanid" then opdataset_xpanid isSet aExpr
  else if is_word field "meshlocalprefix" then opdataset_meshlocalprefix isSet aExpr
  else if is_word field "networkmasterkey" then opdataset_networkmasterkey isSet aExpr
  else if is_word field "networkname" then opdataset_networkname isSet aExpr
  else if is_word field "panid" then opdataset_panid isSet aExpr
  else if is_word field "pskc" then opdataset_pskc isSet aExpr
  else if is_word field "securitypolicy" then opdataset_securitypolicy isSet aExpr
  else if is_word field "active" then opdataset_active isSet aExpr
  else if is_word field "pending" then opdataset_pending isSet aExpr
  else bad_argument.

Definition ProcessBbrDataset (aExpr : Expression) : I string_t :=
  _ ← need aExpr 2; command ← word aExpr 1;
  isSet ← get_or_set command;
  if (zlen aExpr =? 2) && negb isSet then dataset ← app (GetBbrDataset 65535); try_ (BbrDatasetToJson dataset)
  else
    _ ← need aExpr 3; field ← word aExpr 2;
    if is_word field "trihostname" then
      if isSet : bool then _ ← need aExpr 4; name ← word aExpr 3; done_ (app (SetTriHostname name)) else app GetTriHostname
    else if is_word field "reghostname" then
      if isSet : bool then _ ← need aExpr 4; name ← word aExpr 3; done_ (app (SetRegistrarHostname name)) else app GetRegistrarHostname
    else if is_word field "regaddr" then if isSet : bool then bad_argument else app GetRegistrarIpv6Addr
    else if isSet : bool then dataset ← try_ (BbrDatasetFromJson field); done_ (app (SetBbrDataset dataset))
    else bad_argument.

Definition ProcessReenroll (aExpr : Expression) : I string_t :=
  _ ← need aExpr 2; addr ← word aExpr 1; done_ (app (Reenroll addr)).
Definition ProcessDomainReset (aExpr : Expression) : I string_t :=
  _ ← need aExpr 2; addr ← word aExpr 1; done_ (app (DomainReset addr)).
Definition ProcessMigrate (aExpr : Expression) : I string_t :=
  _ ← need aExpr 3; addr ← word aExpr 1; network ← word aExpr 2; done_ (app (Migrate addr network)).
Definition ProcessMlr (aExpr : Expression) : I string_t :=
  _ ← need aExpr 3; timeout ← integer 32 aExpr (length aExpr - 1);
  done_ (app (RegisterMulticastListener (take (length aExpr - 2) (drop 1 aExpr)) timeout)).
Definition ProcessAnnounce (aExpr : Expression) : I string_t :=
  _ ← need aExpr 5; channelMask ← integer 32 aExpr 1; count ← integer 8 aExpr 2; period ← integer 16 aExpr 3;
  addr ← word aExpr 4; done_ (app (AnnounceBegin channelMask count period addr)).

Definition ProcessPanId (aExpr : Expression) : I string_t :=
  _ ← need aExpr 2; command ← word aExpr 1;
  if is_word command "query" then
    _ ← need aExpr 5; channelMask ← integer 32 aExpr 2; panId ← integer 16 aExpr 3; addr ← word aExpr 4;
    done_ (app (PanIdQuery channelMask panId addr))
  else if is_word command "conflict" then
    _ ← need aExpr 3; panId ← integer 16 aExpr 2;
    conflict ← ask (fun a => HasPanIdConflict a panId);
    mret (number (if conflict : bool then 1 else 0))
  else bad_command.

(** [GetAllEnergyReports], a [std::map] by address. *)
Definition GetAllEnergyReports (a : @App S) : std_map EnergyReport := map_of (map_to_list (mEnergyReports a)).

Definition ProcessEnergy (aExpr : Expression) : I string_t :=
  _ ← need aExpr 2; command ← word aExpr 1;
  if is_word command "scan" then
    _ ← need aExpr 7; channelMask ← integer 32 aExpr 2; count ← integer 8 aExpr 3; period ← integer 16 aExpr 4;
    scanDuration ← integer 16 aExpr 5; addr ← word aExpr 6;
    done_ (app (EnergyScan channelMask count period scanDuration addr))
  else if is_word command "report" then
    if 3 <=? zlen aExpr then
      dstAddr ← try_ (s ← arg aExpr 2; SetString inet_pton4 inet_pton6 s);
      report ← ask (fun a => GetEnergyReport a dstAddr);
      match report with None => mret (str "null") | Some report => try_ (EnergyReportToJson report) end
    else
      reports ← ask GetAllEnergyReports;
      if zlen (reports : std_map EnergyReport) =? 0 then mret (str "null")
      else try_ (EnergyReportMapToJson inet_ntop4 inet_ntop6 reports)
  else bad_command.

Definition leave : I unit := fun i => (mkInterp (mConfig i) (mApp i) (mConsole i) (mFiles i) true, Ok tt).
Definition ProcessExit (aExpr : Expression) : I string_t := _ ← StopApp; done_ leave.

(** The keys of [mEvaluatorMap]. *)
Definition commands : list string_t :=
  [str "config"; str "start"; str "stop"; str "active"; str "token"; str "network"; str "sessionid"; str "borderagent";
   str "joiner"; str "commdataset"; str "opdataset"; str "bbrdataset"; str "reenroll"; str "domainreset"; str "migrate";
   str "mlr"; str "announce"; str "panid"; str "energy"; str "exit"; str "help"].

Definition ProcessHelp (aExpr : Expression) : I string_t :=
  if zlen aExpr =? 1 then
    mret (flat_map (fun command => command ++ newline) (map fst (map_of (map (fun c => (c, tt)) commands))) ++
          newline ++ str "type 'help <command>' for help of specific command.")
  else
    usage ← try_ (command ← arg aExpr 1; Usage [command]);
    if zlen usage =? 0 then bad_argument else mret (str "usage:" ++ newline ++ usage).

Definition mEvaluatorMap : std_map (Expression -> I string_t) := map_of (zip commands
  [ProcessConfig; ProcessStart; ProcessStop; ProcessActive; ProcessToken; ProcessNetwork; ProcessSessionId; ProcessBorderAgent;
   ProcessJoiner; ProcessCommDataset; ProcessOpDataset; ProcessBbrDataset; ProcessReenroll; ProcessDomainReset; ProcessMigrate;
   ProcessMlr; ProcessAnnounce; ProcessPanId; ProcessEnergy; ProcessExit; ProcessHelp]).

(** *** The loop *)

Definition Eval (aExpr : Expression) : I string_t :=
  match aExpr with
  | [] => mret []
  | command :: _ => match map_find (ToLower command) mEvaluatorMap with Some evaluator => evaluator aExpr | None => bad_command end
  end.

Definition Value_ToString (aValue : string_t + ErrorCode) : string_t := match aValue with inl data => data | inr e => error_text e end.
Definition HasNoError (aValue : string_t + ErrorCode) : bool := match aValue with inl _ => true | inr _ => false end.
Definition Print (aValue : string_t + ErrorCode) : Interp -> Interp :=
  let output := Value_ToString aValue in
  let output := if negb (zlen output =? 0) then output ++ newline else output in
  let output := output ++ (if HasNoError aValue then str "[done]" else str "[failed]") in
  Write output (if HasNoError aValue then kGreen else kRed).

(** One round of the loop: a line that is not empty. *)
Definition print_result (m : I string_t) : I unit := fun i =>
  match m i with
  | (i, Ok data) => (Print (inl data) i, Ok tt)
  | (i, Err e) => (Print (inr e) i, Ok tt)
  | (i, Die) => (i, Die)
  end.
Definition round (aLine : string_t) : I unit := expr ← try_ (ParseExpression aLine); print_result (Eval expr).

(** [Run], on what [readline] returns: [None] is the end of the input.
    [Console::Read] asks again until it gets a line that is not empty.  The result
    is what is left to read when the loop ends, or nothing while it waits for a line. *)
Fixpoint Run_loop (input : list (option string_t)) : I (option (list (option string_t))) := fun i =>
  if mShouldExit i then (i, Ok (Some input))
  else match input with
       | [] => (i, Ok None)
       | None :: input | Some [] :: input => Run_loop input i
       | Some line :: input =>
           match round line i with
           | (i, Ok _) => Run_loop input i
           | (i, Err e) => (i, Err e)
           | (i, Die) => (i, Die)
           end
       end.
Definition Run (input : list (option string_t)) : I (option (list (option string_t))) := fun i =>
  match mApp i with None => (i, Ok (Some input)) | Some _ => Run_loop input i end.

(** *** [src/app/cli/main.cpp] *)

(** [Commissioner::GetVersion], which the build fills in. *)
Context (version : string_t).

Definition kLogo : string_t := lines ["   ____  ______                                   _           _                          ________    ____";
  "  / __ \/_  __/   _________  ____ ___  ____ ___  (_)_________(_)___  ____  ___  _____   / ____/ /   /  _/";
  " / / / / / /_____/ ___/ __ \/ __ `__ \/ __ `__ \/ / ___/ ___/ / __ \/ __ \/ _ \/ ___/  / /   / /    / /  ";
  "/ /_/ / / /_____/ /__/ /_/ / / / / / / / / / / / (__  |__  ) / /_/ / / / /  __/ /     / /___/ /____/ /   ";
  "\____/ /_/      \___/\____/_/ /_/ /_/_/ /_/ /_/_/____/____/_/\____/_/ /_/\___/_/      \____/_____/___/   ";
  "                                                                                                         "] ++ newline.

Definition print (aLine : string_t) (aColor : Color) : I unit := fun i => (Write aLine aColor i, Ok tt).
Definition PrintUsage (aProgram : string_t) : I unit :=
  print (str "usage: " ++ newline ++ str "    " ++ aProgram ++ str " [<config-file>]") kWhite.
Definition PrintVersion : I unit := print version kWhite.

(** The interpreter with a configuration file; the exit code, or nothing while it waits for a line. *)
Definition init_and_run (configFile : string_t) (input : list (option string_t)) : I (option Z) := fun i =>
  match Init configFile i with
  | (i, Ok _) => let '(i, r) := Run input i in (i, rest ← r; Ok (match rest with Some _ => Some 0 | None => None end))
  | (i, Err e) => (Write (str "start OT-commissioner CLI failed: " ++ error_text e) kRed i, Ok (Some (-1)))
  | (i, Die) => (i, Die)
  end.
Definition start_cli (configFile : string_t) (input : list (option string_t)) : I (option Z) :=
  _ ← print kLogo kBlue; init_and_run configFile input.
Definition main (argv : list string_t) (input : list (option string_t)) : I (option Z) :=
  match argv with
  | program :: argument :: _ =>
      let word := ToLower argument in
      if bool_decide (word = str "-h") || bool_decide (word = str "--help") then _ ← PrintUsage program; mret (Some 0)
      else if bool_decide (word = str "-v") || bool_decide (word = str "--version") then _ ← PrintVersion; mret (Some 0)
      else start_cli argument input
  | _ => start_cli [] input
  end.
End Interpreter.
