(* ===== verification/InterpreterFacts.v ===== *)
(** * Properties of the command line interpreter *)

From stdpp Require Import gmap.
From S2P Require Import Prelude Outcome Common Crypto NetworkData CommissionerApp CommissionerAppFacts BorderAgent Json CliText CliTextFacts Interpreter.
Import Endian HexString Addr Ipv6Prefix FullConfig.

(** ** Tables *)

(** The commands and their usages: each command but [exit] has one, and every usage is that of a command. *)
Lemma usages : map fst mUsageMap = filter (fun c => c <> str "exit") (map fst (map_of (map (fun c => (c, tt)) commands))).
Proof. vm_compute. reflexivity. Qed.

Section Interpreter.
Context {S : Type} `{HL : Library S} {J : Type} `{HJ : JsonLibrary J}.
Context (sha256 : ByteArray -> ByteArray).
Context (inet_pton4 inet_pton6 : string_t -> option ByteArray).
Context (inet_ntop4 inet_ntop6 : ByteArray -> option string_t).
Context (channel0 : Channel) (panId0 rotation0 delay0 : Z) (agent0 : BorderAgent).
Context (create : Config -> outcome S).
Context (answers : Z -> outcome (list (SockAddr * list MdnsRecord))).
Context (error_text : ErrorCode -> string_t).

Abbreviation Interp := (@Interp S).
Abbreviation App := (@CommissionerApp.App S).
Abbreviation fresh s := (App_init channel0 panId0 rotation0 delay0 s).
Abbreviation performs := (perform_all sha256 inet_pton4 inet_pton6 inet_ntop4 inet_ntop6 channel0 panId0 rotation0 delay0).
Abbreviation Evaluate := (Interpreter.Eval sha256 inet_pton4 inet_pton6 inet_ntop4 inet_ntop6 channel0 panId0 rotation0 delay0 agent0 create answers error_text).

#[local] Existing Instances I_ret I_bind.

(** ** What programs do to the interpreter *)

(** A program that does not end the process takes the interpreter from a state to a related one. *)
Definition framed (R : Interp -> Interp -> Prop) {A} (m : I A) : Prop := forall i, (m i).2 <> Die -> R i (m i).1.

Section Frame.
Context (R : Interp -> Interp -> Prop) `{!PreOrder R}.

Lemma framed_bind {A B} (m : I A) (f : A -> I B) : framed R m -> (forall x, framed R (f x)) -> framed R (m ≫= f).
Proof using PreOrder0.
  intros Hm Hf i. specialize (Hm i). unfold mbind, I_bind. destruct (m i) as [i1 [x|e|]]; cbn in *; intros Hd; [|by apply Hm|done].
  etrans; [by apply Hm|]. by apply Hf.
Qed.
Lemma framed_ret {A} (x : A) : framed R (mret x : I A).
Proof using PreOrder0. intros i _. by reflexivity. Qed.
Lemma framed_try {A} (m : outcome A) : framed R (try_ m).
Proof using PreOrder0. intros i _. by reflexivity. Qed.
Lemma framed_fails {A} e : framed R (@fails S A e).
Proof using PreOrder0. intros i _. by reflexivity. Qed.
Lemma framed_ask {A} (f : App -> A) : framed R (ask f).
Proof using PreOrder0. intros i _. by reflexivity. Qed.
Lemma framed_read f : framed R (read_hex f).
Proof using PreOrder0. intros i _. by reflexivity. Qed.
Lemma framed_if {A} (b : bool) (m m' : I A) : framed R m -> framed R m' -> framed R (if b then m else m').
Proof. by destruct b. Qed.
Lemma framed_done m : framed R m -> framed R (done_ m).
Proof using PreOrder0. intros Hm. apply framed_bind; [done|]. intros. apply framed_ret. Qed.
End Frame.

(** The application goes through operations of [CommissionerApp]. *)
Definition app_evolves (i i' : Interp) : Prop :=
  match mApp i with
  | None => mApp i' = None
  | Some a => exists ops a', performs ops a = Ok a' /\ mApp i' = Some a'
  end.
Definition rest_same (i i' : Interp) : Prop :=
  mConfig i' = mConfig i /\ mConsole i' = mConsole i /\ mFiles i' = mFiles i /\ mShouldExit i' = mShouldExit i.
Definition evolves (i i' : Interp) : Prop := app_evolves i i' /\ rest_same i i'.

Lemma perform_all_app l l' a a1 a2 : performs l a = Ok a1 -> performs l' a1 = Ok a2 -> performs (l ++ l') a = Ok a2.
Proof.
  revert a. induction l as [|o l IH]; intros a; cbn; [by intros [= ->]|].
  destruct (perform _ _ _ _ _ _ _ _ _ o a) as [a'|e|]; [|done..]. cbn. apply IH.
Qed.
Lemma app_evolves_same i i' : mApp i' = mApp i -> app_evolves i i'.
Proof. unfold app_evolves. intros ->. destruct (mApp i) as [a|]; [|done]. by exists [], a. Qed.
Lemma app_evolves_refl i : app_evolves i i.
Proof. by apply app_evolves_same. Qed.
Lemma app_evolves_trans i1 i2 i3 : app_evolves i1 i2 -> app_evolves i2 i3 -> app_evolves i1 i3.
Proof.
  unfold app_evolves. destruct (mApp i1) as [a1|]; [|by intros ->]. intros (l1 & a2 & E1 & ->) (l2 & a3 & E2 & ->).
  exists (l1 ++ l2), a3. split; [|done]. by eapply perform_all_app.
Qed.
#[local] Instance evolves_preorder : PreOrder evolves.
Proof.
  split.
  - intros i. split; [apply app_evolves_refl|by split_and!].
  - intros i1 i2 i3 [A1 (?&?&?&?)] [A2 (?&?&?&?)]. split; [by eapply app_evolves_trans|]. split_and!; congruence.
Qed.

(** A call of the application that is one of its operations, or changes nothing. *)
Lemma framed_op {A} o (m : @CommissionerApp.M S A) :
  (forall a, perform sha256 inet_pton4 inet_pton6 inet_ntop4 inet_ntop6 channel0 panId0 rotation0 delay0 o a = after (m a)) -> framed evolves (app m).
Proof.
  intros Ho i Hd. unfold app in *. unfold evolves, app_evolves. destruct (mApp i) as [a|]; [|done]. specialize (Ho a).
  destruct (m a) as [a' r]. cbn in *. split; [|by split_and!]. exists [o], a'. split; [|done]. cbn. rewrite Ho. by destruct r.
Qed.
Lemma framed_pure {A} (m : @CommissionerApp.M S A) : (forall a, (m a).1 = a) -> framed evolves (app m).
Proof.
  intros Ho i Hd. unfold app in *. unfold evolves, app_evolves. destruct (mApp i) as [a|]; [|done].
  specialize (Ho a). destruct (m a) as [a' r]. cbn in *. subst a'. split; [|by split_and!]. by exists [], a.
Qed.

(** The operation that a call of the application is. *)
Ltac op_of m :=
  lazymatch m with
  | SyncNetworkData => constr:(OpSyncNetworkData)
  | EnableJoiner _ ?t ?e ?p ?u => constr:(OpEnableJoiner t e p u)
  | DisableJoiner _ ?t ?e => constr:(OpDisableJoiner t e)
  | EnableAllJoiners _ ?t ?p ?u => constr:(OpEnableAllJoiners t p u)
  | DisableAllJoiners ?t => constr:(OpDisableAllJoiners t)
  | SetJoinerUdpPort ?t ?p => constr:(OpSetJoinerUdpPort t p)
  | GetCommissionerDataset ?f => constr:(OpGetCommissionerDataset f)
  | SetCommissionerDataset ?d => constr:(OpSetCommissionerDataset d)
  | GetChannel => constr:(OpGetChannel)
  | SetChannel _ _ _ _ ?c ?d => constr:(OpSetChannel c d)
  | SetChannelMask _ _ _ ?m => constr:(OpSetChannelMask m)
  | SetExtendedPanId _ _ _ ?b => constr:(OpSetExtendedPanId b)
  | GetMeshLocalPrefix _ _ => constr:(OpGetMeshLocalPrefix)
  | SetMeshLocalPrefix _ _ _ _ _ _ ?p ?d => constr:(OpSetMeshLocalPrefix p d)
  | GetNetworkMasterKey => constr:(OpGetNetworkMasterKey)
  | SetNetworkMasterKey _ _ _ _ ?k ?d => constr:(OpSetNetworkMasterKey k d)
  | SetNetworkName _ _ _ ?n => constr:(OpSetNetworkName n)
  | GetPanId => constr:(OpGetPanId)
  | SetPanId _ _ _ _ ?p ?d => constr:(OpSetPanId p d)
  | SetPSKc _ _ _ ?k => constr:(OpSetPSKc k)
  | SetSecurityPolicy _ _ _ ?p => constr:(OpSetSecurityPolicy p)
  | GetActiveDataset ?f => constr:(OpGetActiveDataset f)
  | SetActiveDataset ?d => constr:(OpSetActiveDataset d)
  | GetPendingDataset ?f => constr:(OpGetPendingDataset f)
  | SetPendingDataset ?d => constr:(OpSetPendingDataset d)
  | SetTriHostname ?n => constr:(OpSetTriHostname n)
  | SetRegistrarHostname ?n => constr:(OpSetRegistrarHostname n)
  | GetBbrDataset ?f => constr:(OpGetBbrDataset f)
  | SetBbrDataset ?d => constr:(OpSetBbrDataset d)
  | Reenroll ?d => constr:(OpReenroll d)
  | DomainReset ?d => constr:(OpDomainReset d)
  | Migrate ?d ?n => constr:(OpMigrate d n)
  | RegisterMulticastListener ?l ?t => constr:(OpRegisterMulticastListener l t)
  | AnnounceBegin ?m ?c ?p ?d => constr:(OpAnnounceBegin m c p d)
  | PanIdQuery ?m ?p ?d => constr:(OpPanIdQuery m p d)
  | EnergyScan ?m ?c ?p ?u ?d => constr:(OpEnergyScan m c p u d)
  | RequestToken ?a ?p => constr:(OpRequestToken a p)
  | SetToken ?t => constr:(OpSetToken t)
  end.

(** The calls that only read. *)
Ltac reads :=
  apply framed_pure; intros a;
  cbv [GetSessionId GetActiveTimestamp GetJoinerUdpPort GetBorderAgentLocator GetChannelMask GetExtendedPanId GetNetworkName GetPSKc GetSecurityPolicy
       GetTriHostname GetRegistrarHostname GetRegistrarIpv6Addr mbind CommissionerApp.M_bind check_active check_present demand CommissionerApp.get
       CommissionerApp.lift mret CommissionerApp.M_ret];
  repeat case_match; simplify_eq; done.

(** Programs made of calls, tests and conversions. *)
Ltac walk :=
  repeat first
    [ progress intros
    | lazymatch goal with |- framed _ (app ?m) => let o := op_of m in apply (framed_op o); reflexivity end
    | apply (framed_bind evolves)
    | apply (framed_done evolves)
    | apply (framed_if evolves)
    | apply (framed_ret evolves) | apply (framed_try evolves) | apply (framed_fails evolves) | apply (framed_ask evolves) | apply (framed_read evolves)
    | case_match ].

Lemma Stop_evolves : framed evolves (StopApp channel0 panId0 rotation0 delay0).
Proof. apply (framed_op OpStop). reflexivity. Qed.

Lemma ProcessStop_evolves e : framed evolves (ProcessStop channel0 panId0 rotation0 delay0 e).
Proof. apply (framed_done evolves), Stop_evolves. Qed.
Lemma ProcessActive_evolves e : framed evolves (ProcessActive e).
Proof. unfold ProcessActive. walk. Qed.
Lemma ProcessToken_evolves e : framed evolves (ProcessToken e).
Proof. unfold ProcessToken. walk. Qed.
Lemma ProcessSessionId_evolves e : framed evolves (ProcessSessionId e).
Proof. unfold ProcessSessionId. walk. reads. Qed.
Lemma ProcessJoiner_evolves e : framed evolves (ProcessJoiner sha256 e).
Proof. unfold ProcessJoiner. walk. all: try reads. Qed.
Lemma ProcessCommDataset_evolves e : framed evolves (ProcessCommDataset e).
Proof. unfold ProcessCommDataset. walk. Qed.
Lemma ProcessOpDataset_evolves e : framed evolves (ProcessOpDataset inet_pton4 inet_pton6 inet_ntop4 inet_ntop6 channel0 panId0 rotation0 delay0 e).
Proof.
  unfold ProcessOpDataset, opdataset_activetimestamp, opdataset_channel, opdataset_channelmask, opdataset_xpanid, opdataset_meshlocalprefix,
    opdataset_networkmasterkey, opdataset_networkname, opdataset_panid, opdataset_pskc, opdataset_securitypolicy, opdataset_active,
    opdataset_pending, get_or_set. walk. all: try reads.
Qed.
Lemma ProcessBbrDataset_evolves e : framed evolves (ProcessBbrDataset e).
Proof. unfold ProcessBbrDataset, get_or_set. walk. all: try reads. Qed.
Lemma ProcessMlr_evolves e : framed evolves (ProcessMlr e).
Proof. unfold ProcessMlr. walk. Qed.
Lemma ProcessPanId_evolves e : framed evolves (ProcessPanId e).
Proof. unfold ProcessPanId. walk. Qed.
Lemma ProcessEnergy_evolves e : framed evolves (ProcessEnergy inet_pton4 inet_pton6 inet_ntop4 inet_ntop6 e).
Proof. unfold ProcessEnergy. walk. Qed.
Lemma ProcessHelp_evolves e : framed evolves (ProcessHelp e).
Proof. unfold ProcessHelp. walk. Qed.
Lemma commands_on_devices_evolve e : framed evolves (ProcessReenroll e) /\ framed evolves (ProcessDomainReset e) /\
  framed evolves (ProcessMigrate e) /\ framed evolves (ProcessAnnounce e).
Proof. unfold ProcessReenroll, ProcessDomainReset, ProcessMigrate, ProcessAnnounce. split_and!; walk. Qed.

Lemma ProcessStart_evolves e : framed evolves (ProcessStart channel0 panId0 rotation0 delay0 e).
Proof.
  intros i Hd. unfold ProcessStart in *.
  destruct (start_arguments e) as [[addr port]|x|]; [|split; [apply app_evolves_refl|by split_and!]|done].
  unfold evolves, app_evolves. destruct (mApp i) as [a|] eqn:E; [|done].
  destruct (Start channel0 panId0 rotation0 delay0 addr port a) as [[a' existing] r] eqn:Es.
  assert (Hp : r <> Die -> performs [OpStart addr port] a = Ok a').
  { intros Hr. cbn. rewrite Es. by destruct r. }
  destruct r as [u|x|]; [| |done]; (split; [|by split_and!]); exists [OpStart addr port], a'; (split; [by apply Hp|done]).
Qed.

(** *** The commands that change more *)

(** What is written to the console. *)
Definition tells (i i' : Interp) : Prop :=
  app_evolves i i' /\ mConfig i' = mConfig i /\ mFiles i' = mFiles i /\ mShouldExit i' = mShouldExit i /\
  exists l, mConsole i' = mConsole i ++ l.
#[local] Instance tells_preorder : PreOrder tells.
Proof.
  split.
  - intros i. split_and!; try done; [apply app_evolves_refl|]. exists []. by rewrite app_nil_r.
  - intros i1 i2 i3 (A1 & ? & ? & ? & l1 & E1) (A2 & ? & ? & ? & l2 & E2). split_and!; try congruence; [by eapply app_evolves_trans|].
    exists (l1 ++ l2). by rewrite E2, E1, app_assoc.
Qed.
Lemma evolves_tells i i' : evolves i i' -> tells i i'.
Proof. intros [Ha (? & Hc & ? & ?)]. split_and!; try done. exists []. by rewrite Hc, app_nil_r. Qed.
Lemma framed_weaken {A} (R R' : Interp -> Interp -> Prop) (m : I A) : (forall i i', R i i' -> R' i i') -> framed R m -> framed R' m.
Proof. intros HR Hm i Hd. by apply HR, Hm. Qed.

Lemma discover_tells l : framed tells (discover_loop inet_ntop4 inet_ntop6 agent0 error_text l).
Proof.
  induction l as [|[from records] l IH]; cbn [discover_loop]; [apply framed_ret, _|].
  apply framed_bind; [apply _|apply framed_try, _|]. intros r. apply framed_bind; [apply _| |done].
  intros i _. destruct r as [[b|e]|]; [..|by reflexivity]; split_and!; try done; first [by apply app_evolves_same | by eexists].
Qed.
Lemma ProcessBorderAgent_tells e : framed tells (ProcessBorderAgent inet_ntop4 inet_ntop6 agent0 answers error_text e).
Proof.
  unfold ProcessBorderAgent, DiscoverBorderAgent. apply framed_bind; [apply _|apply framed_try, _|intros _].
  apply framed_bind; [apply _|apply framed_try, _|intros c]. apply framed_if; [|eapply framed_weaken; [apply evolves_tells|walk; reads]].
  apply framed_bind; [apply _|apply framed_if; [apply framed_try, _|apply framed_ret, _]|]. intros timeout. apply framed_done; [apply _|].
  apply framed_bind; [apply _|apply framed_try, _|]. intros l. apply discover_tells.
Qed.

(** Files. *)
Definition writes (i i' : Interp) : Prop :=
  app_evolves i i' /\ mConfig i' = mConfig i /\ mConsole i' = mConsole i /\ mShouldExit i' = mShouldExit i.
#[local] Instance writes_preorder : PreOrder writes.
Proof.
  split.
  - intros i. split_and!; try done. apply app_evolves_refl.
  - intros i1 i2 i3 (A1 & ? & ? & ?) (A2 & ? & ? & ?). split_and!; try congruence. by eapply app_evolves_trans.
Qed.
Lemma ProcessNetwork_writes e :
  framed writes (ProcessNetwork inet_pton4 inet_pton6 inet_ntop4 inet_ntop6 channel0 panId0 rotation0 delay0 e).
Proof.
  unfold ProcessNetwork, SaveNetworkData. apply framed_bind; [apply _|apply framed_try, _|intros _].
  apply framed_bind; [apply _|apply framed_try, _|intros c].
  apply framed_if; [|eapply framed_weaken; [|walk]; by intros i i' [? (? & ? & ? & ?)]].
  apply framed_bind; [apply _|apply framed_try, _|intros _]. apply framed_bind; [apply _|apply framed_try, _|intros f].
  apply framed_done; [apply _|]. apply framed_bind; [apply _|apply framed_ask, _|]. intros t.
  apply framed_bind; [apply _|apply framed_try, _|]. intros js i _. unfold save.
  destruct (WriteFile js f (mFiles i)) as [fs r]. split_and!; try done. by apply app_evolves_same.
Qed.

(** The key of the configuration, and the application made anew for it. *)
Definition reconfigured (i i' : Interp) : Prop :=
  i' = i \/
  mConsole i' = mConsole i /\ mFiles i' = mFiles i /\ mShouldExit i' = mShouldExit i /\
  exists a pskc, mApp i = Some a /\ IsActive a = false /\ zlen pskc <= kMaxPSKcLength /\
    mConfig i' = set_PSKc (mConfig i) pskc /\
    match create (mConfig i') with Ok s => mApp i' = Some (fresh s) | _ => mApp i' = mApp i end.

Lemma UpdateConfig_cases pskc i a : mApp i = Some a ->
  UpdateConfig channel0 panId0 rotation0 delay0 create pskc i =
    if negb (zlen pskc <=? kMaxPSKcLength) then (i, Err kInvalidArgs)
    else if IsActive a then (i, Err kInvalidState)
    else let i1 := with_config i (set_PSKc (mConfig i) pskc) in
         (match create (mConfig i1) with Ok s => with_app i1 (fresh s) | _ => i1 end, Ok tt).
Proof.
  intros E. unfold UpdateConfig, mbind, I_bind, try_, ask. destruct (zlen pskc <=? kMaxPSKcLength); [|done]. rewrite E. cbn [negb].
  destruct (IsActive a); [done|]. unfold CreateApp. cbn. by destruct (create _).
Qed.

Lemma UpdateConfig_reconfigures pskc : framed reconfigured (UpdateConfig channel0 panId0 rotation0 delay0 create pskc).
Proof.
  intros i Hd. destruct (mApp i) as [a|] eqn:E.
  - rewrite (UpdateConfig_cases pskc i a E) in *. destruct (zlen pskc <=? kMaxPSKcLength) eqn:El; [|by left]. cbn [negb] in *.
    destruct (IsActive a) eqn:Ea; [by left|]. bool_to_prop. right. cbv zeta.
    cbn [fst]. destruct (create (mConfig (with_config i (set_PSKc (mConfig i) pskc)))) as [s|e|] eqn:Ec.
    all: split_and!; try done; exists a, pskc; split_and!; try done; cbn in *; by rewrite Ec.
  - left. unfold UpdateConfig, mbind, I_bind, try_, ask in *. destruct (zlen pskc <=? kMaxPSKcLength); [|done]. by rewrite E.
Qed.

Lemma ProcessConfig_reconfigures e : framed reconfigured (ProcessConfig channel0 panId0 rotation0 delay0 create e).
Proof.
  intros i Hd. unfold ProcessConfig, need, mbind, I_bind, try_ in *.
  repeat (case_match; try by left). unfold done_, mbind, I_bind, mret, I_ret in *.
  match goal with H : context [UpdateConfig _ _ _ _ _ ?k i] |- _ => pose proof (UpdateConfig_reconfigures k i) as Hu; destruct (UpdateConfig _ _ _ _ _ k i) as [i1 [u|x|]] end.
  all: by apply Hu.
Qed.

(** [exit] stops the application. *)
Definition leaves (i i' : Interp) : Prop :=
  mConfig i' = mConfig i /\ mConsole i' = mConsole i /\ mFiles i' = mFiles i /\ mShouldExit i' = true /\
  exists a, mApp i = Some a /\ mApp i' = Some (Stop channel0 panId0 rotation0 delay0 a).

Lemma ProcessExit_leaves e : framed leaves (ProcessExit channel0 panId0 rotation0 delay0 e).
Proof.
  intros i Hd. unfold ProcessExit, done_, mbind, I_bind, StopApp, app in *. destruct (mApp i) as [a|] eqn:E; [|done].
  split_and!; try done. by exists a.
Qed.

(** What a command can change. *)
Definition changes (command : string_t) : Interp -> Interp -> Prop :=
  if bool_decide (command = str "config") then reconfigured
  else if bool_decide (command = str "exit") then leaves
  else if bool_decide (command = str "network") then writes
  else if bool_decide (command = str "borderagent") then tells
  else evolves.

Lemma evaluators : mEvaluatorMap sha256 inet_pton4 inet_pton6 inet_ntop4 inet_ntop6 channel0 panId0 rotation0 delay0 agent0 create answers error_text =
  [(str "active", ProcessActive); (str "announce", ProcessAnnounce); (str "bbrdataset", ProcessBbrDataset);
   (str "borderagent", ProcessBorderAgent inet_ntop4 inet_ntop6 agent0 answers error_text); (str "commdataset", ProcessCommDataset);
   (str "config", ProcessConfig channel0 panId0 rotation0 delay0 create); (str "domainreset", ProcessDomainReset);
   (str "energy", ProcessEnergy inet_pton4 inet_pton6 inet_ntop4 inet_ntop6); (str "exit", ProcessExit channel0 panId0 rotation0 delay0);
   (str "help", ProcessHelp); (str "joiner", ProcessJoiner sha256); (str "migrate", ProcessMigrate); (str "mlr", ProcessMlr);
   (str "network", ProcessNetwork inet_pton4 inet_pton6 inet_ntop4 inet_ntop6 channel0 panId0 rotation0 delay0);
   (str "opdataset", ProcessOpDataset inet_pton4 inet_pton6 inet_ntop4 inet_ntop6 channel0 panId0 rotation0 delay0);
   (str "panid", ProcessPanId); (str "reenroll", ProcessReenroll); (str "sessionid", ProcessSessionId);
   (str "start", ProcessStart channel0 panId0 rotation0 delay0); (str "stop", ProcessStop channel0 panId0 rotation0 delay0);
   (str "token", ProcessToken)].
Proof. reflexivity. Qed.

(** The handler of a command. *)
Lemma Eval_command c e : 
  (exists f, Evaluate (c :: e) = f (c :: e) /\ framed (changes (ToLower c)) (f (c :: e))) \/ Evaluate (c :: e) = fails kInvalidCommand.
Proof.
  unfold Interpreter.Eval. rewrite evaluators. generalize (ToLower c). intros k. cbn [map_find].
  repeat (case_bool_decide as K; [left; subst k; eexists; split; [reflexivity|];
    first [ apply ProcessConfig_reconfigures | apply ProcessExit_leaves | apply ProcessNetwork_writes | apply ProcessBorderAgent_tells
          | apply ProcessToken_evolves | apply ProcessSessionId_evolves | apply ProcessJoiner_evolves | apply ProcessCommDataset_evolves
          | apply ProcessOpDataset_evolves | apply ProcessBbrDataset_evolves | apply ProcessMlr_evolves | apply ProcessPanId_evolves
          | apply ProcessEnergy_evolves | apply ProcessHelp_evolves | apply (commands_on_devices_evolve (c :: e)) | apply ProcessStart_evolves
          | apply ProcessStop_evolves | apply ProcessActive_evolves ]|clear K]). by right.
Qed.

(** The words a line starts with. *)
Definition command_of (e : Expression) : string_t := match e with [] => [] | c :: _ => ToLower c end.

Lemma Eval_changes e i : (Evaluate e i).2 <> Die -> (Evaluate e i).1 = i \/ changes (command_of e) i (Evaluate e i).1.
Proof.
  intros Hd. destruct e as [|c e]; [by left|]. destruct (Eval_command c e) as [(f & E & Hf)|E]; [right|left].
  - rewrite E in *. by apply Hf.
  - by rewrite E.
Qed.

(** ** Runs *)

Abbreviation RunLoop := (Run_loop sha256 inet_pton4 inet_pton6 inet_ntop4 inet_ntop6 channel0 panId0 rotation0 delay0 agent0 create answers error_text).
Abbreviation RunAll := (Run sha256 inet_pton4 inet_pton6 inet_ntop4 inet_ntop6 channel0 panId0 rotation0 delay0 agent0 create answers error_text).
Abbreviation Round := (round sha256 inet_pton4 inet_pton6 inet_ntop4 inet_ntop6 channel0 panId0 rotation0 delay0 agent0 create answers error_text).
Abbreviation InitCli := (Interpreter.Init channel0 panId0 rotation0 delay0 create).

(** The words of a line, and the lines that leave. *)
Definition words_of (line : string_t) : Expression := match ParseExpression line with Ok e => e | _ => [] end.
Definition exit_line (l : option string_t) : Prop := match l with Some l => command_of (words_of l) = str "exit" | None => False end.

Lemma Round_spec line i i' r : Round line i = (i', r) -> r <> Die ->
  r = Ok tt /\ exists v, i' = Interpreter.Print error_text v (Evaluate (words_of line) i).1 /\ (Evaluate (words_of line) i).2 <> Die.
Proof.
  unfold round, words_of, mbind, I_bind, try_. rewrite ParseExpression_tokens. unfold print_result.
  destruct (Evaluate (tokens MBetween line) i) as [i1 [data|e|]]; intros [= <- <-] Hd; [..|done]; (split; [done|]).
  - by exists (inl data).
  - by exists (inr e).
Qed.

Lemma Eval_exit e i : command_of e = str "exit" -> Evaluate e i = ProcessExit channel0 panId0 rotation0 delay0 e i.
Proof.
  destruct e as [|c e]; [done|]. cbn [command_of]. intros Ec. unfold Interpreter.Eval. rewrite evaluators, Ec. reflexivity.
Qed.

(** Every other command leaves the loop running. *)
Lemma changes_goes_on c i i' : c <> str "exit" -> changes c i i' -> mShouldExit i' = mShouldExit i.
Proof.
  intros Hc. unfold changes. rewrite (bool_decide_false (c = str "exit")) by done.
  repeat case_bool_decide.
  - by intros [->|(_ & _ & ? & _)].
  - by intros (_ & _ & _ & ?).
  - by intros (_ & _ & _ & ? & _).
  - by intros (_ & _ & _ & _ & ?).
Qed.

Lemma Round_goes_on line i i' : Round line i = (i', Ok tt) -> ~ exit_line (Some line) -> mShouldExit i' = mShouldExit i.
Proof.
  intros E Hl. destruct (Round_spec _ _ _ _ E) as (_ & v & -> & Hd); [done|]. unfold Interpreter.Print, Write. cbn.
  destruct (Eval_changes (words_of line) i Hd) as [->|Hc]; [done|]. by apply changes_goes_on in Hc.
Qed.
Lemma Round_exit line i i' : Round line i = (i', Ok tt) -> exit_line (Some line) ->
  mShouldExit i' = true /\ exists a, mApp i' = Some (Stop channel0 panId0 rotation0 delay0 a).
Proof.
  intros E Hl. destruct (Round_spec _ _ _ _ E) as (_ & v & -> & Hd); [done|]. unfold Interpreter.Print, Write. cbn in *.
  rewrite Eval_exit in * by done. destruct (ProcessExit_leaves _ _ Hd) as (_ & _ & _ & Hx & a & _ & Ha). split; [done|]. by exists a.
Qed.

(** The loop ends with the first line whose command is [exit], in whatever case and however quoted, and only then:
    when it ends, the lines behind that one are still unread, the session of the application has been stopped, and no
    line before it was an [exit]; as long as it waits for a line, no line read so far was one.  Whatever the commands
    do, the loop does not fail: only a command can end the process. *)
Theorem exit_ends_run input i i' r :
  mShouldExit i = false -> RunLoop input i = (i', r) -> r <> Die ->
  (r = Ok None /\ Forall (fun l => ~ exit_line l) input /\ mShouldExit i' = false) \/
  exists before line rest, r = Ok (Some rest) /\ input = before ++ Some line :: rest /\ Forall (fun l => ~ exit_line l) before /\
    exit_line (Some line) /\ mShouldExit i' = true /\ exists a, mApp i' = Some (Stop channel0 panId0 rotation0 delay0 a).
Proof.
  revert i. induction input as [|l input IH]; intros i Hx; cbn [Run_loop]; rewrite Hx.
  - intros [= <- <-] _. by left.
  - assert (Skip : ~ exit_line l -> forall i, mShouldExit i = false -> RunLoop input i = (i', r) -> r <> Die ->
      (r = Ok None /\ Forall (fun l => ~ exit_line l) (l :: input) /\ mShouldExit i' = false) \/
      exists before line rest, r = Ok (Some rest) /\ l :: input = before ++ Some line :: rest /\ Forall (fun l => ~ exit_line l) before /\
        exit_line (Some line) /\ mShouldExit i' = true /\ exists a, mApp i' = Some (Stop channel0 panId0 rotation0 delay0 a)).
    { intros Hl i1 H1 E Hd. destruct (IH i1 H1 E Hd) as [(-> & Hi & ?)|(before & line & rest & -> & -> & Hb & ? & ? & ?)].
      - left. split_and!; [done|by constructor|done].
      - right. exists (l :: before), line, rest. split_and!; try done. by constructor. }
    destruct l as [[|c line]|]; [apply Skip; [by intros Hl; vm_compute in Hl|done]|..|apply Skip; [by intros Hl|done]].
    destruct (Round (c :: line) i) as [i1 r1] eqn:E. destruct r1 as [[]|x|]; [|by destruct (Round_spec _ _ _ _ E)|by intros [= <- <-]].
    destruct (decide (command_of (words_of (c :: line)) = str "exit")) as [Hl|Hl].
    + intros Er Hd. right. destruct (Round_exit _ _ _ E Hl) as [H1 Ha]. exists [], (c :: line), input.
      destruct input; cbn [Run_loop] in Er; rewrite H1 in Er; injection Er as <- <-; split_and!; done.
    + apply Skip; [done|]. rewrite (Round_goes_on _ _ _ E Hl). done.
Qed.

(** *** The application behind the command line *)

(** The application was made by the interpreter, and went through operations of its own since. *)
Definition from_init (i : Interp) : Prop := exists s ops a, mApp i = Some a /\ performs ops (fresh s) = Ok a.

Lemma app_evolves_init i i' : app_evolves i i' -> from_init i -> from_init i'.
Proof.
  unfold app_evolves. intros Hi (s & ops & a & E & Ha). rewrite E in Hi. destruct Hi as (ops' & a' & Ha' & E').
  exists s, (ops ++ ops'), a'. split; [done|]. by eapply perform_all_app.
Qed.
Lemma changes_init c i i' : changes c i i' -> from_init i -> from_init i'.
Proof.
  unfold changes. repeat case_bool_decide.
  - intros [->|(_ & _ & _ & a & pskc & Ea & _ & _ & _ & Hc)]; [done|]. intros Hi. unfold from_init in *. destruct (create (mConfig i')) as [s|e|].
    + by exists s, [], (fresh s).
    + by rewrite Hc.
    + by rewrite Hc.
  - intros (_ & _ & _ & _ & a & Ea & Ea'). apply app_evolves_init. unfold app_evolves. rewrite Ea. by exists [OpStop], (Stop channel0 panId0 rotation0 delay0 a).
  - intros [Ha _]. by apply app_evolves_init.
  - intros [Ha _]. by apply app_evolves_init.
  - intros [Ha _]. by apply app_evolves_init.
Qed.

Lemma RunLoop_init input : forall i i' r, RunLoop input i = (i', r) -> r <> Die -> from_init i -> from_init i'.
Proof.
  induction input as [|l input IH]; intros i i' r; cbn [Run_loop]; (destruct (mShouldExit i); [by intros [= <- _]|]); [by intros [= <- _]|].
  destruct l as [[|c line]|]; [by eauto|..|by eauto]. destruct (Round (c :: line) i) as [i1 r1] eqn:E. intros Er Hd Hi.
  assert (H1 : r1 <> Die) by (by intros ->; injection Er as _ <-). destruct (Round_spec _ _ _ _ E H1) as (-> & v & -> & Hd1).
  eapply IH; [exact Er|done|]. assert (from_init (Evaluate (words_of (c :: line)) i).1); [|done].
  destruct (Eval_changes (words_of (c :: line)) i Hd1) as [->|Hc]; [done|]. by eapply changes_init.
Qed.

Lemma Init_fresh file i i' : InitCli file i = (i', Ok tt) -> exists s, create (mConfig i') = Ok s /\ mApp i' = Some (fresh s).
Proof.
  unfold Interpreter.Init. destruct (if negb (zlen file =? 0) then _ else _) as [c|e|]; [|done..]. unfold CreateApp. cbn.
  destruct (create c) as [s|e|] eqn:E; [|done..]. cbn. intros [= <-]. by exists s.
Qed.

(** C3: Whatever is typed, the application that the command line drives is always in a state that its own operations
    reach from a fresh one: the theorems about runs of the application hold at the command line.  So no line and no
    answer of the network make it give a joiner any credential but the well-formed PSKd of an enabled joiner. *)
Theorem cli_refines_application file input i0 i i' r :
  InitCli file i0 = (i, Ok tt) -> RunAll input i = (i', r) -> r <> Die ->
  exists s ops a, mApp i' = Some a /\ performs ops (fresh s) = Ok a /\
    forall id pskd, OnJoinerRequest sha256 a id = Ok pskd -> pskd <> [] ->
      (6 <= zlen pskd <= 32 /\ Forall pskd_char pskd) /\ exists j, authorised sha256 a id j /\ pskd = mPSKd j.
Proof.
  intros Hi Hr Hd. destruct (Init_fresh _ _ _ Hi) as (s & _ & Ea).
  assert (H0 : from_init i) by by exists s, [], (fresh s).
  unfold Run in Hr. rewrite Ea in Hr. destruct (RunLoop_init _ _ _ _ Hr Hd H0) as (s' & ops & a & Ha & Hp).
  exists s', ops, a. split_and!; [done..|]. intros id pskd. apply credential_given. by eapply reachable_joiners.
Qed.

(** *** The key of the configuration *)

Lemma ParseHex_cases s :
  (exists l, ParseHex s = Ok l /\ zlen s mod 2 = 0 /\ forallb isxdigit s = true /\ Hex l = ToLower s) \/
  (ParseHex s = Err kInvalidArgs /\ ~ (zlen s mod 2 = 0 /\ forallb isxdigit s = true)).
Proof.
  unfold ParseHex. destruct (CommonFacts.FromHex_cases [] s) as (l & c & -> & Hn & Hx & He). cbn. destruct (decide (c = kNone)) as [->|Hc].
  - left. exists l. destruct (proj1 Hn eq_refl). split_and!; [done..|]. by apply Hx.
  - right. rewrite (He Hc). split; [by destruct c|]. intros Hh. by apply Hc, Hn.
Qed.

Lemma length_Hex l : zlen (Hex l) = 2 * zlen l.
Proof. induction l as [|b l IH]; [done|]. unfold zlen in *. cbn [Hex length]. lia. Qed.

(** A key that can be set: at most 16 bytes in hexadecimal digits. *)
Definition key_text (h : string_t) : Prop := zlen h mod 2 = 0 /\ forallb isxdigit h = true /\ zlen h <= 2 * kMaxPSKcLength.

Lemma Eval_config c e i : ToLower c = str "config" -> Evaluate (c :: e) i = ProcessConfig channel0 panId0 rotation0 delay0 create (c :: e) i.
Proof. intros Ec. unfold Interpreter.Eval. rewrite evaluators, Ec. reflexivity. Qed.

(** [config set pskc] refuses, without any effect, a text that is not a key, and any key during a session.
    Otherwise the key becomes that of the configuration, [config get pskc] prints it back in lower case, and the
    application is made anew for the new configuration; when that fails (as it does for an empty key), the command
    still reports success, and the old application stays. *)
Theorem config_pskc c h i a : ToLower c = str "config" -> mApp i = Some a ->
  let r := Evaluate [c; str "set"; str "pskc"; h] i in
  r = (i, Err kInvalidArgs) /\ ~ key_text h \/
  r = (i, Err kInvalidState) /\ key_text h /\ IsActive a = true \/
  key_text h /\ IsActive a = false /\ r.2 = Ok [] /\
    (exists k, Hex k = ToLower h /\ mConfig r.1 = set_PSKc (mConfig i) k) /\
    match create (mConfig r.1) with Ok s => mApp r.1 = Some (fresh s) | _ => mApp r.1 = Some a end /\
    Evaluate [c; str "get"; str "pskc"] r.1 = (r.1, Ok (ToLower h)).
Proof.
  intros Ec Ea r. unfold key_text.
  assert (Hget : forall i, Evaluate [c; str "get"; str "pskc"] i = (i, Ok (Hex (mPSKc (mConfig i))))) by (intros; by rewrite Eval_config).
  assert (Hr : r = match ParseHex h with
                   | Ok k => match UpdateConfig channel0 panId0 rotation0 delay0 create k i with
                             | (i, Ok _) => (i, Ok []) | (i, Err e) => (i, Err e) | (i, Die) => (i, Die) end
                   | Err e => (i, Err e) | Die => (i, Die) end).
  { unfold r. rewrite Eval_config by done. unfold ProcessConfig, need, mbind, I_bind, try_, arg. cbn. by destruct (ParseHex h). }
  clearbody r. destruct (ParseHex_cases h) as [(k & E & H2 & Hx & Hk)|[E Hn]]; rewrite E in Hr.
  - assert (Hl : zlen h = 2 * zlen k) by (rewrite <- length_Hex, Hk; unfold ToLower, zlen; by rewrite length_map).
    rewrite (UpdateConfig_cases k i a Ea) in Hr. destruct (Z.leb_spec (zlen k) kMaxPSKcLength); cbn [negb] in Hr.
    + destruct (IsActive a); [right; left; split_and!; (done || lia)|]. right; right. subst r. cbv zeta. cbn [fst snd].
      set (i1 := with_config i (set_PSKc (mConfig i) k)).
      assert (Hc : mConfig (match create (mConfig i1) with Ok s => with_app i1 (fresh s) | _ => i1 end) = mConfig i1) by by destruct (create _).
      split_and!; [done..|lia|done|done|by exists k; rewrite Hc| |].
      * rewrite Hc. by destruct (create (mConfig i1)).
      * rewrite Hget, Hc, <- Hk. unfold i1. by destruct (mConfig i).
    + left. split; [done|]. intros (_ & _ & ?). lia.
  - left. split; [done|]. intros (? & ? & _). by apply Hn.
Qed.
End Interpreter.
