(* ===== verification/InterpreterScript.v ===== *)
(** * The command line: concrete sessions

    The interpreter on the library of CommissionerAppScript and the JSON
    documents of JsonScript: the witnesses of the properties of CliTextFacts
    and InterpreterFacts, and the faults of the code. *)

From stdpp Require Import gmap.
From S2P Require Import Prelude Outcome Common NetworkData CommissionerApp CommissionerAppFacts CommissionerAppScript.
From S2P Require Import BorderAgent BorderAgentScript Json JsonScript CliText CliTextFacts Interpreter InterpreterFacts.
Import Endian Ipv6Prefix FullConfig.

(** The library refuses a configuration without a key, as [ValidateConfig] does. *)
Definition cli_create (c : Config) : outcome Sample :=
  VerifyOrExit negb (zlen (mPSKc c) =? 0) else kInvalidArgs;; Ok (sample_start false).
(** A discovery that one border agent answers. *)
Definition cli_answers (timeout : Z) : outcome (list (SockAddr * list MdnsRecord)) := Ok [(AfInet [192; 168; 1; 1], records)].

Abbreviation cli f := (f channel_any 0 0 0 cli_create) (only parsing).
Abbreviation eval_cli := (Interpreter.Eval sample_hash sample_addr sample_addr sample_no_addr sample_no_addr channel_any 0 0 0
  BorderAgentScript.fresh cli_create cli_answers ErrorCodeToString).
Abbreviation run_cli := (Run sample_hash sample_addr sample_addr sample_no_addr sample_no_addr channel_any 0 0 0
  BorderAgentScript.fresh cli_create cli_answers ErrorCodeToString).
Abbreviation run_loop_cli := (Run_loop sample_hash sample_addr sample_addr sample_no_addr sample_no_addr channel_any 0 0 0
  BorderAgentScript.fresh cli_create cli_answers ErrorCodeToString).
Abbreviation init_cli := (Interpreter.Init channel_any 0 0 0 cli_create).

(** The interpreter before [Init] and after it, without a configuration file. *)
Definition blank_cli : @Interp Sample := mkInterp Config_init None [] (mkFiles ∅ (fun _ _ => None)) false.
Definition cli_start : @Interp Sample := (init_cli [] blank_cli).1.

Definition session : list (option string_t) := map (fun l => Some (str l))
  ["active"; "start 192.168.1.2 49191"; "  active "; "joiner ENABLE meshcop 0x0102030405060708 'JKLM01'"; "nothing"; "Exit"; "active"]%string.
Definition cli_end : @Interp Sample := (run_cli session cli_start).1.

(** What the session prints. *)
Example session_console : map fst (mConsole cli_end) =
  [str "false" ++ newline ++ str "[done]"; str "[done]"; str "true" ++ newline ++ str "[done]"; str "[done]";
   ErrorCodeToString kInvalidCommand ++ newline ++ str "[failed]"; str "[done]"].
Proof. vm_compute. reflexivity. Qed.

(** ** The theorems apply *)

Lemma ParseExpression_words_witness :
  ParseExpression (str " start '192.168.1.2'  49191") = Ok [str "start"; str "192.168.1.2"; str "49191"].
Proof.
  apply (proj2 ParseExpression_words (str "start") (str "start") [str "192.168.1.2"; str "49191"]
           [(str " ", str "'192.168.1.2'"); (str "  ", str "49191")] (str " ") []).
  - apply AsPlain; [discriminate|]. repeat constructor; discriminate.
  - assert (B : forall s, s <> [] -> forallb isspace s = true -> blank s).
    { intros s Hs Hb. split; [done|]. apply Forall_forall. intros c Hc. rewrite forallb_forall in Hb. by apply Hb, list_elem_of_In. }
    apply Forall2_cons; split; [split; [|by apply B]|apply Forall2_cons; split; [split; [|by apply B]|constructor]].
    + apply (AsQuoted (str "192.168.1.2")). repeat constructor; discriminate.
    + apply AsPlain; [discriminate|]. repeat constructor; discriminate.
  - repeat constructor.
  - constructor.
Defined.

Lemma ParseInteger_bounds_witness :
  ParseInteger 16 (str "65537") = Ok 1 /\ ParseInteger 16 (str "-1") = Ok 65535 /\ ParseInteger 16 (ToHex 2 49191) = Ok 49191.
Proof.
  pose proof (ParseInteger_bounds 16 ltac:(lia)) as (_ & Hd & _ & _ & Hh). split_and!.
  - apply (proj1 (Hd 65537 [] ltac:(lia) eq_refl)).
  - apply (proj2 (Hd 1 [] ltac:(lia) eq_refl)).
  - apply (Hh 2%nat 49191); [lia|]. unfold fits. cbn. lia.
Defined.

Lemma exit_ends_run_witness :
  exists before line rest, (run_loop_cli session cli_start).2 = Ok (Some rest) /\ session = before ++ Some line :: rest /\
    exit_line (Some line) /\ exists a, mApp (run_loop_cli session cli_start).1 = Some (Stop channel_any 0 0 0 a).
Proof.
  assert (H2 : match (run_loop_cli session cli_start).2 with Ok (Some _) => True | _ => False end) by (vm_compute; constructor).
  destruct (run_loop_cli session cli_start) as [i' r] eqn:E. cbn [fst snd] in *.
  assert (Hd : r <> Die) by by intros ->.
  assert (Hx : mShouldExit cli_start = false) by (vm_compute; reflexivity).
  destruct (exit_ends_run sample_hash sample_addr sample_addr sample_no_addr sample_no_addr channel_any 0 0 0
    BorderAgentScript.fresh cli_create cli_answers ErrorCodeToString session cli_start i' r Hx E Hd)
    as [(-> & _)|(before & line & rest & -> & Hs & _ & Hl & _ & Ha)]; [destruct H2|]. exists before, line, rest. exact (conj eq_refl (conj Hs (conj Hl Ha))).
Defined.

Lemma cli_refines_application_witness : exists s ops a, mApp (run_cli (take 4 session) cli_start).1 = Some a /\
  sample_run ops (App_init channel_any 0 0 0 s) = Ok a /\ OnJoinerRequest sample_hash a id_a = Ok pskd_a /\
  exists j, authorised sample_hash a id_a j /\ pskd_a = mPSKd j.
Proof.
  assert (H2 : (run_cli (take 4 session) cli_start).2 = Ok None) by (vm_compute; reflexivity).
  assert (Ho : match mApp (run_cli (take 4 session) cli_start).1 with Some a => OnJoinerRequest sample_hash a id_a = Ok pskd_a | None => False end)
    by (vm_compute; reflexivity).
  destruct (run_cli (take 4 session) cli_start) as [i' r] eqn:E. cbn [fst snd] in *.
  assert (Hd : r <> Die) by by subst r.
  assert (Hi : init_cli [] blank_cli = (cli_start, Ok tt)) by (vm_compute; reflexivity).
  destruct (cli_refines_application sample_hash sample_addr sample_addr sample_no_addr sample_no_addr channel_any 0 0 0
    BorderAgentScript.fresh cli_create cli_answers ErrorCodeToString [] (take 4 session) blank_cli cli_start i' r Hi E Hd)
    as (s & ops & a & Ha & Hp & Hj).
  exists s, ops, a. rewrite Ha in Ho. split_and!; [done..|]. by apply Hj.
Defined.

(** A key of 16 bytes. *)
Definition key : string_t := str "00112233445566778899AABBCCDDEEFF".
Lemma config_pskc_witness :
  let r := eval_cli [str "CONFIG"; str "set"; str "pskc"; key] cli_start in
  r.2 = Ok [] /\ eval_cli [str "CONFIG"; str "get"; str "pskc"] r.1 = (r.1, Ok (ToLower key)).
Proof.
  destruct (mApp cli_start) as [a|] eqn:Ea; [|by vm_compute in Ea].
  destruct (config_pskc sample_hash sample_addr sample_addr sample_no_addr sample_no_addr channel_any 0 0 0
    BorderAgentScript.fresh cli_create cli_answers ErrorCodeToString (str "CONFIG") key cli_start a eq_refl Ea)
    as [[E _]|[[E _]|(_ & _ & E & _ & _ & Hg)]].
  - exfalso. apply (f_equal snd) in E. vm_compute in E. discriminate.
  - exfalso. apply (f_equal snd) in E. vm_compute in E. discriminate.
  - split; [exact E|exact Hg].
Defined.

(** ** Faults *)

(** Faults of the command line, each with a line that shows it. (1) What stands before a quote in a word is dropped,
    and so is the last word when its closing quote is missing and nothing follows the opening one. (2) A PAN ID of more
    than 16 bits is cut without a word, and so are channels and delays; letters behind a number are ignored. (3) An empty key is
    accepted and reported as done, while the application keeps the old one. (4) Commands are found in any case, but
    [help] finds them in lower case only; and the command [exit], which [help] lists, has no help. (5) An interrupt
    before the interpreter is initialised ends the process. (6) At the end of its input the interpreter asks for
    another line for ever. *)
Theorem cli_faults :
  ParseExpression (str "config set net'work'") = Ok [str "config"; str "set"; str "work"] /\
  ParseExpression (str "active '") = Ok [str "active"] /\
  ParseInteger 16 (str "70000") = Ok 4464 /\ ParseInteger 16 (str "12abc") = Ok 12 /\
  (let r := eval_cli [str "config"; str "set"; str "pskc"; []] cli_start in
   r.2 = Ok [] /\ mPSKc (mConfig r.1) = [] /\ mApp r.1 = mApp cli_start) /\
  (eval_cli [str "START"] cli_start).2 = Err kInvalidArgs /\ (eval_cli [str "help"; str "START"] cli_start).2 = Err kInvalidArgs /\
  (eval_cli [str "help"; str "exit"] cli_start).2 = Err kInvalidArgs /\
  CancelCommand channel_any 0 0 0 blank_cli = Die /\
  forall n, run_cli (replicate n None) cli_start = (cli_start, Ok None).
Proof.
  cbv zeta. split_and!; [vm_compute; reflexivity..|]. intros n.
  assert (Hx : mShouldExit cli_start = false) by (vm_compute; reflexivity).
  assert (Ha : match mApp cli_start with Some _ => True | None => False end) by (vm_compute; constructor).
  unfold Run. destruct (mApp cli_start); [clear Ha|destruct Ha].
  induction n as [|n IH]; cbn [replicate Run_loop]; rewrite Hx; [reflexivity|exact IH].
Qed.
